(** * The funnel-design project/entity store

    A shallow embedding of [src/storage/index.ts]: the on-disk store of
    projects and entities, its directory initialisation cache, its
    listing operations and its Markdown/JSON export; of the tools built
    on the store ([src/tools]); and of the key configuration, the retry
    loop, the collection of a research result and the citations of the
    OpenAI client ([src/openai]).

    Modelling conventions.
    - An asynchronous function is a computation in the monad [M]: it
      threads the process state and the file system ([World]) and either
      returns a value or throws an exception ([Outcome]).
    - A call that is awaited on its own runs to its end before its caller
      goes on.  Calls that are started together and awaited with
      [Promise.all] are promises ([Promise]): each one is suspended at
      its [await]s, and the order in which the calls in flight take
      their steps is a schedule, an oracle of the world like the clock.
      [fs.writeFile] takes two steps, the opening that empties the file
      and the writing, so that another call can read the file in
      between.  The cascade of [deleteProject] gathers calls that write
      and is modelled that way ([Promise_all]); when one of its calls is
      rejected the others still run to their end, and the world after
      [deleteProject] is the one in which they have.
    - The two gathers of calls that only read, in [listEntitiesByProject]
      and [listProjects], are taken in list order ([all_map]).  Such
      calls do not disturb one another: [gather_in_list_order] shows
      that the reads of [listEntitiesByProject], taken as calls in
      flight, give the same result under every schedule when all the
      files are readable, and [gathered_corrupt] when one is not.
      Which of several failing reads is reported, and the order of the
      warnings of [listProjects], follow the order of completion, of
      which list order is one.
    - A file is addressed by its directory and its base name; [join] of a
      directory and a segment is plain concatenation with a separator
      (identifiers and roots are taken to be in normal form).
    - A file in the projects directory holds either the JSON text of a
      project or text that does not parse, likewise for entities; the
      codec [JSON_stringify]/[JSON_parse] is the identity on documents.
      An entry of a directory can also be a subdirectory, which cannot be
      read, written or unlinked as a file, and a file can be protected
      against removal.
    - Timestamps are the instant in milliseconds that the ISO-8601 string
      denotes; [Date_getTime] recovers it.
    - The clock and the random source are oracles stored in the world
      and read through a counter; the schedule is one more, read once
      for each [Promise_all]. *)

From stdpp Require Import gmap strings list pretty sorting.

Local Open Scope string_scope.
Local Open Scope Z_scope.

Set Default Proof Using "Type".

Section Storage.

(** JavaScript numbers carried by the entity payloads: the store never
    inspects them, the exporter only prints them and tests their
    truthiness. *)
Context {number : Type}.
Variable number_to_string : number -> string.
Variable number_truthy : number -> bool.

(** ** Errors *)

Inductive StorageErrorCode :=
| NOT_FOUND
| WRITE_FAILED
| READ_FAILED
| DELETE_FAILED
| INVALID_DATA.

Definition StorageErrorCode_text (c : StorageErrorCode) : string :=
  match c with
  | NOT_FOUND => "NOT_FOUND"
  | WRITE_FAILED => "WRITE_FAILED"
  | READ_FAILED => "READ_FAILED"
  | DELETE_FAILED => "DELETE_FAILED"
  | INVALID_DATA => "INVALID_DATA"
  end.

(** The values that the store can throw. [ErrnoException] is what the
    [fs] module raises, [SyntaxError] what [JSON.parse] raises. *)
Inductive Exn :=
| ErrnoException (code : string) (syscall : string) (dir file : string)
| SyntaxError (text : string)
| StorageError (message : string) (code : StorageErrorCode) (cause : Exn)
| Error (message : string).

(** The [code] property of a thrown value, when it has one. *)
Definition exn_code (e : Exn) : option string :=
  match e with
  | ErrnoException c _ _ _ => Some c
  | StorageError _ c _ => Some (StorageErrorCode_text c)
  | SyntaxError _ | Error _ => None
  end.

Definition isNodeError (e : Exn) : bool :=
  match exn_code e with Some _ => true | None => false end.

Definition code_is (e : Exn) (c : string) : bool :=
  bool_decide (exn_code e = Some c).

(** ** Data model *)

Definition Timestamp := Z.

Definition Date_getTime (t : Timestamp) : Z := t.

Inductive EntityKind :=
| aida_funnel
| content_funnel
| conversion_funnel
| customer_journey.

Definition EntityKind_text (k : EntityKind) : string :=
  match k with
  | aida_funnel => "aida-funnel"
  | content_funnel => "content-funnel"
  | conversion_funnel => "conversion-funnel"
  | customer_journey => "customer-journey"
  end.

#[local] Instance EntityKind_eq_dec : EqDecision EntityKind.
Proof. solve_decision. Defined.

Record EntityRef := mkRef {
  ref_id : string;
  ref_type : EntityKind;
}.

Record Project := mkProject {
  project_id : string;
  project_name : string;
  project_description : option string;
  project_tags : option (list string);
  project_createdAt : Timestamp;
  project_updatedAt : Timestamp;
  project_entities : list EntityRef;
}.

Record Citation := mkCitation {
  cit_id : string;
  cit_title : string;
  cit_url : string;
  cit_accessedAt : string;
  cit_relevantFields : list string;
}.

Record ResearchMetadata := mkResearchMetadata {
  rm_citations : option (list Citation);
  rm_researchedAt : option string;
  rm_researchModel : option string;
  rm_confidence : option number;
  rm_rawContent : option string;
}.

(** *** AIDA funnel *)

Record AidaChannel := mkAidaChannel {
  ach_channel : string;
  ach_tactic : option string;
  ach_budget : option string;
  ach_expectedReach : option string;
}.

Record AidaHook := mkAidaHook {
  ahk_hook : string;
  ahk_format : option string;
}.

Record AidaAttention := mkAidaAttention {
  aat_channels : list AidaChannel;
  aat_hooks : option (list AidaHook);
  aat_targetAudience : option string;
}.

Record AidaContentType := mkAidaContentType {
  act_type : string;
  act_purpose : option string;
  act_format : option string;
}.

Record AidaInterest := mkAidaInterest {
  ain_contentTypes : list AidaContentType;
  ain_engagementTactics : option (list string);
  ain_valueProposition : option string;
  ain_painPointsAddressed : option (list string);
}.

Record SocialProof := mkSocialProof {
  sp_type : string;
  sp_content : string;
}.

Record Benefit := mkBenefit {
  ben_benefit : string;
  ben_emotionalTrigger : option string;
}.

Record Objection := mkObjection {
  obj_objection : string;
  obj_response : string;
}.

Record AidaDesire := mkAidaDesire {
  ade_socialProof : option (list SocialProof);
  ade_benefits : list Benefit;
  ade_urgencyTactics : option (list string);
  ade_objectionHandling : option (list Objection);
}.

Record PrimaryCta := mkPrimaryCta {
  pcta_text : string;
  pcta_destination : option string;
  pcta_placement : option string;
}.

Record SecondaryCta := mkSecondaryCta {
  scta_text : string;
  scta_destination : option string;
}.

Record AidaAction := mkAidaAction {
  aac_primaryCta : PrimaryCta;
  aac_secondaryCtas : option (list SecondaryCta);
  aac_frictionReducers : option (list string);
  aac_conversionGoal : option string;
  aac_expectedConversionRate : option string;
}.

Record AidaMetrics := mkAidaMetrics {
  am_awarenessKpis : option (list string);
  am_engagementKpis : option (list string);
  am_conversionKpis : option (list string);
}.

Record AidaFunnel := mkAidaFunnel {
  aida_name : string;
  aida_description : option string;
  aida_attention : AidaAttention;
  aida_interest : AidaInterest;
  aida_desire : AidaDesire;
  aida_action : AidaAction;
  aida_metrics : option AidaMetrics;
}.

(** *** Content funnel *)

Record TofuContent := mkTofuContent {
  tc_type : string;
  tc_topic : string;
  tc_format : option string;
  tc_distributionChannel : option string;
}.

Record Tofu := mkTofu {
  tofu_goal : string;
  tofu_audience : option string;
  tofu_contentTypes : list TofuContent;
  tofu_keywords : option (list string);
  tofu_cta : option string;
  tofu_successMetrics : option (list string);
}.

Record MofuContent := mkMofuContent {
  mc_type : string;
  mc_topic : string;
  mc_format : option string;
  mc_gatingStrategy : option string;
}.

Record LeadMagnet := mkLeadMagnet {
  lm_name : string;
  lm_type : string;
  lm_valueProposition : option string;
}.

Record EmailSequence := mkEmailSequence {
  es_name : string;
  es_emails : number;
  es_goal : option string;
}.

Record Mofu := mkMofu {
  mofu_goal : string;
  mofu_nurturingStrategy : option string;
  mofu_contentTypes : list MofuContent;
  mofu_leadMagnets : option (list LeadMagnet);
  mofu_emailSequences : option (list EmailSequence);
  mofu_successMetrics : option (list string);
}.

Record BofuContent := mkBofuContent {
  bc_type : string;
  bc_topic : string;
  bc_format : option string;
}.

Record SalesAsset := mkSalesAsset {
  sa_asset : string;
  sa_useCase : option string;
}.

Record Bofu := mkBofu {
  bofu_goal : string;
  bofu_contentTypes : list BofuContent;
  bofu_salesEnablement : option (list SalesAsset);
  bofu_conversionTactics : option (list string);
  bofu_pricingStrategy : option string;
  bofu_successMetrics : option (list string);
}.

Record CalendarItem := mkCalendarItem {
  cal_stage : string;
  cal_contentPiece : string;
  cal_publishDate : option string;
  cal_owner : option string;
  cal_status : option string;
}.

Record ContentFunnel := mkContentFunnel {
  cf_name : string;
  cf_description : option string;
  cf_tofu : Tofu;
  cf_mofu : Mofu;
  cf_bofu : Bofu;
  cf_contentCalendar : option (list CalendarItem);
}.

(** *** Conversion funnel *)

Record FunnelStage := mkFunnelStage {
  fs_name : string;
  fs_description : option string;
  fs_entryCriteria : option string;
  fs_exitCriteria : option string;
  fs_volume : option number;
  fs_conversionRate : option number;
  fs_averageTimeInStage : option string;
  fs_keyActions : option (list string);
  fs_dropOffReasons : option (list string);
  fs_optimizationNotes : option string;
}.

Record TrafficSource := mkTrafficSource {
  ts_source : string;
  ts_medium : option string;
  ts_volume : option number;
  ts_qualityScore : option number;
  ts_cost : option string;
  ts_conversionRate : option number;
}.

Record OverallMetrics := mkOverallMetrics {
  om_totalVisitors : option number;
  om_totalConversions : option number;
  om_overallConversionRate : option number;
  om_averageDealValue : option string;
  om_customerAcquisitionCost : option string;
  om_timeToConversion : option string;
}.

Record Bottleneck := mkBottleneck {
  bn_stage : string;
  bn_issue : string;
  bn_impact : option string;
  bn_proposedSolution : option string;
}.

Record ConversionFunnel := mkConversionFunnel {
  conv_name : string;
  conv_description : option string;
  conv_stages : list FunnelStage;
  conv_trafficSources : option (list TrafficSource);
  conv_overallMetrics : option OverallMetrics;
  conv_bottlenecks : option (list Bottleneck);
}.

(** *** Customer journey *)

Record Touchpoint := mkTouchpoint {
  tp_channel : string;
  tp_interaction : string;
  tp_owner : option string;
}.

Record Emotions := mkEmotions {
  em_feeling : string;
  em_intensity : option string;
}.

Record JourneyStage := mkJourneyStage {
  js_name : string;
  js_description : option string;
  js_customerGoal : string;
  js_duration : option string;
  js_touchpoints : list Touchpoint;
  js_emotions : option Emotions;
  js_painPoints : option (list string);
  js_opportunities : option (list string);
  js_keyQuestions : option (list string);
}.

Record MomentOfTruth := mkMomentOfTruth {
  mot_stage : string;
  mot_moment : string;
  mot_importance : option string;
  mot_currentExperience : option string;
  mot_desiredExperience : option string;
}.

Record JourneyChannel := mkJourneyChannel {
  jc_name : string;
  jc_role : option string;
  jc_effectiveness : option string;
}.

Record Improvement := mkImprovement {
  imp_stage : string;
  imp_improvement : string;
  imp_priority : option string;
  imp_effort : option string;
  imp_expectedImpact : option string;
}.

Record CustomerJourney := mkCustomerJourney {
  cj_name : string;
  cj_description : option string;
  cj_personaReference : option string;
  cj_stages : list JourneyStage;
  cj_momentsOfTruth : option (list MomentOfTruth);
  cj_channels : option (list JourneyChannel);
  cj_improvements : option (list Improvement);
}.

(** *** Entities *)

(** The variant part of an entity: the [type] tag with the fields that
    go with it. *)
Inductive Variant :=
| VAida (a : AidaFunnel)
| VContent (c : ContentFunnel)
| VConversion (c : ConversionFunnel)
| VJourney (j : CustomerJourney).

Definition variant_type (v : Variant) : EntityKind :=
  match v with
  | VAida _ => aida_funnel
  | VContent _ => content_funnel
  | VConversion _ => conversion_funnel
  | VJourney _ => customer_journey
  end.

(** [Omit<T, "id" | "projectId" | "createdAt" | "updatedAt">] *)
Record EntityInput := mkEntityInput {
  in_researchMetadata : option ResearchMetadata;
  in_variant : Variant;
}.

Record Entity := mkEntity {
  entity_id : string;
  entity_projectId : string;
  entity_createdAt : Timestamp;
  entity_updatedAt : Timestamp;
  entity_researchMetadata : option ResearchMetadata;
  entity_variant : Variant;
}.

Definition entity_type (e : Entity) : EntityKind := variant_type (entity_variant e).

(** ** Files *)

(** [JSON.stringify] of a document, or text that [JSON.parse] rejects. *)
Inductive FileData (A : Type) :=
| Json (v : A)
| Malformed (text : string).
#[global] Arguments Json {A} v.
#[global] Arguments Malformed {A} text.

(** An entry of a directory: a regular file, which its directory may
    forbid to remove (unlink then fails with EPERM), or a subdirectory
    sitting under that name. *)
Inductive FileNode (A : Type) :=
| RegularFile (data : FileData A) (removable : bool)
| SubDirectory.
#[global] Arguments RegularFile {A} data removable.
#[global] Arguments SubDirectory {A}.

(** ** The world: process state and file system *)

Record World := mkWorld {
  env_FUNNEL_DESIGN_DATA_DIR : option string;
  process_cwd : string;
  initializedDataDir : option string;
  (* directory path |-> base name |-> file *)
  project_dirs : gmap string (gmap string (FileNode Project));
  entity_dirs : gmap string (gmap string (FileNode Entity));
  clock : nat -> Z;
  clock_reads : nat;
  entropy : nat -> string;
  entropy_reads : nat;
  console : list (string * Exn);
  mkdir_trace : list string;
  (* number of the gathering |-> which of its suspended calls resumes next *)
  schedule : nat -> list nat;
  gatherings : nat;
}.

Definition set_env (v : option string) (w : World) : World :=
  mkWorld v (process_cwd w) (initializedDataDir w) (project_dirs w) (entity_dirs w)
    (clock w) (clock_reads w) (entropy w) (entropy_reads w) (console w) (mkdir_trace w)
    (schedule w) (gatherings w).

Definition set_initializedDataDir (v : option string) (w : World) : World :=
  mkWorld (env_FUNNEL_DESIGN_DATA_DIR w) (process_cwd w) v (project_dirs w) (entity_dirs w)
    (clock w) (clock_reads w) (entropy w) (entropy_reads w) (console w) (mkdir_trace w)
    (schedule w) (gatherings w).

Definition set_project_dirs (v : gmap string (gmap string (FileNode Project))) (w : World) : World :=
  mkWorld (env_FUNNEL_DESIGN_DATA_DIR w) (process_cwd w) (initializedDataDir w) v (entity_dirs w)
    (clock w) (clock_reads w) (entropy w) (entropy_reads w) (console w) (mkdir_trace w)
    (schedule w) (gatherings w).

Definition set_entity_dirs (v : gmap string (gmap string (FileNode Entity))) (w : World) : World :=
  mkWorld (env_FUNNEL_DESIGN_DATA_DIR w) (process_cwd w) (initializedDataDir w) (project_dirs w) v
    (clock w) (clock_reads w) (entropy w) (entropy_reads w) (console w) (mkdir_trace w)
    (schedule w) (gatherings w).

Definition set_clock_reads (v : nat) (w : World) : World :=
  mkWorld (env_FUNNEL_DESIGN_DATA_DIR w) (process_cwd w) (initializedDataDir w) (project_dirs w)
    (entity_dirs w) (clock w) v (entropy w) (entropy_reads w) (console w) (mkdir_trace w)
    (schedule w) (gatherings w).

Definition set_entropy_reads (v : nat) (w : World) : World :=
  mkWorld (env_FUNNEL_DESIGN_DATA_DIR w) (process_cwd w) (initializedDataDir w) (project_dirs w)
    (entity_dirs w) (clock w) (clock_reads w) (entropy w) v (console w) (mkdir_trace w)
    (schedule w) (gatherings w).

Definition set_console (v : list (string * Exn)) (w : World) : World :=
  mkWorld (env_FUNNEL_DESIGN_DATA_DIR w) (process_cwd w) (initializedDataDir w) (project_dirs w)
    (entity_dirs w) (clock w) (clock_reads w) (entropy w) (entropy_reads w) v (mkdir_trace w)
    (schedule w) (gatherings w).

Definition set_mkdir_trace (v : list string) (w : World) : World :=
  mkWorld (env_FUNNEL_DESIGN_DATA_DIR w) (process_cwd w) (initializedDataDir w) (project_dirs w)
    (entity_dirs w) (clock w) (clock_reads w) (entropy w) (entropy_reads w) (console w) v
    (schedule w) (gatherings w).

Definition set_schedule (v : nat -> list nat) (w : World) : World :=
  mkWorld (env_FUNNEL_DESIGN_DATA_DIR w) (process_cwd w) (initializedDataDir w) (project_dirs w)
    (entity_dirs w) (clock w) (clock_reads w) (entropy w) (entropy_reads w) (console w)
    (mkdir_trace w) v (gatherings w).

Definition set_gatherings (v : nat) (w : World) : World :=
  mkWorld (env_FUNNEL_DESIGN_DATA_DIR w) (process_cwd w) (initializedDataDir w) (project_dirs w)
    (entity_dirs w) (clock w) (clock_reads w) (entropy w) (entropy_reads w) (console w)
    (mkdir_trace w) (schedule w) v.

(** The part of the file system that holds documents of type [A]. *)
Record Volume (A : Type) := mkVolume {
  vol_get : World -> gmap string (gmap string (FileNode A));
  vol_set : gmap string (gmap string (FileNode A)) -> World -> World;
}.
#[global] Arguments vol_get {A} _ _.
#[global] Arguments vol_set {A} _ _ _.

Definition project_volume : Volume Project := mkVolume Project project_dirs set_project_dirs.
Definition entity_volume : Volume Entity := mkVolume Entity entity_dirs set_entity_dirs.

(** ** The monad of asynchronous computations *)

Inductive Outcome (A : Type) :=
| Return (a : A)
| Throw (e : Exn).
#[global] Arguments Return {A} a.
#[global] Arguments Throw {A} e.

Definition M (A : Type) : Type := World -> Outcome A * World.

Definition ret {A} (a : A) : M A := fun w => (Return a, w).

Definition throw {A} (e : Exn) : M A := fun w => (Throw e, w).

Definition bind {A B} (m : M A) (f : A -> M B) : M B :=
  fun w =>
    match m w with
    | (Return a, w') => f a w'
    | (Throw e, w') => (Throw e, w')
    end.

Definition try_catch {A} (m : M A) (handler : Exn -> M A) : M A :=
  fun w =>
    match m w with
    | (Return a, w') => (Return a, w')
    | (Throw e, w') => handler e w'
    end.

Definition gets {A} (f : World -> A) : M A := fun w => (Return (f w), w).

Definition modify (f : World -> World) : M unit := fun w => (Return tt, f w).

Notation "'let!' x ':=' m 'in' k" := (bind m (fun x => k))
  (at level 10, x name, m at level 100, k at level 200).
Notation "m ';;' k" := (bind m (fun _ => k))
  (at level 100, k at level 200, right associativity).

(** [xs.map f] for an [f] with effects, the calls taken in list order;
    also [Promise.all (xs.map f)] for calls that only read. *)
Fixpoint all_map {A B} (f : A -> M B) (xs : list A) : M (list B) :=
  match xs with
  | [] => ret []
  | x :: xs' =>
      let! y := f x in
      let! ys := all_map f xs' in
      ret (y :: ys)
  end.

Definition result {A} (r : Outcome A * World) : Outcome A := fst r.
Definition after {A} (r : Outcome A * World) : World := snd r.

(** ** Calls in flight

    A call of an asynchronous function that has been started is a
    promise.  It runs in steps: it is suspended at each [await] and goes
    on once the awaited operation is done, and steps of the other calls
    in flight can fall in between.  [Pending resume] is a call suspended
    at an [await]: [resume] performs the awaited operation and runs the
    call up to its next [await] or to its end, and it throws when that
    rejects the call. *)
#[warnings="-register-all"]
Inductive Promise (A : Type) :=
| Settled (o : Outcome A)
| Pending (resume : M (Promise A)).
#[global] Arguments Settled {A} o.
#[global] Arguments Pending {A} resume.

Definition resolved {A} (a : A) : Promise A := Settled (Return a).

(** [const x = await m; k], for an operation [m] of the runtime *)
Notation "'await!' x ':=' m 'in' k" := (Pending (bind m (fun x => ret k)))
  (at level 10, x name, m at level 100, k at level 200).

(** [const x = await p; k x], for a started call [p] *)
Fixpoint Promise_then {A B} (p : Promise A) (k : A -> Promise B) : Promise B :=
  match p with
  | Settled (Return a) => k a
  | Settled (Throw e) => Settled (Throw e)
  | Pending resume => Pending (let! p' := resume in ret (Promise_then p' k))
  end.

Notation "'call!' x ':=' p 'in' k" := (Promise_then p (fun x => k))
  (at level 10, x name, p at level 100, k at level 200).

(** [await p] when no other call is in flight: [p] runs to its end. *)
Fixpoint await {A} (p : Promise A) : M A :=
  match p with
  | Settled o => fun w => (o, w)
  | Pending resume => let! p' := resume in await p'
  end.

Definition is_pending {A} (p : Promise A) : bool :=
  match p with
  | Pending _ => true
  | Settled _ => false
  end.

Definition rejection {A} (p : Promise A) : option Exn :=
  match p with
  | Settled (Throw e) => Some e
  | _ => None
  end.

Definition fulfilled {A} (o : Outcome A) : option A :=
  match o with
  | Return a => Some a
  | Throw _ => None
  end.

(** The earlier of two rejections, the second being the later one. *)
Definition earlier (first later : option Exn) : option Exn :=
  match first with
  | Some e => Some e
  | None => later
  end.

(** The [n]-th of the pending promises of [promises]: its position in
    the list and the way it resumes. *)
Fixpoint nth_pending {A} (n : nat) (promises : list (Promise A)) : option (nat * M (Promise A)) :=
  match promises with
  | [] => None
  | Settled _ :: rest => prod_map S id <$> nth_pending n rest
  | Pending resume :: rest =>
      match n with
      | O => Some (O, resume)
      | S n' => prod_map S id <$> nth_pending n' rest
      end
  end.

(** The promise that a suspended call is after one step. *)
Definition resumed {A} (resume : M (Promise A)) (w : World) : Promise A * World :=
  match resume w with
  | (Return p, w') => (p, w')
  | (Throw e, w') => (Settled (Throw e), w')
  end.

(** The calls in flight take steps as [choices] tells: each choice picks
    the call to resume among those that are pending.  [rejected] is the
    first rejection so far. *)
Fixpoint interleave {A} (choices : list nat) (promises : list (Promise A))
    (rejected : option Exn) (w : World) : list (Promise A) * option Exn * World :=
  match choices with
  | [] => (promises, rejected, w)
  | choice :: choices' =>
      match nth_pending (choice mod length (List.filter is_pending promises)) promises with
      | None => (promises, rejected, w)
      | Some (i, resume) =>
          let (p, w') := resumed resume w in
          interleave choices' (<[i := p]> promises) (earlier rejected (rejection p)) w'
      end
  end.

(** The calls that are still pending run to their end, one after the
    other. *)
Fixpoint await_each {A} (promises : list (Promise A)) (rejected : option Exn) (w : World)
    : list (Outcome A) * option Exn * World :=
  match promises with
  | [] => ([], rejected, w)
  | p :: rest =>
      let (o, w') := await p w in
      let '(outcomes, rejected', w'') :=
        await_each rest (earlier rejected (rejection (Settled o))) w' in
      (o :: outcomes, rejected', w'')
  end.

(** [await Promise.all(promises)], for calls that have just been
    started.  The calls take their steps in the order that the schedule
    of the world gives for this gathering, and when the schedule says no
    more, one call after the other.  The result is the list of their
    values, or the exception of the call that was rejected first; the
    other calls are not stopped by a rejection, and the world that
    [Promise_all] leaves is the one in which all of them are settled. *)
Definition Promise_all {A} (promises : list (Promise A)) : M (list A) :=
  fun w =>
    let choices := schedule w (gatherings w) in
    let w := set_gatherings (S (gatherings w)) w in
    let '(promises, rejected, w) :=
      interleave choices promises (head (omap rejection promises)) w in
    let '(outcomes, rejected, w) := await_each promises rejected w in
    match rejected with
    | Some e => (Throw e, w)
    | None => (Return (omap fulfilled outcomes), w)
    end.

(** ** The [fs] and [path] modules, the clock and the random source *)

Definition join (a b : string) : string := a +:+ "/" +:+ b.

Definition ENOENT {A} (syscall dir file : string) : M A :=
  throw (ErrnoException "ENOENT" syscall dir file).

(** [fs.mkdir(dir, { recursive: true })] *)
Definition fs_mkdir {A} (V : Volume A) (dir : string) : M unit :=
  modify (fun w => set_mkdir_trace (mkdir_trace w ++ [dir]) w) ;;
  let! dirs := gets (vol_get V) in
  match dirs !! dir with
  | Some _ => ret tt
  | None => modify (vol_set V (<[dir := ∅]> dirs))
  end.

(** [fs.readFile(join(dir, file), "utf-8")] *)
Definition fs_readFile {A} (V : Volume A) (dir file : string) : M (FileData A) :=
  let! dirs := gets (vol_get V) in
  match dirs !! dir with
  | None => ENOENT "open" dir file
  | Some d =>
      match d !! file with
      | None => ENOENT "open" dir file
      | Some (RegularFile data _) => ret data
      | Some SubDirectory => throw (ErrnoException "EISDIR" "read" dir file)
      end
  end.

(** [fs.writeFile(join(dir, file), data)] *)
Definition fs_writeFile {A} (V : Volume A) (dir file : string) (data : FileData A) : M unit :=
  let! dirs := gets (vol_get V) in
  match dirs !! dir with
  | None => ENOENT "open" dir file
  | Some d =>
      match d !! file with
      | None => modify (vol_set V (<[dir := <[file := RegularFile data true]> d]> dirs))
      | Some (RegularFile _ removable) =>
          modify (vol_set V (<[dir := <[file := RegularFile data removable]> d]> dirs))
      | Some SubDirectory => throw (ErrnoException "EISDIR" "open" dir file)
      end
  end.

(** [fs.writeFile] as the calls in flight see it: the file is first
    opened for writing, which creates it or empties it, and filled
    afterwards.  In between, the file reads as the empty text. *)
Definition fs_open_for_writing {A} (V : Volume A) (dir file : string) : M unit :=
  let! dirs := gets (vol_get V) in
  match dirs !! dir with
  | None => ENOENT "open" dir file
  | Some d =>
      match d !! file with
      | None => modify (vol_set V (<[dir := <[file := RegularFile (Malformed "") true]> d]> dirs))
      | Some (RegularFile _ removable) =>
          modify (vol_set V (<[dir := <[file := RegularFile (Malformed "") removable]> d]> dirs))
      | Some SubDirectory => throw (ErrnoException "EISDIR" "open" dir file)
      end
  end.

(** The data reach the file that was opened, if it is still in its
    place. *)
Definition fs_write_and_close {A} (V : Volume A) (dir file : string) (data : FileData A)
    : M unit :=
  let! dirs := gets (vol_get V) in
  match dirs !! dir with
  | None => ret tt
  | Some d =>
      match d !! file with
      | Some (RegularFile _ removable) =>
          modify (vol_set V (<[dir := <[file := RegularFile data removable]> d]> dirs))
      | _ => ret tt
      end
  end.

Definition fs_writeFile_async {A} (V : Volume A) (dir file : string) (data : FileData A)
    : Promise unit :=
  await! _ := fs_open_for_writing V dir file in
  await! _ := fs_write_and_close V dir file data in
  resolved tt.

(** [fs.unlink(join(dir, file))] *)
Definition fs_unlink {A} (V : Volume A) (dir file : string) : M unit :=
  let! dirs := gets (vol_get V) in
  match dirs !! dir with
  | None => ENOENT "unlink" dir file
  | Some d =>
      match d !! file with
      | None => ENOENT "unlink" dir file
      | Some (RegularFile _ true) => modify (vol_set V (<[dir := delete file d]> dirs))
      | Some (RegularFile _ false) => throw (ErrnoException "EPERM" "unlink" dir file)
      | Some SubDirectory => throw (ErrnoException "EISDIR" "unlink" dir file)
      end
  end.

(** [fs.readdir(dir)] *)
Definition fs_readdir {A} (V : Volume A) (dir : string) : M (list string) :=
  let! dirs := gets (vol_get V) in
  match dirs !! dir with
  | None => ENOENT "scandir" dir ""
  | Some d => ret (map fst (map_to_list d))
  end.

Definition JSON_stringify {A} (v : A) : FileData A := Json v.

Definition JSON_parse {A} (data : FileData A) : M A :=
  match data with
  | Json v => ret v
  | Malformed text => throw (SyntaxError text)
  end.

Definition console_error (message : string) (error : Exn) : M unit :=
  modify (fun w => set_console (console w ++ [(message, error)]) w).

(** [Date.now()] *)
Definition Date_now : M Z :=
  let! t := gets (fun w => clock w (clock_reads w)) in
  modify (fun w => set_clock_reads (S (clock_reads w)) w) ;;
  ret t.

(** [Math.random().toString(36)] *)
Definition Math_random_toString36 : M string :=
  let! s := gets (fun w => entropy w (entropy_reads w)) in
  modify (fun w => set_entropy_reads (S (entropy_reads w)) w) ;;
  ret s.

(** [s.substring(from, to)] for [from <= to] *)
Definition js_substring (from to : nat) (s : string) : string :=
  String.substring from (to - from) s.

Fixpoint endsWith (s suffix : string) : bool :=
  String.eqb s suffix ||
  match s with
  | EmptyString => false
  | String _ s' => endsWith s' suffix
  end.

(** ** The store *)

Definition getDataDir (w : World) : string :=
  match env_FUNNEL_DESIGN_DATA_DIR w with
  | Some d => if String.eqb d "" then join (process_cwd w) ".funnel-design" else d
  | None => join (process_cwd w) ".funnel-design"
  end.

Definition getProjectsDir (w : World) : string := join (getDataDir w) "projects".

Definition getEntitiesDir (w : World) : string := join (getDataDir w) "entities".

Definition ensureDirectories : M unit :=
  let! currentDataDir := gets getDataDir in
  let! cached := gets initializedDataDir in
  if bool_decide (cached = Some currentDataDir) then ret tt
  else
    (let! projectsDir := gets getProjectsDir in fs_mkdir project_volume projectsDir) ;;
    (let! entitiesDir := gets getEntitiesDir in fs_mkdir entity_volume entitiesDir) ;;
    modify (set_initializedDataDir (Some currentDataDir)).

Definition resetDirectoryInit : M unit :=
  modify (set_initializedDataDir None).

Definition generateId : M string :=
  let! now := Date_now in
  let! r := Math_random_toString36 in
  ret (pretty now +:+ "-" +:+ js_substring 2 9 r).

Definition timestamp : M Timestamp := Date_now.

Definition json_file (id : string) : string := id +:+ ".json".

Definition createProject (name : string) (description : option string)
    (tags : option (list string)) : M Project :=
  ensureDirectories ;;
  let! id := generateId in
  let! createdAt := timestamp in
  let! updatedAt := timestamp in
  let project := mkProject id name description tags createdAt updatedAt [] in
  (let! dir := gets getProjectsDir in
   fs_writeFile project_volume dir (json_file (project_id project)) (JSON_stringify project)) ;;
  ret project.

Definition getProject (projectId : string) : M (option Project) :=
  ensureDirectories ;;
  try_catch
    (let! dir := gets getProjectsDir in
     let! data := fs_readFile project_volume dir (json_file projectId) in
     let! p := JSON_parse data in
     ret (Some p))
    (fun error =>
       if isNodeError error && code_is error "ENOENT" then ret None
       else throw (StorageError ("Failed to read project " +:+ projectId) READ_FAILED error)).

Definition with_updatedAt (t : Timestamp) (p : Project) : Project :=
  mkProject (project_id p) (project_name p) (project_description p) (project_tags p)
    (project_createdAt p) t (project_entities p).

Definition with_entities (l : list EntityRef) (p : Project) : Project :=
  mkProject (project_id p) (project_name p) (project_description p) (project_tags p)
    (project_createdAt p) (project_updatedAt p) l.

Definition updateProject (project : Project) : M Project :=
  ensureDirectories ;;
  let! now := timestamp in
  let project := with_updatedAt now project in
  (let! dir := gets getProjectsDir in
   fs_writeFile project_volume dir (json_file (project_id project)) (JSON_stringify project)) ;;
  ret project.

Definition getEntity (entityId : string) : M (option Entity) :=
  ensureDirectories ;;
  try_catch
    (let! dir := gets getEntitiesDir in
     let! data := fs_readFile entity_volume dir (json_file entityId) in
     let! e := JSON_parse data in
     ret (Some e))
    (fun error =>
       if isNodeError error && code_is error "ENOENT" then ret None
       else throw (StorageError ("Failed to read entity " +:+ entityId) READ_FAILED error)).

Definition entity_with_updatedAt (t : Timestamp) (e : Entity) : Entity :=
  mkEntity (entity_id e) (entity_projectId e) (entity_createdAt e) t
    (entity_researchMetadata e) (entity_variant e).

Definition updateEntity (entity : Entity) : M Entity :=
  ensureDirectories ;;
  let! now := timestamp in
  let entity := entity_with_updatedAt now entity in
  (let! dir := gets getEntitiesDir in
   fs_writeFile entity_volume dir (json_file (entity_id entity)) (JSON_stringify entity)) ;;
  ret entity.

Definition deleteEntity (entityId : string) : M bool :=
  ensureDirectories ;;
  let! entity := getEntity entityId in
  match entity with
  | None => ret false
  | Some entity =>
      (let! project := getProject (entity_projectId entity) in
       match project with
       | Some project =>
           let project :=
             with_entities
               (filter (fun e => ref_id e <> entityId) (project_entities project)) project in
           updateProject project ;; ret tt
       | None => ret tt
       end) ;;
      try_catch
        (let! dir := gets getEntitiesDir in
         fs_unlink entity_volume dir (json_file entityId) ;;
         ret true)
        (fun error =>
           if isNodeError error && code_is error "ENOENT" then ret false
           else throw (StorageError ("Failed to delete entity " +:+ entityId) DELETE_FAILED error))
  end.

(** The functions that [deleteEntity] goes through, and [deleteEntity]
    itself, as calls in flight: the same statements, suspended at each
    [await].  An awaited call of [ensureDirectories] is taken as one
    step, and [fs.writeFile] as two. *)
Definition getProject_async (projectId : string) : Promise (option Project) :=
  await! _ := ensureDirectories in
  await! project :=
    try_catch
      (let! dir := gets getProjectsDir in
       let! data := fs_readFile project_volume dir (json_file projectId) in
       let! p := JSON_parse data in
       ret (Some p))
      (fun error =>
         if isNodeError error && code_is error "ENOENT" then ret None
         else throw (StorageError ("Failed to read project " +:+ projectId) READ_FAILED error)) in
  resolved project.

Definition updateProject_async (project : Project) : Promise Project :=
  await! stamped :=
    (ensureDirectories ;;
     let! now := timestamp in
     let! dir := gets getProjectsDir in
     ret (with_updatedAt now project, dir)) in
  let project := fst stamped in
  call! _ :=
    fs_writeFile_async project_volume (snd stamped) (json_file (project_id project))
      (JSON_stringify project) in
  resolved project.

Definition getEntity_async (entityId : string) : Promise (option Entity) :=
  await! _ := ensureDirectories in
  await! entity :=
    try_catch
      (let! dir := gets getEntitiesDir in
       let! data := fs_readFile entity_volume dir (json_file entityId) in
       let! e := JSON_parse data in
       ret (Some e))
      (fun error =>
         if isNodeError error && code_is error "ENOENT" then ret None
         else throw (StorageError ("Failed to read entity " +:+ entityId) READ_FAILED error)) in
  resolved entity.

Definition deleteEntity_async (entityId : string) : Promise bool :=
  await! _ := ensureDirectories in
  call! entity := getEntity_async entityId in
  match entity with
  | None => resolved false
  | Some entity =>
      call! project := getProject_async (entity_projectId entity) in
      call! _ :=
        match project with
        | Some project =>
            let project :=
              with_entities
                (filter (fun e => ref_id e <> entityId) (project_entities project)) project in
            call! _ := updateProject_async project in
            resolved tt
        | None => resolved tt
        end in
      await! deleted :=
        try_catch
          (let! dir := gets getEntitiesDir in
           fs_unlink entity_volume dir (json_file entityId) ;;
           ret true)
          (fun error =>
             if isNodeError error && code_is error "ENOENT" then ret false
             else throw (StorageError ("Failed to delete entity " +:+ entityId)
                           DELETE_FAILED error)) in
      resolved deleted
  end.

Definition deleteProject (projectId : string) : M bool :=
  ensureDirectories ;;
  let! project := getProject projectId in
  match project with
  | None => ret false
  | Some project =>
      Promise_all (map (fun ref => deleteEntity_async (ref_id ref)) (project_entities project)) ;;
      try_catch
        (let! dir := gets getProjectsDir in
         fs_unlink project_volume dir (json_file projectId) ;;
         ret true)
        (fun error =>
           if isNodeError error && code_is error "ENOENT" then ret false
           else throw (StorageError ("Failed to delete project " +:+ projectId) DELETE_FAILED error))
  end.

(** [xs.sort(compare)]: the stable sort of [xs] by [compare]. *)
Fixpoint sort_insert {A} (compare : A -> A -> Z) (x : A) (l : list A) : list A :=
  match l with
  | [] => [x]
  | y :: l' => if compare x y <=? 0 then x :: y :: l' else y :: sort_insert compare x l'
  end.

Definition js_sort {A} (compare : A -> A -> Z) (xs : list A) : list A :=
  foldr (sort_insert compare) [] xs.

Definition by_updatedAt_desc (a b : Project) : Z :=
  Date_getTime (project_updatedAt b) - Date_getTime (project_updatedAt a).

(** The body of the callback that [listProjects] maps over the files. *)
Definition read_project_file (file : string) : M (option Project) :=
  try_catch
    (let! dir := gets getProjectsDir in
     let! data := fs_readFile project_volume dir file in
     let! p := JSON_parse data in
     ret (Some p))
    (fun error =>
       console_error ("Failed to read project file " +:+ file +:+ ":") error ;;
       ret None).

Definition listProjects : M (list Project) :=
  ensureDirectories ;;
  let! files := (let! dir := gets getProjectsDir in fs_readdir project_volume dir) in
  let jsonFiles := List.filter (fun f => endsWith f ".json") files in
  let! projects := all_map read_project_file jsonFiles in
  ret (js_sort by_updatedAt_desc (omap id projects)).

Definition createEntity (projectId : string) (entity : EntityInput) : M Entity :=
  ensureDirectories ;;
  let! project := getProject projectId in
  match project with
  | None => throw (Error ("Project " +:+ projectId +:+ " not found"))
  | Some project =>
      let! id := generateId in
      let! createdAt := timestamp in
      let! updatedAt := timestamp in
      let fullEntity :=
        mkEntity id projectId createdAt updatedAt
          (in_researchMetadata entity) (in_variant entity) in
      (let! dir := gets getEntitiesDir in
       fs_writeFile entity_volume dir (json_file (entity_id fullEntity))
         (JSON_stringify fullEntity)) ;;
      let project :=
        with_entities
          (project_entities project ++ [mkRef (entity_id fullEntity) (entity_type fullEntity)])
          project in
      updateProject project ;;
      ret fullEntity
  end.

Definition listEntitiesByProject (projectId : string) : M (list Entity) :=
  ensureDirectories ;;
  let! project := getProject projectId in
  match project with
  | None => ret []
  | Some project =>
      let! entities := all_map (fun ref => getEntity (ref_id ref)) (project_entities project) in
      ret (omap id entities)
  end.

Definition listEntitiesByType (projectId : string) (type : EntityKind) : M (list Entity) :=
  let! entities := listEntitiesByProject projectId in
  ret (filter (fun e => entity_type e = type) entities).

(** ** Export *)

(** [JSON.stringify({ project, entities }, null, 2)]: the text of the
    snapshot is left to the runtime. *)
Variable JSON_stringify_export : Project -> list Entity -> string.

(** Pieces appended to [md] one after the other. *)
Definition cat (pieces : list string) : string := foldr String.append "" pieces.

(** [for (const x of xs) md += f x] *)
Definition for_each {A} (xs : list A) (f : A -> string) : string := cat (map f xs).

(** [if (s) md += f s] for an optional string: absent and empty are falsy. *)
Definition if_str (s : option string) (f : string -> string) : string :=
  match s with
  | Some v => if String.eqb v "" then "" else f v
  | None => ""
  end.

(** [if (xs?.length) md += f xs] *)
Definition if_nonempty {A} (xs : option (list A)) (f : list A -> string) : string :=
  match xs with
  | Some (x :: l) => f (x :: l)
  | _ => ""
  end.

(** [if (n) md += f n] for an optional number *)
Definition if_num (n : option number) (f : string -> string) : string :=
  match n with
  | Some v => if number_truthy v then f (number_to_string v) else ""
  | None => ""
  end.

(** [if (n !== undefined) md += f n] *)
Definition if_defined (n : option number) (f : string -> string) : string :=
  match n with
  | Some v => f (number_to_string v)
  | None => ""
  end.

Definition nl : string := Eval cbv in String (Ascii.ascii_of_nat 10) "".

(** [xs.join(", ")] *)
Definition join_comma (xs : list string) : string := String.concat ", " xs.

Definition format_aida (entity : AidaFunnel) : string :=
  cat [
    "## AIDA Funnel: " +:+ aida_name entity +:+ nl +:+ nl;
    if_str (aida_description entity) (fun d => d +:+ nl +:+ nl);

    "### Attention" +:+ nl;
    if_str (aat_targetAudience (aida_attention entity))
      (fun a => "**Target Audience:** " +:+ a +:+ nl +:+ nl);
    "#### Channels" +:+ nl;
    for_each (aat_channels (aida_attention entity)) (fun ch => cat [
      "- **" +:+ ach_channel ch +:+ "**";
      if_str (ach_tactic ch) (fun t => " - " +:+ t);
      if_str (ach_budget ch) (fun b => " (Budget: " +:+ b +:+ ")");
      if_str (ach_expectedReach ch) (fun r => " | Reach: " +:+ r);
      nl ]);
    if_nonempty (aat_hooks (aida_attention entity)) (fun hooks => cat [
      nl +:+ "#### Hooks" +:+ nl;
      for_each hooks (fun hook => cat [
        "- " +:+ ahk_hook hook;
        if_str (ahk_format hook) (fun f => " (" +:+ f +:+ ")");
        nl ]) ]);
    nl;

    "### Interest" +:+ nl;
    if_str (ain_valueProposition (aida_interest entity))
      (fun v => "**Value Proposition:** " +:+ v +:+ nl +:+ nl);
    "#### Content Types" +:+ nl;
    for_each (ain_contentTypes (aida_interest entity)) (fun ct => cat [
      "- **" +:+ act_type ct +:+ "**";
      if_str (act_purpose ct) (fun p => " - " +:+ p);
      if_str (act_format ct) (fun f => " (" +:+ f +:+ ")");
      nl ]);
    if_nonempty (ain_painPointsAddressed (aida_interest entity)) (fun pp =>
      nl +:+ "**Pain Points Addressed:** " +:+ join_comma pp +:+ nl);
    nl;

    "### Desire" +:+ nl;
    "#### Benefits" +:+ nl;
    for_each (ade_benefits (aida_desire entity)) (fun ben => cat [
      "- **" +:+ ben_benefit ben +:+ "**";
      if_str (ben_emotionalTrigger ben) (fun t => " (Trigger: " +:+ t +:+ ")");
      nl ]);
    if_nonempty (ade_socialProof (aida_desire entity)) (fun sps => cat [
      nl +:+ "#### Social Proof" +:+ nl;
      for_each sps (fun sp => "- [" +:+ sp_type sp +:+ "] " +:+ sp_content sp +:+ nl) ]);
    if_nonempty (ade_objectionHandling (aida_desire entity)) (fun objs => cat [
      nl +:+ "#### Objection Handling" +:+ nl;
      for_each objs (fun obj =>
        "- **" +:+ obj_objection obj +:+ "** → " +:+ obj_response obj +:+ nl) ]);
    nl;

    "### Action" +:+ nl;
    "**Primary CTA:** " +:+ pcta_text (aac_primaryCta (aida_action entity));
    if_str (pcta_destination (aac_primaryCta (aida_action entity))) (fun d => " → " +:+ d);
    nl +:+ nl;
    if_nonempty (aac_secondaryCtas (aida_action entity)) (fun ctas => cat [
      "**Secondary CTAs:**" +:+ nl;
      for_each ctas (fun cta => cat [
        "- " +:+ scta_text cta;
        if_str (scta_destination cta) (fun d => " → " +:+ d);
        nl ]);
      nl ]);
    if_str (aac_conversionGoal (aida_action entity))
      (fun g => "**Conversion Goal:** " +:+ g +:+ nl);
    if_str (aac_expectedConversionRate (aida_action entity))
      (fun r => "**Expected Conversion Rate:** " +:+ r +:+ nl);
    nl ].

Definition format_content (entity : ContentFunnel) : string :=
  cat [
    "## Content Funnel: " +:+ cf_name entity +:+ nl +:+ nl;
    if_str (cf_description entity) (fun d => d +:+ nl +:+ nl);

    "### Top of Funnel (TOFU)" +:+ nl;
    "**Goal:** " +:+ tofu_goal (cf_tofu entity) +:+ nl +:+ nl;
    if_str (tofu_audience (cf_tofu entity)) (fun a => "**Audience:** " +:+ a +:+ nl +:+ nl);
    "#### Content" +:+ nl;
    for_each (tofu_contentTypes (cf_tofu entity)) (fun ct => cat [
      "- **" +:+ tc_type ct +:+ ":** " +:+ tc_topic ct;
      if_str (tc_format ct) (fun f => " (" +:+ f +:+ ")");
      if_str (tc_distributionChannel ct) (fun c => " via " +:+ c);
      nl ]);
    if_nonempty (tofu_keywords (cf_tofu entity)) (fun ks =>
      nl +:+ "**Keywords:** " +:+ join_comma ks +:+ nl);
    if_str (tofu_cta (cf_tofu entity)) (fun c => "**CTA:** " +:+ c +:+ nl);
    nl;

    "### Middle of Funnel (MOFU)" +:+ nl;
    "**Goal:** " +:+ mofu_goal (cf_mofu entity) +:+ nl +:+ nl;
    if_str (mofu_nurturingStrategy (cf_mofu entity))
      (fun n => "**Nurturing Strategy:** " +:+ n +:+ nl +:+ nl);
    "#### Content" +:+ nl;
    for_each (mofu_contentTypes (cf_mofu entity)) (fun ct => cat [
      "- **" +:+ mc_type ct +:+ ":** " +:+ mc_topic ct;
      if_str (mc_format ct) (fun f => " (" +:+ f +:+ ")");
      if_str (mc_gatingStrategy ct) (fun g => " [" +:+ g +:+ "]");
      nl ]);
    if_nonempty (mofu_leadMagnets (cf_mofu entity)) (fun lms => cat [
      nl +:+ "#### Lead Magnets" +:+ nl;
      for_each lms (fun lm => cat [
        "- **" +:+ lm_name lm +:+ "** (" +:+ lm_type lm +:+ ")";
        if_str (lm_valueProposition lm) (fun v => ": " +:+ v);
        nl ]) ]);
    nl;

    "### Bottom of Funnel (BOFU)" +:+ nl;
    "**Goal:** " +:+ bofu_goal (cf_bofu entity) +:+ nl +:+ nl;
    "#### Content" +:+ nl;
    for_each (bofu_contentTypes (cf_bofu entity)) (fun ct => cat [
      "- **" +:+ bc_type ct +:+ ":** " +:+ bc_topic ct;
      if_str (bc_format ct) (fun f => " (" +:+ f +:+ ")");
      nl ]);
    if_nonempty (bofu_conversionTactics (cf_bofu entity)) (fun ts =>
      nl +:+ "**Conversion Tactics:** " +:+ join_comma ts +:+ nl);
    if_str (bofu_pricingStrategy (cf_bofu entity))
      (fun p => "**Pricing Strategy:** " +:+ p +:+ nl);
    nl ].

Definition format_stage (stage : FunnelStage) : string :=
  cat [
    "#### " +:+ fs_name stage +:+ nl;
    if_str (fs_description stage) (fun d => d +:+ nl +:+ nl);
    if_str (fs_entryCriteria stage) (fun c => "**Entry:** " +:+ c +:+ nl);
    if_str (fs_exitCriteria stage) (fun c => "**Exit:** " +:+ c +:+ nl);
    if_defined (fs_volume stage) (fun v => "**Volume:** " +:+ v +:+ nl);
    if_defined (fs_conversionRate stage) (fun r => "**Conversion Rate:** " +:+ r +:+ "%" +:+ nl);
    if_str (fs_averageTimeInStage stage) (fun t => "**Avg Time:** " +:+ t +:+ nl);
    if_nonempty (fs_dropOffReasons stage) (fun rs =>
      "**Drop-off Reasons:** " +:+ join_comma rs +:+ nl);
    if_str (fs_optimizationNotes stage) (fun o => "**Optimization:** " +:+ o +:+ nl);
    nl ].

Definition format_conversion (entity : ConversionFunnel) : string :=
  cat [
    "## Conversion Funnel: " +:+ conv_name entity +:+ nl +:+ nl;
    if_str (conv_description entity) (fun d => d +:+ nl +:+ nl);

    "### Stages" +:+ nl;
    for_each (conv_stages entity) format_stage;

    if_nonempty (conv_trafficSources entity) (fun tss => cat [
      "### Traffic Sources" +:+ nl;
      for_each tss (fun ts => cat [
        "- **" +:+ ts_source ts +:+ "**";
        if_str (ts_medium ts) (fun m => " (" +:+ m +:+ ")");
        if_num (ts_volume ts) (fun v => " - " +:+ v +:+ " visitors");
        if_num (ts_conversionRate ts) (fun r => " | " +:+ r +:+ "% conversion");
        nl ]);
      nl ]);

    match conv_overallMetrics entity with
    | Some om => cat [
        "### Overall Metrics" +:+ nl;
        if_num (om_totalVisitors om) (fun v => "- **Total Visitors:** " +:+ v +:+ nl);
        if_num (om_totalConversions om) (fun v => "- **Total Conversions:** " +:+ v +:+ nl);
        if_num (om_overallConversionRate om)
          (fun v => "- **Overall Conversion Rate:** " +:+ v +:+ "%" +:+ nl);
        if_str (om_averageDealValue om) (fun v => "- **Average Deal Value:** " +:+ v +:+ nl);
        if_str (om_customerAcquisitionCost om) (fun v => "- **CAC:** " +:+ v +:+ nl);
        nl ]
    | None => ""
    end;

    if_nonempty (conv_bottlenecks entity) (fun bns => cat [
      "### Bottlenecks" +:+ nl;
      for_each bns (fun bn => cat [
        "- **" +:+ bn_stage bn +:+ ":** " +:+ bn_issue bn;
        if_str (bn_impact bn) (fun i => " (" +:+ i +:+ " impact)");
        if_str (bn_proposedSolution bn) (fun s => nl +:+ "  - Solution: " +:+ s);
        nl ]);
      nl ]) ].

Definition format_journey (entity : CustomerJourney) : string :=
  cat [
    "## Customer Journey: " +:+ cj_name entity +:+ nl +:+ nl;
    if_str (cj_description entity) (fun d => d +:+ nl +:+ nl);
    if_str (cj_personaReference entity) (fun p => "**Persona:** " +:+ p +:+ nl +:+ nl);

    "### Stages" +:+ nl;
    for_each (cj_stages entity) (fun stage => cat [
      "#### " +:+ js_name stage +:+ nl;
      if_str (js_description stage) (fun d => d +:+ nl +:+ nl);
      "**Customer Goal:** " +:+ js_customerGoal stage +:+ nl;
      if_str (js_duration stage) (fun d => "**Duration:** " +:+ d +:+ nl);
      nl;

      "**Touchpoints:**" +:+ nl;
      for_each (js_touchpoints stage) (fun tp => cat [
        "- " +:+ tp_channel tp +:+ ": " +:+ tp_interaction tp;
        if_str (tp_owner tp) (fun o => " (" +:+ o +:+ ")");
        nl ]);

      match js_emotions stage with
      | Some em => cat [
          nl +:+ "**Emotion:** " +:+ em_feeling em;
          if_str (em_intensity em) (fun i => " (" +:+ i +:+ ")");
          nl ]
      | None => ""
      end;

      if_nonempty (js_painPoints stage) (fun ps =>
        "**Pain Points:** " +:+ join_comma ps +:+ nl);
      if_nonempty (js_opportunities stage) (fun os =>
        "**Opportunities:** " +:+ join_comma os +:+ nl);
      nl ]);

    if_nonempty (cj_momentsOfTruth entity) (fun mots => cat [
      "### Moments of Truth" +:+ nl;
      for_each mots (fun mot => cat [
        "- **" +:+ mot_stage mot +:+ ":** " +:+ mot_moment mot;
        if_str (mot_importance mot) (fun i => " (" +:+ i +:+ ")");
        nl;
        if_str (mot_currentExperience mot) (fun c => "  - Current: " +:+ c +:+ nl);
        if_str (mot_desiredExperience mot) (fun d => "  - Desired: " +:+ d +:+ nl) ]);
      nl ]);

    if_nonempty (cj_improvements entity) (fun imps => cat [
      "### Improvements" +:+ nl;
      for_each imps (fun imp => cat [
        "- **" +:+ imp_stage imp +:+ ":** " +:+ imp_improvement imp;
        if_str (imp_priority imp) (fun p => " [" +:+ p +:+ "]");
        if_str (imp_expectedImpact imp) (fun e => " → " +:+ e);
        nl ]);
      nl ]) ].

Definition formatEntityAsMarkdown (entity : Entity) : string :=
  match entity_variant entity with
  | VAida a => format_aida a
  | VContent c => format_content c
  | VConversion c => format_conversion c
  | VJourney j => format_journey j
  end.

Definition exportProjectToJson (projectId : string) : M string :=
  let! project := getProject projectId in
  match project with
  | None => throw (Error ("Project " +:+ projectId +:+ " not found"))
  | Some project =>
      let! entities := listEntitiesByProject projectId in
      ret (JSON_stringify_export project entities)
  end.

Definition exportProjectToMarkdown (projectId : string) : M string :=
  let! project := getProject projectId in
  match project with
  | None => throw (Error ("Project " +:+ projectId +:+ " not found"))
  | Some project =>
      let! entities := listEntitiesByProject projectId in
      ret (cat [
        "# " +:+ project_name project +:+ nl +:+ nl;
        if_str (project_description project) (fun d => d +:+ nl +:+ nl);
        if_nonempty (project_tags project) (fun tags =>
          "**Tags:** " +:+ join_comma tags +:+ nl +:+ nl);
        "---" +:+ nl +:+ nl;
        for_each entities (fun entity =>
          formatEntityAsMarkdown entity +:+ nl +:+ "---" +:+ nl +:+ nl) ])
  end.

(** ** Observations of a world *)

(** The cache of [ensureDirectories] names the current data directory. *)
Definition initialized (w : World) : Prop :=
  initializedDataDir w = Some (getDataDir w).

Definition project_dir (w : World) : option (gmap string (FileNode Project)) :=
  project_dirs w !! getProjectsDir w.

Definition entity_dir (w : World) : option (gmap string (FileNode Entity)) :=
  entity_dirs w !! getEntitiesDir w.

(** The file of a project, of an entity, under the current root. *)
Definition project_node (w : World) (id : string) : option (FileNode Project) :=
  match project_dir w with
  | Some d => d !! json_file id
  | None => None
  end.

Definition entity_node (w : World) (id : string) : option (FileNode Entity) :=
  match entity_dir w with
  | Some d => d !! json_file id
  | None => None
  end.

(** A regular file that holds the document [v]. *)
Definition holds {A} (n : FileNode A) (v : A) : Prop :=
  exists removable, n = RegularFile (Json v) removable.

(** The project record stored under [id], when its file holds one. *)
Definition stored_project (w : World) (id : string) : option Project :=
  match project_node w id with
  | Some (RegularFile (Json p) _) => Some p
  | _ => None
  end.

(** The entity record stored under [id], when its file holds one. *)
Definition stored_entity (w : World) (id : string) : option Entity :=
  match entity_node w id with
  | Some (RegularFile (Json e) _) => Some e
  | _ => None
  end.

(** What reading the record [id] gives, by the state of its file. *)
Definition read_outcome {A} (label dir id : string) (n : option (FileNode A)) : Outcome (option A) :=
  match n with
  | None => Return None
  | Some (RegularFile (Json v) _) => Return (Some v)
  | Some (RegularFile (Malformed text) _) =>
      Throw (StorageError (label +:+ id) READ_FAILED (SyntaxError text))
  | Some SubDirectory =>
      Throw (StorageError (label +:+ id) READ_FAILED
               (ErrnoException "EISDIR" "read" dir (json_file id)))
  end.

(** The world once [ensureDirectories] has run. *)
Definition ready (w : World) : World := after (ensureDirectories w).

(** [needle] occurs in [hay]. *)
Definition contains (hay needle : string) : Prop :=
  exists before rest, hay = before +:+ needle +:+ rest.

(** ** Conditions on the files of a world *)

(** The project file of [id] is absent, or holds a project with that id. *)
Definition project_file_ok (w : World) (id : string) : Prop :=
  forall n, project_node w id = Some n ->
    exists p r, n = RegularFile (Json p) r /\ project_id p = id.

(** The entity file of [id] is absent, or holds an entity. *)
Definition entity_file_ok (w : World) (id : string) : Prop :=
  forall n, entity_node w id = Some n -> exists e, holds n e.

(** The entity file of [id] is absent, or it is a removable file that
    holds an entity whose owning project file is absent or well formed. *)
Definition entity_deletable (w : World) (id : string) : Prop :=
  forall n, entity_node w id = Some n ->
    exists e, n = RegularFile (Json e) true /\ project_file_ok w (entity_projectId e).

(** The project as [deleteEntity] rewrites it. *)
Definition without_ref (entityId : string) (now : Timestamp) (p : Project) : Project :=
  with_updatedAt now
    (with_entities (filter (fun e => ref_id e <> entityId) (project_entities p)) p).

(** [w'] has the files and the initialisation state of [w]. *)
Definition same_files (w w' : World) : Prop :=
  (initialized w -> initialized w')
  /\ getDataDir w' = getDataDir w
  /\ (forall x, project_node w' x = project_node w x)
  /\ (forall x, entity_node w' x = entity_node w x).

(** Every project file of [w] is still there in [w'], possibly with a
    rewritten record of the same id. *)
Definition projects_kept (w w' : World) : Prop :=
  forall x,
    project_node w' x = project_node w x
    \/ exists p p' r,
         project_node w x = Some (RegularFile (Json p) r)
         /\ project_node w' x = Some (RegularFile (Json p') r)
         /\ project_id p' = project_id p.

(** ** The scan of the projects directory *)

(** The entries of the projects directory, in scan order. *)
Definition project_files (w : World) : list (string * FileNode Project) :=
  match project_dir w with
  | Some d => map_to_list d
  | None => []
  end.

Definition json_entries (w : World) : list (string * FileNode Project) :=
  List.filter (fun entry => endsWith (fst entry) ".json") (project_files w).

(** The project that an entry holds, when it can be read and parsed. *)
Definition parsable (n : FileNode Project) : option Project :=
  match n with
  | RegularFile (Json p) _ => Some p
  | _ => None
  end.

(** The error that reading and parsing an entry raises, if any. *)
Definition read_failure (dir name : string) (n : FileNode Project) : option Exn :=
  match n with
  | RegularFile (Json _) _ => None
  | RegularFile (Malformed text) _ => Some (SyntaxError text)
  | SubDirectory => Some (ErrnoException "EISDIR" "read" dir name)
  end.

(** The records that a scan of the projects directory can parse, and the
    warnings it logs for the entries it skips. *)
Definition parsable_projects (w : World) : list Project :=
  omap (fun entry => parsable (snd entry)) (json_entries w).

Definition scan_warning (dir : string) (entry : string * FileNode Project) : option (string * Exn) :=
  match read_failure dir (fst entry) (snd entry) with
  | Some error => Some ("Failed to read project file " +:+ fst entry +:+ ":", error)
  | None => None
  end.

Definition scan_warnings (w : World) : list (string * Exn) :=
  omap (scan_warning (getProjectsDir w)) (json_entries w).

(** Most recently updated first. *)
Definition newer_first (a b : Project) : Prop :=
  Date_getTime (project_updatedAt b) <= Date_getTime (project_updatedAt a).

(** ** Sequences of operations *)

(** The operations that a process can perform on the store, with the
    two that act on the initialisation cache from outside: the explicit
    reset, and a change of the environment variable that configures the
    root. *)
Inductive Op :=
| CreateProject (name : string) (description : option string) (tags : option (list string))
| GetProject (projectId : string)
| UpdateProject (project : Project)
| DeleteProject (projectId : string)
| ListProjects
| CreateEntity (projectId : string) (entity : EntityInput)
| GetEntity (entityId : string)
| UpdateEntity (entity : Entity)
| DeleteEntity (entityId : string)
| ListEntitiesByProject (projectId : string)
| ListEntitiesByType (projectId : string) (type : EntityKind)
| ExportProjectToJson (projectId : string)
| ExportProjectToMarkdown (projectId : string)
| ResetDirectoryInit
| SetDataDirEnv (value : option string).

Definition is_store_operation (o : Op) : Prop :=
  match o with
  | ResetDirectoryInit | SetDataDirEnv _ => False
  | _ => True
  end.

Definition is_reset (o : Op) : Prop :=
  match o with
  | ResetDirectoryInit => True
  | _ => False
  end.

(** The world after one operation, whatever it returned or threw. *)
Definition step (o : Op) (w : World) : World :=
  match o with
  | CreateProject name description tags => after (createProject name description tags w)
  | GetProject projectId => after (getProject projectId w)
  | UpdateProject project => after (updateProject project w)
  | DeleteProject projectId => after (deleteProject projectId w)
  | ListProjects => after (listProjects w)
  | CreateEntity projectId entity => after (createEntity projectId entity w)
  | GetEntity entityId => after (getEntity entityId w)
  | UpdateEntity entity => after (updateEntity entity w)
  | DeleteEntity entityId => after (deleteEntity entityId w)
  | ListEntitiesByProject projectId => after (listEntitiesByProject projectId w)
  | ListEntitiesByType projectId type => after (listEntitiesByType projectId type w)
  | ExportProjectToJson projectId => after (exportProjectToJson projectId w)
  | ExportProjectToMarkdown projectId => after (exportProjectToMarkdown projectId w)
  | ResetDirectoryInit => after (resetDirectoryInit w)
  | SetDataDirEnv value => set_env value w
  end.

Definition run (ops : list Op) (w : World) : World :=
  foldl (fun w o => step o w) w ops.

(** How many times the directories of [root] were created. *)
Definition directory_creations (root : string) (w : World) : nat :=
  length (filter (fun dir => dir = join root "projects") (mkdir_trace w)).

(** What a store operation may do to the initialisation state: nothing,
    or one round of directory creation for the current root when the
    cache did not name it. *)
Definition init_step (w w' : World) : Prop :=
  env_FUNNEL_DESIGN_DATA_DIR w' = env_FUNNEL_DESIGN_DATA_DIR w
  /\ process_cwd w' = process_cwd w
  /\ ((initializedDataDir w' = initializedDataDir w /\ mkdir_trace w' = mkdir_trace w)
      \/ (~ initialized w
          /\ initialized w'
          /\ mkdir_trace w' = (mkdir_trace w ++ [getProjectsDir w; getEntitiesDir w])%list)).

Definition respects_cache {A} (m : M A) : Prop :=
  forall w, init_step w (after (m w)).

(** The initialisation cache read as keyed by the root: from the start
    of a process, under any sequence of operations without a reset, root
    changes included, the directories of a root are created at most
    once. *)
Definition created_once_until_reset : Prop :=
  forall (ops : list Op) (w : World) (root : string),
    Forall (fun o => ~ is_reset o) ops ->
    initializedDataDir w = None ->
    mkdir_trace w = [] ->
    (directory_creations root (run ops w) <= 1)%nat.

(** ** Invariants of the store *)

(** The cache of [ensureDirectories] is sound: the two directories of the
    root that it names exist. *)
Definition cache_sound (w : World) : Prop :=
  forall root,
    initializedDataDir w = Some root ->
    is_Some (project_dirs w !! join root "projects")
    /\ is_Some (entity_dirs w !! join root "entities").

(** Every file of [dirs] that holds a record is named by the id of that
    record. *)
Definition named {A} (key : A -> string) (dirs : gmap string (gmap string (FileNode A))) : Prop :=
  forall dir d name v r,
    dirs !! dir = Some d -> d !! name = Some (RegularFile (Json v) r) ->
    name = json_file (key v).

Definition files_named_by_id (w : World) : Prop :=
  named project_id (project_dirs w) /\ named entity_id (entity_dirs w).

(** What the operations of the store maintain, as long as nothing else
    removes directories or writes files. *)
Definition well_kept (w : World) : Prop := cache_sound w /\ files_named_by_id w.

Definition preserves {A} (I : World -> Prop) (m : M A) : Prop :=
  forall w, I w -> I (after (m w)).

(** ** Sample worlds *)

Definition sample_clock (n : nat) : Z := 1700000000000 + Z.of_nat n.

Definition sample_entropy (n : nat) : string := "0.k3x9q2mzr8".

(** The schedule under which the calls of a gathering run in turn. *)
Definition in_turn (gathering : nat) : list nat := [].

(** The schedule of a gathering of two calls of nine steps that take
    their steps alternately. *)
Definition alternating (gathering : nat) : list nat :=
  [0; 1; 0; 1; 0; 1; 0; 1; 0; 1; 0; 1; 0; 1; 0; 1; 0; 1]%nat.

(** A process that has not touched the store yet, on an empty disk. *)
Definition fresh_process (root : string) : World :=
  mkWorld (Some root) "/home/app" None ∅ ∅ sample_clock 0 sample_entropy 0 [] []
    in_turn 0.

(** A process that has not touched the store yet, with the given files
    under [root]. *)
Definition process_at (root : string) (projects : gmap string (FileNode Project))
    (entities : gmap string (FileNode Entity)) : World :=
  mkWorld (Some root) "/home/app" None
    {[ join root "projects" := projects ]} {[ join root "entities" := entities ]}
    sample_clock 0 sample_entropy 0 [] [] in_turn 0.

Definition sample_project (id name : string) (createdAt updatedAt : Timestamp)
    (refs : list EntityRef) : Project :=
  mkProject id name None None createdAt updatedAt refs.

Definition sample_stage (name : string) (rate : option number) : FunnelStage :=
  mkFunnelStage name None None None None rate None None None None.

Definition sample_funnel (rate1 rate2 : option number) : Variant :=
  VConversion
    (mkConversionFunnel "Test Funnel" None
       [sample_stage "Awareness" rate1; sample_stage "Interest" rate2] None None None).

Definition sample_input (rate1 rate2 : option number) : EntityInput :=
  mkEntityInput None (sample_funnel rate1 rate2).

Definition sample_entity (id projectId : string) (rate1 rate2 : option number) : Entity :=
  mkEntity id projectId 1600000000000 1600000000000 None (sample_funnel rate1 rate2).

(** A store that holds one project, ["p1"], with no entity. *)
Definition one_project_world : World :=
  process_at "/data"
    {[ "p1.json" := RegularFile (Json (sample_project "p1" "Demo" 1000 1000 [])) true ]}
    ∅.

(** The entity that [createEntity "p1"] makes in [one_project_world]. *)
Definition created_entity (rate1 rate2 : option number) : Entity :=
  mkEntity "1700000000000-k3x9q2m" "p1" 1700000000001 1700000000002 None
    (sample_funnel rate1 rate2).

(** Project ["p1"] with its two entities ["e1"] and ["e2"]. *)
Definition two_entity_project : Project :=
  sample_project "p1" "Export Test" 1000 1000
    [mkRef "e1" conversion_funnel; mkRef "e2" conversion_funnel].

Definition two_entity_world (rate1 rate2 : option number) : World :=
  process_at "/data"
    {[ "p1.json" := RegularFile (Json two_entity_project) true ]}
    {[ "e1.json" := RegularFile (Json (sample_entity "e1" "p1" rate1 rate2)) true;
       "e2.json" := RegularFile (Json (sample_entity "e2" "p1" None None)) true ]}.

(** The schedule of a gathering of two calls in which the first call
    takes seven steps, up to the opening of the project file for
    writing, and the second call then takes five, up to its reading of
    the project file. *)
Definition overlapping (gathering : nat) : list nat :=
  [0; 0; 0; 0; 0; 0; 0; 1; 1; 1; 1; 1]%nat.

(** The store of [two_entity_world], under that schedule. *)
Definition racing_world : World := set_schedule overlapping (two_entity_world None None).

(** Project ["p1"] with its three entities ["e1"], ["e2"] and ["e3"]. *)
Definition three_entity_project : Project :=
  sample_project "p1" "Demo" 1000 1000
    [mkRef "e1" conversion_funnel; mkRef "e2" conversion_funnel;
     mkRef "e3" conversion_funnel].

(** The schedule of a gathering of three calls in which the first two
    calls both read the project file, the first call opens it for
    writing, the third call reads it while it is empty, and the second
    call writes last. *)
Definition stale_write (gathering : nat) : list nat :=
  [0; 0; 0; 0; 0; 1; 1; 1; 1; 1; 0; 0; 2; 2; 2; 2; 2]%nat.

(** The store of that project, under that schedule. *)
Definition three_entity_world : World :=
  set_schedule stale_write
    (process_at "/data"
       {[ "p1.json" := RegularFile (Json three_entity_project) true ]}
       {[ "e1.json" := RegularFile (Json (sample_entity "e1" "p1" None None)) true;
          "e2.json" := RegularFile (Json (sample_entity "e2" "p1" None None)) true;
          "e3.json" := RegularFile (Json (sample_entity "e3" "p1" None None)) true ]}).

(** Project ["p1"] with three entities, the second of which is stored
    as text that does not parse. *)
Definition corrupt_world : World :=
  process_at "/data"
    {[ "p1.json" := RegularFile (Json three_entity_project) true ]}
    {[ "e1.json" := RegularFile (Json (sample_entity "e1" "p1" None None)) true;
       "e2.json" := RegularFile (Malformed "{ not json") true;
       "e3.json" := RegularFile (Json (sample_entity "e3" "p1" None None)) true ]}.

(** Project ["p1"] with one entity, ["e1"], whose file cannot be removed. *)
Definition pinned_project : Project :=
  sample_project "p1" "Demo" 1000 1000 [mkRef "e1" conversion_funnel].

Definition pinned_world : World :=
  process_at "/data"
    {[ "p1.json" := RegularFile (Json pinned_project) true ]}
    {[ "e1.json" := RegularFile (Json (sample_entity "e1" "p1" None None)) false ]}.

(** Project ["p1"] references ["e1"], which is stored, and ["gone"],
    which is not; entity ["e9"] is stored and owned by ["p1"] but not
    referenced. *)
Definition orphan_project : Project :=
  sample_project "p1" "Demo" 1000 1000
    [mkRef "e1" conversion_funnel; mkRef "gone" aida_funnel].

Definition orphan_world : World :=
  process_at "/data"
    {[ "p1.json" := RegularFile (Json orphan_project) true ]}
    {[ "e1.json" := RegularFile (Json (sample_entity "e1" "p1" None None)) true;
       "e9.json" := RegularFile (Json (sample_entity "e9" "p1" None None)) true ]}.

(** Three projects created at 1000 < 2000 < 3000, the first of them
    updated last, next to a file that does not parse and a file that is
    not a [.json] file. *)
Definition project_a : Project := sample_project "a" "Project 1 Updated" 1000 4000 [].
Definition project_b : Project := sample_project "b" "Project 2" 2000 2000 [].
Definition project_c : Project := sample_project "c" "Project 3" 3000 3000 [].

Definition scan_world : World :=
  process_at "/data"
    {[ "a.json" := RegularFile (Json project_a) true;
       "b.json" := RegularFile (Json project_b) true;
       "c.json" := RegularFile (Json project_c) true;
       "broken.json" := RegularFile (Malformed "{ not json") true;
       "notes.txt" := RegularFile (Json project_b) true ]}
    ∅.

(** A sequence of operations that switches the root away and back. *)
Definition root_switch : list Op :=
  [GetProject "p1"; SetDataDirEnv (Some "/other"); GetProject "p1";
   SetDataDirEnv (Some "/data"); GetProject "p1"].

Definition same_root_operations : list Op :=
  [CreateProject "Demo" None None; GetProject "p1"; ListProjects; DeleteProject "p1"].

(** Integers as the numbers of the payloads, for the sample runs. *)
Definition Z_to_string (z : Z) : string := pretty z.
Definition Z_truthy (z : Z) : bool := negb (z =? 0).

(** A stand-in for the JSON text of a snapshot, for the sample runs. *)
Definition sample_snapshot (p : Project) (es : list Entity) : string :=
  "{ project: " +:+ project_name p +:+ ", entities: " +:+ pretty (length es) +:+ " }".

(** ** What an operation leaves alone *)

(** The entry [name] of the directory [dir], when there is one. *)
Definition file_at {A} (dirs : gmap string (gmap string (FileNode A))) (dir name : string)
    : option (FileNode A) :=
  match dirs !! dir with
  | Some d => d !! name
  | None => None
  end.

(** [w'] has the configuration and, under every directory, exactly the
    files of [w], and no clock tick or random draw was consumed on the
    way from [w] to [w']. *)
Definition untouched (w w' : World) : Prop :=
  env_FUNNEL_DESIGN_DATA_DIR w' = env_FUNNEL_DESIGN_DATA_DIR w
  /\ process_cwd w' = process_cwd w
  /\ (forall dir name, file_at (project_dirs w') dir name = file_at (project_dirs w) dir name)
  /\ (forall dir name, file_at (entity_dirs w') dir name = file_at (entity_dirs w) dir name)
  /\ clock_reads w' = clock_reads w
  /\ entropy_reads w' = entropy_reads w.

Definition read_only {A} (m : M A) : Prop :=
  forall w, untouched w (after (m w)).

(** ** Identifiers and written files *)

(** The identifier that [generateId] returns in [w]. *)
Definition next_id (w : World) : string :=
  pretty (clock w (clock_reads w)) +:+ "-" +:+ js_substring 2 9 (entropy w (entropy_reads w)).

(** Whether the file that a write leaves in the place of [n] can be
    removed: an overwritten file keeps its protection, a new file is
    removable. *)
Definition removable_after_write {A} (n : option (FileNode A)) : bool :=
  match n with
  | Some (RegularFile _ r) => r
  | _ => true
  end.

(** ** Exceptions of the store *)

(** What the [fs] module and [JSON.parse] raise. *)
Definition raw_error (e : Exn) : Prop :=
  match e with
  | ErrnoException _ _ _ _ | SyntaxError _ => True
  | StorageError _ _ _ | Error _ => False
  end.

(** The exceptions that the store lets out: an error of the [fs] module
    as it is, a read or delete failure wrapped once in a [StorageError],
    or the complaint about a project that is not there. *)
Definition expected_error (e : Exn) : Prop :=
  match e with
  | ErrnoException _ _ _ _ => True
  | StorageError _ code cause => (code = READ_FAILED \/ code = DELETE_FAILED) /\ raw_error cause
  | Error message => exists id, message = "Project " +:+ id +:+ " not found"
  | SyntaxError _ => False
  end.

Definition throws_only {A} (Q : Exn -> Prop) (m : M A) : Prop :=
  forall w e, result (m w) = Throw e -> Q e.

(** The exception that an outcome carries, if any. *)
Definition thrown {A} (r : Outcome A * World) : option Exn :=
  match result r with
  | Throw e => Some e
  | Return _ => None
  end.

(** The exception that one operation throws in [w], if any. *)
Definition step_error (o : Op) (w : World) : option Exn :=
  match o with
  | CreateProject name description tags => thrown (createProject name description tags w)
  | GetProject projectId => thrown (getProject projectId w)
  | UpdateProject project => thrown (updateProject project w)
  | DeleteProject projectId => thrown (deleteProject projectId w)
  | ListProjects => thrown (listProjects w)
  | CreateEntity projectId entity => thrown (createEntity projectId entity w)
  | GetEntity entityId => thrown (getEntity entityId w)
  | UpdateEntity entity => thrown (updateEntity entity w)
  | DeleteEntity entityId => thrown (deleteEntity entityId w)
  | ListEntitiesByProject projectId => thrown (listEntitiesByProject projectId w)
  | ListEntitiesByType projectId type => thrown (listEntitiesByType projectId type w)
  | ExportProjectToJson projectId => thrown (exportProjectToJson projectId w)
  | ExportProjectToMarkdown projectId => thrown (exportProjectToMarkdown projectId w)
  | ResetDirectoryInit => thrown (resetDirectoryInit w)
  | SetDataDirEnv value => None
  end.

(** ** Identifiers as text *)

Definition dash : Ascii.ascii := Eval cbv in Ascii.ascii_of_nat 45.

(** No character of [s] is a dash. *)
Fixpoint dash_free (s : string) : Prop :=
  match s with
  | EmptyString => True
  | String c s' => c <> dash /\ dash_free s'
  end.

(** ** Titles of the exported sections *)

Definition kind_title (k : EntityKind) : string :=
  match k with
  | aida_funnel => "AIDA Funnel"
  | content_funnel => "Content Funnel"
  | conversion_funnel => "Conversion Funnel"
  | customer_journey => "Customer Journey"
  end.

Definition variant_name (v : Variant) : string :=
  match v with
  | VAida a => aida_name a
  | VContent c => cf_name c
  | VConversion c => conv_name c
  | VJourney j => cj_name j
  end.

(** The line that opens the section of an entity. *)
Definition entity_title (e : Entity) : string :=
  "## " +:+ kind_title (entity_type e) +:+ ": " +:+ variant_name (entity_variant e).

(** ** Numbers as the exporter tests them *)

(** An optional number with the falsy values taken for absent. *)
Definition truthy_only (n : option number) : option number :=
  match n with
  | Some v => if number_truthy v then Some v else None
  | None => None
  end.

Definition ts_truthy_only (ts : TrafficSource) : TrafficSource :=
  mkTrafficSource (ts_source ts) (ts_medium ts) (truthy_only (ts_volume ts))
    (ts_qualityScore ts) (ts_cost ts) (truthy_only (ts_conversionRate ts)).

Definition om_truthy_only (om : OverallMetrics) : OverallMetrics :=
  mkOverallMetrics (truthy_only (om_totalVisitors om)) (truthy_only (om_totalConversions om))
    (truthy_only (om_overallConversionRate om)) (om_averageDealValue om)
    (om_customerAcquisitionCost om) (om_timeToConversion om).

Definition conv_truthy_only (c : ConversionFunnel) : ConversionFunnel :=
  mkConversionFunnel (conv_name c) (conv_description c) (conv_stages c)
    (option_map (map ts_truthy_only) (conv_trafficSources c))
    (option_map om_truthy_only (conv_overallMetrics c))
    (conv_bottlenecks c).

(** ** The tools over projects

    [src/tools/project.ts]: the functions behind the MCP tools.  Those
    that share the name of the store function they call carry the suffix
    [Tool] here, as [deleteEntityTool] does in the source. *)

Record CreateProjectArgs := mkCreateProjectArgs {
  cpa_name : string;
  cpa_description : option string;
  cpa_tags : option (list string);
}.

Record UpdateProjectArgs := mkUpdateProjectArgs {
  upa_projectId : string;
  upa_name : option string;
  upa_description : option string;
  upa_tags : option (list string);
}.

Inductive ExportFormat :=
| format_json
| format_markdown.

Record ExportProjectArgs := mkExportProjectArgs {
  epa_projectId : string;
  epa_format : ExportFormat;
}.

Record ListProjectEntitiesArgs := mkListProjectEntitiesArgs {
  lea_projectId : string;
  lea_type : option EntityKind;
}.

Record ToolStatus := mkToolStatus {
  success : bool;
  message : string;
}.

Record ProjectWithEntities := mkProjectWithEntities {
  pwe_project : Project;
  pwe_entities : list Entity;
}.

(** [a ?? b], for a required [b] and for an optional one. *)
Definition nullish {A} (a : option A) (b : A) : A :=
  match a with
  | Some v => v
  | None => b
  end.

Definition nullish_optional {A} (a b : option A) : option A :=
  match a with
  | Some v => Some v
  | None => b
  end.

Definition createProjectTool (args : CreateProjectArgs) : M Project :=
  createProject (cpa_name args) (cpa_description args) (cpa_tags args).

Definition getProjectTool (projectId : string) : M (option ProjectWithEntities) :=
  let! project := getProject projectId in
  match project with
  | None => ret None
  | Some project =>
      let! entities := listEntitiesByProject projectId in
      ret (Some (mkProjectWithEntities project entities))
  end.

Definition updateProjectTool (args : UpdateProjectArgs) : M Project :=
  let! existing := getProject (upa_projectId args) in
  match existing with
  | None => throw (Error ("Project " +:+ upa_projectId args +:+ " not found"))
  | Some existing =>
      let updated :=
        mkProject (project_id existing)
          (nullish (upa_name args) (project_name existing))
          (nullish_optional (upa_description args) (project_description existing))
          (nullish_optional (upa_tags args) (project_tags existing))
          (project_createdAt existing) (project_updatedAt existing)
          (project_entities existing) in
      updateProject updated
  end.

Definition deleteProjectTool (projectId : string) : M ToolStatus :=
  let! success := deleteProject projectId in
  ret (mkToolStatus success
         (if success then "Project " +:+ projectId +:+ " and all its entities deleted"
          else "Project " +:+ projectId +:+ " not found")).

Definition listProjectsTool : M (list Project) := listProjects.

Definition deleteEntityTool (entityId : string) : M ToolStatus :=
  let! success := deleteEntity entityId in
  ret (mkToolStatus success
         (if success then "Entity " +:+ entityId +:+ " deleted"
          else "Entity " +:+ entityId +:+ " not found")).

Definition exportProject (args : ExportProjectArgs) : M string :=
  match epa_format args with
  | format_json => exportProjectToJson (epa_projectId args)
  | format_markdown => exportProjectToMarkdown (epa_projectId args)
  end.

Definition listProjectEntities (args : ListProjectEntitiesArgs) : M (list Entity) :=
  let! entities := listEntitiesByProject (lea_projectId args) in
  match lea_type args with
  | Some type => ret (filter (fun e => entity_type e = type) entities)
  | None => ret entities
  end.

(** ** The tools over entities

    [src/tools/aida.ts], [content.ts], [conversion.ts] and [journey.ts]:
    creation, lookup and listing.  The arguments of a creation tool are
    the project id and the fields of the payload.  A lookup casts the
    stored object to the type of the tool without a test, which is the
    identity here.  The update tools spread the stored object, of
    whatever type it is, under the fields of their own type; the result
    need not be an entity of one of the four types, and they are not
    modelled. *)

Definition createAidaFunnel (projectId : string) (args : AidaFunnel) : M Entity :=
  createEntity projectId (mkEntityInput None (VAida args)).

Definition getAidaFunnel (entityId : string) : M (option Entity) := getEntity entityId.

Definition listAidaFunnels (projectId : string) : M (list Entity) :=
  let! entities := listEntitiesByType projectId aida_funnel in
  ret entities.

Definition createContentFunnel (projectId : string) (args : ContentFunnel) : M Entity :=
  createEntity projectId (mkEntityInput None (VContent args)).

Definition getContentFunnel (entityId : string) : M (option Entity) := getEntity entityId.

Definition listContentFunnels (projectId : string) : M (list Entity) :=
  let! entities := listEntitiesByType projectId content_funnel in
  ret entities.

Definition createConversionFunnel (projectId : string) (args : ConversionFunnel) : M Entity :=
  createEntity projectId (mkEntityInput None (VConversion args)).

Definition getConversionFunnel (entityId : string) : M (option Entity) := getEntity entityId.

Definition listConversionFunnels (projectId : string) : M (list Entity) :=
  let! entities := listEntitiesByType projectId conversion_funnel in
  ret entities.

Definition createCustomerJourney (projectId : string) (args : CustomerJourney) : M Entity :=
  createEntity projectId (mkEntityInput None (VJourney args)).

Definition getCustomerJourney (entityId : string) : M (option Entity) := getEntity entityId.

Definition listCustomerJourneys (projectId : string) : M (list Entity) :=
  let! entities := listEntitiesByType projectId customer_journey in
  ret entities.

(** The listing tool of a kind. *)
Definition typed_listing (k : EntityKind) : string -> M (list Entity) :=
  match k with
  | aida_funnel => listAidaFunnels
  | content_funnel => listContentFunnels
  | conversion_funnel => listConversionFunnels
  | customer_journey => listCustomerJourneys
  end.

(** ** Referential integrity *)

(** Every project file holds, as a removable file, a project stored
    under its own id, whose references are pairwise distinct and lead to
    stored entities of that project, of the referenced type. *)
Definition references_resolve (w : World) : Prop :=
  forall pid n, project_node w pid = Some n ->
    exists P,
      n = RegularFile (Json P) true
      /\ project_id P = pid
      /\ NoDup (map ref_id (project_entities P))
      /\ forall ref, ref ∈ project_entities P ->
           exists e,
             entity_node w (ref_id ref) = Some (RegularFile (Json e) true)
             /\ entity_projectId e = pid
             /\ entity_type e = ref_type ref.

(** Every entity file holds, as a removable file, an entity whose
    project is stored and lists it, under the name of the file and with
    its type. *)
Definition entities_owned (w : World) : Prop :=
  forall eid n, entity_node w eid = Some n ->
    exists e P,
      n = RegularFile (Json e) true
      /\ project_node w (entity_projectId e) = Some (RegularFile (Json P) true)
      /\ mkRef eid (entity_type e) ∈ project_entities P.

(** The references of the projects and the entity files match, in both
    directions. *)
Definition consistent (w : World) : Prop := references_resolve w /\ entities_owned w.

(** The operations that take care of the references: all but the two
    raw updates, which store whatever record they are given, and a
    change of the root, which leads to other files. *)
Definition keeps_references (o : Op) : Prop :=
  match o with
  | UpdateProject _ | UpdateEntity _ | SetDataDirEnv _ => False
  | _ => True
  end.

(** The identifier that the operation is about to generate, if it
    creates a record, is not in use. *)
Definition draws_fresh_id (o : Op) (w : World) : Prop :=
  match o with
  | CreateProject _ _ _ => project_node w (next_id w) = None
  | CreateEntity _ _ => entity_node w (next_id w) = None
  | _ => True
  end.

Fixpoint ids_stay_fresh (ops : list Op) (w : World) : Prop :=
  match ops with
  | [] => True
  | o :: ops' => draws_fresh_id o w /\ ids_stay_fresh ops' (step o w)
  end.

(** The calls of the next gathering, [calls] in number, do not overlap:
    the schedule lets them run one after the other, or there is at most
    one of them. *)
Definition calls_in_turn (w : World) (calls : nat) : Prop :=
  schedule w (gatherings w) = [] \/ (calls <= 1)%nat.

(** If the operation is a cascade, none of its calls is rejected:
    [deleteProject] does not throw. *)
Definition cascade_fulfilled (o : Op) (w : World) : Prop :=
  match o with
  | DeleteProject projectId => forall e, result (deleteProject projectId w) <> Throw e
  | _ => True
  end.

Fixpoint cascades_fulfilled (ops : list Op) (w : World) : Prop :=
  match ops with
  | [] => True
  | o :: ops' => cascade_fulfilled o w /\ cascades_fulfilled ops' (step o w)
  end.

(** ** The OpenAI configuration

    [src/openai/client.ts] keeps the key set at run time in a module
    variable and reads the other one from the environment;
    [src/tools/research.ts] has the two tools that set and report the
    configuration. *)

Record OpenAIConfig := mkOpenAIConfig {
  runtimeApiKey : option string;
  env_OPENAI_API_KEY : option string;
}.

(** The truthiness of an optional string: absent and empty are falsy. *)
Definition truthy_string (s : option string) : bool :=
  match s with
  | Some v => negb (String.eqb v "")
  | None => false
  end.

(** [a || b] on optional strings *)
Definition js_or (a b : option string) : option string :=
  if truthy_string a then a else b.

Definition setOpenAIApiKey (key : string) (c : OpenAIConfig) : OpenAIConfig :=
  mkOpenAIConfig (Some key) (env_OPENAI_API_KEY c).

Definition getOpenAIApiKey (c : OpenAIConfig) : option string :=
  js_or (runtimeApiKey c) (env_OPENAI_API_KEY c).

Inductive OpenAIErrorCode :=
| API_KEY_MISSING
| API_ERROR
| RATE_LIMIT
| PARSE_ERROR
| TIMEOUT.

Record OpenAIConfigError := mkOpenAIConfigError {
  oce_message : string;
  oce_code : OpenAIErrorCode;
}.

(** [new OpenAI({ apiKey })]: the client, as far as its key goes. *)
Record OpenAIClient := mkOpenAIClient {
  client_apiKey : string;
}.

(** The client, or the error that is thrown instead. *)
Definition getOpenAIClient (c : OpenAIConfig) : OpenAIConfigError + OpenAIClient :=
  let apiKey := getOpenAIApiKey c in
  match apiKey with
  | Some key =>
      if truthy_string apiKey then inr (mkOpenAIClient key)
      else inl (mkOpenAIConfigError
                  "OpenAI API key not configured. Set OPENAI_API_KEY environment variable or use configure_openai tool."
                  API_KEY_MISSING)
  | None =>
      inl (mkOpenAIConfigError
             "OpenAI API key not configured. Set OPENAI_API_KEY environment variable or use configure_openai tool."
             API_KEY_MISSING)
  end.

Definition configureOpenAI (apiKey : string) (c : OpenAIConfig) : ToolStatus * OpenAIConfig :=
  (mkToolStatus true "OpenAI API key configured successfully", setOpenAIApiKey apiKey c).

Record ConfigReport := mkConfigReport {
  configured : bool;
  source : option string;
}.

Definition checkOpenAIConfig (c : OpenAIConfig) : ConfigReport :=
  let key := getOpenAIApiKey c in
  if negb (truthy_string key) then mkConfigReport false None
  else
    mkConfigReport true
      (Some (if truthy_string (env_OPENAI_API_KEY c) then "environment" else "runtime")).

(** ** Citations

    [src/openai/parser.ts]: the citations of a research result, without
    repeated addresses. *)

Record RawCitation := mkRawCitation {
  raw_title : string;
  raw_url : string;
  raw_startIndex : number;
  raw_endIndex : number;
}.

(** [date.toISOString()]: the text of an instant is left to the runtime. *)
Variable Date_toISOString : Z -> string.

(** [new Date().toISOString()] *)
Definition new_Date_toISOString : M string :=
  let! now := Date_now in
  ret (Date_toISOString now).

Definition generateCitationId : M string :=
  let! now := Date_now in
  let! r := Math_random_toString36 in
  ret ("cit-" +:+ pretty now +:+ "-" +:+ js_substring 2 7 r).

(** [cs.filter(c => { if (seen.has(c.url)) return false; seen.add(c.url);
    return true; })], with the set [seen] as it stands before [cs]. *)
Fixpoint unseen (seen : gset string) (cs : list RawCitation) : list RawCitation :=
  match cs with
  | [] => []
  | c :: cs' =>
      if decide (raw_url c ∈ seen) then unseen seen cs'
      else c :: unseen ({[raw_url c]} ∪ seen) cs'
  end.

Definition processCitations (rawCitations : list RawCitation) : M (list Citation) :=
  let! now := new_Date_toISOString in
  all_map
    (fun c =>
       let! id := generateCitationId in
       ret (mkCitation id (raw_title c) (raw_url c) now []))
    (unseen ∅ rawCitations).

(** The first citation of [cs] with the address [url]. *)
Definition first_with_url (url : string) (cs : list RawCitation) : option RawCitation :=
  head (filter (fun c => raw_url c = url) cs).

(** [n] is the position at which [url] occurs first in [urls]. *)
Definition first_position (url : string) (urls : list string) (n : nat) : Prop :=
  urls !! n = Some url /\ forall m, (m < n)%nat -> urls !! m <> Some url.

(** ** Retrying a request

    [withRetry] of [src/openai/client.ts].  The operation it retries is
    a request to a remote service: what its successive calls return or
    throw is an oracle of the world, read through a counter, like the
    clock.  The delays are JavaScript numbers; their arithmetic is left
    to the runtime. *)

Variable number_add number_mul number_min : number -> number -> number.
Variable number_0_3 : number.
(** [`${Math.round(n)}`] *)
Variable Math_round_text : number -> string.

(** What a call can throw: an [OpenAI.APIError] with its status, another
    [Error], a value that is not an [Error], or [undefined]. *)
Inductive Thrown :=
| APIError (status : option Z) (message : string)
| PlainError (message : string)
| OtherValue (text : string)
| Undefined.

Record RetryWorld (Response : Type) := mkRetryWorld {
  responses : nat -> Thrown + Response;
  calls : nat;
  random_numbers : nat -> number;
  random_reads : nat;
  retry_console : list string;
  sleeps : list number;
}.
#[global] Arguments mkRetryWorld {Response} _ _ _ _ _ _.
#[global] Arguments responses {Response} _ _.
#[global] Arguments calls {Response} _.
#[global] Arguments random_numbers {Response} _ _.
#[global] Arguments random_reads {Response} _.
#[global] Arguments retry_console {Response} _.
#[global] Arguments sleeps {Response} _.

Record RetryConfig := mkRetryConfig {
  maxRetries : Z;
  initialDelayMs : number;
  maxDelayMs : number;
  backoffMultiplier : number;
}.

(** [s.includes(needle)] *)
Fixpoint includes (s needle : string) : bool :=
  String.prefix needle s ||
  match s with
  | EmptyString => false
  | String _ s' => includes s' needle
  end.

Definition isRetryableError (error : Thrown) : bool :=
  match error with
  | APIError status _ =>
      match status with
      | Some s => (s =? 429) || ((500 <=? s) && (s <? 600))
      | None => false
      end
  | PlainError message =>
      includes message "ECONNRESET" || includes message "ETIMEDOUT"
      || includes message "ENOTFOUND"
  | OtherValue _ | Undefined => false
  end.

(** [await operation()] *)
Definition call_operation {Response} (w : RetryWorld Response)
    : (Thrown + Response) * RetryWorld Response :=
  (responses w (calls w),
   mkRetryWorld (responses w) (S (calls w)) (random_numbers w) (random_reads w)
     (retry_console w) (sleeps w)).

(** [Math.random()] *)
Definition Math_random {Response} (w : RetryWorld Response) : number * RetryWorld Response :=
  (random_numbers w (random_reads w),
   mkRetryWorld (responses w) (calls w) (random_numbers w) (S (random_reads w))
     (retry_console w) (sleeps w)).

Definition retry_console_error {Response} (message : string) (w : RetryWorld Response)
    : RetryWorld Response :=
  mkRetryWorld (responses w) (calls w) (random_numbers w) (random_reads w)
    (retry_console w ++ [message]) (sleeps w).

(** [await sleep(ms)] *)
Definition sleep {Response} (ms : number) (w : RetryWorld Response) : RetryWorld Response :=
  mkRetryWorld (responses w) (calls w) (random_numbers w) (random_reads w)
    (retry_console w) (sleeps w ++ [ms]).

(** The loop of [withRetry], with [iterations] values of [attempt] still
    to go, and the [throw lastError] that follows it. *)
Fixpoint retry_loop {Response} (config : RetryConfig) (iterations : nat) (attempt : Z)
    (delay : number) (lastError : Thrown) (w : RetryWorld Response)
    : (Thrown + Response) * RetryWorld Response :=
  match iterations with
  | O => (inl lastError, w)
  | S iterations' =>
      match call_operation w with
      | (inr response, w1) => (inr response, w1)
      | (inl error, w1) =>
          if negb (isRetryableError error) || (attempt =? maxRetries config)
          then (inl error, w1)
          else
            let (r, w2) := Math_random w1 in
            let jitter := number_mul (number_mul r number_0_3) delay in
            let waitTime := number_min (number_add delay jitter) (maxDelayMs config) in
            let w3 :=
              retry_console_error
                ("OpenAI request failed (attempt " +:+ pretty (attempt + 1) +:+ "/"
                 +:+ pretty (maxRetries config + 1) +:+ "), " +:+ "retrying in "
                 +:+ Math_round_text waitTime +:+ "ms...") w2 in
            let w4 := sleep waitTime w3 in
            retry_loop config iterations' (attempt + 1)
              (number_mul delay (backoffMultiplier config)) error w4
      end
  end.

Definition withRetry {Response} (config : RetryConfig) (w : RetryWorld Response)
    : (Thrown + Response) * RetryWorld Response :=
  retry_loop config (Z.to_nat (maxRetries config + 1)) 0 (initialDelayMs config) Undefined w.

(** The [j]-th next call of the operation throws an error that is worth
    a retry. *)
Definition retryable_at {Response} (w : RetryWorld Response) (j : nat) : Prop :=
  exists error, responses w (calls w + j)%nat = inl error /\ isRetryableError error = true.

(** The outcome [r] of the call made at [attempt] ends the loop: it is a
    response, an error that is not worth a retry, or the error of the last
    attempt. *)
Definition ends_loop {Response} (config : RetryConfig) (attempt : Z) (r : Thrown + Response)
    : Prop :=
  match r with
  | inr _ => True
  | inl error => isRetryableError error = false \/ attempt = maxRetries config
  end.

(** A run of [withRetry] that ended after [k] calls more than [w] had
    seen, with a pause before each call but the first. *)
Definition after_calls {Response} (w w' : RetryWorld Response) (k : nat) : Prop :=
  calls w' = (calls w + k)%nat
  /\ length (sleeps w') = (length (sleeps w) + (k - 1))%nat
  /\ length (retry_console w') = (length (retry_console w) + (k - 1))%nat
  /\ responses w' = responses w.

(** A request that is refused twice, for the rate limit and for a reset
    connection, and answered on the third call. *)
Definition sample_responses (n : nat) : Thrown + string :=
  match n with
  | 0%nat => inl (APIError (Some 429) "Too many requests")
  | 1%nat => inl (PlainError "read ECONNRESET")
  | _ => inr "report"
  end.

Definition sample_retry_world (jitter : number) : RetryWorld string :=
  mkRetryWorld sample_responses 0 (fun _ : nat => jitter) 0 [] [].

(** ** A deep-research request

    [executeDeepResearch] of [src/openai/client.ts]: the request goes
    through [withRetry], and the text and the citations are collected
    from the output items of the response. *)

Variable number_0 : number.
Variable number_of_Z : Z -> number.

Record UrlCitation := mkUrlCitation {
  ann_title : option string;
  ann_url : string;
  ann_start_index : number;
  ann_end_index : number;
}.

Inductive Annotation :=
| url_citation (c : UrlCitation)
| other_annotation.

Inductive ContentItem :=
| output_text (text : string) (annotations : option (list Annotation))
| other_content.

Inductive OutputItem :=
| message_item (content : option (list ContentItem))
| other_item.

Record ApiUsage := mkApiUsage {
  input_tokens : option number;
  output_tokens : option number;
}.

Record ApiResponse := mkApiResponse {
  response_output : option (list OutputItem);
  response_usage : option ApiUsage;
}.

Record UsageTotals := mkUsageTotals {
  inputTokens : number;
  outputTokens : number;
  totalTokens : number;
}.

Record DeepResearchResult := mkDeepResearchResult {
  research_content : string;
  research_citations : list RawCitation;
  research_usage : UsageTotals;
}.

(** [Partial<RetryConfig>] *)
Record PartialRetryConfig := mkPartialRetryConfig {
  partial_maxRetries : option Z;
  partial_initialDelayMs : option number;
  partial_maxDelayMs : option number;
  partial_backoffMultiplier : option number;
}.

Definition DEFAULT_RETRY_CONFIG : RetryConfig :=
  mkRetryConfig 3 (number_of_Z 1000) (number_of_Z 30000) (number_of_Z 2).

(** [{ ...DEFAULT_RETRY_CONFIG, ...retryConfig }] *)
Definition merge_retry_config (retryConfig : option PartialRetryConfig) : RetryConfig :=
  match retryConfig with
  | None => DEFAULT_RETRY_CONFIG
  | Some p =>
      mkRetryConfig
        (nullish (partial_maxRetries p) (maxRetries DEFAULT_RETRY_CONFIG))
        (nullish (partial_initialDelayMs p) (initialDelayMs DEFAULT_RETRY_CONFIG))
        (nullish (partial_maxDelayMs p) (maxDelayMs DEFAULT_RETRY_CONFIG))
        (nullish (partial_backoffMultiplier p) (backoffMultiplier DEFAULT_RETRY_CONFIG))
  end.

(** [n || 0] for an optional number *)
Definition or_zero (n : option number) : number :=
  match n with
  | Some v => if number_truthy v then v else number_0
  | None => number_0
  end.

(** [title || "Untitled"] *)
Definition title_or_untitled (title : option string) : string :=
  match title with
  | Some t => if String.eqb t "" then "Untitled" else t
  | None => "Untitled"
  end.

(** The loop over the annotations of one text, pushing onto [citations]. *)
Definition collect_annotations (citations : list RawCitation) (annotations : list Annotation)
    : list RawCitation :=
  foldl (fun citations annotation =>
           match annotation with
           | url_citation c =>
               (citations ++ [mkRawCitation (title_or_untitled (ann_title c)) (ann_url c)
                                (ann_start_index c) (ann_end_index c)])%list
           | other_annotation => citations
           end) citations annotations.

(** The loop over the content of one message, with the two accumulators. *)
Definition collect_content (acc : string * list RawCitation) (content : list ContentItem)
    : string * list RawCitation :=
  foldl (fun acc contentItem =>
           match contentItem with
           | output_text text annotations =>
               (fst acc +:+ text,
                collect_annotations (snd acc) (default [] annotations))
           | other_content => acc
           end) acc content.

(** The loop over the output items. *)
Definition collect_output (outputItems : list OutputItem) : string * list RawCitation :=
  foldl (fun acc item =>
           match item with
           | message_item (Some content) => collect_content acc content
           | message_item None | other_item => acc
           end) ("", []) outputItems.

Definition research_result (response : ApiResponse) : DeepResearchResult :=
  let outputItems := default [] (response_output response) in
  let collected := collect_output outputItems in
  let input := or_zero (response_usage response ≫= input_tokens) in
  let output := or_zero (response_usage response ≫= output_tokens) in
  mkDeepResearchResult (fst collected) (snd collected)
    (mkUsageTotals input output (number_add input output)).

(** What [executeDeepResearch] throws: the configuration error of
    [getOpenAIClient], or what [withRetry] lets out. *)
Inductive ResearchFailure :=
| ConfigFailure (error : OpenAIConfigError)
| RequestFailure (error : Thrown).

Definition executeDeepResearch (retryConfig : option PartialRetryConfig) (c : OpenAIConfig)
    (w : RetryWorld ApiResponse) : (ResearchFailure + DeepResearchResult) * RetryWorld ApiResponse :=
  match getOpenAIClient c with
  | inl error => (inl (ConfigFailure error), w)
  | inr client =>
      let config := merge_retry_config retryConfig in
      match withRetry config w with
      | (inl error, w') => (inl (RequestFailure error), w')
      | (inr response, w') => (inr (research_result response), w')
      end
  end.

(** A response with two messages and an item of another type.  The first
    message has a text with a citation without title and an annotation
    of another type, a content item of another type, and a text without
    annotations; the second has a text with a titled citation.  The
    usage has an input count and no output count. *)
Definition sample_response (start finish input : number) : ApiResponse :=
  mkApiResponse
    (Some
       [message_item
          (Some
             [output_text "Funnels "
                (Some [url_citation (mkUrlCitation None "https://a.example" start finish);
                       other_annotation]);
              other_content;
              output_text "convert" None]);
        other_item;
        message_item None;
        message_item
          (Some
             [output_text "."
                (Some [url_citation
                         (mkUrlCitation (Some "Guide") "https://b.example" start finish)])])])
    (Some (mkApiUsage (Some input) None)).

(** The citations of the annotations of a text, of a content item, of an
    output item, in the order of the document. *)
Definition citations_of_annotation (annotation : Annotation) : list RawCitation :=
  match annotation with
  | url_citation c =>
      [mkRawCitation (title_or_untitled (ann_title c)) (ann_url c)
         (ann_start_index c) (ann_end_index c)]
  | other_annotation => []
  end.

Definition citations_of_content (contentItem : ContentItem) : list RawCitation :=
  match contentItem with
  | output_text _ annotations => concat (map citations_of_annotation (default [] annotations))
  | other_content => []
  end.

Definition text_of_content (contentItem : ContentItem) : string :=
  match contentItem with
  | output_text text _ => text
  | other_content => ""
  end.

Definition content_of_item (item : OutputItem) : list ContentItem :=
  match item with
  | message_item (Some content) => content
  | message_item None | other_item => []
  end.

(** The content items of all the messages of a response, in order. *)
Definition all_content (outputItems : list OutputItem) : list ContentItem :=
  concat (map content_of_item outputItems).

(** ** What the steps of a call maintain *)

(** The computation [m] takes every world to one related to it by [R],
    and throws only exceptions of [Q]. *)
Definition satisfies {A} (R : World -> World -> Prop) (Q : Exn -> Prop) (m : M A) : Prop :=
  forall w, R w (after (m w)) /\ forall e, result (m w) = Throw e -> Q e.

(** Every step of the call [p] does. *)
Fixpoint promise_ok {A} (R : World -> World -> Prop) (Q : Exn -> Prop) (p : Promise A) : Prop :=
  match p with
  | Settled o => forall e, o = Throw e -> Q e
  | Pending resume =>
      forall w,
        R w (snd (resume w))
        /\ match fst (resume w) with
           | Return p' => promise_ok R Q p'
           | Throw e => Q e
           end
  end.

(** Every step of the call [p] keeps [I], and in worlds that satisfy [I]
    the call ends with the outcome [o]. *)
Fixpoint promise_yields {A} (I : World -> Prop) (o : Outcome A) (p : Promise A) : Prop :=
  match p with
  | Settled o' => o' = o
  | Pending resume =>
      forall w, I w ->
        I (snd (resume w))
        /\ match fst (resume w) with
           | Return p' => promise_yields I o p'
           | Throw e => o = Throw e
           end
  end.

(** [listEntitiesByProject] with the reads that it gathers taken as
    calls in flight. *)
Definition listEntitiesByProject_gathered (projectId : string) : M (list Entity) :=
  ensureDirectories ;;
  let! project := getProject projectId in
  match project with
  | None => ret []
  | Some project =>
      let! entities :=
        Promise_all (map (fun ref => getEntity_async (ref_id ref)) (project_entities project)) in
      ret (omap id entities)
  end.

(** Every step of the call [p] keeps [I] and is a step of [R], and if
    the call is fulfilled, with a value [a] and in a world [w], then
    [F a w].  For a call that is settled, [w] is the world in which it
    was. *)
Fixpoint promise_ends {A} (I : World -> Prop) (R : World -> World -> Prop)
    (F : A -> World -> Prop) (p : Promise A) (w : World) : Prop :=
  match p with
  | Settled (Return a) => F a w
  | Settled (Throw _) => True
  | Pending resume =>
      forall w0, I w0 ->
        I (snd (resume w0))
        /\ R w0 (snd (resume w0))
        /\ match fst (resume w0) with
           | Return p' => promise_ends I R F p' (snd (resume w0))
           | Throw _ => True
           end
  end.

(** What [F] says of a fulfilled call stays true along the steps [R]
    of the other calls. *)
Definition lasting {A} (R : World -> World -> Prop) (F : A -> World -> Prop) : Prop :=
  forall a w w', F a w -> R w w' -> F a w'.

(** An entity file that is gone stays so. *)
Definition stays_gone (w w' : World) : Prop :=
  forall x, entity_node w x = None -> entity_node w' x = None.

(** What the calls of the cascade of project [pid], started in [w0] for
    the entities [ids], can have done to the files: the file of the
    project is still a removable file, empty or with a project of that
    id; the other project files are as they were; an entity file is as
    it was, or it is gone and was the file of one of [ids]. *)
Definition cascade_frame (w0 : World) (pid : string) (ids : list string) (w : World) : Prop :=
  initialized w
  /\ getDataDir w = getDataDir w0
  /\ (exists data,
        project_node w pid = Some (RegularFile data true)
        /\ (data = Malformed "" \/ exists P, data = Json P /\ project_id P = pid))
  /\ (forall x, x <> pid -> project_node w x = project_node w0 x)
  /\ (forall x, entity_node w x = entity_node w0 x \/ (x ∈ ids /\ entity_node w x = None)).

(** Any two worlds. *)
Definition any_step (w w' : World) : Prop := True.

(** ** Monad and world lemmas *)

Ltac wsimpl :=
  repeat first
    [ progress cbv beta iota delta [bind ret throw gets modify try_catch result after] in *
    | progress cbn [env_FUNNEL_DESIGN_DATA_DIR process_cwd initializedDataDir project_dirs
                    entity_dirs clock clock_reads entropy entropy_reads console mkdir_trace
                    set_initializedDataDir set_project_dirs set_entity_dirs set_clock_reads
                    set_entropy_reads set_console set_mkdir_trace
                    vol_get vol_set project_volume entity_volume fst snd
                    project_id project_name project_description project_tags
                    project_createdAt project_updatedAt project_entities
                    with_updatedAt with_entities entity_with_updatedAt
                    entity_id entity_projectId entity_createdAt entity_updatedAt
                    entity_researchMetadata entity_variant ref_id ref_type] in *
    | match goal with
      | |- context [getDataDir (?s ?v ?w)] =>
          progress change (getDataDir (s v w)) with (getDataDir w)
      | H : context [getDataDir (?s ?v ?w)] |- _ =>
          progress change (getDataDir (s v w)) with (getDataDir w) in H
      | |- context [getProjectsDir (?s ?v ?w)] =>
          progress change (getProjectsDir (s v w)) with (getProjectsDir w)
      | H : context [getProjectsDir (?s ?v ?w)] |- _ =>
          progress change (getProjectsDir (s v w)) with (getProjectsDir w) in H
      | |- context [getEntitiesDir (?s ?v ?w)] =>
          progress change (getEntitiesDir (s v w)) with (getEntitiesDir w)
      | H : context [getEntitiesDir (?s ?v ?w)] |- _ =>
          progress change (getEntitiesDir (s v w)) with (getEntitiesDir w) in H
      end ].

Lemma string_app_cons (x : Ascii.ascii) (a b : string) :
  String x a +:+ b = String x (a +:+ b).
Proof. reflexivity. Qed.

Lemma string_app_nil_l (a : string) : "" +:+ a = a.
Proof. reflexivity. Qed.

Lemma string_app_length (a b : string) :
  String.length (a +:+ b) = (String.length a + String.length b)%nat.
Proof.
  induction a as [|x a IH]; [reflexivity|].
  rewrite string_app_cons. simpl. now rewrite IH.
Qed.

Lemma string_app_assoc (a b c : string) : (a +:+ b) +:+ c = a +:+ (b +:+ c).
Proof.
  induction a as [|x a IH]; [reflexivity|].
  rewrite !string_app_cons. now rewrite IH.
Qed.

Lemma string_app_nil_r (a : string) : a +:+ "" = a.
Proof.
  induction a as [|x a IH]; [reflexivity|].
  rewrite string_app_cons. now rewrite IH.
Qed.

Lemma string_app_inj_r (a b t : string) : a +:+ t = b +:+ t -> a = b.
Proof.
  revert b. induction a as [|x a IH]; intros [|y b] H.
  - reflexivity.
  - apply (f_equal String.length) in H. rewrite !string_app_length in H. simpl in H. lia.
  - apply (f_equal String.length) in H. rewrite !string_app_length in H. simpl in H. lia.
  - rewrite !string_app_cons in H. inversion H; subst. f_equal. now apply IH.
Qed.

Lemma json_file_inj (a b : string) : json_file a = json_file b -> a = b.
Proof. apply string_app_inj_r. Qed.

Lemma projects_entities_dir_ne (w : World) : getProjectsDir w <> getEntitiesDir w.
Proof.
  unfold getProjectsDir, getEntitiesDir, join. intros H.
  apply String.app_inj in H. discriminate H.
Qed.

Lemma endsWith_app (a suffix : string) : endsWith (a +:+ suffix) suffix = true.
Proof.
  induction a as [|c a IH].
  - rewrite string_app_nil_l. destruct suffix; simpl; [reflexivity|].
    now rewrite Ascii.eqb_refl, String.eqb_refl.
  - rewrite string_app_cons. simpl. rewrite IH. apply orb_true_r.
Qed.

(** *** [ensureDirectories] *)

Lemma ensureDirectories_initialized (w : World) :
  initialized w -> ensureDirectories w = (Return tt, w).
Proof.
  intros H. unfold ensureDirectories. wsimpl.
  rewrite bool_decide_eq_true_2 by exact H. reflexivity.
Qed.

Lemma ensureDirectories_returns (w : World) : ensureDirectories w = (Return tt, ready w).
Proof.
  unfold ready, ensureDirectories, fs_mkdir. wsimpl.
  case_bool_decide; wsimpl; [reflexivity|].
  destruct (project_dirs w !! getProjectsDir w); wsimpl;
    destruct (entity_dirs w !! getEntitiesDir w); wsimpl; reflexivity.
Qed.

Lemma ready_initialized (w : World) : initialized (ready w).
Proof.
  unfold ready, ensureDirectories, fs_mkdir, initialized. wsimpl.
  case_bool_decide as Hc; wsimpl; [exact Hc|].
  destruct (project_dirs w !! getProjectsDir w); wsimpl;
    destruct (entity_dirs w !! getEntitiesDir w); wsimpl; reflexivity.
Qed.

Lemma ready_dataDir (w : World) : getDataDir (ready w) = getDataDir w.
Proof.
  unfold ready, ensureDirectories, fs_mkdir. wsimpl.
  case_bool_decide as Hc; wsimpl; [reflexivity|].
  destruct (project_dirs w !! getProjectsDir w); wsimpl;
    destruct (entity_dirs w !! getEntitiesDir w); wsimpl; reflexivity.
Qed.

Lemma ready_fixed (w : World) : initialized w -> ready w = w.
Proof. intros H. unfold ready. now rewrite ensureDirectories_initialized. Qed.

Lemma ready_project_node (w : World) (id : string) :
  project_node (ready w) id = project_node w id.
Proof.
  unfold project_node, project_dir, ready, ensureDirectories, fs_mkdir. wsimpl.
  case_bool_decide as Hc; wsimpl; [reflexivity|].
  destruct (project_dirs w !! getProjectsDir w) eqn:E; wsimpl;
    destruct (entity_dirs w !! getEntitiesDir w); wsimpl;
    rewrite ?lookup_insert_eq, ?E; reflexivity.
Qed.

Lemma ready_entity_node (w : World) (id : string) :
  entity_node (ready w) id = entity_node w id.
Proof.
  unfold entity_node, entity_dir, ready, ensureDirectories, fs_mkdir. wsimpl.
  case_bool_decide as Hc; wsimpl; [reflexivity|].
  destruct (project_dirs w !! getProjectsDir w); wsimpl;
    destruct (entity_dirs w !! getEntitiesDir w) eqn:E; wsimpl;
    rewrite ?lookup_insert_eq, ?E; reflexivity.
Qed.

Lemma bind_ensureDirectories {A} (k : M A) (w : World) :
  (ensureDirectories ;; k) w = k (ready w).
Proof. unfold bind. now rewrite ensureDirectories_returns. Qed.

(** *** Reading a record *)

Lemma getProject_initialized (w : World) (id : string) :
  initialized w ->
  getProject id w =
    (read_outcome "Failed to read project " (getProjectsDir w) id (project_node w id), w).
Proof.
  intros Hi. unfold getProject. rewrite bind_ensureDirectories, (ready_fixed w Hi).
  unfold fs_readFile, JSON_parse, ENOENT, project_node, project_dir. wsimpl.
  destruct (project_dirs w !! getProjectsDir w) as [d|]; wsimpl; [|reflexivity].
  destruct (d !! json_file id) as [[[v|text] r|]|]; wsimpl; reflexivity.
Qed.

Lemma getProject_eq (w : World) (id : string) :
  getProject id w =
    (read_outcome "Failed to read project " (getProjectsDir w) id (project_node w id), ready w).
Proof.
  transitivity (getProject id (ready w)).
  - unfold getProject. rewrite !bind_ensureDirectories.
    now rewrite (ready_fixed (ready w) (ready_initialized w)).
  - rewrite (getProject_initialized (ready w)) by apply ready_initialized.
    rewrite ready_project_node. unfold getProjectsDir. now rewrite ready_dataDir.
Qed.

Lemma getEntity_initialized (w : World) (id : string) :
  initialized w ->
  getEntity id w =
    (read_outcome "Failed to read entity " (getEntitiesDir w) id (entity_node w id), w).
Proof.
  intros Hi. unfold getEntity. rewrite bind_ensureDirectories, (ready_fixed w Hi).
  unfold fs_readFile, JSON_parse, ENOENT, entity_node, entity_dir. wsimpl.
  destruct (entity_dirs w !! getEntitiesDir w) as [d|]; wsimpl; [|reflexivity].
  destruct (d !! json_file id) as [[[v|text] r|]|]; wsimpl; reflexivity.
Qed.

Lemma getEntity_eq (w : World) (id : string) :
  getEntity id w =
    (read_outcome "Failed to read entity " (getEntitiesDir w) id (entity_node w id), ready w).
Proof.
  transitivity (getEntity id (ready w)).
  - unfold getEntity. rewrite !bind_ensureDirectories.
    now rewrite (ready_fixed (ready w) (ready_initialized w)).
  - rewrite (getEntity_initialized (ready w)) by apply ready_initialized.
    rewrite ready_entity_node. unfold getEntitiesDir. now rewrite ready_dataDir.
Qed.

Lemma read_outcome_Some {A} (label dir id : string) (n : option (FileNode A)) (v : A) :
  read_outcome label dir id n = Return (Some v) <-> exists x, n = Some x /\ holds x v.
Proof.
  unfold holds. split.
  - destruct n as [[[u|t] r|]|]; simpl; intros [=]; subst. eauto.
  - intros (x & -> & r & ->). reflexivity.
Qed.

Lemma read_outcome_None {A} (label dir id : string) (n : option (FileNode A)) :
  read_outcome label dir id n = Return None <-> n = None.
Proof.
  split.
  - destruct n as [[[u|t] r|]|]; simpl; intros [=]; reflexivity.
  - intros ->. reflexivity.
Qed.

Lemma contains_middle (a needle b : string) : contains (a +:+ needle +:+ b) needle.
Proof. exists a, b. reflexivity. Qed.

Lemma contains_app_l (a b needle : string) : contains a needle -> contains (a +:+ b) needle.
Proof.
  intros (x & y & ->). exists x, (y +:+ b). now rewrite !string_app_assoc.
Qed.

Lemma contains_app_r (a b needle : string) : contains b needle -> contains (a +:+ b) needle.
Proof.
  intros (x & y & ->). exists (a +:+ x), y. now rewrite !string_app_assoc.
Qed.

(** *** Operations on a project that does not exist *)

Lemma createEntity_missing (w : World) (id : string) (input : EntityInput) :
  project_node w id = None ->
  createEntity id input w = (Throw (Error ("Project " +:+ id +:+ " not found")), ready w).
Proof.
  intros H. unfold createEntity. rewrite bind_ensureDirectories.
  unfold bind. rewrite getProject_initialized by apply ready_initialized.
  now rewrite ready_project_node, H.
Qed.

Lemma listEntitiesByProject_missing (w : World) (id : string) :
  project_node w id = None -> listEntitiesByProject id w = (Return [], ready w).
Proof.
  intros H. unfold listEntitiesByProject. rewrite bind_ensureDirectories.
  unfold bind. rewrite getProject_initialized by apply ready_initialized.
  now rewrite ready_project_node, H.
Qed.

Lemma exportProjectToJson_missing (w : World) (id : string) :
  project_node w id = None ->
  result (exportProjectToJson id w) = Throw (Error ("Project " +:+ id +:+ " not found")).
Proof.
  intros H. unfold exportProjectToJson, bind. now rewrite getProject_eq, H.
Qed.

Lemma exportProjectToMarkdown_missing (w : World) (id : string) :
  project_node w id = None ->
  result (exportProjectToMarkdown id w) = Throw (Error ("Project " +:+ id +:+ " not found")).
Proof.
  intros H. unfold exportProjectToMarkdown, bind. now rewrite getProject_eq, H.
Qed.

(** ** Not-found semantics *)

(** C6. When no project file is stored under [id], [getProject id]
    resolves to null and does not throw, and [createEntity id] rejects
    with an error whose message contains [id]. Absence is the only
    benign read outcome: a project file that does not parse, or an entry
    that cannot be read as a file, makes [getProject] throw a
    READ_FAILED storage error that wraps the underlying cause. *)
Theorem not_found_semantics (w : World) (id : string) (input : EntityInput) :
  project_node w id = None ->
  result (getProject id w) = Return None
  /\ (exists message,
        result (createEntity id input w) = Throw (Error message) /\ contains message id)
  /\ (forall w' text removable,
        project_node w' id = Some (RegularFile (Malformed text) removable) ->
        result (getProject id w') =
          Throw (StorageError ("Failed to read project " +:+ id) READ_FAILED (SyntaxError text)))
  /\ (forall w',
        project_node w' id = Some SubDirectory ->
        result (getProject id w') =
          Throw (StorageError ("Failed to read project " +:+ id) READ_FAILED
                   (ErrnoException "EISDIR" "read" (getProjectsDir w') (json_file id)))).
Proof.
  intros Habsent. repeat split.
  - now rewrite getProject_eq, Habsent.
  - exists ("Project " +:+ id +:+ " not found"). split.
    + now rewrite createEntity_missing.
    + apply contains_middle.
  - intros w' text r H. now rewrite getProject_eq, H.
  - intros w' H. now rewrite getProject_eq, H.
Qed.

(** C10. For a project id with no stored project file, the two listing
    operations resolve to the empty list, whereas the two export
    operations throw the not-found error for the same id. *)
Theorem listing_missing_project_is_empty (w : World) (projectId : string) (type : EntityKind) :
  project_node w projectId = None ->
  result (listEntitiesByProject projectId w) = Return []
  /\ result (listEntitiesByType projectId type w) = Return []
  /\ result (exportProjectToJson projectId w) =
       Throw (Error ("Project " +:+ projectId +:+ " not found"))
  /\ result (exportProjectToMarkdown projectId w) =
       Throw (Error ("Project " +:+ projectId +:+ " not found")).
Proof.
  intros H. repeat split.
  - now rewrite listEntitiesByProject_missing.
  - unfold listEntitiesByType, bind. now rewrite listEntitiesByProject_missing.
  - now apply exportProjectToJson_missing.
  - now apply exportProjectToMarkdown_missing.
Qed.

(** *** Writing and deleting records *)

Lemma updateProject_existing (w : World) (p : Project) (old : FileData Project) (r : bool) :
  initialized w ->
  project_node w (project_id p) = Some (RegularFile old r) ->
  exists w',
    updateProject p w = (Return (with_updatedAt (clock w (clock_reads w)) p), w')
    /\ initialized w'
    /\ getDataDir w' = getDataDir w
    /\ (forall x, project_node w' x =
          if decide (x = project_id p)
          then Some (RegularFile (Json (with_updatedAt (clock w (clock_reads w)) p)) r)
          else project_node w x)
    /\ (forall x, entity_node w' x = entity_node w x).
Proof.
  intros Hi Hn. unfold updateProject. rewrite bind_ensureDirectories, (ready_fixed w Hi).
  unfold timestamp, Date_now, fs_writeFile, JSON_stringify. wsimpl.
  unfold project_node, project_dir in Hn.
  destruct (project_dirs w !! getProjectsDir w) as [d|] eqn:Ed; [|discriminate].
  wsimpl. rewrite Hn. wsimpl.
  eexists. split; [reflexivity|].
  unfold initialized, project_node, entity_node, project_dir, entity_dir. wsimpl.
  rewrite lookup_insert_eq.
  repeat split; try assumption.
  intros x. case_decide as Hx.
  - subst x. now rewrite lookup_insert_eq.
  - rewrite lookup_insert_ne, Ed; [reflexivity|]. intros H. apply Hx. now apply json_file_inj.
Qed.


Lemma deleteEntity_absent (w : World) (id : string) :
  initialized w -> entity_node w id = None -> deleteEntity id w = (Return false, w).
Proof.
  intros Hi Hn. unfold deleteEntity. rewrite bind_ensureDirectories, (ready_fixed w Hi).
  unfold bind. rewrite getEntity_initialized by assumption. now rewrite Hn.
Qed.

Lemma unlink_entity_phase (w : World) (id : string) (data : FileData Entity) (r : bool) :
  entity_node w id = Some (RegularFile data r) ->
  exists w',
    try_catch
      (let! dir := gets getEntitiesDir in
       fs_unlink entity_volume dir (json_file id) ;;
       ret true)
      (fun error =>
         if isNodeError error && code_is error "ENOENT" then ret false
         else throw (StorageError ("Failed to delete entity " +:+ id) DELETE_FAILED error)) w =
      (if r then Return true
       else Throw (StorageError ("Failed to delete entity " +:+ id) DELETE_FAILED
                     (ErrnoException "EPERM" "unlink" (getEntitiesDir w) (json_file id))), w')
    /\ (initialized w -> initialized w')
    /\ getDataDir w' = getDataDir w
    /\ (forall x, project_node w' x = project_node w x)
    /\ (forall x, entity_node w' x =
          if r then (if decide (x = id) then None else entity_node w x) else entity_node w x).
Proof.
  intros Hn. unfold fs_unlink. wsimpl.
  unfold entity_node, entity_dir in Hn.
  destruct (entity_dirs w !! getEntitiesDir w) as [d|] eqn:Ed; [|discriminate].
  wsimpl. rewrite Hn. destruct r; wsimpl.
  - eexists. split; [reflexivity|].
    unfold initialized, project_node, entity_node, project_dir, entity_dir. wsimpl.
    rewrite lookup_insert_eq. repeat split; auto.
    intros x. case_decide as Hx.
    + subst x. now rewrite lookup_delete_eq.
    + rewrite lookup_delete_ne, Ed; [reflexivity|]. intros H. apply Hx. now apply json_file_inj.
  - eexists. split; [reflexivity|].
    repeat split; auto.
Qed.

Lemma deleteEntity_present (w : World) (id : string) (e : Entity) (r : bool) :
  initialized w ->
  entity_node w id = Some (RegularFile (Json e) r) ->
  project_file_ok w (entity_projectId e) ->
  exists w',
    deleteEntity id w =
      (if r then Return true
       else Throw (StorageError ("Failed to delete entity " +:+ id) DELETE_FAILED
                     (ErrnoException "EPERM" "unlink" (getEntitiesDir w) (json_file id))), w')
    /\ initialized w'
    /\ getDataDir w' = getDataDir w
    /\ (forall x, project_node w' x =
          match project_node w (entity_projectId e) with
          | Some (RegularFile (Json p) rp) =>
              if decide (x = entity_projectId e)
              then Some (RegularFile (Json (without_ref id (clock w (clock_reads w)) p)) rp)
              else project_node w x
          | _ => project_node w x
          end)
    /\ (forall x, entity_node w' x =
          if r then (if decide (x = id) then None else entity_node w x) else entity_node w x).
Proof.
  intros Hi Hn Ho. unfold deleteEntity. rewrite bind_ensureDirectories, (ready_fixed w Hi).
  unfold bind at 1. rewrite getEntity_initialized by assumption. rewrite Hn. cbn [read_outcome].
  unfold bind at 1. unfold bind at 1. rewrite getProject_initialized by assumption.
  destruct (project_node w (entity_projectId e)) as [n|] eqn:En.
  - destruct (Ho n En) as (p & rp & -> & Hid). cbn [read_outcome].
    set (q := with_entities _ p).
    destruct (updateProject_existing w q (Json p) rp Hi) as (w1 & E1 & Hi1 & Hd1 & Hp1 & He1).
    { subst q. wsimpl. now rewrite Hid. }
    unfold bind at 1. rewrite E1. unfold ret at 1.
    destruct (unlink_entity_phase w1 id (Json e) r) as (w2 & E2 & Hi2 & Hd2 & Hp2 & He2).
    { now rewrite He1. }
    exists w2. rewrite E2. unfold getEntitiesDir. rewrite Hd1. split; [reflexivity|].
    split; [auto|]. split; [congruence|]. split.
    + intros x. rewrite Hp2, Hp1. subst q. wsimpl. rewrite Hid. reflexivity.
    + intros x. rewrite He2. destruct r; [|apply He1]. case_decide; [reflexivity|apply He1].
  - cbn [read_outcome]. unfold ret at 1.
    destruct (unlink_entity_phase w id (Json e) r Hn) as (w2 & E2 & Hi2 & Hd2 & Hp2 & He2).
    exists w2. rewrite E2. repeat split; auto.
Qed.

Lemma ready_clock (w : World) :
  clock (ready w) = clock w /\ clock_reads (ready w) = clock_reads w.
Proof.
  unfold ready, ensureDirectories, fs_mkdir. wsimpl.
  case_bool_decide as Hc; wsimpl; [split; reflexivity|].
  destruct (project_dirs w !! getProjectsDir w); wsimpl;
    destruct (entity_dirs w !! getEntitiesDir w); wsimpl; split; reflexivity.
Qed.

Lemma deleteEntity_ready (w : World) (id : string) :
  deleteEntity id w = deleteEntity id (ready w).
Proof.
  unfold deleteEntity. rewrite !bind_ensureDirectories.
  now rewrite (ready_fixed (ready w) (ready_initialized w)).
Qed.

(** ** Deleting an entity *)

(** C4. [deleteEntity id] returns false and leaves every project and
    entity file as it was when no entity file is stored under [id].
    When the entity exists and its file can be removed: if the owning
    project, looked up by the entity's [projectId] and stored under its
    own id, exists, its file is rewritten with the references to [id]
    filtered out (and a fresh [updatedAt]); if the owning project is
    absent nothing is written and no error is raised; in both cases the
    entity file is then deleted, the other files are untouched, and true
    is returned. *)
Theorem deleteEntity_behaviour (w : World) (id : string) :
  let w' := after (deleteEntity id w) in
  (entity_node w id = None ->
     result (deleteEntity id w) = Return false
     /\ (forall x, project_node w' x = project_node w x)
     /\ (forall x, entity_node w' x = entity_node w x))
  /\ (forall e p rp,
        entity_node w id = Some (RegularFile (Json e) true) ->
        project_node w (entity_projectId e) = Some (RegularFile (Json p) rp) ->
        project_id p = entity_projectId e ->
        result (deleteEntity id w) = Return true
        /\ project_node w' (entity_projectId e) =
             Some (RegularFile
                     (Json (with_updatedAt (clock w (clock_reads w))
                              (with_entities
                                 (filter (fun r => ref_id r <> id) (project_entities p)) p)))
                     rp)
        /\ (forall x, x <> entity_projectId e -> project_node w' x = project_node w x)
        /\ entity_node w' id = None
        /\ (forall x, x <> id -> entity_node w' x = entity_node w x))
  /\ (forall e,
        entity_node w id = Some (RegularFile (Json e) true) ->
        project_node w (entity_projectId e) = None ->
        result (deleteEntity id w) = Return true
        /\ (forall x, project_node w' x = project_node w x)
        /\ entity_node w' id = None
        /\ (forall x, x <> id -> entity_node w' x = entity_node w x)).
Proof.
  intros w'. subst w'. rewrite deleteEntity_ready.
  pose proof (ready_initialized w) as Hi.
  destruct (ready_clock w) as [Hc Hr].
  split; [|split].
  - intros Hn. rewrite deleteEntity_absent; [|assumption|now rewrite ready_entity_node].
    unfold result, after; simpl. split; [reflexivity|].
    split; intros x; [apply ready_project_node|apply ready_entity_node].
  - intros e p rp He Hp Hid.
    destruct (deleteEntity_present (ready w) id e true Hi) as (w1 & E & _ & _ & Hp1 & He1).
    { now rewrite ready_entity_node. }
    { intros n. rewrite ready_project_node, Hp. intros [= <-]. eauto. }
    rewrite E. unfold result, after; simpl. rewrite ready_project_node, Hp, Hc, Hr in Hp1.
    split; [reflexivity|]. split; [|split; [|split]].
    + rewrite Hp1. now rewrite decide_True by reflexivity.
    + intros x Hx. rewrite Hp1. rewrite decide_False by assumption. apply ready_project_node.
    + rewrite He1. now rewrite decide_True by reflexivity.
    + intros x Hx. rewrite He1. rewrite decide_False by assumption. apply ready_entity_node.
  - intros e He Hp.
    destruct (deleteEntity_present (ready w) id e true Hi) as (w1 & E & _ & _ & Hp1 & He1).
    { now rewrite ready_entity_node. }
    { intros n. rewrite ready_project_node, Hp. discriminate. }
    rewrite E. unfold result, after; simpl. rewrite ready_project_node, Hp in Hp1.
    split; [reflexivity|]. split; [|split].
    + intros x. rewrite Hp1. apply ready_project_node.
    + rewrite He1. now rewrite decide_True by reflexivity.
    + intros x Hx. rewrite He1. rewrite decide_False by assumption. apply ready_entity_node.
Qed.

(** C9. Deleting an entity is not atomic on error. When the entity and
    its owning project (stored under its own id) both exist and
    [deleteEntity] fails with a
    DELETE_FAILED storage error, the owning project has already been
    rewritten without the references to the entity, while the entity
    file is still there: the entity is left as an orphan. *)
Theorem deleteEntity_not_atomic (w : World) (id : string) (e : Entity) (p : Project)
    (message : string) (cause : Exn) :
  result (getEntity id w) = Return (Some e) ->
  result (getProject (entity_projectId e) w) = Return (Some p) ->
  project_id p = entity_projectId e ->
  result (deleteEntity id w) = Throw (StorageError message DELETE_FAILED cause) ->
  let w' := after (deleteEntity id w) in
  (exists p',
      result (getProject (entity_projectId e) w') = Return (Some p')
      /\ project_entities p' = filter (fun r => ref_id r <> id) (project_entities p)
      /\ id ∉ map ref_id (project_entities p'))
  /\ result (getEntity id w') = Return (Some e).
Proof.
  intros He Hp Hid Hfail w'. subst w'.
  rewrite getEntity_eq in He. rewrite getProject_eq in Hp.
  apply read_outcome_Some in He as (ne & He & re & ->).
  apply read_outcome_Some in Hp as (np & Hp & rp & ->).
  rewrite deleteEntity_ready in Hfail |- *.
  destruct (deleteEntity_present (ready w) id e re (ready_initialized w))
    as (w1 & E & Hi1 & _ & Hp1 & He1).
  { now rewrite ready_entity_node. }
  { intros n. rewrite ready_project_node, Hp. intros [= <-]. eauto. }
  rewrite E in Hfail |- *. unfold result, after in Hfail |- *. cbn [fst snd] in Hfail |- *.
  destruct re; [discriminate|].
  rewrite ready_project_node, Hp in Hp1.
  split.
  - eexists. rewrite getProject_initialized by assumption.
    rewrite Hp1, decide_True by reflexivity. simpl. split; [reflexivity|].
    split; [reflexivity|].
    rewrite list_elem_of_fmap. intros (r & -> & Hr).
    apply list_elem_of_filter in Hr as [Hne _]. now apply Hne.
  - rewrite getEntity_initialized by assumption.
    now rewrite He1, ready_entity_node, He.
Qed.

(** *** Creating an entity *)

Lemma timestamp_spec (w : World) :
  exists w', timestamp w = (Return (clock w (clock_reads w)), w') /\ same_files w w'.
Proof.
  unfold timestamp, Date_now. wsimpl. eexists. split; [reflexivity|].
  unfold same_files, initialized, project_node, entity_node, project_dir, entity_dir.
  wsimpl. repeat split; auto.
Qed.

Lemma generateId_spec (w : World) :
  exists id w', generateId w = (Return id, w') /\ same_files w w'.
Proof.
  unfold generateId, Date_now, Math_random_toString36. wsimpl.
  eexists. eexists. split; [reflexivity|].
  unfold same_files, initialized, project_node, entity_node, project_dir, entity_dir.
  wsimpl. repeat split; auto.
Qed.

Lemma write_entity_spec (w : World) (e : Entity) :
  (exists error,
      (let! dir := gets getEntitiesDir in
       fs_writeFile entity_volume dir (json_file (entity_id e)) (JSON_stringify e)) w
      = (Throw error, w))
  \/ (exists w' r,
        (let! dir := gets getEntitiesDir in
         fs_writeFile entity_volume dir (json_file (entity_id e)) (JSON_stringify e)) w
        = (Return tt, w')
        /\ (initialized w -> initialized w')
        /\ getDataDir w' = getDataDir w
        /\ (forall x, project_node w' x = project_node w x)
        /\ (forall x, entity_node w' x =
              if decide (x = entity_id e) then Some (RegularFile (Json e) r)
              else entity_node w x)).
Proof.
  unfold fs_writeFile, JSON_stringify, ENOENT. wsimpl.
  destruct (entity_dirs w !! getEntitiesDir w) as [d|] eqn:Ed; wsimpl; [|left; eauto].
  assert (Hwritten : forall r,
    let w' := set_entity_dirs
                (<[getEntitiesDir w := <[json_file (entity_id e) := RegularFile (Json e) r]> d]>
                   (entity_dirs w)) w in
    (initialized w -> initialized w')
    /\ getDataDir w' = getDataDir w
    /\ (forall x, project_node w' x = project_node w x)
    /\ (forall x, entity_node w' x =
          if decide (x = entity_id e) then Some (RegularFile (Json e) r) else entity_node w x)).
  { intros r w'. subst w'.
    unfold initialized, project_node, entity_node, project_dir, entity_dir. wsimpl.
    rewrite lookup_insert_eq. repeat split; auto.
    intros x. case_decide as Hx.
    - subst x. now rewrite lookup_insert_eq.
    - rewrite lookup_insert_ne, Ed; [reflexivity|]. intros H. apply Hx. now apply json_file_inj. }
  destruct (d !! json_file (entity_id e)) as [[old r|]|]; wsimpl.
  - right. eexists. exists r. split; [reflexivity|]. apply Hwritten.
  - left. eauto.
  - right. eexists. exists true. split; [reflexivity|]. apply Hwritten.
Qed.

Lemma createEntity_ready (w : World) (pid : string) (input : EntityInput) :
  createEntity pid input w = createEntity pid input (ready w).
Proof.
  unfold createEntity. rewrite !bind_ensureDirectories.
  now rewrite (ready_fixed (ready w) (ready_initialized w)).
Qed.

(** C1. Let [P] be an existing project, read back under its own id.
    When [createEntity (project_id P) input] succeeds and returns [e],
    the project then read under that id has the references of [P]
    followed by exactly one new reference, whose id and type are those
    of [e], and [getEntity (entity_id e)] returns a record whose
    [projectId] is the id of [P]. *)
Theorem createEntity_referential_integrity
    (w : World) (P : Project) (input : EntityInput) (e : Entity) (w' : World) :
  result (getProject (project_id P) w) = Return (Some P) ->
  createEntity (project_id P) input w = (Return e, w') ->
  (exists P',
      result (getProject (project_id P) w') = Return (Some P')
      /\ project_entities P' =
           (project_entities P ++ [mkRef (entity_id e) (entity_type e)])%list)
  /\ (exists e',
        result (getEntity (entity_id e) w') = Return (Some e')
        /\ entity_projectId e' = project_id P).
Proof.
  intros HP Hc. rewrite getProject_eq in HP.
  apply read_outcome_Some in HP as (np & HP & rp & ->).
  rewrite createEntity_ready in Hc. pose proof (ready_initialized w) as Hi.
  rewrite <- (ready_project_node w) in HP.
  set (w1 := ready w) in *. clearbody w1.
  unfold createEntity in Hc. rewrite bind_ensureDirectories, (ready_fixed w1 Hi) in Hc.
  unfold bind at 1 in Hc. rewrite getProject_initialized in Hc by assumption.
  rewrite HP in Hc. cbn [read_outcome] in Hc.
  destruct (generateId_spec w1) as (id & w2 & E2 & Hi2 & Hd2 & Hp2 & He2).
  unfold bind at 1 in Hc. rewrite E2 in Hc.
  destruct (timestamp_spec w2) as (w3 & E3 & Hi3 & Hd3 & Hp3 & He3).
  unfold bind at 1 in Hc. rewrite E3 in Hc.
  destruct (timestamp_spec w3) as (w4 & E4 & Hi4 & Hd4 & Hp4 & He4).
  unfold bind at 1 in Hc. rewrite E4 in Hc. cbv zeta in Hc.
  set (full := mkEntity id _ _ _ _ _) in Hc.
  unfold bind at 1 in Hc.
  destruct (write_entity_spec w4 full) as [(err & E5)|(w5 & r & E5 & Hi5 & Hd5 & Hp5 & He5)];
    rewrite E5 in Hc; [discriminate|].
  set (P1 := with_entities _ P) in Hc.
  destruct (updateProject_existing w5 P1 (Json P) rp) as (w6 & E6 & Hi6 & Hd6 & Hp6 & He6).
  { auto. }
  { rewrite Hp5, Hp4, Hp3, Hp2. exact HP. }
  unfold bind at 1 in Hc. rewrite E6 in Hc. unfold ret in Hc.
  injection Hc as <- <-.
  split.
  - eexists. rewrite getProject_initialized by assumption.
    rewrite Hp6. change (project_id P1) with (project_id P).
    rewrite decide_True by reflexivity. split; reflexivity.
  - exists full. rewrite getEntity_initialized by assumption.
    rewrite He6, He5. rewrite decide_True by reflexivity. split; reflexivity.
Qed.

(** *** Calls in flight *)

Lemma Promise_induction {A} (P : Promise A -> Prop) :
  (forall o, P (Settled o)) ->
  (forall resume,
     (forall w, match fst (resume w) with Return p' => P p' | Throw _ => True end) ->
     P (Pending resume)) ->
  forall p, P p.
Proof.
  intros Hs Hp.
  exact (fix IH (p : Promise A) : P p :=
           match p with
           | Settled o => Hs o
           | Pending resume =>
               Hp resume
                 (fun w =>
                    match fst (resume w) as o
                      return match o with Return p' => P p' | Throw _ => True end
                    with
                    | Return p' => IH p'
                    | Throw _ => I
                    end)
           end).
Qed.

Lemma await_await {A B} (m : M A) (k : A -> Promise B) (w : World) :
  await (await! x := m in k x) w = (let! x := m in await (k x)) w.
Proof.
  cbn [await]. unfold bind, ret. destruct (m w) as [[a|e] w']; reflexivity.
Qed.

Lemma await_then {A B} (p : Promise A) (k : A -> Promise B) (w : World) :
  await (call! x := p in k x) w = (let! x := await p in await (k x)) w.
Proof.
  revert w. induction p as [[a|e]|resume IH] using Promise_induction; intros w.
  - reflexivity.
  - reflexivity.
  - cbn [Promise_then await]. unfold bind, ret.
    specialize (IH w). destruct (resume w) as [[p'|e] w']; cbn [fst] in IH; [|reflexivity].
    apply IH.
Qed.

Section Steps.

Context (R : World -> World -> Prop) (Q : Exn -> Prop) {HR : PreOrder R}.

Lemma satisfies_bind {A B} (m : M A) (f : A -> M B) :
  satisfies R Q m -> (forall a, satisfies R Q (f a)) -> satisfies R Q (bind m f).
Proof using HR.
  intros Hm Hf w. destruct (Hm w) as [H1 H2]. unfold bind, after, result in *.
  destruct (m w) as [[a|e] w1]; cbn [fst snd] in *.
  - destruct (Hf a w1) as [H3 H4]. split; [now transitivity w1|exact H4].
  - split; [exact H1|]. intros e' [= <-]. now apply H2.
Qed.

Lemma promise_ok_resolved {A} (a : A) : promise_ok R Q (resolved a).
Proof. intros e [=]. Qed.

Lemma promise_ok_await {A B} (m : M A) (k : A -> Promise B) :
  satisfies R Q m -> (forall x, promise_ok R Q (k x)) ->
  promise_ok R Q (await! x := m in k x).
Proof.
  intros Hm Hk w. destruct (Hm w) as [H1 H2]. unfold bind, ret, after, result in *.
  destruct (m w) as [[a|e] w1]; cbn [fst snd] in *.
  - split; [exact H1|apply Hk].
  - split; [exact H1|now apply H2].
Qed.

Lemma promise_ok_then {A B} (p : Promise A) (k : A -> Promise B) :
  promise_ok R Q p -> (forall x, promise_ok R Q (k x)) ->
  promise_ok R Q (call! x := p in k x).
Proof.
  intros Hp Hk. induction p as [[a|e]|resume IH] using Promise_induction.
  - apply Hk.
  - intros e' [= <-]. now apply Hp.
  - cbn [Promise_then promise_ok] in *. intros w.
    specialize (Hp w). specialize (IH w). unfold bind, ret.
    destruct (resume w) as [[p'|e] w1]; cbn [fst snd] in *.
    + split; [apply Hp|]. apply IH, Hp.
    + exact Hp.
Qed.

Lemma await_satisfies {A} (p : Promise A) : promise_ok R Q p -> satisfies R Q (await p).
Proof using HR.
  induction p as [o|resume IH] using Promise_induction; intros Hp w.
  - cbn [await]. unfold after, result; cbn [fst snd]. split; [reflexivity|exact Hp].
  - cbn [await promise_ok] in *. specialize (Hp w). specialize (IH w).
    unfold bind, after, result.
    destruct (resume w) as [[p'|e] w1]; cbn [fst snd] in *.
    + destruct Hp as [H1 H2]. destruct (IH H2 w1) as [H3 H4].
      split; [now transitivity w1|exact H4].
    + destruct Hp as [H1 H2]. split; [exact H1|]. now intros e' [= <-].
Qed.

Lemma nth_pending_lookup {A} (n : nat) (promises : list (Promise A)) (i : nat)
    (resume : M (Promise A)) :
  nth_pending n promises = Some (i, resume) -> promises !! i = Some (Pending resume).
Proof.
  revert n i. induction promises as [|p ps IH]; intros n i; cbn [nth_pending]; [discriminate|].
  destruct p as [o|r].
  - destruct (nth_pending n ps) as [[j r']|] eqn:E; [|discriminate].
    cbn. intros [= <- <-]. now apply (IH n).
  - destruct n as [|n]; [now intros [= <- <-]|].
    destruct (nth_pending n ps) as [[j r']|] eqn:E; [|discriminate].
    cbn. intros [= <- <-]. now apply (IH n).
Qed.

Lemma resumed_ok {A} (resume : M (Promise A)) (w : World) :
  promise_ok R Q (Pending resume) ->
  R w (snd (resumed resume w)) /\ promise_ok R Q (fst (resumed resume w)).
Proof.
  intros Hp. specialize (Hp w). unfold resumed.
  destruct (resume w) as [[p'|e] w1]; cbn [fst snd] in *.
  - exact Hp.
  - split; [apply Hp|]. intros e' [= <-]. apply Hp.
Qed.

Lemma rejection_ok {A} (p : Promise A) (e : Exn) :
  promise_ok R Q p -> rejection p = Some e -> Q e.
Proof. destruct p as [[a|e']|r]; cbn; intros H [= <-]. now apply H. Qed.

Lemma earlier_ok (first later : option Exn) :
  (forall e, first = Some e -> Q e) -> (forall e, later = Some e -> Q e) ->
  forall e, earlier first later = Some e -> Q e.
Proof. destruct first; cbn; auto. Qed.

Lemma interleave_ok {A} (choices : list nat) (promises : list (Promise A))
    (rejected : option Exn) (w : World) :
  Forall (promise_ok R Q) promises ->
  (forall e, rejected = Some e -> Q e) ->
  R w (snd (interleave choices promises rejected w))
  /\ Forall (promise_ok R Q) (fst (fst (interleave choices promises rejected w)))
  /\ (forall e, snd (fst (interleave choices promises rejected w)) = Some e -> Q e).
Proof using HR.
  revert promises rejected w.
  induction choices as [|c choices IH]; intros ps rej w Hps Hrej; cbn [interleave].
  - cbn [fst snd]. split; [reflexivity|]. split; assumption.
  - destruct (nth_pending _ ps) as [[i resume]|] eqn:E.
    2:{ cbn [fst snd]. split; [reflexivity|]. split; assumption. }
    apply nth_pending_lookup in E.
    pose proof (Forall_lookup_1 _ _ _ _ Hps E) as Hp.
    destruct (resumed_ok resume w Hp) as [H1 H2].
    destruct (resumed resume w) as [p w1]; cbn [fst snd] in *.
    destruct (IH (<[i := p]> ps) (earlier rej (rejection p)) w1) as (H3 & H4 & H5).
    + now apply Forall_insert.
    + apply earlier_ok; [exact Hrej|]. intros e. now apply rejection_ok.
    + split; [now transitivity w1|]. split; assumption.
Qed.

Lemma await_each_ok {A} (promises : list (Promise A)) (rejected : option Exn) (w : World) :
  Forall (promise_ok R Q) promises ->
  (forall e, rejected = Some e -> Q e) ->
  R w (snd (await_each promises rejected w))
  /\ (forall e, snd (fst (await_each promises rejected w)) = Some e -> Q e).
Proof using HR.
  intros Hps. revert rejected w.
  induction Hps as [|p ps Hp Hps IH]; intros rej w Hrej; cbn [await_each].
  - cbn [fst snd]. split; [reflexivity|assumption].
  - destruct (await_satisfies p Hp w) as [H1 H2]. unfold after, result in *.
    destruct (await p w) as [o w1]; cbn [fst snd] in *.
    destruct (IH (earlier rej (rejection (Settled o))) w1) as [H3 H4].
    { apply earlier_ok; [exact Hrej|]. destruct o as [a|e]; cbn; intros e' [= <-].
      now apply H2. }
    destruct (await_each ps _ w1) as [[os rej'] w2]; cbn [fst snd] in *.
    split; [now transitivity w1|exact H4].
Qed.

Lemma Promise_all_satisfies {A} (promises : list (Promise A)) :
  (forall w v, R w (set_gatherings v w)) ->
  Forall (promise_ok R Q) promises ->
  satisfies R Q (Promise_all promises).
Proof using HR.
  intros Hg Hps w. unfold Promise_all.
  set (w0 := set_gatherings _ w).
  assert (Hhead : forall e, head (omap rejection promises) = Some e -> Q e).
  { intros e He. apply head_Some_elem_of in He.
    apply list_elem_of_omap in He as (p & Hin & Hp).
    eapply rejection_ok; [|exact Hp]. rewrite Forall_forall in Hps. now apply Hps. }
  destruct (interleave_ok (schedule w (gatherings w)) promises _ w0 Hps Hhead) as (H1 & H2 & H3).
  destruct (interleave _ promises _ w0) as [[ps rej] w1]; cbn [fst snd] in *.
  destruct (await_each_ok ps rej w1 H2 H3) as [H4 H5].
  destruct (await_each ps rej w1) as [[os rej'] w2]; cbn [fst snd] in *.
  assert (Hw : R w w2).
  { transitivity w0; [apply Hg|]. now transitivity w1. }
  unfold after, result. destruct rej' as [e|]; cbn [fst snd].
  - split; [exact Hw|]. intros e' [= <-]. now apply H5.
  - split; [exact Hw|]. intros e' [=].
Qed.

End Steps.

(** *** Calls that only read *)

Section Gather.

Context (I : World -> Prop).

Lemma resumed_yields {A} (resume : M (Promise A)) (o : Outcome A) (w : World) :
  promise_yields I o (Pending resume) -> I w ->
  I (snd (resumed resume w)) /\ promise_yields I o (fst (resumed resume w)).
Proof.
  intros Hp Hw. specialize (Hp w Hw). unfold resumed.
  destruct (resume w) as [[p'|e] w1]; cbn [fst snd] in *.
  - exact Hp.
  - split; [apply Hp|]. cbn. symmetry. apply Hp.
Qed.

Lemma await_yields {A} (p : Promise A) (o : Outcome A) (w : World) :
  promise_yields I o p -> I w -> I (after (await p w)) /\ result (await p w) = o.
Proof.
  revert w. induction p as [o'|resume IH] using Promise_induction; intros w Hp Hw.
  - cbn in *. now split.
  - cbn [await promise_yields] in *. specialize (Hp w Hw). specialize (IH w).
    unfold bind, after, result.
    destruct (resume w) as [[p'|e] w1]; cbn [fst snd] in *.
    + destruct Hp as [H1 H2]. now apply IH.
    + destruct Hp as [H1 H2]. split; [exact H1|now symmetry].
Qed.

Lemma rejection_yields {A} (p : Promise A) (o : Outcome A) (e : Exn) :
  promise_yields I o p -> rejection p = Some e -> o = Throw e.
Proof.
  destruct p as [[a|e']|r]; cbn [rejection promise_yields]; intros H [= <-]. now symmetry.
Qed.

Lemma interleave_yields {A} (choices : list nat) (promises : list (Promise A))
    (outcomes : list (Outcome A)) (rejected : option Exn) (w : World) :
  Forall2 (promise_yields I) outcomes promises ->
  I w ->
  (forall e, rejected = Some e -> Throw e ∈ outcomes) ->
  I (snd (interleave choices promises rejected w))
  /\ Forall2 (promise_yields I) outcomes (fst (fst (interleave choices promises rejected w)))
  /\ (forall e, snd (fst (interleave choices promises rejected w)) = Some e ->
        Throw e ∈ outcomes).
Proof.
  revert promises rejected w.
  induction choices as [|c choices IH]; intros ps rej w Hps Hw Hrej; cbn [interleave].
  - cbn [fst snd]. auto.
  - destruct (nth_pending _ ps) as [[i resume]|] eqn:E; [|cbn [fst snd]; auto].
    apply nth_pending_lookup in E.
    destruct (Forall2_lookup_r _ _ _ _ _ Hps E) as (o & Ho & Hp).
    destruct (resumed_yields resume o w Hp Hw) as [H1 H2].
    destruct (resumed resume w) as [p w1]; cbn [fst snd] in *.
    apply IH; [|exact H1|].
    + rewrite <- (list_insert_id outcomes i o Ho). now apply Forall2_insert.
    + intros e. destruct rej as [e0|]; cbn [earlier]; [apply Hrej|].
      intros He. rewrite <- (rejection_yields p o e H2 He).
      eapply list_elem_of_lookup_2, Ho.
Qed.

Lemma await_each_yields {A} (T : Exn -> Prop) (promises : list (Promise A))
    (outcomes : list (Outcome A)) (rejected : option Exn) (w : World) :
  Forall2 (promise_yields I) outcomes promises ->
  I w ->
  (forall e, Throw e ∈ outcomes -> T e) ->
  (forall e, rejected = Some e -> T e) ->
  I (snd (await_each promises rejected w))
  /\ fst (fst (await_each promises rejected w)) = outcomes
  /\ (forall e, snd (fst (await_each promises rejected w)) = Some e -> T e)
  /\ (snd (fst (await_each promises rejected w)) = None ->
      rejected = None /\ forall e, Throw e ∉ outcomes).
Proof.
  intros Hps. revert rejected w.
  induction Hps as [|o p os ps Hp Hps IH]; intros rej w Hw HT Hrej; cbn [await_each].
  - cbn [fst snd]. split; [exact Hw|]. split; [reflexivity|]. split; [exact Hrej|].
    intros ->. split; [reflexivity|]. intros e He. now apply elem_of_nil in He.
  - destruct (await_yields p o w Hp Hw) as [H1 H2]. unfold after, result in *.
    destruct (await p w) as [o' w1]; cbn [fst snd] in *. subst o'.
    destruct (IH (earlier rej (rejection (Settled o))) w1 H1) as (H3 & H4 & H5 & H6).
    { intros e He. apply HT. now apply list_elem_of_further. }
    { intros e. destruct rej as [e0|]; cbn [earlier]; [apply Hrej|].
      destruct o as [a|e']; cbn; intros [= <-]. apply HT. apply list_elem_of_here. }
    destruct (await_each ps _ w1) as [[os' rej'] w2]; cbn [fst snd] in *.
    split; [exact H3|]. split; [now rewrite H4|]. split; [exact H5|].
    intros Hnone. destruct (H6 Hnone) as [Hearlier Hnot].
    destruct rej as [e0|]; [discriminate Hearlier|]. split; [reflexivity|].
    intros e He. apply elem_of_cons in He as [<-|He]; [discriminate Hearlier|].
    now apply (Hnot e).
Qed.

Lemma Promise_all_yields {A} (promises : list (Promise A)) (outcomes : list (Outcome A))
    (w : World) :
  (forall w v, I w -> I (set_gatherings v w)) ->
  Forall2 (promise_yields I) outcomes promises ->
  I w ->
  I (after (Promise_all promises w))
  /\ match result (Promise_all promises w) with
     | Return values => outcomes = map Return values
     | Throw e => Throw e ∈ outcomes
     end.
Proof.
  intros Hg Hps Hw. unfold Promise_all.
  set (w0 := set_gatherings _ w).
  assert (Hw0 : I w0) by now apply Hg.
  assert (Hhead : forall e, head (omap rejection promises) = Some e -> Throw e ∈ outcomes).
  { intros e He. apply head_Some_elem_of in He.
    apply list_elem_of_omap in He as (p & Hin & Hp).
    apply list_elem_of_lookup_1 in Hin as [i Hi].
    destruct (Forall2_lookup_r _ _ _ _ _ Hps Hi) as (o & Ho & Hy).
    rewrite <- (rejection_yields p o e Hy Hp). eapply list_elem_of_lookup_2, Ho. }
  destruct (interleave_yields (schedule w (gatherings w)) promises outcomes _ w0 Hps Hw0 Hhead)
    as (H1 & H2 & H3).
  destruct (interleave _ promises _ w0) as [[ps rej] w1]; cbn [fst snd] in *.
  destruct (await_each_yields (fun e => Throw e ∈ outcomes) ps outcomes rej w1 H2 H1)
    as (H4 & H5 & H6 & H7); [auto|exact H3|].
  destruct (await_each ps rej w1) as [[os rej'] w2]; cbn [fst snd] in *. subst os.
  unfold after, result. destruct rej' as [e|]; cbn [fst snd].
  - split; [exact H4|]. now apply H6.
  - split; [exact H4|]. destruct (H7 eq_refl) as [_ Hnot].
    clear -Hnot. induction outcomes as [|o os IH]; [reflexivity|].
    destruct o as [a|e]; [|now destruct (Hnot e (list_elem_of_here _ _))].
    change (Return a :: os = Return a :: map Return (omap fulfilled os)). f_equal. apply IH.
    intros e He. apply (Hnot e). now apply list_elem_of_further.
Qed.

End Gather.

(** *** Calls that have ended *)

Section Ends.

Context (I : World -> Prop) (R : World -> World -> Prop) {HR : PreOrder R}.

Lemma promise_ends_later {A} (F : A -> World -> Prop) (p : Promise A) (w w' : World) :
  lasting R F -> R w w' -> promise_ends I R F p w -> promise_ends I R F p w'.
Proof. intros HF Hw. destruct p as [[a|e]|resume]; cbn [promise_ends]; eauto. Qed.

Lemma promise_ends_resolved {A} (F : A -> World -> Prop) (a : A) (w : World) :
  F a w -> promise_ends I R F (resolved a) w.
Proof. intros H. exact H. Qed.

Lemma promise_ends_await {A B} (F : B -> World -> Prop) (m : M A) (k : A -> Promise B)
    (w : World) :
  (forall w0, I w0 ->
     I (after (m w0)) /\ R w0 (after (m w0))
     /\ forall a, result (m w0) = Return a -> promise_ends I R F (k a) (after (m w0))) ->
  promise_ends I R F (await! x := m in k x) w.
Proof.
  intros H. cbn [promise_ends]. intros w0 Hw0. destruct (H w0 Hw0) as (H1 & H2 & H3).
  unfold bind, ret, after, result in *.
  destruct (m w0) as [[a|e] w1]; cbn [fst snd] in *; auto.
Qed.

Lemma promise_ends_then {A B} (G : A -> World -> Prop) (F : B -> World -> Prop)
    (p : Promise A) (k : A -> Promise B) (w : World) :
  promise_ends I R G p w ->
  (forall a w', G a w' -> promise_ends I R F (k a) w') ->
  promise_ends I R F (call! x := p in k x) w.
Proof.
  intros Hp Hk. revert w Hp.
  induction p as [[a|e]|resume IH] using Promise_induction; intros w Hp;
    cbn [Promise_then promise_ends] in *; auto.
  intros w0 Hw0. destruct (Hp w0 Hw0) as (H1 & H2 & H3). specialize (IH w0).
  unfold bind, ret. destruct (resume w0) as [[p'|e] w1]; cbn [fst snd] in *; auto.
Qed.

Lemma resumed_ends {A} (F : A -> World -> Prop) (resume : M (Promise A)) (w0 w : World) :
  promise_ends I R F (Pending resume) w0 -> I w ->
  I (snd (resumed resume w))
  /\ R w (snd (resumed resume w))
  /\ promise_ends I R F (fst (resumed resume w)) (snd (resumed resume w)).
Proof.
  intros Hp Hw. destruct (Hp w Hw) as (H1 & H2 & H3). unfold resumed.
  destruct (resume w) as [[p'|e] w1]; cbn [fst snd] in *; auto.
Qed.

Lemma await_ends {A} (F : A -> World -> Prop) (p : Promise A) (w : World) :
  promise_ends I R F p w -> I w ->
  I (after (await p w)) /\ R w (after (await p w))
  /\ forall a, result (await p w) = Return a -> F a (after (await p w)).
Proof using HR.
  revert w. induction p as [[a|e]|resume IH] using Promise_induction; intros w Hp Hw.
  - cbn in *. split; [exact Hw|]. split; [reflexivity|]. now intros a' [= <-].
  - cbn in *. split; [exact Hw|]. split; [reflexivity|]. intros a' [=].
  - cbn [await]. destruct (Hp w Hw) as (H1 & H2 & H3). specialize (IH w).
    unfold bind, after, result in *.
    destruct (resume w) as [[p'|e] w1]; cbn [fst snd] in *.
    + destruct (IH w1 H3 H1) as (H4 & H5 & H6).
      split; [exact H4|]. split; [now transitivity w1|exact H6].
    + split; [exact H1|]. split; [exact H2|]. intros a [=].
Qed.

Lemma interleave_ends {X A} (F : X -> A -> World -> Prop) (choices : list nat) (xs : list X)
    (promises : list (Promise A)) (rejected : option Exn) (w : World) :
  (forall x, lasting R (F x)) ->
  Forall2 (fun x p => promise_ends I R (F x) p w) xs promises ->
  I w ->
  I (snd (interleave choices promises rejected w))
  /\ R w (snd (interleave choices promises rejected w))
  /\ Forall2 (fun x p => promise_ends I R (F x) p (snd (interleave choices promises rejected w)))
       xs (fst (fst (interleave choices promises rejected w))).
Proof using HR.
  intros HF. revert promises rejected w.
  induction choices as [|c choices IH]; intros ps rej w Hps Hw; cbn [interleave].
  - cbn [fst snd]. split; [exact Hw|]. split; [reflexivity|exact Hps].
  - destruct (nth_pending _ ps) as [[i resume]|] eqn:E;
      [|cbn [fst snd]; split; [exact Hw|]; split; [reflexivity|exact Hps]].
    apply nth_pending_lookup in E.
    destruct (Forall2_lookup_r _ _ _ _ _ Hps E) as (x & Hx & Hp).
    destruct (resumed_ends (F x) resume w w Hp Hw) as (H1 & H2 & H3).
    destruct (resumed resume w) as [p w1]; cbn [fst snd] in *.
    destruct (IH (<[i := p]> ps) (earlier rej (rejection p)) w1) as (H4 & H5 & H6);
      [|exact H1|].
    + rewrite <- (list_insert_id xs i x Hx). apply Forall2_insert; [|exact H3].
      eapply Forall2_impl; [exact Hps|]. intros y q Hq. cbn beta in Hq.
      eapply promise_ends_later; [apply HF|exact H2|exact Hq].
    + split; [exact H4|]. split; [now transitivity w1|exact H6].
Qed.

Lemma await_each_ends {X A} (F : X -> A -> World -> Prop) (xs : list X)
    (promises : list (Promise A)) (rejected : option Exn) (w : World) :
  (forall x, lasting R (F x)) ->
  Forall2 (fun x p => promise_ends I R (F x) p w) xs promises ->
  I w ->
  I (snd (await_each promises rejected w))
  /\ R w (snd (await_each promises rejected w))
  /\ Forall2 (fun x o => forall a, o = Return a -> F x a (snd (await_each promises rejected w)))
       xs (fst (fst (await_each promises rejected w))).
Proof using HR.
  intros HF. revert xs rejected w.
  induction promises as [|p ps IH]; intros xs rej w Hps Hw; cbn [await_each].
  - apply Forall2_nil_inv_r in Hps as ->. cbn [fst snd].
    split; [exact Hw|]. split; [reflexivity|constructor].
  - apply Forall2_cons_inv_r in Hps as (x & xs' & Hp & Hps & ->).
    destruct (await_ends (F x) p w Hp Hw) as (H1 & H2 & H3). unfold after, result in *.
    destruct (await p w) as [o w1]; cbn [fst snd] in *.
    destruct (IH xs' (earlier rej (rejection (Settled o))) w1) as (H4 & H5 & H6);
      [|exact H1|].
    { eapply Forall2_impl; [exact Hps|]. intros y q Hq. cbn beta in Hq.
      eapply promise_ends_later; [apply HF|exact H2|exact Hq]. }
    destruct (await_each ps _ w1) as [[os rej'] w2]; cbn [fst snd] in *.
    split; [exact H4|]. split; [now transitivity w1|].
    constructor; [|exact H6].
    intros a Ha. eapply HF; [|exact H5]. now apply H3.
Qed.

Lemma await_each_fulfilled {A} (promises : list (Promise A)) (rejected : option Exn)
    (w : World) :
  snd (fst (await_each promises rejected w)) = None ->
  rejected = None
  /\ fst (fst (await_each promises rejected w))
     = map Return (omap fulfilled (fst (fst (await_each promises rejected w)))).
Proof.
  revert rejected w. induction promises as [|p ps IH]; intros rej w; cbn [await_each].
  - cbn [fst snd]. intros ->. now split.
  - destruct (await p w) as [o w1].
    specialize (IH (earlier rej (rejection (Settled o))) w1).
    destruct (await_each ps _ w1) as [[os rej'] w2]; cbn [fst snd] in *.
    intros Hnone. destruct (IH Hnone) as [He Hos].
    destruct rej as [e0|]; [discriminate He|]. split; [reflexivity|].
    destruct o as [a|e]; [|discriminate He].
    cbn [omap list_omap fulfilled map]. now rewrite <- Hos.
Qed.

(** When calls that were just started are gathered, and the gathering
    is fulfilled, what each call ends with holds in the world after. *)
Lemma Promise_all_ends {X A} (F : X -> A -> World -> Prop) (xs : list X)
    (promises : list (Promise A)) (w : World) :
  (forall x, lasting R (F x)) ->
  (forall w v, I w -> I (set_gatherings v w)) ->
  (forall w v, R w (set_gatherings v w)) ->
  Forall2 (fun x p => promise_ends I R (F x) p w) xs promises ->
  I w ->
  I (after (Promise_all promises w))
  /\ R w (after (Promise_all promises w))
  /\ forall values,
       result (Promise_all promises w) = Return values ->
       Forall2 (fun x a => F x a (after (Promise_all promises w))) xs values.
Proof using HR.
  intros HF HI Hg Hps Hw. unfold Promise_all.
  set (w0 := set_gatherings _ w).
  assert (Hw0 : I w0) by now apply HI.
  assert (Hps0 : Forall2 (fun x p => promise_ends I R (F x) p w0) xs promises).
  { eapply Forall2_impl; [exact Hps|]. intros y q Hq. cbn beta in Hq.
    eapply promise_ends_later; [apply HF|apply Hg|exact Hq]. }
  destruct (interleave_ends F (schedule w (gatherings w)) xs promises
              (head (omap rejection promises)) w0 HF Hps0 Hw0) as (H1 & H2 & H3).
  destruct (interleave _ promises _ w0) as [[ps rej] w1]; cbn [fst snd] in *.
  destruct (await_each_ends F xs ps rej w1 HF H3 H1) as (H4 & H5 & H6).
  pose proof (await_each_fulfilled ps rej w1) as H7.
  destruct (await_each ps rej w1) as [[os rej'] w2]; cbn [fst snd] in *.
  assert (Hww : R w w2).
  { transitivity w0; [apply Hg|]. now transitivity w1. }
  unfold after, result. destruct rej' as [e|]; cbn [fst snd].
  - split; [exact H4|]. split; [exact Hww|]. intros values [=].
  - split; [exact H4|]. split; [exact Hww|]. intros values [= <-].
    destruct (H7 eq_refl) as [_ Hos]. rewrite Hos in H6.
    apply Forall2_fmap_r in H6. eapply Forall2_impl; [exact H6|].
    intros x a Ha. now apply Ha.
Qed.

End Ends.

(** *** Cascading delete *)

Lemma projects_kept_refl (w : World) : projects_kept w w.
Proof. intros x. now left. Qed.

Lemma projects_kept_trans (w1 w2 w3 : World) :
  projects_kept w1 w2 -> projects_kept w2 w3 -> projects_kept w1 w3.
Proof.
  intros H12 H23 x.
  destruct (H12 x) as [E12|(p & p' & r & E1 & E2 & Hid)];
    destruct (H23 x) as [E23|(q & q' & s & F2 & F3 & Hid')].
  - left. congruence.
  - right. exists q, q', s. rewrite <- E12. auto.
  - right. exists p, p', r. rewrite E23. auto.
  - right. rewrite E2 in F2. injection F2 as <- <-. exists p, q', r.
    repeat split; congruence.
Qed.

Lemma project_file_ok_kept (w w' : World) (id : string) :
  projects_kept w w' -> project_file_ok w id -> project_file_ok w' id.
Proof.
  intros Hk Hok n Hn. destruct (Hk id) as [E|(p & p' & r & E1 & E2 & Hid)].
  - apply Hok. congruence.
  - rewrite E2 in Hn. injection Hn as <-. exists p', r. split; [reflexivity|].
    destruct (Hok _ E1) as (p0 & r0 & [= <- <-] & Hp0). congruence.
Qed.

Lemma deleteEntity_step (w : World) (id : string) :
  initialized w ->
  entity_deletable w id ->
  exists b w',
    deleteEntity id w = (Return b, w')
    /\ initialized w'
    /\ getDataDir w' = getDataDir w
    /\ projects_kept w w'
    /\ (forall x, entity_node w' x = if decide (x = id) then None else entity_node w x).
Proof.
  intros Hi Hd. destruct (entity_node w id) as [n|] eqn:En.
  - destruct (Hd n En) as (e & -> & Hok).
    destruct (deleteEntity_present w id e true Hi En Hok) as (w' & E & Hi' & Hd' & Hp & He).
    exists true, w'. split; [assumption|]. split; [assumption|]. split; [assumption|].
    split; [|assumption].
    intros x. rewrite Hp.
    destruct (project_node w (entity_projectId e)) as [[[p|t] rp|]|] eqn:Ep; try now left.
    case_decide as Hx; [|now left]. subst x. right.
    exists p, (without_ref id (clock w (clock_reads w)) p), rp. auto.
  - exists false, w. rewrite deleteEntity_absent by assumption.
    split; [reflexivity|]. split; [assumption|]. split; [reflexivity|].
    split; [apply projects_kept_refl|].
    intros x. case_decide; congruence.
Qed.

Lemma bind_ret_r {A} (m : M A) (w : World) : (let! x := m in ret x) w = m w.
Proof. unfold bind, ret. now destruct (m w) as [[a|e] w']. Qed.

Lemma await_resolved {A} (a : A) (w : World) : await (resolved a) w = ret a w.
Proof. reflexivity. Qed.

Lemma write_in_two_steps (dir file : string) (data : FileData Project) (w : World) :
  (fs_open_for_writing project_volume dir file ;;
   fs_write_and_close project_volume dir file data) w
  = fs_writeFile project_volume dir file data w.
Proof.
  unfold fs_open_for_writing, fs_write_and_close, fs_writeFile, ENOENT. wsimpl.
  destruct (project_dirs w !! dir) as [d|] eqn:Ed; wsimpl; [|reflexivity].
  destruct (d !! file) as [[old r|]|] eqn:Ef; wsimpl; [|reflexivity|];
    rewrite !lookup_insert_eq; wsimpl; now rewrite !insert_insert_eq.
Qed.

Lemma await_getProject_async (id : string) (w : World) :
  await (getProject_async id) w = getProject id w.
Proof.
  unfold getProject_async, getProject. rewrite await_await, !bind_ensureDirectories.
  rewrite await_await. apply bind_ret_r.
Qed.

Lemma await_getEntity_async (id : string) (w : World) :
  await (getEntity_async id) w = getEntity id w.
Proof.
  unfold getEntity_async, getEntity. rewrite await_await, !bind_ensureDirectories.
  rewrite await_await. apply bind_ret_r.
Qed.

Ltac psimpl :=
  repeat first [ progress wsimpl | progress cbn [await Promise_then] in * ].

Lemma await_updateProject_async (p : Project) (w : World) :
  await (updateProject_async p) w = updateProject p w.
Proof.
  unfold updateProject_async, updateProject, fs_writeFile_async.
  unfold timestamp, Date_now, fs_open_for_writing, fs_write_and_close, fs_writeFile, ENOENT,
    JSON_stringify, resolved.
  psimpl. rewrite ensureDirectories_returns. set (w1 := ready w). clearbody w1. psimpl.
  destruct (project_dirs w1 !! getProjectsDir w1) as [d|] eqn:Ed; psimpl; [|reflexivity].
  destruct (d !! json_file (project_id p)) as [[old r|]|] eqn:Ef; psimpl; [|reflexivity|];
    rewrite !lookup_insert_eq; psimpl; now rewrite !insert_insert_eq.
Qed.

Lemma bind_run {A B} (m : M A) (f : A -> M B) (w w' : World) (o : Outcome A) :
  m w = (o, w') ->
  bind m f w = match o with Return a => f a w' | Throw e => (Throw e, w') end.
Proof. intros H. unfold bind. now rewrite H. Qed.

Lemma bind_cong {A B} (m1 m2 : M A) (f g : A -> M B) (w : World) :
  m1 w = m2 w -> (forall a w', f a w' = g a w') -> bind m1 f w = bind m2 g w.
Proof. intros Hm Hf. unfold bind. rewrite Hm. destruct (m2 w) as [[a|e] w']; auto. Qed.

Lemma bind_assoc {A B C} (m : M A) (f : A -> M B) (g : B -> M C) (w : World) :
  bind (bind m f) g w = bind m (fun a => bind (f a) g) w.
Proof. unfold bind. now destruct (m w) as [[a|e] w']. Qed.

Lemma await_deleteEntity_async (id : string) (w : World) :
  await (deleteEntity_async id) w = deleteEntity id w.
Proof.
  unfold deleteEntity_async, deleteEntity.
  rewrite await_await, !bind_ensureDirectories.
  rewrite await_then. apply bind_cong; [apply await_getEntity_async|].
  intros [entity|] w1; [|reflexivity].
  rewrite await_then, bind_assoc. apply bind_cong; [apply await_getProject_async|].
  intros project w2. rewrite await_then.
  apply bind_cong.
  - destruct project as [project|]; [|reflexivity].
    rewrite await_then. apply bind_cong; [apply await_updateProject_async|]. reflexivity.
  - intros _ w3. rewrite await_await. apply bind_ret_r.
Qed.

Lemma earlier_twice {A} (rej : option Exn) (p : Promise A) (o : Outcome A) :
  (forall e, rejection p = Some e -> o = Throw e) ->
  earlier (earlier rej (rejection p)) (rejection (Settled o))
  = earlier rej (rejection (Settled o)).
Proof.
  intros H. destruct rej as [e0|]; [reflexivity|]. cbn [earlier].
  destruct (rejection p) as [e|] eqn:E; [|reflexivity].
  rewrite (H e eq_refl). reflexivity.
Qed.

Lemma await_each_alone {A} (p : Promise A) (rej : option Exn) (w : World) :
  await_each [p] rej w
  = ([result (await p w)], earlier rej (rejection (Settled (result (await p w)))),
     after (await p w)).
Proof.
  cbn [await_each]. unfold result, after. now destruct (await p w) as [o w'].
Qed.

Lemma interleave_alone {A} (choices : list nat) (p : Promise A) (rej : option Exn)
    (w : World) :
  await_each (fst (fst (interleave choices [p] rej w)))
    (snd (fst (interleave choices [p] rej w))) (snd (interleave choices [p] rej w))
  = await_each [p] rej w.
Proof.
  revert p rej w. induction choices as [|c choices IH]; intros p rej w; [reflexivity|].
  cbn [interleave]. destruct p as [o|resume]; [reflexivity|].
  cbn [List.filter is_pending length]. rewrite Nat.mod_1_r.
  cbn [nth_pending]. unfold resumed.
  destruct (resume w) as [[p'|e] w1] eqn:E.
  - change (<[0%nat := p']> [Pending resume]) with [p']. rewrite IH.
    rewrite !await_each_alone. cbn [await]. unfold bind. rewrite E.
    rewrite earlier_twice; [reflexivity|].
    intros e He. destruct p' as [[a|e']|r]; try discriminate He.
    injection He as <-. reflexivity.
  - change (<[0%nat := Settled (Throw e)]> [Pending resume]) with [@Settled A (Throw e)].
    rewrite IH. rewrite !await_each_alone. cbn [await]. unfold bind. rewrite E.
    unfold result; cbn [fst]. now destruct rej.
Qed.

(** The calls of a gathering cannot overlap when the schedule lets them
    run one after the other, or when there is at most one call: they
    then run in list order, each one to its end. *)
Lemma Promise_all_in_turn {A} (promises : list (Promise A)) (w : World) :
  calls_in_turn w (length promises) ->
  Promise_all promises w =
    (let '(outcomes, rejected, w') :=
       await_each promises (head (omap rejection promises))
         (set_gatherings (S (gatherings w)) w) in
     match rejected with
     | Some e => (Throw e, w')
     | None => (Return (omap fulfilled outcomes), w')
     end).
Proof.
  intros [H|H]; unfold Promise_all.
  - rewrite H. reflexivity.
  - destruct promises as [|p [|q promises]]; [| |cbn in H; lia].
    + now destruct (schedule w (gatherings w)).
    + set (rej := head (omap rejection [p])). set (w0 := set_gatherings _ w).
      pose proof (interleave_alone (schedule w (gatherings w)) p rej w0) as Ha.
      destruct (interleave _ [p] rej w0) as [[ps rej'] w1]; cbn [fst snd] in Ha.
      now rewrite Ha.
Qed.

Lemma started_calls_pending (l : list EntityRef) :
  head (omap rejection (map (fun ref => deleteEntity_async (ref_id ref)) l)) = None.
Proof.
  replace (omap rejection (map (fun ref => deleteEntity_async (ref_id ref)) l))
    with (@nil Exn); [reflexivity|].
  induction l as [|a l IH]; [reflexivity|exact IH].
Qed.

Lemma deleteEntity_all (l : list EntityRef) (w : World) :
  initialized w ->
  (forall ref, ref ∈ l -> entity_deletable w (ref_id ref)) ->
  exists bs w',
    await_each (map (fun ref => deleteEntity_async (ref_id ref)) l) None w
      = (map Return bs, None, w')
    /\ initialized w'
    /\ getDataDir w' = getDataDir w
    /\ projects_kept w w'
    /\ (forall x, entity_node w' x =
          if decide (x ∈ map ref_id l) then None else entity_node w x).
Proof.
  revert w. induction l as [|a l IH]; intros w Hi Hall.
  - exists [], w. split; [reflexivity|]. split; [assumption|]. split; [reflexivity|].
    split; [apply projects_kept_refl|].
    intros x. rewrite decide_False; [reflexivity|]. apply not_elem_of_nil.
  - destruct (deleteEntity_step w (ref_id a) Hi) as (b & w1 & E1 & Hi1 & Hd1 & Hk1 & He1).
    { apply Hall. left. }
    destruct (IH w1 Hi1) as (bs & w2 & E2 & Hi2 & Hd2 & Hk2 & He2).
    { intros ref Hin n Hn. rewrite He1 in Hn. case_decide; [discriminate|].
      destruct (Hall ref (list_elem_of_further _ _ _ Hin) n Hn) as (e & -> & Hok).
      exists e. split; [reflexivity|]. eapply project_file_ok_kept; eassumption. }
    exists (b :: bs), w2. cbn [map await_each]. rewrite await_deleteEntity_async, E1.
    cbn [earlier rejection]. rewrite E2.
    split; [reflexivity|]. split; [assumption|]. split; [congruence|].
    split; [eapply projects_kept_trans; eassumption|].
    intros x. rewrite He2, He1. cbn [map].
    destruct (decide (x = ref_id a)) as [->|Hx].
    + rewrite (decide_True (P := ref_id a ∈ ref_id a :: map ref_id l)) by left.
      now destruct (decide (ref_id a ∈ map ref_id l)).
    + destruct (decide (x ∈ map ref_id l)) as [Hin|Hin].
      * rewrite decide_True by now right. reflexivity.
      * rewrite decide_False; [reflexivity|]. intros [?|?]%elem_of_cons; contradiction.
Qed.

Lemma unlink_project_phase (w : World) (id : string) (data : FileData Project) :
  project_node w id = Some (RegularFile data true) ->
  exists w',
    try_catch
      (let! dir := gets getProjectsDir in
       fs_unlink project_volume dir (json_file id) ;;
       ret true)
      (fun error =>
         if isNodeError error && code_is error "ENOENT" then ret false
         else throw (StorageError ("Failed to delete project " +:+ id) DELETE_FAILED error)) w =
      (Return true, w')
    /\ (initialized w -> initialized w')
    /\ getDataDir w' = getDataDir w
    /\ (forall x, project_node w' x = if decide (x = id) then None else project_node w x)
    /\ (forall x, entity_node w' x = entity_node w x).
Proof.
  intros Hn. unfold fs_unlink. wsimpl.
  unfold project_node, project_dir in Hn.
  destruct (project_dirs w !! getProjectsDir w) as [d|] eqn:Ed; [|discriminate].
  wsimpl. rewrite Hn. wsimpl.
  eexists. split; [reflexivity|].
  unfold initialized, project_node, entity_node, project_dir, entity_dir. wsimpl.
  rewrite lookup_insert_eq. repeat split; auto.
  intros x. case_decide as Hx.
  - subst x. now rewrite lookup_delete_eq.
  - rewrite lookup_delete_ne, Ed; [reflexivity|]. intros H. apply Hx. now apply json_file_inj.
Qed.

(** *** The steps of a cascade *)

Lemma stays_gone_preorder : PreOrder stays_gone.
Proof.
  split.
  - intros w x H. exact H.
  - intros w1 w2 w3 H12 H23 x H. apply H23, H12, H.
Qed.

Lemma read_entity_step (id : string) (w : World) :
  initialized w ->
  try_catch
    (let! dir := gets getEntitiesDir in
     let! data := fs_readFile entity_volume dir (json_file id) in
     let! e := JSON_parse data in
     ret (Some e))
    (fun error =>
       if isNodeError error && code_is error "ENOENT" then ret None
       else throw (StorageError ("Failed to read entity " +:+ id) READ_FAILED error)) w
  = (read_outcome "Failed to read entity " (getEntitiesDir w) id (entity_node w id), w).
Proof.
  intros Hi. pose proof (getEntity_initialized w id Hi) as Hg.
  unfold getEntity in Hg. now rewrite bind_ensureDirectories, (ready_fixed w Hi) in Hg.
Qed.

Lemma read_project_step (id : string) (w : World) :
  initialized w ->
  try_catch
    (let! dir := gets getProjectsDir in
     let! data := fs_readFile project_volume dir (json_file id) in
     let! p := JSON_parse data in
     ret (Some p))
    (fun error =>
       if isNodeError error && code_is error "ENOENT" then ret None
       else throw (StorageError ("Failed to read project " +:+ id) READ_FAILED error)) w
  = (read_outcome "Failed to read project " (getProjectsDir w) id (project_node w id), w).
Proof.
  intros Hi. pose proof (getProject_initialized w id Hi) as Hg.
  unfold getProject in Hg. now rewrite bind_ensureDirectories, (ready_fixed w Hi) in Hg.
Qed.

Lemma stamp_step (project : Project) (w : World) :
  initialized w ->
  exists now w',
    (ensureDirectories ;;
     let! now := timestamp in
     let! dir := gets getProjectsDir in
     ret (with_updatedAt now project, dir)) w
    = (Return (with_updatedAt now project, getProjectsDir w), w')
    /\ initialized w'
    /\ getDataDir w' = getDataDir w
    /\ (forall x, project_node w' x = project_node w x)
    /\ (forall x, entity_node w' x = entity_node w x).
Proof.
  intros Hi. rewrite bind_ensureDirectories, (ready_fixed w Hi).
  unfold timestamp, Date_now. wsimpl. eexists _, _. split; [reflexivity|].
  split; [exact Hi|]. repeat split.
Qed.

Lemma open_step (dir file : string) (w : World) :
  exists o w',
    fs_open_for_writing project_volume dir file w = (o, w')
    /\ (initialized w -> initialized w')
    /\ getDataDir w' = getDataDir w
    /\ (forall x, entity_node w' x = entity_node w x)
    /\ (forall x data r,
          dir = getProjectsDir w -> file = json_file x ->
          project_node w x = Some (RegularFile data r) ->
          o = Return tt
          /\ forall y, project_node w' y
                       = if decide (y = x) then Some (RegularFile (Malformed "") r)
                         else project_node w y).
Proof.
  unfold fs_open_for_writing, ENOENT. wsimpl.
  destruct (project_dirs w !! dir) as [d|] eqn:Ed; wsimpl.
  2:{ eexists _, _. split; [reflexivity|]. split; [auto|]. split; [reflexivity|].
      split; [reflexivity|].
      intros x data r -> -> Hn. unfold project_node, project_dir in Hn.
      rewrite Ed in Hn. discriminate Hn. }
  destruct (d !! file) as [[old r0|]|] eqn:Ef; wsimpl;
    (eexists _, _; split; [reflexivity|]; split; [auto|]; split; [reflexivity|];
     split; [reflexivity|]); intros x data r -> -> Hn;
    unfold project_node, project_dir in *; wsimpl; rewrite Ed in Hn; rewrite Ef in Hn;
    try discriminate Hn.
  injection Hn as -> ->. split; [reflexivity|].
  intros y. rewrite lookup_insert_eq. case_decide as Hy.
  - subst y. now rewrite lookup_insert_eq.
  - rewrite lookup_insert_ne, Ed; [reflexivity|]. intros H. apply Hy. now apply json_file_inj.
Qed.

Lemma write_step (dir file : string) (data : FileData Project) (w : World) :
  exists w',
    fs_write_and_close project_volume dir file data w = (Return tt, w')
    /\ (initialized w -> initialized w')
    /\ getDataDir w' = getDataDir w
    /\ (forall x, entity_node w' x = entity_node w x)
    /\ (forall x,
          dir = getProjectsDir w -> file = json_file x ->
          forall y, project_node w' y
                    = match project_node w x with
                      | Some (RegularFile _ r) =>
                          if decide (y = x) then Some (RegularFile data r) else project_node w y
                      | _ => project_node w y
                      end).
Proof.
  unfold fs_write_and_close. wsimpl.
  destruct (project_dirs w !! dir) as [d|] eqn:Ed; wsimpl.
  2:{ eexists. split; [reflexivity|]. split; [auto|]. split; [reflexivity|].
      split; [reflexivity|].
      intros x -> -> y. unfold project_node, project_dir. now rewrite Ed. }
  destruct (d !! file) as [[old r0|]|] eqn:Ef; wsimpl;
    (eexists; split; [reflexivity|]; split; [auto|]; split; [reflexivity|];
     split; [reflexivity|]); intros x -> -> y;
    unfold project_node, project_dir in *; wsimpl; rewrite ?Ed, ?Ef; try reflexivity.
  rewrite lookup_insert_eq. case_decide as Hy.
  - subst y. now rewrite lookup_insert_eq.
  - rewrite lookup_insert_ne; [reflexivity|]. intros H. apply Hy. now apply json_file_inj.
Qed.

Lemma unlink_entity_step (id : string) (w : World) :
  exists o w',
    try_catch
      (let! dir := gets getEntitiesDir in
       fs_unlink entity_volume dir (json_file id) ;;
       ret true)
      (fun error =>
         if isNodeError error && code_is error "ENOENT" then ret false
         else throw (StorageError ("Failed to delete entity " +:+ id) DELETE_FAILED error)) w
    = (o, w')
    /\ (initialized w -> initialized w')
    /\ getDataDir w' = getDataDir w
    /\ (forall x, project_node w' x = project_node w x)
    /\ (forall x, x <> id -> entity_node w' x = entity_node w x)
    /\ (entity_node w' id = entity_node w id \/ entity_node w' id = None)
    /\ (forall b, o = Return b -> entity_node w' id = None).
Proof.
  unfold fs_unlink, ENOENT. wsimpl.
  unfold entity_node, entity_dir.
  destruct (entity_dirs w !! getEntitiesDir w) as [d|] eqn:Ed; wsimpl.
  2:{ eexists _, _. split; [reflexivity|]. rewrite Ed. repeat split; auto. }
  destruct (d !! json_file id) as [[old [|]|]|] eqn:Ef; wsimpl;
    (eexists _, _; split; [reflexivity|]); wsimpl; rewrite ?lookup_insert_eq, ?Ed, ?Ef.
  all: split; [auto|]; split; [reflexivity|]; split; [reflexivity|].
  - split; [|split].
    + intros x Hx. rewrite lookup_delete_ne; [reflexivity|].
      intros H. apply Hx. symmetry. now apply json_file_inj.
    + right. apply lookup_delete_eq.
    + intros _ _. apply lookup_delete_eq.
  - split; [reflexivity|]. split; [now left|]. intros b [=].
  - split; [reflexivity|]. split; [now left|]. intros b [=].
  - split; [reflexivity|]. split; [now left|]. reflexivity.
Qed.

(** The awaited [ensureDirectories] of a call in flight. *)
Lemma promise_ends_ensure {B} (I : World -> Prop) (R : World -> World -> Prop)
    `{!Reflexive R} (F : B -> World -> Prop) (p : Promise B) (w : World) :
  (forall w0, I w0 -> initialized w0) ->
  (forall w0, I w0 -> promise_ends I R F p w0) ->
  promise_ends I R F (await! _ := ensureDirectories in p) w.
Proof.
  intros HI Hp. apply promise_ends_await. intros w0 Hw0.
  rewrite ensureDirectories_initialized by now apply HI.
  unfold after, result; cbn [fst snd]. split; [exact Hw0|]. split; [reflexivity|].
  intros _ _. now apply Hp.
Qed.

(** A call of [deleteEntity], whatever the steps of other such calls
    between its own: when it is fulfilled, the file of its entity is
    not there. *)
Lemma deleteEntity_async_gone (id : string) (w : World) :
  promise_ends initialized stays_gone (fun (_ : bool) w' => entity_node w' id = None)
    (deleteEntity_async id) w.
Proof.
  pose proof stays_gone_preorder as HR.
  unfold deleteEntity_async.
  apply promise_ends_ensure; [apply _|auto|]. intros w1 Hw1.
  apply (promise_ends_then initialized stays_gone
           (fun entity w' => entity = None -> entity_node w' id = None)).
  { unfold getEntity_async.
    apply promise_ends_ensure; [apply _|auto|]. intros w2 Hw2.
    apply promise_ends_await. intros w3 Hw3.
    rewrite read_entity_step by exact Hw3. unfold after, result; cbn [fst snd].
    split; [exact Hw3|]. split; [reflexivity|].
    intros entity Hread. apply promise_ends_resolved. intros ->.
    destruct (entity_node w3 id) as [[[v|text] r|]|]; cbn in Hread;
      try discriminate Hread. reflexivity. }
  intros [e|] w2 Hgone; [|apply promise_ends_resolved; now apply Hgone].
  apply (promise_ends_then initialized stays_gone (fun _ _ => True)).
  { unfold getProject_async.
    apply promise_ends_ensure; [apply _|auto|]. intros w3 Hw3.
    apply promise_ends_await. intros w4 Hw4.
    rewrite read_project_step by exact Hw4. unfold after, result; cbn [fst snd].
    split; [exact Hw4|]. split; [reflexivity|].
    intros project _. now apply promise_ends_resolved. }
  intros project w3 _.
  apply (promise_ends_then initialized stays_gone (fun _ _ => True)).
  { destruct project as [P|]; [|now apply promise_ends_resolved].
    cbv zeta.
    apply (promise_ends_then initialized stays_gone (fun _ _ => True));
      [|intros; now apply promise_ends_resolved].
    unfold updateProject_async.
    apply promise_ends_await. intros w4 Hw4.
    destruct (stamp_step (with_entities
                            (filter (fun r => ref_id r <> id) (project_entities P)) P) w4 Hw4)
      as (now & w5 & E & Hi5 & _ & _ & He5).
    rewrite E. unfold after, result; cbn [fst snd].
    split; [exact Hi5|]. split; [intros x; now rewrite He5|].
    intros stamped [= <-]. cbv zeta. cbn [fst snd].
    apply (promise_ends_then initialized stays_gone (fun _ _ => True));
      [|intros; now apply promise_ends_resolved].
    unfold fs_writeFile_async.
    apply promise_ends_await. intros w6 Hw6.
    destruct (open_step (getProjectsDir w4)
                (json_file (project_id (with_updatedAt now
                   (with_entities (filter (fun r => ref_id r <> id) (project_entities P)) P))))
                w6) as (o & w7 & E7 & Hi7 & _ & He7 & _).
    rewrite E7. unfold after, result; cbn [fst snd].
    split; [auto|]. split; [intros x; now rewrite He7|].
    intros _ _.
    apply promise_ends_await. intros w8 Hw8.
    match goal with
    | |- context [fs_write_and_close ?V ?d ?f ?data w8] =>
        destruct (write_step d f data w8) as (w9 & E9 & Hi9 & _ & He9 & _)
    end.
    rewrite E9. unfold after, result; cbn [fst snd].
    split; [auto|]. split; [intros x; now rewrite He9|].
    intros _ _. now apply promise_ends_resolved. }
  intros _ w4 _.
  apply promise_ends_await. intros w5 Hw5.
  destruct (unlink_entity_step id w5) as (o & w6 & E & Hi6 & _ & _ & Hne & Hor & Hret).
  rewrite E. unfold after, result; cbn [fst snd].
  split; [auto|]. split.
  { intros x Hx. destruct (decide (x = id)) as [->|Hxid].
    - destruct Hor as [Hor|Hor]; [now rewrite Hor|exact Hor].
    - now rewrite Hne. }
  intros b ->. apply promise_ends_resolved. now apply (Hret b).
Qed.

(** After a cascade that was fulfilled, the files of its entities are
    not there, in whatever order its calls took their steps. *)
Lemma cascade_removes (l : list EntityRef) (w : World) :
  initialized w ->
  initialized (after (Promise_all (map (fun ref => deleteEntity_async (ref_id ref)) l) w))
  /\ forall values,
       result (Promise_all (map (fun ref => deleteEntity_async (ref_id ref)) l) w)
       = Return values ->
       forall ref, ref ∈ l ->
         entity_node (after (Promise_all (map (fun ref => deleteEntity_async (ref_id ref)) l) w))
           (ref_id ref) = None.
Proof.
  intros Hi. pose proof stays_gone_preorder as HR.
  destruct (Promise_all_ends initialized stays_gone
              (fun (ref : EntityRef) (_ : bool) w' => entity_node w' (ref_id ref) = None)
              l (map (fun ref => deleteEntity_async (ref_id ref)) l) w)
    as (H1 & _ & H2).
  - intros ref _ w1 w2 Hgone Hstep. now apply Hstep.
  - intros w0 v H. exact H.
  - intros w0 v x H. exact H.
  - apply Forall2_fmap_r, Forall2_same_length_lookup. split; [reflexivity|].
    intros i ref ref' Hr Hr'. rewrite Hr in Hr'. injection Hr' as <-.
    apply deleteEntity_async_gone.
  - exact Hi.
  - split; [exact H1|]. intros values Hv ref Hin.
    specialize (H2 values Hv).
    apply list_elem_of_lookup_1 in Hin as [i Hi'].
    destruct (Forall2_lookup_l _ _ _ _ _ H2 Hi') as (b & _ & Hb). exact Hb.
Qed.

Lemma deleteProject_ready (w : World) (id : string) :
  deleteProject id w = deleteProject id (ready w).
Proof.
  unfold deleteProject. rewrite !bind_ensureDirectories.
  now rewrite (ready_fixed (ready w) (ready_initialized w)).
Qed.

Lemma ready_schedule (w : World) :
  schedule (ready w) = schedule w /\ gatherings (ready w) = gatherings w.
Proof.
  unfold ready, ensureDirectories, fs_mkdir. wsimpl.
  case_bool_decide as Hc; wsimpl; [split; reflexivity|].
  destruct (project_dirs w !! getProjectsDir w); wsimpl;
    destruct (entity_dirs w !! getEntitiesDir w); wsimpl; split; reflexivity.
Qed.

Lemma deleteProject_in_turn (w : World) (projectId : string) (P : Project) :
  initialized w ->
  calls_in_turn w (length (project_entities P)) ->
  project_node w projectId = Some (RegularFile (Json P) true) ->
  (forall ref, ref ∈ project_entities P -> entity_deletable w (ref_id ref)) ->
  exists w',
    deleteProject projectId w = (Return true, w')
    /\ initialized w'
    /\ project_node w' projectId = None
    /\ (forall ref, ref ∈ project_entities P -> entity_node w' (ref_id ref) = None).
Proof.
  intros Hi Hs HP Hrefs.
  unfold deleteProject. rewrite bind_ensureDirectories, (ready_fixed w Hi).
  unfold bind at 1. rewrite getProject_initialized by assumption.
  rewrite HP. cbn [read_outcome].
  unfold bind at 1. rewrite Promise_all_in_turn by now rewrite length_map.
  rewrite started_calls_pending.
  destruct (deleteEntity_all (project_entities P) (set_gatherings (S (gatherings w)) w) Hi Hrefs)
    as (bs & w1 & E1 & Hi1 & Hd1 & Hk1 & He1).
  rewrite E1.
  assert (exists data, project_node w1 projectId = Some (RegularFile data true)) as [data Hn].
  { destruct (Hk1 projectId) as [E|(p & p' & r & F1 & F2 & _)].
    - rewrite E. change (project_node (set_gatherings _ w) projectId)
        with (project_node w projectId). rewrite HP. eauto.
    - change (project_node (set_gatherings _ w) projectId)
        with (project_node w projectId) in F1.
      rewrite HP in F1. injection F1 as <- <-. eauto. }
  destruct (unlink_project_phase w1 projectId data Hn) as (w2 & E2 & Hi2 & Hd2 & Hp2 & He2).
  exists w2. split; [exact E2|]. split; [auto|]. split.
  - rewrite Hp2. now rewrite decide_True by reflexivity.
  - intros ref Hin. rewrite He2, He1. rewrite decide_True; [reflexivity|].
    apply list_elem_of_fmap. eauto.
Qed.

Lemma unlink_project_step (id : string) (w : World) :
  exists o w',
    try_catch
      (let! dir := gets getProjectsDir in
       fs_unlink project_volume dir (json_file id) ;;
       ret true)
      (fun error =>
         if isNodeError error && code_is error "ENOENT" then ret false
         else throw (StorageError ("Failed to delete project " +:+ id) DELETE_FAILED error)) w
    = (o, w')
    /\ (initialized w -> initialized w')
    /\ getDataDir w' = getDataDir w
    /\ (forall x, entity_node w' x = entity_node w x)
    /\ (forall x, x <> id -> project_node w' x = project_node w x)
    /\ (o = Return true -> project_node w' id = None)
    /\ (o = Return false -> w' = w /\ project_node w id = None)
    /\ (forall data, project_node w id = Some (RegularFile data true) -> o = Return true).
Proof.
  unfold fs_unlink, ENOENT. wsimpl.
  unfold project_node, project_dir.
  destruct (project_dirs w !! getProjectsDir w) as [d|] eqn:Ed; wsimpl.
  2:{ eexists _, _. split; [reflexivity|]. rewrite Ed.
      repeat split; auto; try discriminate. }
  destruct (d !! json_file id) as [[old [|]|]|] eqn:Ef; wsimpl;
    (eexists _, _; split; [reflexivity|]); wsimpl; rewrite ?lookup_insert_eq, ?Ed, ?Ef.
  all: split; [auto|]; split; [reflexivity|]; split; [reflexivity|].
  - split; [|split; [|split]].
    + intros x Hx. rewrite lookup_delete_ne; [reflexivity|].
      intros H. apply Hx. symmetry. now apply json_file_inj.
    + intros _. apply lookup_delete_eq.
    + intros [=].
    + reflexivity.
  - repeat split; auto; try discriminate.
  - repeat split; auto; try discriminate.
  - repeat split; auto; try discriminate.
Qed.

(** A [deleteProject] that returned [true], in whatever order the calls
    of its cascade took their steps, has removed the project file and
    the file of every entity that the project referenced. *)
Lemma deleteProject_fulfilled (w : World) (projectId : string) (P : Project) (r : bool) :
  initialized w ->
  project_node w projectId = Some (RegularFile (Json P) r) ->
  result (deleteProject projectId w) = Return true ->
  initialized (after (deleteProject projectId w))
  /\ project_node (after (deleteProject projectId w)) projectId = None
  /\ (forall ref, ref ∈ project_entities P ->
        entity_node (after (deleteProject projectId w)) (ref_id ref) = None).
Proof.
  intros Hi HP. unfold deleteProject. rewrite bind_ensureDirectories, (ready_fixed w Hi).
  rewrite !(bind_run _ _ _ _ _ (getProject_initialized w projectId Hi)).
  rewrite HP. cbn [read_outcome].
  destruct (cascade_removes (project_entities P) w Hi) as [Hi1 Hgone].
  unfold after, result in Hi1, Hgone.
  destruct (Promise_all _ w) as [[values|e] w1] eqn:E1; cbn [fst snd] in *;
    rewrite !(bind_run _ _ _ _ _ E1); [|intros [=]].
  specialize (Hgone values eq_refl).
  destruct (unlink_project_step projectId w1) as (o & w2 & E & Hi2 & _ & He2 & _ & Hp2 & _).
  rewrite E. unfold after, result. cbn [fst snd]. intros ->.
  split; [auto|]. split; [auto|]. intros ref Hin. rewrite He2. now apply Hgone.
Qed.

(** C2. The cascade of [deleteProject] is complete whenever
    [deleteProject] returns true, and it returns true when the calls
    that it starts do not overlap; when they overlap it can throw
    instead, and leave the project and some of its entities behind.

    In [racing_world] the file of project [p1] holds a project with the
    references [e1] and [e2], and both entity files exist and can be
    removed.  The two [deleteEntity] calls are started together.  The
    first one reads [e1] and the project, and opens the project file for
    writing, which empties it; the second one reads [e2] and then the
    project file, finds it empty and is rejected.  [deleteProject]
    throws that READ_FAILED error and does not delete the project
    file: the project is still there afterwards, without the reference
    to [e1], and so is the entity [e2].

    With calls that do not overlap, because the schedule lets them run
    one after the other or because the project has at most one
    reference: when the file of project [projectId]
    holds [P] and is removable, and every entity that [P] references
    exists as a removable file whose owning project file is absent or
    well formed, [deleteProject projectId] returns true, and afterwards
    [getProject projectId] returns null and [getEntity] returns null
    for the id of every reference of [P].

    In whatever order the calls take their steps: when [getProject
    projectId] returns [P] and [deleteProject projectId] returns true,
    afterwards [getProject projectId] returns null and [getEntity]
    returns null for the id of every reference of [P].

    In any case, when no project file is stored under [projectId],
    [deleteProject] returns false and every project and entity file is
    left as it was. *)
Theorem deleteProject_cascade_race :
  (let w := racing_world in
   let w' := after (deleteProject "p1" w) in
   project_node w "p1" = Some (RegularFile (Json two_entity_project) true)
   /\ entity_node w "e1" = Some (RegularFile (Json (sample_entity "e1" "p1" None None)) true)
   /\ entity_node w "e2" = Some (RegularFile (Json (sample_entity "e2" "p1" None None)) true)
   /\ result (deleteProject "p1" w)
      = Throw (StorageError "Failed to read project p1" READ_FAILED (SyntaxError ""))
   /\ result (getProject "p1" w')
      = Return (Some (without_ref "e1" (sample_clock 0) two_entity_project))
   /\ result (getEntity "e1" w') = Return None
   /\ result (getEntity "e2" w') = Return (Some (sample_entity "e2" "p1" None None)))
  /\ (forall (w : World) (projectId : string) (P : Project),
        let w' := after (deleteProject projectId w) in
        calls_in_turn w (length (project_entities P)) ->
        project_node w projectId = Some (RegularFile (Json P) true) ->
        (forall ref, ref ∈ project_entities P ->
           exists e, entity_node w (ref_id ref) = Some (RegularFile (Json e) true)
                     /\ project_file_ok w (entity_projectId e)) ->
        result (deleteProject projectId w) = Return true
        /\ result (getProject projectId w') = Return None
        /\ (forall ref, ref ∈ project_entities P ->
              result (getEntity (ref_id ref) w') = Return None))
  /\ (forall (w : World) (projectId : string) (P : Project),
        let w' := after (deleteProject projectId w) in
        result (getProject projectId w) = Return (Some P) ->
        result (deleteProject projectId w) = Return true ->
        result (getProject projectId w') = Return None
        /\ (forall ref, ref ∈ project_entities P ->
              result (getEntity (ref_id ref) w') = Return None))
  /\ (forall (w : World) (projectId : string),
        let w' := after (deleteProject projectId w) in
        project_node w projectId = None ->
        result (deleteProject projectId w) = Return false
        /\ (forall x, project_node w' x = project_node w x)
        /\ (forall x, entity_node w' x = entity_node w x)).
Proof.
  split; [|split; [|split]].
  - cbv zeta. repeat (split; [vm_compute; reflexivity|]). vm_compute. reflexivity.
  - intros w projectId P w' Hs HP Hrefs. subst w'. rewrite deleteProject_ready.
    pose proof (ready_initialized w) as Hi.
    destruct (deleteProject_in_turn (ready w) projectId P Hi) as (w' & E & Hi' & Hp' & He').
    { unfold calls_in_turn. destruct (ready_schedule w) as [-> ->]. exact Hs. }
    { now rewrite ready_project_node. }
    { intros ref Hin n Hn. destruct (Hrefs ref Hin) as (e & He & Hok).
      rewrite ready_entity_node, He in Hn. injection Hn as <-.
      exists e. split; [reflexivity|].
      intros m Hm. rewrite ready_project_node in Hm. now apply Hok. }
    rewrite E. unfold result, after; cbn [fst snd].
    split; [reflexivity|]. split.
    + rewrite getProject_initialized by assumption. now rewrite Hp'.
    + intros ref Hin. rewrite getEntity_initialized by assumption. now rewrite He'.
  - intros w projectId P w' HP. subst w'. rewrite deleteProject_ready.
    pose proof (ready_initialized w) as Hi.
    rewrite getProject_eq in HP. unfold result in HP; cbn [fst] in HP.
    rewrite <- (ready_project_node w projectId) in HP.
    destruct (project_node (ready w) projectId) as [[[P0|text] r|]|] eqn:En;
      try discriminate HP.
    injection HP as ->. intros Htrue.
    destruct (deleteProject_fulfilled (ready w) projectId P r Hi En Htrue) as (Hi' & Hp' & He').
    split.
    + rewrite getProject_initialized by assumption. now rewrite Hp'.
    + intros ref Hin. rewrite getEntity_initialized by assumption. now rewrite He'.
  - intros w projectId w' HP. subst w'. rewrite deleteProject_ready.
    pose proof (ready_initialized w) as Hi.
    assert (deleteProject projectId (ready w) = (Return false, ready w)) as ->.
    { unfold deleteProject. rewrite bind_ensureDirectories, (ready_fixed (ready w) Hi).
      unfold bind. rewrite getProject_initialized by assumption.
      now rewrite ready_project_node, HP. }
    unfold result, after; cbn [fst snd].
    split; [reflexivity|].
    split; intros x; [apply ready_project_node|apply ready_entity_node].
Qed.

(** *** Listing the entities of a project *)

Lemma getEntity_all (l : list EntityRef) (w : World) :
  initialized w ->
  (forall ref, ref ∈ l -> entity_file_ok w (ref_id ref)) ->
  all_map (fun ref => getEntity (ref_id ref)) l w =
    (Return (map (fun ref => stored_entity w (ref_id ref)) l), w).
Proof.
  intros Hi. induction l as [|a l IH]; intros Hok; [reflexivity|].
  cbn [all_map map]. unfold bind at 1. rewrite getEntity_initialized by assumption.
  unfold stored_entity at 1.
  destruct (entity_node w (ref_id a)) as [n|] eqn:En; cbn [read_outcome].
  - destruct (Hok a (list_elem_of_here _ _) n En) as (e & r & ->). cbn [read_outcome].
    unfold bind at 1. rewrite IH; [reflexivity|].
    intros ref Hin. apply Hok. now right.
  - unfold bind at 1. rewrite IH; [reflexivity|].
    intros ref Hin. apply Hok. now right.
Qed.

Lemma omap_id_map {A B} (f : A -> option B) (l : list A) : omap id (map f l) = omap f l.
Proof.
  induction l as [|a l IH]; [reflexivity|].
  cbn [map omap list_omap]. unfold id at 1. now rewrite IH.
Qed.

Lemma listEntitiesByProject_ready (w : World) (pid : string) :
  listEntitiesByProject pid w = listEntitiesByProject pid (ready w).
Proof.
  unfold listEntitiesByProject. rewrite !bind_ensureDirectories.
  now rewrite (ready_fixed (ready w) (ready_initialized w)).
Qed.

Lemma omap_pointwise {A B} (f g : A -> option B) (l : list A) :
  (forall x, f x = g x) -> omap f l = omap g l.
Proof.
  intros H. induction l as [|a l IH]; [reflexivity|].
  cbn [omap list_omap]. now rewrite H, IH.
Qed.

Lemma stored_entity_ready (w : World) (id : string) :
  stored_entity (ready w) id = stored_entity w id.
Proof. unfold stored_entity. now rewrite ready_entity_node. Qed.

Lemma listEntitiesByProject_present (w : World) (pid : string) (P : Project) (r : bool) :
  project_node w pid = Some (RegularFile (Json P) r) ->
  (forall ref, ref ∈ project_entities P -> entity_file_ok w (ref_id ref)) ->
  listEntitiesByProject pid w =
    (Return (omap (fun ref => stored_entity w (ref_id ref)) (project_entities P)), ready w).
Proof.
  intros HP Hok. rewrite listEntitiesByProject_ready.
  pose proof (ready_initialized w) as Hi.
  unfold listEntitiesByProject. rewrite bind_ensureDirectories, (ready_fixed (ready w) Hi).
  unfold bind at 1. rewrite getProject_initialized by assumption.
  rewrite ready_project_node, HP. cbn [read_outcome].
  unfold bind at 1. rewrite getEntity_all; [|assumption|].
  - unfold ret. rewrite omap_id_map. f_equal. f_equal.
    apply omap_pointwise. intros ref. apply stored_entity_ready.
  - intros ref Hin n. rewrite ready_entity_node. now apply Hok.
Qed.

(** The reads that [listEntitiesByProject] gathers, as calls in flight:
    none of them writes, so each one ends as it would alone, whatever
    the order of their steps. *)
Lemma getEntity_async_yields (w0 : World) (id : string) :
  promise_yields
    (fun w => initialized w /\ getDataDir w = getDataDir w0
              /\ forall x, entity_node w x = entity_node w0 x)
    (read_outcome "Failed to read entity " (getEntitiesDir w0) id (entity_node w0 id))
    (getEntity_async id).
Proof.
  unfold getEntity_async. cbn [promise_yields]. intros w (Hi & Hd & He).
  rewrite !bind_ensureDirectories, (ready_fixed w Hi).
  cbn [ret fst snd]. split; [auto|].
  cbn [promise_yields]. intros w1 (Hi1 & Hd1 & He1).
  pose proof (getEntity_initialized w1 id Hi1) as Hg.
  unfold getEntity in Hg. rewrite bind_ensureDirectories, (ready_fixed w1 Hi1) in Hg.
  unfold getEntitiesDir in *. rewrite Hd1, He1 in Hg.
  rewrite !(bind_run _ _ _ _ _ Hg).
  destruct (read_outcome _ _ _ _) as [v|e]; cbn [ret fst snd]; split; auto.
  reflexivity.
Qed.

Lemma gather_entities (l : list EntityRef) (w : World) :
  initialized w ->
  initialized (after (Promise_all (map (fun ref => getEntity_async (ref_id ref)) l) w))
  /\ match result (Promise_all (map (fun ref => getEntity_async (ref_id ref)) l) w) with
     | Return values =>
         map (fun ref => read_outcome "Failed to read entity " (getEntitiesDir w) (ref_id ref)
                           (entity_node w (ref_id ref))) l
         = map Return values
     | Throw e =>
         Throw e ∈ map (fun ref => read_outcome "Failed to read entity " (getEntitiesDir w)
                                     (ref_id ref) (entity_node w (ref_id ref))) l
     end.
Proof.
  intros Hi.
  destruct (Promise_all_yields
              (fun w' => initialized w' /\ getDataDir w' = getDataDir w
                         /\ forall x, entity_node w' x = entity_node w x)
              (map (fun ref => getEntity_async (ref_id ref)) l)
              (map (fun ref => read_outcome "Failed to read entity " (getEntitiesDir w)
                                 (ref_id ref) (entity_node w (ref_id ref))) l) w)
    as [(Hi' & _) H].
  - intros w' v H. exact H.
  - apply Forall2_fmap, Forall2_same_length_lookup. split; [reflexivity|].
    intros i ref ref' Hr Hr'. rewrite Hr in Hr'. injection Hr' as <-.
    apply getEntity_async_yields.
  - auto.
  - split; [exact Hi'|exact H].
Qed.

Lemma map_Return_inj {A} (l k : list A) : map Return l = map Return k -> l = k.
Proof.
  revert k. induction l as [|a l IH]; intros [|b k]; cbn [map]; intros H;
    try discriminate; [reflexivity|].
  injection H as -> H. f_equal. now apply IH.
Qed.

Lemma read_outcome_ok (w : World) (id : string) :
  entity_file_ok w id ->
  read_outcome "Failed to read entity " (getEntitiesDir w) id (entity_node w id)
  = Return (stored_entity w id).
Proof.
  intros Hok. unfold stored_entity.
  destruct (entity_node w id) as [n|] eqn:En; [|reflexivity].
  destruct (Hok n En) as (e & r & ->). reflexivity.
Qed.

(** Taken as calls in flight, the reads of [listEntitiesByProject] give
    the result of the reads in list order when the files of all the
    references are absent or readable. *)
Lemma gather_in_list_order (w : World) (pid : string) (P : Project) (r : bool) :
  project_node w pid = Some (RegularFile (Json P) r) ->
  (forall ref, ref ∈ project_entities P -> entity_file_ok w (ref_id ref)) ->
  result (listEntitiesByProject_gathered pid w) = result (listEntitiesByProject pid w).
Proof.
  intros HP Hok. rewrite (listEntitiesByProject_present w pid P r HP Hok).
  pose proof (ready_initialized w) as Hi.
  unfold listEntitiesByProject_gathered.
  rewrite bind_ensureDirectories.
  unfold bind at 1. rewrite getProject_initialized by assumption.
  rewrite ready_project_node, HP. cbn [read_outcome].
  destruct (gather_entities (project_entities P) (ready w) Hi) as [_ H].
  unfold bind, result in *.
  destruct (Promise_all _ (ready w)) as [[values|e] w']; cbn [fst] in *.
  - unfold ret; cbn [fst]. f_equal.
    assert (Hv : map (fun ref => stored_entity w (ref_id ref)) (project_entities P) = values).
    { apply map_Return_inj. rewrite <- H. rewrite <- list_fmap_compose.
      apply list_fmap_ext. intros i ref Hin. cbn.
      rewrite read_outcome_ok.
      - now rewrite stored_entity_ready.
      - intros n. rewrite ready_entity_node. apply Hok. eapply list_elem_of_lookup_2, Hin. }
    rewrite <- Hv. apply omap_id_map.
  - apply list_elem_of_fmap in H as (ref & Hthrow & Hin).
    rewrite read_outcome_ok in Hthrow; [discriminate|].
    intros n. rewrite ready_entity_node. now apply Hok.
Qed.

Lemma elem_of_omap_stored (w : World) (l : list EntityRef) (e : Entity) :
  e ∈ omap (fun ref => stored_entity w (ref_id ref)) l <->
  exists ref, ref ∈ l /\ stored_entity w (ref_id ref) = Some e.
Proof. apply list_elem_of_omap. Qed.

(** ** Orphans and dangling references *)

(** C5. Let project [projectId] hold [P], and let every entity file
    that [P] references be absent or hold an entity. Then
    [listEntitiesByProject projectId] does not fail: it returns, in
    reference order, the records of the references whose file is there,
    and a reference whose file is missing contributes nothing. Moreover,
    when the entity files are named by the id of their record, an
    entity [E] that is stored and owned by the project but whose id is
    not among the references of [P] is not in the listing, while
    [getEntity] still returns it. *)
Theorem orphan_tolerance (w : World) (projectId : string) (P : Project) :
  result (getProject projectId w) = Return (Some P) ->
  (forall ref, ref ∈ project_entities P -> entity_file_ok w (ref_id ref)) ->
  exists listing,
    result (listEntitiesByProject projectId w) = Return listing
    /\ listing = omap (fun ref => stored_entity w (ref_id ref)) (project_entities P)
    /\ (forall e, e ∈ listing ->
          exists ref n, ref ∈ project_entities P
                        /\ entity_node w (ref_id ref) = Some n /\ holds n e)
    /\ (forall E n,
          entity_node w (entity_id E) = Some n -> holds n E ->
          entity_projectId E = projectId ->
          ~ (entity_id E ∈ map ref_id (project_entities P)) ->
          (forall ref e, ref ∈ project_entities P ->
             stored_entity w (ref_id ref) = Some e -> entity_id e = ref_id ref) ->
          (E ∉ listing)
          /\ result (getEntity (entity_id E) w) = Return (Some E)).
Proof.
  intros HP Hok. rewrite getProject_eq in HP.
  apply read_outcome_Some in HP as (np & HP & rp & ->).
  eexists. rewrite (listEntitiesByProject_present w projectId P rp HP Hok).
  split; [reflexivity|]. split; [reflexivity|]. split.
  - intros e (ref & Hin & He)%elem_of_omap_stored.
    unfold stored_entity in He.
    destruct (entity_node w (ref_id ref)) as [[[v|t] r|]|] eqn:En; try discriminate.
    injection He as ->. exists ref, (RegularFile (Json e) r).
    split; [assumption|]. split; [exact En|]. now exists r.
  - intros E n En (r & ->) Hown Hnotin Hnamed. split.
    + intros (ref & Hin & He)%elem_of_omap_stored.
      apply Hnotin. apply list_elem_of_fmap. exists ref. split; [|assumption].
      now apply Hnamed.
    + now rewrite getEntity_eq, En.
Qed.

(** *** Export *)

Lemma cat_cons (a : string) (l : list string) : cat (a :: l) = a +:+ cat l.
Proof. reflexivity. Qed.

Lemma contains_cat (pieces : list string) (piece needle : string) :
  piece ∈ pieces -> contains piece needle -> contains (cat pieces) needle.
Proof.
  intros Hin Hc. induction pieces as [|a l IH]; [now apply elem_of_nil in Hin|].
  rewrite cat_cons. apply elem_of_cons in Hin as [->|Hin].
  - now apply contains_app_l.
  - apply contains_app_r. now apply IH.
Qed.

Lemma contains_for_each {A} (xs : list A) (f : A -> string) (x : A) (needle : string) :
  x ∈ xs -> contains (f x) needle -> contains (for_each xs f) needle.
Proof.
  intros Hin Hc. unfold for_each. apply contains_cat with (piece := f x); [|assumption].
  apply list_elem_of_fmap. eauto.
Qed.

Lemma format_stage_heading (stage : FunnelStage) :
  contains (format_stage stage) ("#### " +:+ fs_name stage +:+ nl).
Proof.
  unfold format_stage. rewrite cat_cons. apply contains_app_l.
  exists "", "". now rewrite string_app_nil_r.
Qed.

Lemma format_conversion_stage (c : ConversionFunnel) (stage : FunnelStage) :
  stage ∈ conv_stages c ->
  contains (format_conversion c) ("#### " +:+ fs_name stage +:+ nl).
Proof.
  intros Hin. unfold format_conversion.
  eapply contains_cat with (piece := for_each (conv_stages c) format_stage).
  - do 3 right. left.
  - eapply contains_for_each; [eassumption|]. apply format_stage_heading.
Qed.

Lemma exportProjectToMarkdown_present (w : World) (pid : string) (P : Project)
    (entities : list Entity) :
  result (getProject pid w) = Return (Some P) ->
  result (listEntitiesByProject pid w) = Return entities ->
  result (exportProjectToMarkdown pid w) =
    Return (cat [
      "# " +:+ project_name P +:+ nl +:+ nl;
      if_str (project_description P) (fun d => d +:+ nl +:+ nl);
      if_nonempty (project_tags P) (fun tags =>
        "**Tags:** " +:+ join_comma tags +:+ nl +:+ nl);
      "---" +:+ nl +:+ nl;
      for_each entities (fun entity =>
        formatEntityAsMarkdown entity +:+ nl +:+ "---" +:+ nl +:+ nl) ]).
Proof.
  intros HP Hl. unfold exportProjectToMarkdown. unfold bind at 1.
  rewrite getProject_eq in *. unfold result in HP; cbn [fst] in HP. rewrite HP.
  unfold bind at 1. rewrite <- listEntitiesByProject_ready.
  destruct (listEntitiesByProject pid w) as [o w2]. unfold result in Hl; cbn [fst] in Hl.
  now subst o.
Qed.

(** ** Markdown export *)

(** C8. For an existing project whose entities resolve, the Markdown
    export starts with the line [# <name>] of the project, and for every
    resolved conversion-funnel entity and every one of its stages it
    contains the stage heading [#### <stage name>]. For an id with no
    project file, both the JSON and the Markdown export fail with the
    project-not-found error. *)
Theorem export_markdown_headings (w : World) (projectId : string) (P : Project)
    (entities : list Entity) :
  result (getProject projectId w) = Return (Some P) ->
  result (listEntitiesByProject projectId w) = Return entities ->
  (exists md,
      result (exportProjectToMarkdown projectId w) = Return md
      /\ (exists rest, md = "# " +:+ project_name P +:+ nl +:+ rest)
      /\ (forall e c stage,
            e ∈ entities -> entity_variant e = VConversion c -> stage ∈ conv_stages c ->
            contains md ("#### " +:+ fs_name stage +:+ nl)))
  /\ (forall missing,
        project_node w missing = None ->
        result (exportProjectToJson missing w) =
          Throw (Error ("Project " +:+ missing +:+ " not found"))
        /\ result (exportProjectToMarkdown missing w) =
             Throw (Error ("Project " +:+ missing +:+ " not found"))).
Proof.
  intros HP Hl. split.
  - eexists. split; [apply exportProjectToMarkdown_present; eassumption|]. split.
    + eexists. rewrite cat_cons. rewrite !string_app_assoc. reflexivity.
    + intros e c stage He Hc Hs.
      eapply contains_cat; [do 4 right; left|].
      eapply contains_for_each; [eassumption|].
      apply contains_app_l. unfold formatEntityAsMarkdown. rewrite Hc.
      now apply format_conversion_stage.
  - intros missing Hm. split.
    + now apply exportProjectToJson_missing.
    + now apply exportProjectToMarkdown_missing.
Qed.

(** *** Sorting *)

Lemma sort_insert_perm {A} (compare : A -> A -> Z) (x : A) (l : list A) :
  sort_insert compare x l ≡ₚ x :: l.
Proof.
  induction l as [|y l IH]; cbn [sort_insert]; [reflexivity|].
  destruct (compare x y <=? 0); [reflexivity|].
  rewrite IH. apply Permutation_swap.
Qed.

Lemma js_sort_perm {A} (compare : A -> A -> Z) (l : list A) : js_sort compare l ≡ₚ l.
Proof.
  unfold js_sort. induction l as [|x l IH]; cbn [foldr]; [reflexivity|].
  now rewrite sort_insert_perm, IH.
Qed.

Lemma sort_insert_sorted (x : Project) (l : list Project) :
  StronglySorted newer_first l ->
  StronglySorted newer_first (sort_insert by_updatedAt_desc x l).
Proof.
  induction 1 as [|y l Hl IH Hy]; cbn [sort_insert].
  - repeat constructor.
  - destruct (Z.leb_spec (by_updatedAt_desc x y) 0) as [Hle|Hgt].
    + constructor; [now constructor|].
      assert (newer_first x y) by (unfold newer_first, by_updatedAt_desc in *; lia).
      constructor; [assumption|].
      eapply Forall_impl; [exact Hy|]. unfold newer_first in *. intros; lia.
    + constructor; [assumption|].
      rewrite sort_insert_perm. constructor; [|assumption].
      unfold newer_first, by_updatedAt_desc in *. lia.
Qed.

Lemma js_sort_sorted (l : list Project) :
  StronglySorted newer_first (js_sort by_updatedAt_desc l).
Proof.
  unfold js_sort. induction l as [|x l IH]; cbn [foldr]; [constructor|].
  now apply sort_insert_sorted.
Qed.

Lemma sorted_newest_first (l : list Project) (p : Project) :
  StronglySorted newer_first l ->
  p ∈ l ->
  (forall q, q ∈ l ->
     q = p \/ Date_getTime (project_updatedAt q) < Date_getTime (project_updatedAt p)) ->
  head l = Some p.
Proof.
  intros Hs Hin Hnewest. destruct Hs as [|h t Ht Hh]; [now apply elem_of_nil in Hin|].
  cbn [head]. f_equal.
  apply elem_of_cons in Hin as [->|Hin]; [reflexivity|].
  destruct (Hnewest h (list_elem_of_here _ _)) as [Heq|Hlt]; [assumption|exfalso].
  rewrite Forall_forall in Hh. specialize (Hh p Hin). unfold newer_first in Hh. lia.
Qed.

(** *** Scanning the projects directory *)

Lemma filter_map_fst {A} (P : string -> bool) (l : list (string * A)) :
  List.filter P (map fst l) = map fst (List.filter (fun entry => P (fst entry)) l).
Proof.
  induction l as [|[k v] l IH]; [reflexivity|].
  cbn [map List.filter fst]. destruct (P k); cbn [map fst]; now rewrite IH.
Qed.

Lemma read_project_file_spec (w : World) (d : gmap string (FileNode Project))
    (name : string) (n : FileNode Project) :
  project_dir w = Some d ->
  d !! name = Some n ->
  exists w',
    read_project_file name w = (Return (parsable n), w')
    /\ (initialized w -> initialized w')
    /\ getDataDir w' = getDataDir w
    /\ project_dir w' = Some d
    /\ console w' = (console w ++ option_list (scan_warning (getProjectsDir w) (name, n)))%list.
Proof.
  intros Hd Hn. unfold read_project_file, fs_readFile, JSON_parse, console_error.
  unfold project_dir in *. wsimpl. rewrite Hd. wsimpl. rewrite Hn.
  destruct n as [[p|text] r|]; wsimpl; eexists; (split; [reflexivity|]);
    unfold initialized, scan_warning; wsimpl; cbn [read_failure option_list fst snd];
    rewrite ?app_nil_r; repeat split; auto.
Qed.

Lemma read_project_files (d : gmap string (FileNode Project))
    (entries : list (string * FileNode Project)) (w : World) :
  project_dir w = Some d ->
  (forall entry, entry ∈ entries -> d !! fst entry = Some (snd entry)) ->
  exists w',
    all_map read_project_file (map fst entries) w =
      (Return (map (fun entry => parsable (snd entry)) entries), w')
    /\ (initialized w -> initialized w')
    /\ getDataDir w' = getDataDir w
    /\ project_dir w' = Some d
    /\ console w' = (console w ++ omap (scan_warning (getProjectsDir w)) entries)%list.
Proof.
  revert w. induction entries as [|[name n] entries IH]; intros w Hd Hall.
  - exists w. cbn. rewrite app_nil_r. repeat split; auto.
  - destruct (read_project_file_spec w d name n Hd) as (w1 & E1 & Hi1 & Hr1 & Hd1 & Hc1).
    { apply (Hall (name, n)). left. }
    destruct (IH w1 Hd1) as (w2 & E2 & Hi2 & Hr2 & Hd2 & Hc2).
    { intros entry Hin. apply Hall. now right. }
    exists w2. cbn [map fst all_map]. unfold bind at 1. rewrite E1.
    unfold bind at 1. rewrite E2. unfold ret.
    split; [reflexivity|]. split; [auto|]. split; [congruence|]. split; [assumption|].
    rewrite Hc2, Hc1. unfold getProjectsDir. rewrite Hr1.
    cbn [omap list_omap]. rewrite <- app_assoc. f_equal.
    now destruct (scan_warning _ (name, n)).
Qed.
Lemma ready_console (w : World) : console (ready w) = console w.
Proof.
  unfold ready, ensureDirectories, fs_mkdir. wsimpl.
  case_bool_decide as Hc; wsimpl; [reflexivity|].
  destruct (project_dirs w !! getProjectsDir w); wsimpl;
    destruct (entity_dirs w !! getEntitiesDir w); wsimpl; reflexivity.
Qed.

Lemma ready_project_dir (w : World) :
  cache_sound w ->
  exists d, project_dir (ready w) = Some d /\ map_to_list d = project_files w.
Proof.
  intros Hs. unfold cache_sound in Hs.
  unfold project_files, project_dir, ready, ensureDirectories, fs_mkdir. wsimpl.
  case_bool_decide as Hc; wsimpl.
  - destruct (Hs _ Hc) as [[d Hd] _]. unfold getProjectsDir. rewrite Hd. eauto.
  - destruct (project_dirs w !! getProjectsDir w) as [d|] eqn:Ed; wsimpl;
      destruct (entity_dirs w !! getEntitiesDir w); wsimpl;
      rewrite ?lookup_insert_eq, ?Ed; eauto using map_to_list_empty.
Qed.

Lemma listProjects_initialized (w : World) (d : gmap string (FileNode Project)) :
  initialized w ->
  project_dir w = Some d ->
  exists w',
    listProjects w = (Return (js_sort by_updatedAt_desc (parsable_projects w)), w')
    /\ console w' = (console w ++ scan_warnings w)%list.
Proof.
  intros Hi Hd. unfold listProjects. rewrite bind_ensureDirectories, (ready_fixed w Hi).
  unfold bind at 1. unfold bind at 1. unfold gets at 1. unfold fs_readdir.
  unfold bind at 1. unfold gets at 1. cbn [vol_get project_volume].
  unfold project_dir in Hd. rewrite Hd. unfold ret at 1. cbv zeta.
  rewrite filter_map_fst.
  set (entries := List.filter _ (map_to_list d)).
  destruct (read_project_files d entries w) as (w' & E & _ & _ & _ & Hc).
  { exact Hd. }
  { intros [name n] Hin. apply list_elem_of_In, filter_In in Hin as [Hin _].
    apply list_elem_of_In in Hin. now apply elem_of_map_to_list in Hin. }
  unfold bind at 1. rewrite E. unfold ret. exists w'.
  unfold parsable_projects, scan_warnings, json_entries, project_files, project_dir.
  rewrite Hd. fold entries. rewrite omap_id_map. split; [reflexivity|exact Hc].
Qed.

Lemma listProjects_eq (w : World) :
  cache_sound w ->
  exists w',
    listProjects w = (Return (js_sort by_updatedAt_desc (parsable_projects w)), w')
    /\ console w' = (console w ++ scan_warnings w)%list.
Proof.
  intros Hs. destruct (ready_project_dir w Hs) as (d & Hd & Hfiles).
  assert (Hready : listProjects w = listProjects (ready w)).
  { unfold listProjects. rewrite !bind_ensureDirectories.
    now rewrite (ready_fixed (ready w) (ready_initialized w)). }
  destruct (listProjects_initialized (ready w) d (ready_initialized w) Hd) as (w' & E & Hc).
  assert (Hp : parsable_projects (ready w) = parsable_projects w).
  { unfold parsable_projects, json_entries, project_files at 1. now rewrite Hd, Hfiles. }
  assert (Hw : scan_warnings (ready w) = scan_warnings w).
  { unfold scan_warnings, json_entries, project_files at 1, getProjectsDir.
    now rewrite Hd, Hfiles, ready_dataDir. }
  exists w'. rewrite Hready, E, Hp. split; [reflexivity|].
  now rewrite Hc, Hw, ready_console.
Qed.

(** ** Listing projects *)

(** C7. In a process whose initialisation cache is sound (which every
    run of operations maintains), [listProjects]
    returns exactly the project records that can be read and parsed from
    the [.json] entries of the projects directory, most recently updated
    first; every [.json] entry that cannot be read or parsed is skipped
    and logged on the console, and the scan does not fail. In
    particular a project that was updated after all the others is
    returned first. *)
Theorem listProjects_sorted_scan (w : World) :
  cache_sound w ->
  exists projects,
    result (listProjects w) = Return projects
    /\ projects ≡ₚ parsable_projects w
    /\ StronglySorted newer_first projects
    /\ console (after (listProjects w)) = (console w ++ scan_warnings w)%list
    /\ (forall p,
          p ∈ projects ->
          (forall q, q ∈ projects ->
             q = p \/ Date_getTime (project_updatedAt q) < Date_getTime (project_updatedAt p)) ->
          head projects = Some p).
Proof.
  intros Hs. destruct (listProjects_eq w Hs) as (w' & E & Hc).
  rewrite E. unfold result, after; cbn [fst snd].
  eexists. split; [reflexivity|]. split; [apply js_sort_perm|].
  split; [apply js_sort_sorted|]. split; [exact Hc|].
  intros p Hin Hnew. now apply sorted_newest_first; [apply js_sort_sorted| |].
Qed.

(** *** The initialisation cache along a computation *)

Lemma getDataDir_env (w w' : World) :
  env_FUNNEL_DESIGN_DATA_DIR w' = env_FUNNEL_DESIGN_DATA_DIR w ->
  process_cwd w' = process_cwd w ->
  getDataDir w' = getDataDir w.
Proof. intros He Hc. unfold getDataDir. now rewrite He, Hc. Qed.

Lemma init_step_refl (w : World) : init_step w w.
Proof. unfold init_step. auto. Qed.

Lemma init_step_trans (w1 w2 w3 : World) :
  init_step w1 w2 -> init_step w2 w3 -> init_step w1 w3.
Proof.
  intros (He1 & Hc1 & H1) (He2 & Hc2 & H2).
  pose proof (getDataDir_env w1 w2 He1 Hc1) as Hd.
  pose proof (getDataDir_env w2 w3 He2 Hc2) as Hd'.
  split; [congruence|]. split; [congruence|].
  unfold initialized, getProjectsDir, getEntitiesDir in *.
  destruct H1 as [[Hi1 Ht1]|(Hn1 & Hi1 & Ht1)]; destruct H2 as [[Hi2 Ht2]|(Hn2 & Hi2 & Ht2)].
  - left. split; congruence.
  - right. rewrite Hd, Hi1 in Hn2. rewrite Hd, Ht1 in Ht2. auto.
  - right. rewrite Hi2, Hd', Ht2. auto.
  - contradiction.
Qed.

Lemma respects_ret {A} (a : A) : respects_cache (ret a).
Proof. intros w. apply init_step_refl. Qed.

Lemma respects_throw {A} (e : Exn) : respects_cache (@throw A e).
Proof. intros w. apply init_step_refl. Qed.

Lemma respects_gets {A} (f : World -> A) : respects_cache (gets f).
Proof. intros w. apply init_step_refl. Qed.

Lemma respects_bind {A B} (m : M A) (f : A -> M B) :
  respects_cache m -> (forall a, respects_cache (f a)) -> respects_cache (bind m f).
Proof.
  intros Hm Hf w. specialize (Hm w). unfold bind, after in *.
  destruct (m w) as [[a|e] w1]; cbn [snd] in *; [|assumption].
  eapply init_step_trans; [eassumption|]. apply Hf.
Qed.

Lemma respects_try_catch {A} (m : M A) (h : Exn -> M A) :
  respects_cache m -> (forall e, respects_cache (h e)) -> respects_cache (try_catch m h).
Proof.
  intros Hm Hh w. specialize (Hm w). unfold try_catch, after in *.
  destruct (m w) as [[a|e] w1]; cbn [snd] in *; [assumption|].
  eapply init_step_trans; [eassumption|]. apply Hh.
Qed.

Lemma respects_all_map {A B} (f : A -> M B) (l : list A) :
  (forall a, respects_cache (f a)) -> respects_cache (all_map f l).
Proof.
  intros Hf. induction l as [|a l IH]; cbn [all_map]; [apply respects_ret|].
  apply respects_bind; [apply Hf|]. intros b.
  apply respects_bind; [apply IH|]. intros bs. apply respects_ret.
Qed.

Ltac respects_prim :=
  intros w; unfold init_step, initialized; wsimpl; auto.

Lemma respects_Date_now : respects_cache Date_now.
Proof. unfold Date_now. respects_prim. Qed.

Lemma respects_random : respects_cache Math_random_toString36.
Proof. unfold Math_random_toString36. respects_prim. Qed.

Lemma respects_console_error (m : string) (e : Exn) : respects_cache (console_error m e).
Proof. unfold console_error. respects_prim. Qed.

Lemma respects_JSON_parse {A} (d : FileData A) : respects_cache (JSON_parse d).
Proof. destruct d; [apply respects_ret|apply respects_throw]. Qed.

Lemma respects_readFile_project (dir file : string) :
  respects_cache (fs_readFile project_volume dir file).
Proof.
  unfold fs_readFile, ENOENT. intros w. unfold init_step. wsimpl.
  destruct (project_dirs w !! dir) as [d|]; wsimpl; auto.
  destruct (d !! file) as [[]|]; wsimpl; auto.
Qed.

Lemma respects_readFile_entity (dir file : string) :
  respects_cache (fs_readFile entity_volume dir file).
Proof.
  unfold fs_readFile, ENOENT. intros w. unfold init_step. wsimpl.
  destruct (entity_dirs w !! dir) as [d|]; wsimpl; auto.
  destruct (d !! file) as [[]|]; wsimpl; auto.
Qed.

Lemma respects_writeFile_project (dir file : string) (data : FileData Project) :
  respects_cache (fs_writeFile project_volume dir file data).
Proof.
  unfold fs_writeFile, ENOENT. intros w. unfold init_step. wsimpl.
  destruct (project_dirs w !! dir) as [d|]; wsimpl; auto.
  destruct (d !! file) as [[]|]; wsimpl; auto.
Qed.

Lemma respects_writeFile_entity (dir file : string) (data : FileData Entity) :
  respects_cache (fs_writeFile entity_volume dir file data).
Proof.
  unfold fs_writeFile, ENOENT. intros w. unfold init_step. wsimpl.
  destruct (entity_dirs w !! dir) as [d|]; wsimpl; auto.
  destruct (d !! file) as [[]|]; wsimpl; auto.
Qed.

Lemma respects_unlink_project (dir file : string) :
  respects_cache (fs_unlink project_volume dir file).
Proof.
  unfold fs_unlink, ENOENT. intros w. unfold init_step. wsimpl.
  destruct (project_dirs w !! dir) as [d|]; wsimpl; auto.
  destruct (d !! file) as [[? []|]|]; wsimpl; auto.
Qed.

Lemma respects_unlink_entity (dir file : string) :
  respects_cache (fs_unlink entity_volume dir file).
Proof.
  unfold fs_unlink, ENOENT. intros w. unfold init_step. wsimpl.
  destruct (entity_dirs w !! dir) as [d|]; wsimpl; auto.
  destruct (d !! file) as [[? []|]|]; wsimpl; auto.
Qed.

Lemma respects_readdir_project (dir : string) :
  respects_cache (fs_readdir project_volume dir).
Proof.
  unfold fs_readdir, ENOENT. intros w. unfold init_step. wsimpl.
  destruct (project_dirs w !! dir) as [d|]; wsimpl; auto.
Qed.

Lemma respects_ensureDirectories : respects_cache ensureDirectories.
Proof.
  intros w. unfold init_step, initialized, ensureDirectories, fs_mkdir. wsimpl.
  case_bool_decide as Hc; wsimpl; [auto|].
  destruct (project_dirs w !! getProjectsDir w); wsimpl;
    destruct (entity_dirs w !! getEntitiesDir w); wsimpl;
    rewrite <- ?app_assoc; cbn [app]; auto 10.
Qed.

Create HintDb respects discriminated.

#[local] Hint Resolve respects_ret respects_throw respects_gets respects_Date_now
  respects_random respects_console_error respects_JSON_parse
  respects_readFile_project respects_readFile_entity
  respects_writeFile_project respects_writeFile_entity
  respects_unlink_project respects_unlink_entity respects_readdir_project
  respects_ensureDirectories : respects.

Ltac respects :=
  repeat first
    [ solve [auto with respects]
    | apply respects_bind; [|intros ?]
    | apply respects_try_catch; [|intros ?]
    | apply respects_all_map; intros ?
    | progress cbv zeta
    | match goal with
      | |- respects_cache (match ?x with _ => _ end) => destruct x
      end ].

Lemma respects_generateId : respects_cache generateId.
Proof. unfold generateId. respects. Qed.

Lemma respects_timestamp : respects_cache timestamp.
Proof. unfold timestamp. respects. Qed.

#[local] Hint Resolve respects_generateId respects_timestamp : respects.

Lemma respects_createProject (name : string) (description : option string)
    (tags : option (list string)) :
  respects_cache (createProject name description tags).
Proof. unfold createProject. respects. Qed.

Lemma respects_getProject (id : string) : respects_cache (getProject id).
Proof. unfold getProject. respects. Qed.

Lemma respects_updateProject (p : Project) : respects_cache (updateProject p).
Proof. unfold updateProject. respects. Qed.

Lemma respects_getEntity (id : string) : respects_cache (getEntity id).
Proof. unfold getEntity. respects. Qed.

Lemma respects_updateEntity (e : Entity) : respects_cache (updateEntity e).
Proof. unfold updateEntity. respects. Qed.

#[local] Hint Resolve respects_createProject respects_getProject respects_updateProject
  respects_getEntity respects_updateEntity : respects.

Lemma respects_deleteEntity (id : string) : respects_cache (deleteEntity id).
Proof. unfold deleteEntity. respects. Qed.

#[local] Hint Resolve respects_deleteEntity : respects.

#[local] Instance init_step_preorder : PreOrder init_step.
Proof. split; [exact init_step_refl|exact init_step_trans]. Qed.

Lemma respects_satisfies {A} (m : M A) :
  respects_cache m -> satisfies init_step (fun _ => True) m.
Proof. intros H w. split; [apply H|trivial]. Qed.

Lemma respects_open_for_writing (dir file : string) :
  respects_cache (fs_open_for_writing project_volume dir file).
Proof.
  unfold fs_open_for_writing, ENOENT. intros w. unfold init_step. wsimpl.
  destruct (project_dirs w !! dir) as [d|]; wsimpl; auto.
  destruct (d !! file) as [[]|]; wsimpl; auto.
Qed.

Lemma respects_write_and_close (dir file : string) (data : FileData Project) :
  respects_cache (fs_write_and_close project_volume dir file data).
Proof.
  unfold fs_write_and_close. intros w. unfold init_step. wsimpl.
  destruct (project_dirs w !! dir) as [d|]; wsimpl; auto.
  destruct (d !! file) as [[]|]; wsimpl; auto.
Qed.

#[local] Hint Resolve respects_open_for_writing respects_write_and_close : respects.

(** Every step of a started call has the property, given a tactic for
    the operations that it awaits. *)
Ltac promises tac :=
  repeat first
    [ apply promise_ok_resolved
    | lazymatch goal with
      | |- promise_ok ?R ?Q (Pending (bind ?m (fun x => ret (@?k x)))) =>
          apply (promise_ok_await R Q m k); [tac|intros ?]
      end
    | lazymatch goal with
      | |- promise_ok ?R ?Q (Promise_then ?p ?k) =>
          apply (promise_ok_then R Q p k); [|intros ?]
      end
    | progress cbv zeta
    | match goal with
      | |- promise_ok _ _ (match ?x with _ => _ end) => destruct x
      end ].

Ltac unfold_calls :=
  unfold deleteEntity_async, getEntity_async, getProject_async, updateProject_async,
    fs_writeFile_async.

Lemma respects_deleteEntity_async (id : string) :
  promise_ok init_step (fun _ => True) (deleteEntity_async id).
Proof. unfold_calls. promises ltac:(apply respects_satisfies; respects). Qed.

Lemma respects_Promise_all {A} (promises : list (Promise A)) :
  Forall (promise_ok init_step (fun _ => True)) promises ->
  respects_cache (Promise_all promises).
Proof.
  intros H w. apply (Promise_all_satisfies init_step (fun _ => True)); [|exact H].
  intros w0 v. unfold init_step. auto.
Qed.

Lemma respects_cascade (l : list EntityRef) :
  respects_cache (Promise_all (map (fun ref => deleteEntity_async (ref_id ref)) l)).
Proof.
  apply respects_Promise_all, Forall_map, Forall_forall. intros ref _.
  apply respects_deleteEntity_async.
Qed.

#[local] Hint Resolve respects_cascade : respects.

Lemma respects_deleteProject (id : string) : respects_cache (deleteProject id).
Proof. unfold deleteProject. respects. Qed.

Lemma respects_read_project_file (file : string) : respects_cache (read_project_file file).
Proof. unfold read_project_file. respects. Qed.

#[local] Hint Resolve respects_read_project_file : respects.

Lemma respects_listProjects : respects_cache listProjects.
Proof. unfold listProjects. respects. Qed.

Lemma respects_createEntity (pid : string) (input : EntityInput) :
  respects_cache (createEntity pid input).
Proof. unfold createEntity. respects. Qed.

Lemma respects_listEntitiesByProject (pid : string) :
  respects_cache (listEntitiesByProject pid).
Proof. unfold listEntitiesByProject. respects. Qed.

#[local] Hint Resolve respects_listEntitiesByProject : respects.

Lemma respects_listEntitiesByType (pid : string) (type : EntityKind) :
  respects_cache (listEntitiesByType pid type).
Proof. unfold listEntitiesByType. respects. Qed.

Lemma respects_exportProjectToJson (pid : string) :
  respects_cache (exportProjectToJson pid).
Proof. unfold exportProjectToJson. respects. Qed.

Lemma respects_exportProjectToMarkdown (pid : string) :
  respects_cache (exportProjectToMarkdown pid).
Proof. unfold exportProjectToMarkdown. respects. Qed.

Lemma step_init_step (o : Op) (w : World) : is_store_operation o -> init_step w (step o w).
Proof.
  destruct o; cbn [is_store_operation step]; intros H; try contradiction.
  - apply respects_createProject.
  - apply respects_getProject.
  - apply respects_updateProject.
  - apply respects_deleteProject.
  - apply respects_listProjects.
  - apply respects_createEntity.
  - apply respects_getEntity.
  - apply respects_updateEntity.
  - apply respects_deleteEntity.
  - apply respects_listEntitiesByProject.
  - apply respects_listEntitiesByType.
  - apply respects_exportProjectToJson.
  - apply respects_exportProjectToMarkdown.
Qed.

Lemma run_init_step (ops : list Op) (w : World) :
  Forall is_store_operation ops -> init_step w (run ops w).
Proof.
  intros H. revert w. induction H as [|o ops Ho Hops IH]; intros w.
  - apply init_step_refl.
  - change (run (o :: ops) w) with (run ops (step o w)).
    apply init_step_trans with (step o w); [now apply step_init_step|apply IH].
Qed.

Lemma directory_creations_app (root : string) (w w' : World) (l : list string) :
  mkdir_trace w' = (mkdir_trace w ++ l)%list ->
  directory_creations root w' =
    (directory_creations root w + length (filter (fun dir => dir = join root "projects") l))%nat.
Proof.
  intros H. unfold directory_creations. now rewrite H, filter_app, length_app.
Qed.

(** ** The initialisation cache *)

(** C3, as amended. Along any sequence of store operations, with no
    reset and no change of the configured root in between, the
    directories of the current root are created at most once, and not at
    all when the cache already names that root. *)
Theorem directory_creation_once (ops : list Op) (w : World) :
  Forall is_store_operation ops ->
  (directory_creations (getDataDir w) (run ops w)
     <= directory_creations (getDataDir w) w + 1)%nat
  /\ (initialized w -> mkdir_trace (run ops w) = mkdir_trace w)
  /\ getDataDir (run ops w) = getDataDir w.
Proof.
  intros Hops. destruct (run_init_step ops w Hops) as (He & Hc & H).
  split; [|split].
  - destruct H as [[_ Ht]|(_ & _ & Ht)].
    + unfold directory_creations. rewrite Ht. lia.
    + rewrite (directory_creations_app _ w _ _ Ht).
      unfold getProjectsDir, getEntitiesDir.
      rewrite filter_cons_True by reflexivity.
      rewrite filter_cons_False, filter_nil; [cbn [length]; lia|].
      intros E. apply String.app_inj in E. discriminate E.
  - intros Hi. destruct H as [[_ Ht]|(Hn & _)]; [exact Ht|contradiction].
  - now apply getDataDir_env.
Qed.

Lemma run_pair {A} (m : M A) (w : World) (a : A) :
  result (m w) = Return a -> m w = (Return a, after (m w)).
Proof. destruct (m w) as [o w']. unfold result, after. cbn [fst snd]. now intros ->. Qed.

(** *** The invariants along a computation *)

Lemma preserves_ret {A} (I : World -> Prop) (a : A) : preserves I (ret a).
Proof. intros w H. exact H. Qed.

Lemma preserves_throw {A} (I : World -> Prop) (e : Exn) : preserves I (@throw A e).
Proof. intros w H. exact H. Qed.

Lemma preserves_gets {A} (I : World -> Prop) (f : World -> A) : preserves I (gets f).
Proof. intros w H. exact H. Qed.

Lemma preserves_bind {A B} (I : World -> Prop) (m : M A) (f : A -> M B) :
  preserves I m -> (forall a, preserves I (f a)) -> preserves I (bind m f).
Proof.
  intros Hm Hf w H. specialize (Hm w H). unfold bind, after in *.
  destruct (m w) as [[a|e] w1]; cbn [snd] in *; [|assumption]. now apply Hf.
Qed.

Lemma preserves_try_catch {A} (I : World -> Prop) (m : M A) (h : Exn -> M A) :
  preserves I m -> (forall e, preserves I (h e)) -> preserves I (try_catch m h).
Proof.
  intros Hm Hh w H. specialize (Hm w H). unfold try_catch, after in *.
  destruct (m w) as [[a|e] w1]; cbn [snd] in *; [assumption|]. now apply Hh.
Qed.

Lemma preserves_all_map {A B} (I : World -> Prop) (f : A -> M B) (l : list A) :
  (forall a, preserves I (f a)) -> preserves I (all_map f l).
Proof.
  intros Hf. induction l as [|a l IH]; cbn [all_map]; [apply preserves_ret|].
  apply preserves_bind; [apply Hf|]. intros b.
  apply preserves_bind; [apply IH|]. intros bs. apply preserves_ret.
Qed.

Lemma is_Some_insert_dir {A} (dirs : gmap string (gmap string A)) (dir x : string)
    (d' : gmap string A) :
  is_Some (dirs !! x) -> is_Some (<[dir := d']> dirs !! x).
Proof.
  intros Hx. destruct (decide (dir = x)) as [->|Hne].
  - rewrite lookup_insert_eq. eauto.
  - now rewrite lookup_insert_ne.
Qed.

Lemma named_insert_file {A} (key : A -> string) (dirs : gmap string (gmap string (FileNode A)))
    (dir : string) (d : gmap string (FileNode A)) (v : A) (r : bool) :
  named key dirs -> dirs !! dir = Some d ->
  named key (<[dir := <[json_file (key v) := RegularFile (Json v) r]> d]> dirs).
Proof.
  intros Hn Hd dir' d' name u s Hd' Hu.
  destruct (decide (dir = dir')) as [<-|Hne].
  - rewrite lookup_insert_eq in Hd'. injection Hd' as <-.
    destruct (decide (json_file (key v) = name)) as [<-|Hne].
    + rewrite lookup_insert_eq in Hu. now injection Hu as <- <-.
    + rewrite lookup_insert_ne in Hu by assumption. eapply Hn; eassumption.
  - rewrite lookup_insert_ne in Hd' by assumption. eapply Hn; eassumption.
Qed.

Lemma named_delete_file {A} (key : A -> string) (dirs : gmap string (gmap string (FileNode A)))
    (dir file : string) (d : gmap string (FileNode A)) :
  named key dirs -> dirs !! dir = Some d ->
  named key (<[dir := delete file d]> dirs).
Proof.
  intros Hn Hd dir' d' name u s Hd' Hu.
  destruct (decide (dir = dir')) as [<-|Hne].
  - rewrite lookup_insert_eq in Hd'. injection Hd' as <-.
    apply lookup_delete_Some in Hu as [_ Hu]. eapply Hn; eassumption.
  - rewrite lookup_insert_ne in Hd' by assumption. eapply Hn; eassumption.
Qed.

Lemma named_insert_empty {A} (key : A -> string) (dirs : gmap string (gmap string (FileNode A)))
    (dir : string) :
  named key dirs -> named key (<[dir := ∅]> dirs).
Proof.
  intros Hn dir' d' name u s Hd' Hu.
  destruct (decide (dir = dir')) as [<-|Hne].
  - rewrite lookup_insert_eq in Hd'. injection Hd' as <-. now rewrite lookup_empty in Hu.
  - rewrite lookup_insert_ne in Hd' by assumption. eapply Hn; eassumption.
Qed.

Ltac kept_frame :=
  intros w H; unfold well_kept, cache_sound, files_named_by_id in *; wsimpl; exact H.

Lemma kept_Date_now : preserves well_kept Date_now.
Proof. unfold Date_now. kept_frame. Qed.

Lemma kept_random : preserves well_kept Math_random_toString36.
Proof. unfold Math_random_toString36. kept_frame. Qed.

Lemma kept_console_error (m : string) (e : Exn) : preserves well_kept (console_error m e).
Proof. unfold console_error. kept_frame. Qed.

Lemma kept_JSON_parse {A} (d : FileData A) : preserves well_kept (JSON_parse d).
Proof. destruct d; [apply preserves_ret|apply preserves_throw]. Qed.

Lemma kept_readFile_project (dir file : string) :
  preserves well_kept (fs_readFile project_volume dir file).
Proof.
  unfold fs_readFile, ENOENT. intros w H. wsimpl.
  destruct (project_dirs w !! dir) as [d|]; wsimpl; [|exact H].
  destruct (d !! file) as [[]|]; wsimpl; exact H.
Qed.

Lemma kept_readFile_entity (dir file : string) :
  preserves well_kept (fs_readFile entity_volume dir file).
Proof.
  unfold fs_readFile, ENOENT. intros w H. wsimpl.
  destruct (entity_dirs w !! dir) as [d|]; wsimpl; [|exact H].
  destruct (d !! file) as [[]|]; wsimpl; exact H.
Qed.

Lemma kept_readdir_project (dir : string) :
  preserves well_kept (fs_readdir project_volume dir).
Proof.
  unfold fs_readdir, ENOENT. intros w H. wsimpl.
  destruct (project_dirs w !! dir) as [d|]; wsimpl; exact H.
Qed.

Lemma kept_set_project_dirs (w : World) (dirs : gmap string (gmap string (FileNode Project))) :
  well_kept w ->
  (forall x, is_Some (project_dirs w !! x) -> is_Some (dirs !! x)) ->
  named project_id dirs ->
  well_kept (set_project_dirs dirs w).
Proof.
  intros [Hc [Hp He]] Hmono Hnamed. split; [|split]; wsimpl; [|assumption|assumption].
  intros root Hroot. destruct (Hc root Hroot) as [H1 H2]. split; [now apply Hmono|exact H2].
Qed.

Lemma kept_set_entity_dirs (w : World) (dirs : gmap string (gmap string (FileNode Entity))) :
  well_kept w ->
  (forall x, is_Some (entity_dirs w !! x) -> is_Some (dirs !! x)) ->
  named entity_id dirs ->
  well_kept (set_entity_dirs dirs w).
Proof.
  intros [Hc [Hp He]] Hmono Hnamed. split; [|split]; wsimpl; [|assumption|assumption].
  intros root Hroot. destruct (Hc root Hroot) as [H1 H2]. split; [exact H1|now apply Hmono].
Qed.

Lemma kept_writeFile_project (dir : string) (p : Project) :
  preserves well_kept
    (fs_writeFile project_volume dir (json_file (project_id p)) (JSON_stringify p)).
Proof.
  unfold fs_writeFile, JSON_stringify, ENOENT. intros w H. wsimpl.
  destruct (project_dirs w !! dir) as [d|] eqn:Ed; wsimpl; [|exact H].
  destruct (d !! json_file (project_id p)) as [[old r|]|]; wsimpl; [|exact H|];
    (apply kept_set_project_dirs;
     [ exact H | intros x; apply is_Some_insert_dir
     | apply named_insert_file; [apply H|exact Ed] ]).
Qed.

Lemma kept_writeFile_entity (dir : string) (e : Entity) :
  preserves well_kept
    (fs_writeFile entity_volume dir (json_file (entity_id e)) (JSON_stringify e)).
Proof.
  unfold fs_writeFile, JSON_stringify, ENOENT. intros w H. wsimpl.
  destruct (entity_dirs w !! dir) as [d|] eqn:Ed; wsimpl; [|exact H].
  destruct (d !! json_file (entity_id e)) as [[old r|]|]; wsimpl; [|exact H|];
    (apply kept_set_entity_dirs;
     [ exact H | intros x; apply is_Some_insert_dir
     | apply named_insert_file; [apply H|exact Ed] ]).
Qed.

Lemma kept_unlink_project (dir file : string) :
  preserves well_kept (fs_unlink project_volume dir file).
Proof.
  unfold fs_unlink, ENOENT. intros w H. wsimpl.
  destruct (project_dirs w !! dir) as [d|] eqn:Ed; wsimpl; [|exact H].
  destruct (d !! file) as [[old [|]|]|]; wsimpl; try exact H.
  apply kept_set_project_dirs;
    [ exact H | intros x; apply is_Some_insert_dir
    | apply named_delete_file; [apply H|exact Ed] ].
Qed.

Lemma kept_unlink_entity (dir file : string) :
  preserves well_kept (fs_unlink entity_volume dir file).
Proof.
  unfold fs_unlink, ENOENT. intros w H. wsimpl.
  destruct (entity_dirs w !! dir) as [d|] eqn:Ed; wsimpl; [|exact H].
  destruct (d !! file) as [[old [|]|]|]; wsimpl; try exact H.
  apply kept_set_entity_dirs;
    [ exact H | intros x; apply is_Some_insert_dir
    | apply named_delete_file; [apply H|exact Ed] ].
Qed.

Lemma kept_mkdir_project (dir : string) :
  forall w, well_kept w ->
    well_kept (after (fs_mkdir project_volume dir w))
    /\ is_Some (project_dirs (after (fs_mkdir project_volume dir w)) !! dir)
    /\ initializedDataDir (after (fs_mkdir project_volume dir w)) = initializedDataDir w
    /\ getDataDir (after (fs_mkdir project_volume dir w)) = getDataDir w.
Proof.
  intros w H. unfold fs_mkdir. wsimpl.
  assert (Ht : well_kept (set_mkdir_trace (mkdir_trace w ++ [dir]) w)) by exact H.
  destruct (project_dirs w !! dir) as [d|] eqn:Ed; wsimpl.
  - rewrite Ed. split; [exact Ht|]. split; [eauto|]. split; reflexivity.
  - rewrite lookup_insert_eq. split; [|split; [eauto|split; reflexivity]].
    apply kept_set_project_dirs;
      [ exact Ht | intros x; apply is_Some_insert_dir | apply named_insert_empty, H ].
Qed.

Lemma kept_mkdir_entity (dir : string) :
  forall w, well_kept w ->
    well_kept (after (fs_mkdir entity_volume dir w))
    /\ is_Some (entity_dirs (after (fs_mkdir entity_volume dir w)) !! dir)
    /\ project_dirs (after (fs_mkdir entity_volume dir w)) = project_dirs w
    /\ initializedDataDir (after (fs_mkdir entity_volume dir w)) = initializedDataDir w
    /\ getDataDir (after (fs_mkdir entity_volume dir w)) = getDataDir w.
Proof.
  intros w H. unfold fs_mkdir. wsimpl.
  assert (Ht : well_kept (set_mkdir_trace (mkdir_trace w ++ [dir]) w)) by exact H.
  destruct (entity_dirs w !! dir) as [d|] eqn:Ed; wsimpl.
  - rewrite Ed. split; [exact Ht|]. split; [eauto|]. repeat split; reflexivity.
  - rewrite lookup_insert_eq. split; [|split; [eauto|repeat split; reflexivity]].
    apply kept_set_entity_dirs;
      [ exact Ht | intros x; apply is_Some_insert_dir | apply named_insert_empty, H ].
Qed.

Lemma kept_ensureDirectories : preserves well_kept ensureDirectories.
Proof.
  intros w H. unfold ensureDirectories.
  unfold bind at 1. unfold gets at 1. unfold bind at 1. unfold gets at 1.
  case_bool_decide as Hi; [exact H|].
  unfold bind at 1. unfold bind at 1. unfold gets at 1.
  destruct (kept_mkdir_project (getProjectsDir w) w H) as (H1 & Hp1 & Hi1 & Hd1).
  destruct (fs_mkdir project_volume (getProjectsDir w) w) as [[[]|e1] w1] eqn:E1;
    unfold after in *; cbn [snd] in *; [|exact H1].
  unfold bind at 1. unfold bind at 1. unfold gets at 1.
  destruct (kept_mkdir_entity (getEntitiesDir w1) w1 H1) as (H2 & He2 & Hp2 & Hi2 & Hd2).
  destruct (fs_mkdir entity_volume (getEntitiesDir w1) w1) as [[[]|e2] w2] eqn:E2;
    cbn [snd] in *; [|exact H2].
  unfold modify. cbn [snd].
  destruct H2 as [Hc2 Hn2]. split; [|exact Hn2].
  intros root Hroot. wsimpl. injection Hroot as <-.
  unfold getProjectsDir, getEntitiesDir in *. rewrite Hd1 in He2.
  split; [now rewrite Hp2|exact He2].
Qed.
Create HintDb kept discriminated.

#[local] Hint Resolve preserves_ret preserves_throw preserves_gets kept_Date_now
  kept_random kept_console_error kept_JSON_parse
  kept_readFile_project kept_readFile_entity kept_readdir_project
  kept_writeFile_project kept_writeFile_entity
  kept_unlink_project kept_unlink_entity kept_ensureDirectories : kept.

Ltac kept :=
  repeat first
    [ solve [auto with kept]
    | apply preserves_bind; [|intros ?]
    | apply preserves_try_catch; [|intros ?]
    | apply preserves_all_map; intros ?
    | progress cbv zeta
    | match goal with
      | |- preserves _ (match ?x with _ => _ end) => destruct x
      end ].

Lemma kept_generateId : preserves well_kept generateId.
Proof. unfold generateId. kept. Qed.

Lemma kept_timestamp : preserves well_kept timestamp.
Proof. unfold timestamp. kept. Qed.

#[local] Hint Resolve kept_generateId kept_timestamp : kept.

Lemma kept_createProject (name : string) (description : option string)
    (tags : option (list string)) :
  preserves well_kept (createProject name description tags).
Proof. unfold createProject. kept. Qed.

Lemma kept_getProject (id : string) : preserves well_kept (getProject id).
Proof. unfold getProject. kept. Qed.

Lemma kept_updateProject (p : Project) : preserves well_kept (updateProject p).
Proof. unfold updateProject. kept. Qed.

Lemma kept_getEntity (id : string) : preserves well_kept (getEntity id).
Proof. unfold getEntity. kept. Qed.

Lemma kept_updateEntity (e : Entity) : preserves well_kept (updateEntity e).
Proof. unfold updateEntity. kept. Qed.

#[local] Hint Resolve kept_createProject kept_getProject kept_updateProject
  kept_getEntity kept_updateEntity : kept.

Lemma kept_deleteEntity (id : string) : preserves well_kept (deleteEntity id).
Proof. unfold deleteEntity. kept. Qed.

#[local] Hint Resolve kept_deleteEntity : kept.

#[local] Instance preserves_preorder (I : World -> Prop) :
  PreOrder (fun w w' : World => I w -> I w').
Proof. split; [intros w H; exact H|intros w1 w2 w3 H1 H2 H; auto]. Qed.

Lemma preserves_satisfies {A} (I : World -> Prop) (m : M A) :
  preserves I m -> satisfies (fun w w' => I w -> I w') (fun _ => True) m.
Proof. intros H w. split; [apply H|trivial]. Qed.

Lemma named_insert_unparsable {A} (key : A -> string)
    (dirs : gmap string (gmap string (FileNode A)))
    (dir file text : string) (d : gmap string (FileNode A)) (r : bool) :
  named key dirs -> dirs !! dir = Some d ->
  named key (<[dir := <[file := RegularFile (Malformed text) r]> d]> dirs).
Proof.
  intros Hn Hd dir' d' name u s Hd' Hu.
  destruct (decide (dir = dir')) as [<-|Hne].
  - rewrite lookup_insert_eq in Hd'. injection Hd' as <-.
    destruct (decide (file = name)) as [<-|Hne].
    + rewrite lookup_insert_eq in Hu. discriminate Hu.
    + rewrite lookup_insert_ne in Hu by assumption. eapply Hn; eassumption.
  - rewrite lookup_insert_ne in Hd' by assumption. eapply Hn; eassumption.
Qed.

Lemma kept_open_for_writing (dir file : string) :
  preserves well_kept (fs_open_for_writing project_volume dir file).
Proof.
  unfold fs_open_for_writing, ENOENT. intros w H. wsimpl.
  destruct (project_dirs w !! dir) as [d|] eqn:Ed; wsimpl; [|exact H].
  destruct (d !! file) as [[old r|]|]; wsimpl; [|exact H|];
    (apply kept_set_project_dirs;
     [ exact H | intros x; apply is_Some_insert_dir
     | apply named_insert_unparsable; [apply H|exact Ed] ]).
Qed.

Lemma kept_write_and_close (dir : string) (p : Project) :
  preserves well_kept
    (fs_write_and_close project_volume dir (json_file (project_id p)) (JSON_stringify p)).
Proof.
  unfold fs_write_and_close, JSON_stringify. intros w H. wsimpl.
  destruct (project_dirs w !! dir) as [d|] eqn:Ed; wsimpl; [|exact H].
  destruct (d !! json_file (project_id p)) as [[old r|]|]; wsimpl; [|exact H|exact H].
  apply kept_set_project_dirs;
    [ exact H | intros x; apply is_Some_insert_dir
    | apply named_insert_file; [apply H|exact Ed] ].
Qed.

#[local] Hint Resolve kept_open_for_writing kept_write_and_close : kept.

Lemma kept_deleteEntity_async (id : string) :
  promise_ok (fun w w' => well_kept w -> well_kept w') (fun _ => True) (deleteEntity_async id).
Proof. unfold_calls. promises ltac:(apply preserves_satisfies; kept). Qed.

Lemma preserves_Promise_all {A} (I : World -> Prop) (promises : list (Promise A)) :
  (forall w v, I w -> I (set_gatherings v w)) ->
  Forall (promise_ok (fun w w' => I w -> I w') (fun _ => True)) promises ->
  preserves I (Promise_all promises).
Proof.
  intros Hg H w.
  now apply (Promise_all_satisfies (fun w w' => I w -> I w') (fun _ => True)).
Qed.

Lemma kept_cascade (l : list EntityRef) :
  preserves well_kept (Promise_all (map (fun ref => deleteEntity_async (ref_id ref)) l)).
Proof.
  apply preserves_Promise_all.
  - intros w v H. exact H.
  - apply Forall_map, Forall_forall. intros ref _. apply kept_deleteEntity_async.
Qed.

#[local] Hint Resolve kept_cascade : kept.

Lemma kept_deleteProject (id : string) : preserves well_kept (deleteProject id).
Proof. unfold deleteProject. kept. Qed.

Lemma kept_read_project_file (file : string) : preserves well_kept (read_project_file file).
Proof. unfold read_project_file. kept. Qed.

#[local] Hint Resolve kept_read_project_file : kept.

Lemma kept_listProjects : preserves well_kept listProjects.
Proof. unfold listProjects. kept. Qed.

Lemma kept_createEntity (pid : string) (input : EntityInput) :
  preserves well_kept (createEntity pid input).
Proof. unfold createEntity. kept. Qed.

Lemma kept_listEntitiesByProject (pid : string) :
  preserves well_kept (listEntitiesByProject pid).
Proof. unfold listEntitiesByProject. kept. Qed.

#[local] Hint Resolve kept_listEntitiesByProject : kept.

Lemma kept_listEntitiesByType (pid : string) (type : EntityKind) :
  preserves well_kept (listEntitiesByType pid type).
Proof. unfold listEntitiesByType. kept. Qed.

Lemma kept_exportProjectToJson (pid : string) :
  preserves well_kept (exportProjectToJson pid).
Proof. unfold exportProjectToJson. kept. Qed.

Lemma kept_exportProjectToMarkdown (pid : string) :
  preserves well_kept (exportProjectToMarkdown pid).
Proof. unfold exportProjectToMarkdown. kept. Qed.

(** Every operation, the reset and a change of the configured root
    included, maintains the invariants of the store. *)
Lemma step_well_kept (o : Op) (w : World) : well_kept w -> well_kept (step o w).
Proof.
  destruct o; cbn [step].
  - apply kept_createProject.
  - apply kept_getProject.
  - apply kept_updateProject.
  - apply kept_deleteProject.
  - apply kept_listProjects.
  - apply kept_createEntity.
  - apply kept_getEntity.
  - apply kept_updateEntity.
  - apply kept_deleteEntity.
  - apply kept_listEntitiesByProject.
  - apply kept_listEntitiesByType.
  - apply kept_exportProjectToJson.
  - apply kept_exportProjectToMarkdown.
  - intros [Hc Hn]. split; [|exact Hn]. intros root Hroot. discriminate Hroot.
  - intros H. exact H.
Qed.

Lemma run_well_kept (ops : list Op) (w : World) : well_kept w -> well_kept (run ops w).
Proof.
  revert w. induction ops as [|o ops IH]; intros w H; [exact H|].
  change (run (o :: ops) w) with (run ops (step o w)). apply IH. now apply step_well_kept.
Qed.

Lemma fresh_process_well_kept (root : string) : well_kept (fresh_process root).
Proof.
  split; [|split].
  - intros r Hr. discriminate Hr.
  - intros dir d name v r Hd. unfold fresh_process in Hd. cbn in Hd.
    now rewrite lookup_empty in Hd.
  - intros dir d name v r Hd. unfold fresh_process in Hd. cbn in Hd.
    now rewrite lookup_empty in Hd.
Qed.

(** In a world that the store has kept, a stored record carries the id
    under which it is stored. *)
Lemma well_kept_project_id (w : World) (id : string) (p : Project) (r : bool) :
  well_kept w -> project_node w id = Some (RegularFile (Json p) r) -> project_id p = id.
Proof.
  intros [_ [Hp _]] Hn. unfold project_node, project_dir in Hn.
  destruct (project_dirs w !! getProjectsDir w) as [d|] eqn:Ed; [|discriminate].
  symmetry. apply json_file_inj. eapply Hp; eassumption.
Qed.

Lemma well_kept_entity_id (w : World) (id : string) (e : Entity) :
  well_kept w -> stored_entity w id = Some e -> entity_id e = id.
Proof.
  intros [_ [_ He]] Hs. unfold stored_entity, entity_node, entity_dir in Hs.
  destruct (entity_dirs w !! getEntitiesDir w) as [d|] eqn:Ed; [|discriminate].
  destruct (d !! json_file id) as [[[v|t] r|]|] eqn:En; try discriminate.
  injection Hs as ->. symmetry. apply json_file_inj. eapply He; eassumption.
Qed.

(** In every world that a process reaches from its start, the scan of
    the projects directory succeeds. *)
Corollary listProjects_after_run (ops : list Op) (root : string) :
  exists projects,
    result (listProjects (run ops (fresh_process root))) = Return projects
    /\ projects ≡ₚ parsable_projects (run ops (fresh_process root))
    /\ StronglySorted newer_first projects.
Proof.
  destruct (listProjects_eq (run ops (fresh_process root))) as (w' & E & _).
  { apply run_well_kept, fresh_process_well_kept. }
  rewrite E. unfold result; cbn [fst].
  eexists. split; [reflexivity|]. split; [apply js_sort_perm|apply js_sort_sorted].
Qed.

(** *** Operations that only read *)

Lemma untouched_refl (w : World) : untouched w w.
Proof. unfold untouched. auto 10. Qed.

Lemma untouched_trans (w1 w2 w3 : World) :
  untouched w1 w2 -> untouched w2 w3 -> untouched w1 w3.
Proof.
  intros (A1 & A2 & A3 & A4 & A5 & A6) (B1 & B2 & B3 & B4 & B5 & B6).
  unfold untouched. split; [congruence|]. split; [congruence|].
  split; [intros dir name; now rewrite B3|].
  split; [intros dir name; now rewrite B4|].
  split; congruence.
Qed.

Lemma untouched_nodes (w w' : World) :
  untouched w w' ->
  getDataDir w' = getDataDir w
  /\ (forall x, project_node w' x = project_node w x)
  /\ (forall x, entity_node w' x = entity_node w x).
Proof.
  intros (A1 & A2 & A3 & A4 & _).
  assert (D : getDataDir w' = getDataDir w) by now apply getDataDir_env.
  split; [exact D|]. split; intros x.
  - unfold project_node, project_dir, getProjectsDir. rewrite D. apply A3.
  - unfold entity_node, entity_dir, getEntitiesDir. rewrite D. apply A4.
Qed.

Lemma read_only_ret {A} (a : A) : read_only (ret a).
Proof. intros w. apply untouched_refl. Qed.

Lemma read_only_throw {A} (e : Exn) : read_only (@throw A e).
Proof. intros w. apply untouched_refl. Qed.

Lemma read_only_gets {A} (f : World -> A) : read_only (gets f).
Proof. intros w. apply untouched_refl. Qed.

Lemma read_only_bind {A B} (m : M A) (f : A -> M B) :
  read_only m -> (forall a, read_only (f a)) -> read_only (bind m f).
Proof.
  intros Hm Hf w. specialize (Hm w). unfold bind, after in *.
  destruct (m w) as [[a|e] w1]; cbn [snd] in *; [|exact Hm].
  eapply untouched_trans; [exact Hm|]. apply Hf.
Qed.

Lemma read_only_try_catch {A} (m : M A) (h : Exn -> M A) :
  read_only m -> (forall e, read_only (h e)) -> read_only (try_catch m h).
Proof.
  intros Hm Hh w. specialize (Hm w). unfold try_catch, after in *.
  destruct (m w) as [[a|e] w1]; cbn [snd] in *; [exact Hm|].
  eapply untouched_trans; [exact Hm|]. apply Hh.
Qed.

Lemma read_only_all_map {A B} (f : A -> M B) (l : list A) :
  (forall a, read_only (f a)) -> read_only (all_map f l).
Proof.
  intros Hf. induction l as [|x l IH]; cbn [all_map].
  - apply read_only_ret.
  - apply read_only_bind; [apply Hf|]. intros y.
    apply read_only_bind; [exact IH|]. intros ys. apply read_only_ret.
Qed.

Lemma read_only_JSON_parse {A} (d : FileData A) : read_only (JSON_parse d).
Proof. destruct d; [apply read_only_ret|apply read_only_throw]. Qed.

Lemma read_only_console_error (m : string) (e : Exn) : read_only (console_error m e).
Proof. intros w. unfold untouched, console_error. wsimpl. auto 10. Qed.

Lemma read_only_readFile_project (dir file : string) :
  read_only (fs_readFile project_volume dir file).
Proof.
  intros w. unfold fs_readFile, ENOENT. wsimpl.
  destruct (project_dirs w !! dir) as [d|]; wsimpl; [|apply untouched_refl].
  destruct (d !! file) as [[data r|]|]; wsimpl; apply untouched_refl.
Qed.

Lemma read_only_readFile_entity (dir file : string) :
  read_only (fs_readFile entity_volume dir file).
Proof.
  intros w. unfold fs_readFile, ENOENT. wsimpl.
  destruct (entity_dirs w !! dir) as [d|]; wsimpl; [|apply untouched_refl].
  destruct (d !! file) as [[data r|]|]; wsimpl; apply untouched_refl.
Qed.

Lemma read_only_readdir_project (dir : string) :
  read_only (fs_readdir project_volume dir).
Proof.
  intros w. unfold fs_readdir, ENOENT. wsimpl.
  destruct (project_dirs w !! dir) as [d|]; wsimpl; apply untouched_refl.
Qed.

Lemma file_at_insert_empty {A} (dirs : gmap string (gmap string (FileNode A)))
    (dir dir' name : string) :
  dirs !! dir = None -> file_at (<[dir := ∅]> dirs) dir' name = file_at dirs dir' name.
Proof.
  intros E. unfold file_at. destruct (decide (dir' = dir)) as [->|N].
  - rewrite lookup_insert_eq, E. apply lookup_empty.
  - now rewrite lookup_insert_ne by congruence.
Qed.

Lemma read_only_mkdir_project (dir : string) : read_only (fs_mkdir project_volume dir).
Proof.
  intros w. unfold fs_mkdir. wsimpl.
  destruct (project_dirs w !! dir) as [d|] eqn:E; wsimpl; unfold untouched; wsimpl.
  - auto 10.
  - split; [reflexivity|]. split; [reflexivity|].
    split; [intros; now apply file_at_insert_empty|]. auto.
Qed.

Lemma read_only_mkdir_entity (dir : string) : read_only (fs_mkdir entity_volume dir).
Proof.
  intros w. unfold fs_mkdir. wsimpl.
  destruct (entity_dirs w !! dir) as [d|] eqn:E; wsimpl; unfold untouched; wsimpl.
  - auto 10.
  - split; [reflexivity|]. split; [reflexivity|]. split; [reflexivity|].
    split; [intros; now apply file_at_insert_empty|]. auto.
Qed.

Lemma read_only_ensureDirectories : read_only ensureDirectories.
Proof.
  unfold ensureDirectories.
  apply read_only_bind; [apply read_only_gets|]. intros root.
  apply read_only_bind; [apply read_only_gets|]. intros cached.
  destruct (bool_decide (cached = Some root)); [apply read_only_ret|].
  apply read_only_bind.
  { apply read_only_bind; [apply read_only_gets|]. intros ?. apply read_only_mkdir_project. }
  intros _. apply read_only_bind.
  { apply read_only_bind; [apply read_only_gets|]. intros ?. apply read_only_mkdir_entity. }
  intros _. intros w. unfold untouched. wsimpl. auto 10.
Qed.

Lemma read_only_resetDirectoryInit : read_only resetDirectoryInit.
Proof. intros w. unfold untouched, resetDirectoryInit. wsimpl. auto 10. Qed.

Create HintDb reads discriminated.

#[local] Hint Resolve read_only_ret read_only_throw read_only_gets read_only_JSON_parse
  read_only_console_error read_only_readFile_project read_only_readFile_entity
  read_only_readdir_project read_only_ensureDirectories : reads.

Ltac reads :=
  repeat first
    [ solve [auto with reads]
    | apply read_only_bind; [|intros ?]
    | apply read_only_try_catch; [|intros ?]
    | apply read_only_all_map; intros ?
    | progress cbv zeta
    | match goal with
      | |- read_only (match ?x with _ => _ end) => destruct x
      | |- read_only (if ?x then _ else _) => destruct x
      end ].

Lemma read_only_getProject (id : string) : read_only (getProject id).
Proof. unfold getProject. reads. Qed.

Lemma read_only_getEntity (id : string) : read_only (getEntity id).
Proof. unfold getEntity. reads. Qed.

#[local] Hint Resolve read_only_getProject read_only_getEntity : reads.

Lemma read_only_listProjects : read_only listProjects.
Proof. unfold listProjects, read_project_file. reads. Qed.

Lemma read_only_listEntitiesByProject (pid : string) : read_only (listEntitiesByProject pid).
Proof. unfold listEntitiesByProject. reads. Qed.

#[local] Hint Resolve read_only_listProjects read_only_listEntitiesByProject : reads.

Lemma read_only_listEntitiesByType (pid : string) (type : EntityKind) :
  read_only (listEntitiesByType pid type).
Proof. unfold listEntitiesByType. reads. Qed.

Lemma read_only_exportProjectToJson (pid : string) : read_only (exportProjectToJson pid).
Proof. unfold exportProjectToJson. reads. Qed.

Lemma read_only_exportProjectToMarkdown (pid : string) :
  read_only (exportProjectToMarkdown pid).
Proof. unfold exportProjectToMarkdown. reads. Qed.

#[local] Hint Resolve read_only_listEntitiesByType read_only_exportProjectToJson
  read_only_exportProjectToMarkdown : reads.

(** X1. The reading operations of the store ([getProject], [getEntity],
    [listProjects], [listEntitiesByProject], [listEntitiesByType] and the
    two exports) never create, change or remove a file, under any
    directory, whatever they return or throw; they leave the
    configuration alone and consume neither a clock tick nor a random
    draw. *)
Theorem reads_never_write (w : World) :
  (forall id, untouched w (after (getProject id w)))
  /\ (forall id, untouched w (after (getEntity id w)))
  /\ untouched w (after (listProjects w))
  /\ (forall pid, untouched w (after (listEntitiesByProject pid w)))
  /\ (forall pid type, untouched w (after (listEntitiesByType pid type w)))
  /\ (forall pid, untouched w (after (exportProjectToJson pid w)))
  /\ (forall pid, untouched w (after (exportProjectToMarkdown pid w))).
Proof.
  split; [intros id; apply read_only_getProject|].
  split; [intros id; apply read_only_getEntity|].
  split; [apply read_only_listProjects|].
  split; [intros pid; apply read_only_listEntitiesByProject|].
  split; [intros pid type; apply read_only_listEntitiesByType|].
  split; [intros pid; apply read_only_exportProjectToJson|].
  intros pid; apply read_only_exportProjectToMarkdown.
Qed.

(** *** Every store operation starts by initialising the directories *)

Lemma ready_entropy (w : World) :
  entropy (ready w) = entropy w /\ entropy_reads (ready w) = entropy_reads w.
Proof.
  unfold ready, ensureDirectories, fs_mkdir. wsimpl.
  case_bool_decide as Hc; wsimpl; [split; reflexivity|].
  destruct (project_dirs w !! getProjectsDir w); wsimpl;
    destruct (entity_dirs w !! getEntitiesDir w); wsimpl; split; reflexivity.
Qed.

Lemma next_id_ready (w : World) : next_id (ready w) = next_id w.
Proof.
  unfold next_id. destruct (ready_clock w) as [-> ->]. now destruct (ready_entropy w) as [-> ->].
Qed.

Lemma ready_entity_dir (w : World) : cache_sound w -> is_Some (entity_dir (ready w)).
Proof.
  intros Hs. unfold cache_sound in Hs.
  unfold entity_dir, ready, ensureDirectories, fs_mkdir. wsimpl.
  case_bool_decide as Hc; wsimpl.
  - destruct (Hs _ Hc) as [_ Hd]. exact Hd.
  - destruct (project_dirs w !! getProjectsDir w) as [d|] eqn:Ed; wsimpl;
      destruct (entity_dirs w !! getEntitiesDir w) eqn:Ee; wsimpl;
      rewrite ?lookup_insert_eq, ?Ee; eauto.
Qed.

Lemma ready_project_dir_Some (w : World) : cache_sound w -> is_Some (project_dir (ready w)).
Proof. intros Hs. destruct (ready_project_dir w Hs) as (d & -> & _). eauto. Qed.

Lemma createProject_ready (w : World) (name : string) (description : option string)
    (tags : option (list string)) :
  createProject name description tags w = createProject name description tags (ready w).
Proof.
  unfold createProject. rewrite !bind_ensureDirectories.
  now rewrite (ready_fixed (ready w) (ready_initialized w)).
Qed.

Lemma updateProject_ready (w : World) (p : Project) :
  updateProject p w = updateProject p (ready w).
Proof.
  unfold updateProject. rewrite !bind_ensureDirectories.
  now rewrite (ready_fixed (ready w) (ready_initialized w)).
Qed.

Lemma updateEntity_ready (w : World) (e : Entity) :
  updateEntity e w = updateEntity e (ready w).
Proof.
  unfold updateEntity. rewrite !bind_ensureDirectories.
  now rewrite (ready_fixed (ready w) (ready_initialized w)).
Qed.

(** *** What the writing operations store *)

Lemma updateProject_core (w : World) (p : Project) :
  initialized w ->
  is_Some (project_dir w) ->
  project_node w (project_id p) <> Some SubDirectory ->
  exists w',
    updateProject p w = (Return (with_updatedAt (clock w (clock_reads w)) p), w')
    /\ initialized w'
    /\ getDataDir w' = getDataDir w
    /\ (forall x, project_node w' x =
          if decide (x = project_id p)
          then Some (RegularFile (Json (with_updatedAt (clock w (clock_reads w)) p))
                       (removable_after_write (project_node w (project_id p))))
          else project_node w x)
    /\ (forall x, entity_node w' x = entity_node w x).
Proof.
  intros Hi [d Hd] Hn.
  destruct (project_node w (project_id p)) as [[old r|]|] eqn:En; [| congruence |].
  - destruct (updateProject_existing w p old r Hi En) as (w' & E & H).
    exists w'. split; [exact E|]. exact H.
  - unfold updateProject. rewrite bind_ensureDirectories, (ready_fixed w Hi).
    unfold timestamp, Date_now, fs_writeFile, JSON_stringify. wsimpl.
    unfold project_node in En. rewrite Hd in En. unfold project_dir in Hd.
    rewrite Hd. wsimpl. rewrite En. wsimpl.
    eexists. split; [reflexivity|].
    unfold initialized, project_node, entity_node, project_dir, entity_dir. wsimpl.
    rewrite lookup_insert_eq.
    split; [assumption|]. split; [reflexivity|]. split; [|reflexivity].
    intros x. case_decide as Hx.
    + subst x. now rewrite lookup_insert_eq.
    + rewrite lookup_insert_ne, Hd; [reflexivity|]. intros H. apply Hx. now apply json_file_inj.
Qed.

Lemma updateEntity_core (w : World) (e : Entity) :
  initialized w ->
  is_Some (entity_dir w) ->
  entity_node w (entity_id e) <> Some SubDirectory ->
  exists w',
    updateEntity e w = (Return (entity_with_updatedAt (clock w (clock_reads w)) e), w')
    /\ initialized w'
    /\ getDataDir w' = getDataDir w
    /\ (forall x, project_node w' x = project_node w x)
    /\ (forall x, entity_node w' x =
          if decide (x = entity_id e)
          then Some (RegularFile (Json (entity_with_updatedAt (clock w (clock_reads w)) e))
                       (removable_after_write (entity_node w (entity_id e))))
          else entity_node w x).
Proof.
  intros Hi [d Hd] Hn.
  unfold updateEntity. rewrite bind_ensureDirectories, (ready_fixed w Hi).
  unfold timestamp, Date_now, fs_writeFile, JSON_stringify. wsimpl.
  unfold entity_node in Hn |- *. rewrite Hd in Hn |- *. unfold entity_dir in Hd |- *.
  rewrite Hd. wsimpl.
  assert (Hwritten : forall r,
    let w' := set_entity_dirs
                (<[getEntitiesDir w :=
                     <[json_file (entity_id e) :=
                         RegularFile (Json (entity_with_updatedAt (clock w (clock_reads w)) e)) r]>
                       d]> (entity_dirs w))
                (set_clock_reads (S (clock_reads w)) w) in
    initialized w'
    /\ getDataDir w' = getDataDir w
    /\ (forall x, project_node w' x = project_node w x)
    /\ (forall x, match entity_dirs w' !! getEntitiesDir w' with
                  | Some d' => d' !! json_file x
                  | None => None
                  end =
          if decide (x = entity_id e)
          then Some (RegularFile (Json (entity_with_updatedAt (clock w (clock_reads w)) e)) r)
          else d !! json_file x)).
  { intros r w'. subst w'.
    unfold initialized, project_node, project_dir. wsimpl.
    rewrite lookup_insert_eq.
    split; [assumption|]. split; [reflexivity|]. split; [reflexivity|].
    intros x. case_decide as Hx.
    - subst x. now rewrite lookup_insert_eq.
    - rewrite lookup_insert_ne; [reflexivity|]. intros H. apply Hx. now apply json_file_inj. }
  destruct (d !! json_file (entity_id e)) as [[old r|]|] eqn:En; wsimpl.
  - eexists. split; [reflexivity|]. apply (Hwritten r).
  - congruence.
  - eexists. split; [reflexivity|]. apply (Hwritten true).
Qed.

Lemma createProject_core (w : World) (name : string) (description : option string)
    (tags : option (list string)) :
  initialized w ->
  is_Some (project_dir w) ->
  project_node w (next_id w) <> Some SubDirectory ->
  let P := mkProject (next_id w) name description tags
             (clock w (S (clock_reads w))) (clock w (S (S (clock_reads w)))) [] in
  exists w',
    createProject name description tags w = (Return P, w')
    /\ initialized w'
    /\ getDataDir w' = getDataDir w
    /\ (forall x, project_node w' x =
          if decide (x = next_id w)
          then Some (RegularFile (Json P) (removable_after_write (project_node w (next_id w))))
          else project_node w x)
    /\ (forall x, entity_node w' x = entity_node w x).
Proof.
  intros Hi [d Hd] Hn P.
  unfold createProject. rewrite bind_ensureDirectories, (ready_fixed w Hi).
  unfold generateId, timestamp, Date_now, Math_random_toString36, fs_writeFile, JSON_stringify.
  wsimpl. fold (next_id w). fold P.
  unfold project_node in Hn |- *. rewrite Hd in Hn |- *. unfold project_dir in Hd |- *.
  rewrite Hd. wsimpl.
  assert (Hwritten : forall r,
    let w' := set_project_dirs
                (<[getProjectsDir w := <[json_file (next_id w) := RegularFile (Json P) r]> d]>
                   (project_dirs w))
                (set_clock_reads (S (S (S (clock_reads w))))
                   (set_entropy_reads (S (entropy_reads w))
                      (set_clock_reads (S (clock_reads w)) w))) in
    initialized w'
    /\ getDataDir w' = getDataDir w
    /\ (forall x, match project_dirs w' !! getProjectsDir w' with
                  | Some d' => d' !! json_file x
                  | None => None
                  end =
          if decide (x = next_id w) then Some (RegularFile (Json P) r) else d !! json_file x)
    /\ (forall x, entity_node w' x = entity_node w x)).
  { intros r w'. subst w'.
    unfold initialized, entity_node, entity_dir. wsimpl.
    rewrite lookup_insert_eq.
    split; [assumption|]. split; [reflexivity|]. split; [|reflexivity].
    intros x. case_decide as Hx.
    - subst x. now rewrite lookup_insert_eq.
    - rewrite lookup_insert_ne; [reflexivity|]. intros H. apply Hx. now apply json_file_inj. }
  destruct (d !! json_file (next_id w)) as [[old r|]|] eqn:En; wsimpl.
  - eexists. split; [reflexivity|]. apply (Hwritten r).
  - congruence.
  - eexists. split; [reflexivity|]. apply (Hwritten true).
Qed.

Lemma createEntity_core (w : World) (pid : string) (P : Project) (rp : bool)
    (input : EntityInput) :
  initialized w ->
  is_Some (entity_dir w) ->
  project_node w pid = Some (RegularFile (Json P) rp) ->
  project_id P = pid ->
  entity_node w (next_id w) <> Some SubDirectory ->
  let e := mkEntity (next_id w) pid
             (clock w (S (clock_reads w))) (clock w (S (S (clock_reads w))))
             (in_researchMetadata input) (in_variant input) in
  let P' := with_updatedAt (clock w (S (S (S (clock_reads w)))))
              (with_entities
                 (project_entities P ++ [mkRef (next_id w) (variant_type (in_variant input))])
                 P) in
  exists w',
    createEntity pid input w = (Return e, w')
    /\ initialized w'
    /\ getDataDir w' = getDataDir w
    /\ (forall x, project_node w' x =
          if decide (x = pid) then Some (RegularFile (Json P') rp) else project_node w x)
    /\ (forall x, entity_node w' x =
          if decide (x = next_id w)
          then Some (RegularFile (Json e) (removable_after_write (entity_node w (next_id w))))
          else entity_node w x).
Proof.
  intros Hi [d Hd] HP Hid Hn e P'.
  unfold createEntity. rewrite bind_ensureDirectories, (ready_fixed w Hi).
  unfold bind at 1. rewrite getProject_initialized by assumption.
  rewrite HP. cbn [read_outcome].
  unfold generateId, timestamp, Date_now, Math_random_toString36, fs_writeFile, JSON_stringify.
  wsimpl. fold (next_id w). fold e.
  unfold entity_node in Hn |- *. rewrite Hd in Hn |- *. unfold entity_dir in Hd |- *.
  rewrite Hd. wsimpl.
  assert (Hwritten : forall r,
    let w5 := set_entity_dirs
                (<[getEntitiesDir w := <[json_file (next_id w) := RegularFile (Json e) r]> d]>
                   (entity_dirs w))
                (set_clock_reads (S (S (S (clock_reads w))))
                   (set_clock_reads (S (S (clock_reads w)))
                      (set_entropy_reads (S (entropy_reads w))
                         (set_clock_reads (S (clock_reads w)) w)))) in
    exists w',
      updateProject
        (with_entities (project_entities P ++ [mkRef (next_id w) (entity_type e)]) P) w5
      = (Return P', w')
      /\ initialized w'
      /\ getDataDir w' = getDataDir w
      /\ (forall x, project_node w' x =
            if decide (x = pid) then Some (RegularFile (Json P') rp) else project_node w x)
      /\ (forall x, match entity_dirs w' !! getEntitiesDir w' with
                    | Some d' => d' !! json_file x
                    | None => None
                    end =
            if decide (x = next_id w) then Some (RegularFile (Json e) r) else d !! json_file x)).
  { intros r w5.
    destruct (updateProject_existing w5
                (with_entities (project_entities P ++ [mkRef (next_id w) (entity_type e)]) P)
                (Json P) rp) as (w' & E & Hi' & Hd' & Hp' & He').
    { subst w5. unfold initialized. wsimpl. exact Hi. }
    { subst w5. cbn [project_id with_entities]. rewrite Hid.
      unfold project_node, project_dir in HP |- *. wsimpl. exact HP. }
    exists w'. split; [exact E|]. split; [exact Hi'|].
    split; [rewrite Hd'; subst w5; wsimpl; reflexivity|].
    split.
    - intros x. rewrite Hp'. cbn [project_id with_entities]. rewrite Hid.
      case_decide; [reflexivity|]. subst w5. unfold project_node, project_dir. wsimpl.
      reflexivity.
    - intros x. specialize (He' x). unfold entity_node, entity_dir in He'. rewrite He'.
      subst w5. wsimpl. rewrite lookup_insert_eq.
      case_decide as Hx.
      + subst x. now rewrite lookup_insert_eq.
      + rewrite lookup_insert_ne; [reflexivity|]. intros H. apply Hx. now apply json_file_inj. }
  destruct (d !! json_file (next_id w)) as [[old r|]|] eqn:En; wsimpl.
  - destruct (Hwritten r) as (w' & E & H). cbv zeta in E. wsimpl. rewrite E.
    exists w'. split; [reflexivity|]. exact H.
  - congruence.
  - destruct (Hwritten true) as (w' & E & H). cbv zeta in E. wsimpl. rewrite E.
    exists w'. split; [reflexivity|]. exact H.
Qed.

Lemma project_node_not_dir_ready (w : World) (id : string) :
  project_node w id <> Some SubDirectory -> project_node (ready w) id <> Some SubDirectory.
Proof. now rewrite ready_project_node. Qed.

Lemma entity_node_not_dir_ready (w : World) (id : string) :
  entity_node w id <> Some SubDirectory -> entity_node (ready w) id <> Some SubDirectory.
Proof. now rewrite ready_entity_node. Qed.

(** X3. In a store whose directories exist, [createProject] succeeds
    unless the name of the new file is taken by a directory.  It returns
    a project with the identifier that [generateId] yields, the given
    name, description and tags, and no entity; its two timestamps are
    two successive readings of the clock, taken after the one that makes
    the identifier.  [getProject] on the new id then returns that very
    record, and no other project file and no entity file has changed. *)
Theorem createProject_round_trip (w : World) (name : string) (description : option string)
    (tags : option (list string)) :
  cache_sound w ->
  project_node w (next_id w) <> Some SubDirectory ->
  exists P w',
    createProject name description tags w = (Return P, w')
    /\ P = mkProject (next_id w) name description tags
             (clock w (S (clock_reads w))) (clock w (S (S (clock_reads w)))) []
    /\ result (getProject (project_id P) w') = Return (Some P)
    /\ (forall x, x <> project_id P -> project_node w' x = project_node w x)
    /\ (forall x, entity_node w' x = entity_node w x).
Proof.
  intros Hs Hn. rewrite createProject_ready.
  destruct (createProject_core (ready w) name description tags (ready_initialized w)
              (ready_project_dir_Some w Hs))
    as (w' & E & Hi' & Hd' & Hp' & He').
  { rewrite next_id_ready. now apply project_node_not_dir_ready. }
  rewrite next_id_ready in E, Hp'. destruct (ready_clock w) as [Hc Hr]. rewrite Hc, Hr in E, Hp'.
  eexists. exists w'. split; [exact E|]. split; [reflexivity|].
  cbn [project_id]. split.
  - rewrite getProject_initialized by assumption. rewrite Hp'.
    rewrite decide_True by reflexivity. reflexivity.
  - split.
    + intros x Hx. rewrite Hp'. rewrite decide_False by exact Hx. apply ready_project_node.
    + intros x. rewrite He'. apply ready_entity_node.
Qed.

(** X4. [updateProject] does not look for the project it updates: in a
    store whose directories exist it writes the record it is given under
    the id of that record, with [updatedAt] replaced by the current
    reading of the clock and every other field as given, whether or not
    a project with that id was stored before.  [getProject] then returns
    the written record; no other project file and no entity file has
    changed. *)
Theorem updateProject_upserts (w : World) (p : Project) :
  cache_sound w ->
  project_node w (project_id p) <> Some SubDirectory ->
  exists w',
    updateProject p w = (Return (with_updatedAt (clock w (clock_reads w)) p), w')
    /\ result (getProject (project_id p) w')
       = Return (Some (with_updatedAt (clock w (clock_reads w)) p))
    /\ (forall x, x <> project_id p -> project_node w' x = project_node w x)
    /\ (forall x, entity_node w' x = entity_node w x).
Proof.
  intros Hs Hn. rewrite updateProject_ready.
  destruct (updateProject_core (ready w) p (ready_initialized w) (ready_project_dir_Some w Hs)
              (project_node_not_dir_ready w _ Hn))
    as (w' & E & Hi' & Hd' & Hp' & He').
  destruct (ready_clock w) as [Hc Hr]. rewrite Hc, Hr in E, Hp'.
  exists w'. split; [exact E|]. split.
  - rewrite getProject_initialized by assumption. rewrite Hp'.
    rewrite decide_True by reflexivity. reflexivity.
  - split.
    + intros x Hx. rewrite Hp'. rewrite decide_False by exact Hx. apply ready_project_node.
    + intros x. rewrite He'. apply ready_entity_node.
Qed.

(** X5. [updateEntity] writes the entity file and nothing else: in a
    store whose directories exist it stores the record it is given under
    its id, with only [updatedAt] refreshed, whether or not such an
    entity was stored before, and [getEntity] reads it back; it changes
    no project file, so the reference list of the owning project is
    left as it was even when the entity is new. *)
Theorem updateEntity_writes_entity_only (w : World) (e : Entity) :
  cache_sound w ->
  entity_node w (entity_id e) <> Some SubDirectory ->
  exists w',
    updateEntity e w = (Return (entity_with_updatedAt (clock w (clock_reads w)) e), w')
    /\ result (getEntity (entity_id e) w')
       = Return (Some (entity_with_updatedAt (clock w (clock_reads w)) e))
    /\ (forall x, project_node w' x = project_node w x)
    /\ (forall x, x <> entity_id e -> entity_node w' x = entity_node w x).
Proof.
  intros Hs Hn. rewrite updateEntity_ready.
  destruct (updateEntity_core (ready w) e (ready_initialized w) (ready_entity_dir w Hs)
              (entity_node_not_dir_ready w _ Hn))
    as (w' & E & Hi' & Hd' & Hp' & He').
  destruct (ready_clock w) as [Hc Hr]. rewrite Hc, Hr in E, He'.
  exists w'. split; [exact E|]. split.
  - rewrite getEntity_initialized by assumption. rewrite He'.
    rewrite decide_True by reflexivity. reflexivity.
  - split.
    + intros x. rewrite Hp'. apply ready_project_node.
    + intros x Hx. rewrite He'. rewrite decide_False by exact Hx. apply ready_entity_node.
Qed.

Lemma createEntity_spec (w : World) (pid : string) (P : Project) (rp : bool)
    (input : EntityInput) :
  cache_sound w ->
  project_node w pid = Some (RegularFile (Json P) rp) ->
  project_id P = pid ->
  entity_node w (next_id w) <> Some SubDirectory ->
  let e := mkEntity (next_id w) pid
             (clock w (S (clock_reads w))) (clock w (S (S (clock_reads w))))
             (in_researchMetadata input) (in_variant input) in
  let P' := with_updatedAt (clock w (S (S (S (clock_reads w)))))
              (with_entities
                 (project_entities P ++ [mkRef (next_id w) (variant_type (in_variant input))])
                 P) in
  exists w',
    createEntity pid input w = (Return e, w')
    /\ initialized w'
    /\ getDataDir w' = getDataDir w
    /\ (forall x, project_node w' x =
          if decide (x = pid) then Some (RegularFile (Json P') rp) else project_node w x)
    /\ (forall x, entity_node w' x =
          if decide (x = next_id w)
          then Some (RegularFile (Json e) (removable_after_write (entity_node w (next_id w))))
          else entity_node w x).
Proof.
  intros Hs HP Hid Hn e P'. rewrite createEntity_ready.
  destruct (createEntity_core (ready w) pid P rp input (ready_initialized w)
              (ready_entity_dir w Hs))
    as (w' & E & Hi' & Hd' & Hp' & He').
  { now rewrite ready_project_node. }
  { exact Hid. }
  { rewrite next_id_ready. now apply entity_node_not_dir_ready. }
  rewrite next_id_ready in E, Hp', He'.
  destruct (ready_clock w) as [Hc Hr]. rewrite Hc, Hr in E, Hp', He'.
  rewrite ready_entity_node in He'.
  exists w'. split; [exact E|]. split; [exact Hi'|].
  split; [now rewrite Hd', ready_dataDir|]. split.
  - intros x. rewrite Hp'. case_decide; [reflexivity|apply ready_project_node].
  - intros x. rewrite He'. case_decide; [reflexivity|apply ready_entity_node].
Qed.

(** X6. In a store whose directories exist, [createEntity] on a stored
    project succeeds unless the name of the new file is taken by a
    directory.  The entity it returns carries the payload it was given,
    unchanged, under the generated id and the given project id, and
    [getEntity] reads that very record back.  The project keeps its
    name, description, tags and creation time and gains one reference at
    the end of its list; no other project file and no other entity file
    has changed. *)
Theorem createEntity_effect (w : World) (pid : string) (P : Project) (rp : bool)
    (input : EntityInput) :
  cache_sound w ->
  project_node w pid = Some (RegularFile (Json P) rp) ->
  project_id P = pid ->
  entity_node w (next_id w) <> Some SubDirectory ->
  exists e P' w',
    createEntity pid input w = (Return e, w')
    /\ entity_id e = next_id w
    /\ entity_projectId e = pid
    /\ entity_variant e = in_variant input
    /\ entity_researchMetadata e = in_researchMetadata input
    /\ result (getEntity (entity_id e) w') = Return (Some e)
    /\ result (getProject pid w') = Return (Some P')
    /\ project_id P' = pid
    /\ project_name P' = project_name P
    /\ project_description P' = project_description P
    /\ project_tags P' = project_tags P
    /\ project_createdAt P' = project_createdAt P
    /\ project_entities P' = (project_entities P ++ [mkRef (entity_id e) (entity_type e)])%list
    /\ (forall x, x <> pid -> project_node w' x = project_node w x)
    /\ (forall x, x <> entity_id e -> entity_node w' x = entity_node w x).
Proof.
  intros Hs HP Hid Hn.
  destruct (createEntity_spec w pid P rp input Hs HP Hid Hn)
    as (w' & E & Hi' & Hd' & Hp' & He').
  eexists. eexists. exists w'. split; [exact E|].
  cbn [entity_id entity_projectId entity_variant entity_researchMetadata].
  do 4 (split; [reflexivity|]).
  split.
  { rewrite getEntity_initialized by assumption. rewrite He'.
    rewrite decide_True by reflexivity. reflexivity. }
  split.
  { rewrite getProject_initialized by assumption. rewrite Hp'.
    rewrite decide_True by reflexivity. reflexivity. }
  cbn [with_updatedAt with_entities project_id project_name project_description project_tags
       project_createdAt project_entities].
  split; [exact Hid|]. do 5 (split; [reflexivity|]).
  split.
  - intros x Hx. rewrite Hp'. now rewrite decide_False by exact Hx.
  - intros x Hx. rewrite He'. now rewrite decide_False by exact Hx.
Qed.

Lemma getProject_initialized_bind {A} (k : option Project -> M A) (w : World) (id : string) :
  initialized w ->
  (let! project := getProject id in k project) w =
    match read_outcome "Failed to read project " (getProjectsDir w) id (project_node w id) with
    | Return project => k project w
    | Throw error => (Throw error, w)
    end.
Proof. intros Hi. unfold bind. now rewrite getProject_initialized by assumption. Qed.

(** X7. When the project file cannot be read as a project (it is
    missing, it does not parse, or a directory sits in its place),
    [createEntity] throws before it draws an identifier or writes
    anything: every file is as before and neither the clock nor the
    random source was consulted. *)
Theorem createEntity_rejects_before_writing (w : World) (pid : string) (input : EntityInput) :
  (forall P r, project_node w pid <> Some (RegularFile (Json P) r)) ->
  (exists error, result (createEntity pid input w) = Throw error)
  /\ untouched w (after (createEntity pid input w)).
Proof.
  intros Hn. unfold createEntity. rewrite bind_ensureDirectories.
  rewrite (getProject_initialized_bind _ _ _ (ready_initialized w)).
  rewrite ready_project_node.
  assert (Hr : untouched w (ready w)) by apply read_only_ensureDirectories.
  destruct (project_node w pid) as [[[P|text] r|]|] eqn:En; cbn [read_outcome]; wsimpl.
  - destruct (Hn P r). reflexivity.
  - split; [eauto|exact Hr].
  - split; [eauto|exact Hr].
  - split; [eauto|exact Hr].
Qed.

Lemma filter_other_refs (id : string) (l : list EntityRef) :
  id ∉ map ref_id l -> filter (fun e => ref_id e <> id) l = l.
Proof.
  induction l as [|ref l IH]; intros Hn; [reflexivity|].
  rewrite filter_cons. rewrite decide_True.
  - f_equal. apply IH. intros H. apply Hn. cbn [map]. now apply list_elem_of_further.
  - intros H. apply Hn. cbn [map]. rewrite H. apply list_elem_of_here.
Qed.

Lemma filter_new_ref (id : string) (l : list EntityRef) (k : EntityKind) :
  id ∉ map ref_id l -> filter (fun e => ref_id e <> id) (l ++ [mkRef id k])%list = l.
Proof.
  intros Hn. rewrite filter_app, filter_other_refs by exact Hn.
  rewrite filter_cons. rewrite decide_False by (cbn; auto). rewrite filter_nil.
  apply app_nil_r.
Qed.

(** X8. Creating an entity in a stored project and deleting it again
    restores the store: when the generated id is new (no entity file
    and no reference of the project bears it), both calls succeed, the
    project read back afterwards is the original one with only
    [updatedAt] changed, and every other project file and every entity
    file is as it was before the two calls. *)
Theorem create_then_delete_restores (w : World) (pid : string) (P : Project) (rp : bool)
    (input : EntityInput) :
  cache_sound w ->
  project_node w pid = Some (RegularFile (Json P) rp) ->
  project_id P = pid ->
  entity_node w (next_id w) = None ->
  next_id w ∉ map ref_id (project_entities P) ->
  exists e w1 w2 now,
    createEntity pid input w = (Return e, w1)
    /\ deleteEntity (entity_id e) w1 = (Return true, w2)
    /\ result (getProject pid w2) = Return (Some (with_updatedAt now P))
    /\ result (getEntity (entity_id e) w2) = Return None
    /\ (forall x, x <> pid -> project_node w2 x = project_node w x)
    /\ (forall x, entity_node w2 x = entity_node w x).
Proof.
  intros Hs HP Hid Hfresh Hnew.
  destruct (createEntity_spec w pid P rp input Hs HP Hid) as (w1 & E1 & Hi1 & Hd1 & Hp1 & He1).
  { rewrite Hfresh. discriminate. }
  rewrite Hfresh in He1. cbn [removable_after_write] in He1.
  set (e := mkEntity (next_id w) pid _ _ _ _) in *.
  set (P1 := with_updatedAt _ (with_entities _ P)) in *.
  assert (Hn1 : entity_node w1 (next_id w) = Some (RegularFile (Json e) true)).
  { rewrite He1. now rewrite decide_True by reflexivity. }
  assert (Hq1 : project_node w1 pid = Some (RegularFile (Json P1) rp)).
  { rewrite Hp1. now rewrite decide_True by reflexivity. }
  destruct (deleteEntity_present w1 (next_id w) e true Hi1 Hn1)
    as (w2 & E2 & Hi2 & Hd2 & Hp2 & He2).
  { intros n Hn. cbn [entity_projectId e] in Hn. rewrite Hq1 in Hn. injection Hn as <-.
    exists P1, rp. split; [reflexivity|exact Hid]. }
  cbn [entity_projectId e] in Hp2. rewrite Hq1 in Hp2.
  exists e, w1, w2, (clock w1 (clock_reads w1)).
  split; [exact E1|]. split; [exact E2|].
  split.
  { rewrite getProject_initialized by assumption. rewrite Hp2.
    rewrite decide_True by reflexivity. cbn [read_outcome]. do 2 f_equal.
    unfold without_ref, P1. cbn [with_updatedAt with_entities project_id project_name
      project_description project_tags project_createdAt project_updatedAt project_entities].
    now rewrite filter_new_ref by exact Hnew. }
  split.
  { rewrite getEntity_initialized by assumption. cbn [entity_id e]. rewrite He2.
    now rewrite decide_True by reflexivity. }
  split.
  - intros x Hx. rewrite Hp2. rewrite decide_False by exact Hx.
    rewrite Hp1. now rewrite decide_False by exact Hx.
  - intros x. rewrite He2. case_decide as Hx; [now subst x|].
    rewrite He1. now rewrite decide_False by exact Hx.
Qed.

Lemma deleteProject_absent (w : World) (id : string) :
  initialized w -> project_node w id = None -> deleteProject id w = (Return false, w).
Proof.
  intros Hi Hn. unfold deleteProject. rewrite bind_ensureDirectories, (ready_fixed w Hi).
  rewrite (getProject_initialized_bind _ _ _ Hi). now rewrite Hn.
Qed.

Lemma init_step_initialized (w w' : World) : init_step w w' -> initialized w -> initialized w'.
Proof.
  intros (He & Hc & [[Hi _]|(_ & Hi & _)]) H; [|exact Hi].
  unfold initialized in *. rewrite Hi, H. f_equal. symmetry. now apply getDataDir_env.
Qed.

Lemma unlink_project_returned (w w' : World) (id : string) :
  try_catch
    (let! dir := gets getProjectsDir in
     fs_unlink project_volume dir (json_file id) ;;
     ret true)
    (fun error =>
       if isNodeError error && code_is error "ENOENT" then ret false
       else throw (StorageError ("Failed to delete project " +:+ id) DELETE_FAILED error)) w
  = (Return true, w') ->
  (initialized w -> initialized w') /\ project_node w' id = None.
Proof.
  unfold fs_unlink, ENOENT. wsimpl.
  destruct (project_dirs w !! getProjectsDir w) as [d|] eqn:Ed; wsimpl;
    [|cbn; intros [=]].
  destruct (d !! json_file id) as [[data [|]|]|] eqn:En; wsimpl; cbn; intros [=]. subst w'.
  unfold initialized, project_node, project_dir. wsimpl.
  rewrite lookup_insert_eq, lookup_delete_eq. auto.
Qed.

Lemma deleteProject_returned_true (w : World) (pid : string) :
  result (deleteProject pid w) = Return true ->
  initialized (after (deleteProject pid w))
  /\ project_node (after (deleteProject pid w)) pid = None.
Proof.
  rewrite deleteProject_ready. pose proof (ready_initialized w) as Hi.
  set (w0 := ready w) in *. clearbody w0.
  unfold deleteProject. rewrite bind_ensureDirectories, (ready_fixed w0 Hi).
  rewrite (getProject_initialized_bind _ _ _ Hi).
  destruct (read_outcome _ _ _ _) as [[P|]|e]; [|intros [=]|intros [=]].
  unfold bind.
  pose proof (respects_cascade (project_entities P) w0) as Hstep. unfold after in Hstep.
  destruct (Promise_all _ w0) as [[bs|e] w1]; cbn [snd] in Hstep; [|intros [=]].
  apply init_step_initialized in Hstep; [|exact Hi].
  destruct (try_catch _ _ w1) as [o w2] eqn:E. unfold result, after. cbn [fst snd].
  intros ->. apply unlink_project_returned in E as [H1 H2]. auto.
Qed.

(** X9. Deleting is idempotent.  After a [deleteEntity] that went through
    (the entity file is removable and its owner's file is absent or well
    formed) a second [deleteEntity] of the same id returns [false] and
    changes nothing at all; likewise, after a [deleteProject] that
    returned [true], whatever the order in which the calls of its cascade
    took their steps, a second [deleteProject] of the same id returns
    [false] and changes nothing. *)
Theorem deleting_twice (w : World) :
  (forall id e,
     entity_node w id = Some (RegularFile (Json e) true) ->
     project_file_ok w (entity_projectId e) ->
     let w1 := after (deleteEntity id w) in
     result (deleteEntity id w) = Return true
     /\ deleteEntity id w1 = (Return false, w1))
  /\ (forall pid,
        result (deleteProject pid w) = Return true ->
        let w1 := after (deleteProject pid w) in
        result (getProject pid w1) = Return None
        /\ deleteProject pid w1 = (Return false, w1)).
Proof.
  split.
  - intros id e Hn Hok w1. subst w1. rewrite deleteEntity_ready.
    destruct (deleteEntity_present (ready w) id e true (ready_initialized w))
      as (w' & E & Hi' & Hd' & Hp' & He').
    { now rewrite ready_entity_node. }
    { intros n. rewrite ready_project_node. apply Hok. }
    rewrite E. cbn [result after fst snd]. split; [reflexivity|].
    apply deleteEntity_absent; [exact Hi'|]. rewrite He'. now rewrite decide_True by reflexivity.
  - intros pid Htrue w1. subst w1.
    destruct (deleteProject_returned_true w pid Htrue) as [Hi Hn].
    split; [now rewrite getProject_eq, Hn|]. now apply deleteProject_absent.
Qed.

(** *** The initialisation cache after a reset *)

Lemma getProject_ready (w : World) (id : string) : getProject id w = getProject id (ready w).
Proof.
  unfold getProject. rewrite !bind_ensureDirectories.
  now rewrite (ready_fixed (ready w) (ready_initialized w)).
Qed.

Lemma getEntity_ready (w : World) (id : string) : getEntity id w = getEntity id (ready w).
Proof.
  unfold getEntity. rewrite !bind_ensureDirectories.
  now rewrite (ready_fixed (ready w) (ready_initialized w)).
Qed.

Lemma listProjects_ready (w : World) : listProjects w = listProjects (ready w).
Proof.
  unfold listProjects. rewrite !bind_ensureDirectories.
  now rewrite (ready_fixed (ready w) (ready_initialized w)).
Qed.

Lemma bind_ready {A B} (m : M A) (f : A -> M B) (w : World) :
  m w = m (ready w) -> bind m f w = bind m f (ready w).
Proof. intros H. unfold bind. now rewrite H. Qed.

Lemma step_ready (o : Op) (w : World) : is_store_operation o -> step o w = step o (ready w).
Proof.
  destruct o; cbn [step is_store_operation]; intros H; try contradiction; f_equal.
  - apply createProject_ready.
  - apply getProject_ready.
  - apply updateProject_ready.
  - apply deleteProject_ready.
  - apply listProjects_ready.
  - apply createEntity_ready.
  - apply getEntity_ready.
  - apply updateEntity_ready.
  - apply deleteEntity_ready.
  - apply listEntitiesByProject_ready.
  - apply bind_ready, listEntitiesByProject_ready.
  - apply bind_ready, getProject_ready.
  - apply bind_ready, getProject_ready.
Qed.

Lemma step_initialized (o : Op) (w : World) : is_store_operation o -> initialized (step o w).
Proof.
  intros H. rewrite step_ready by exact H.
  apply (init_step_initialized (ready w)); [now apply step_init_step|apply ready_initialized].
Qed.

(** X2. [resetDirectoryInit] only forgets the cache: it changes no file,
    so [getProject] and [getEntity] answer as before.  The next store
    operation, whichever it is, then runs exactly one round of directory
    creation for the current root, projects first, and leaves the cache
    naming that root. *)
Theorem reset_forces_directory_creation (o : Op) (w : World) :
  is_store_operation o ->
  let w0 := after (resetDirectoryInit w) in
  untouched w w0
  /\ (forall id, result (getProject id w0) = result (getProject id w))
  /\ (forall id, result (getEntity id w0) = result (getEntity id w))
  /\ mkdir_trace (step o w0) = (mkdir_trace w ++ [getProjectsDir w; getEntitiesDir w])%list
  /\ initialized (step o w0).
Proof.
  intros H w0. subst w0.
  split; [apply read_only_resetDirectoryInit|].
  split; [intros id; rewrite !getProject_eq; reflexivity|].
  split; [intros id; rewrite !getEntity_eq; reflexivity|].
  pose proof (step_initialized o (after (resetDirectoryInit w)) H) as Hi.
  split; [|exact Hi].
  destruct (step_init_step o (after (resetDirectoryInit w)) H)
    as (_ & _ & [[Hc _]|(_ & _ & Ht)]).
  - unfold initialized in Hi. rewrite Hc in Hi. discriminate Hi.
  - exact Ht.
Qed.

(** *** The exceptions that escape *)

Lemma throws_ret {A} (Q : Exn -> Prop) (a : A) : throws_only Q (ret a).
Proof. intros w e H. discriminate H. Qed.

Lemma throws_gets {A} (Q : Exn -> Prop) (f : World -> A) : throws_only Q (gets f).
Proof. intros w e H. discriminate H. Qed.

Lemma throws_modify (Q : Exn -> Prop) (f : World -> World) : throws_only Q (modify f).
Proof. intros w e H. discriminate H. Qed.

Lemma throws_throw {A} (Q : Exn -> Prop) (e : Exn) : Q e -> throws_only Q (@throw A e).
Proof. intros He w e' H. injection H as <-. exact He. Qed.

Lemma throws_bind {A B} (Q : Exn -> Prop) (m : M A) (f : A -> M B) :
  throws_only Q m -> (forall a, throws_only Q (f a)) -> throws_only Q (bind m f).
Proof.
  intros Hm Hf w e. specialize (Hm w). unfold bind, result in *.
  destruct (m w) as [[a|e'] w1]; cbn [fst] in *.
  - apply Hf.
  - intros H. injection H as <-. now apply Hm.
Qed.

Lemma throws_try_catch {A} (Q' Q : Exn -> Prop) (m : M A) (h : Exn -> M A) :
  throws_only Q' m -> (forall e, Q' e -> throws_only Q (h e)) -> throws_only Q (try_catch m h).
Proof.
  intros Hm Hh w e. specialize (Hm w). unfold try_catch, result in *.
  destruct (m w) as [[a|e'] w1]; cbn [fst] in *.
  - intros H. discriminate H.
  - apply Hh. now apply Hm.
Qed.

Lemma throws_all_map {A B} (Q : Exn -> Prop) (f : A -> M B) (l : list A) :
  (forall a, throws_only Q (f a)) -> throws_only Q (all_map f l).
Proof.
  intros Hf. induction l as [|x l IH]; cbn [all_map].
  - apply throws_ret.
  - apply throws_bind; [apply Hf|]. intros y.
    apply throws_bind; [exact IH|]. intros ys. apply throws_ret.
Qed.

Lemma throws_mkdir {A} (Q : Exn -> Prop) (V : Volume A) (dir : string) :
  throws_only Q (fs_mkdir V dir).
Proof.
  unfold fs_mkdir. apply throws_bind; [apply throws_modify|]. intros _.
  apply throws_bind; [apply throws_gets|]. intros dirs.
  destruct (dirs !! dir); [apply throws_ret|apply throws_modify].
Qed.

Lemma throws_readFile {A} (Q : Exn -> Prop) (V : Volume A) (dir file : string) :
  (forall c s d f, Q (ErrnoException c s d f)) -> throws_only Q (fs_readFile V dir file).
Proof.
  intros HQ. unfold fs_readFile, ENOENT. apply throws_bind; [apply throws_gets|]. intros dirs.
  destruct (dirs !! dir) as [d|]; [|now apply throws_throw].
  destruct (d !! file) as [[data r|]|];
    [apply throws_ret|now apply throws_throw|now apply throws_throw].
Qed.

Lemma throws_writeFile {A} (Q : Exn -> Prop) (V : Volume A) (dir file : string)
    (data : FileData A) :
  (forall c s d f, Q (ErrnoException c s d f)) -> throws_only Q (fs_writeFile V dir file data).
Proof.
  intros HQ. unfold fs_writeFile, ENOENT. apply throws_bind; [apply throws_gets|]. intros dirs.
  destruct (dirs !! dir) as [d|]; [|now apply throws_throw].
  destruct (d !! file) as [[old r|]|];
    [apply throws_modify|now apply throws_throw|apply throws_modify].
Qed.

Lemma throws_unlink {A} (Q : Exn -> Prop) (V : Volume A) (dir file : string) :
  (forall c s d f, Q (ErrnoException c s d f)) -> throws_only Q (fs_unlink V dir file).
Proof.
  intros HQ. unfold fs_unlink, ENOENT. apply throws_bind; [apply throws_gets|]. intros dirs.
  destruct (dirs !! dir) as [d|]; [|now apply throws_throw].
  destruct (d !! file) as [[old [|]|]|];
    [apply throws_modify|now apply throws_throw|now apply throws_throw|now apply throws_throw].
Qed.

Lemma throws_readdir {A} (Q : Exn -> Prop) (V : Volume A) (dir : string) :
  (forall c s d f, Q (ErrnoException c s d f)) -> throws_only Q (fs_readdir V dir).
Proof.
  intros HQ. unfold fs_readdir, ENOENT. apply throws_bind; [apply throws_gets|]. intros dirs.
  destruct (dirs !! dir) as [d|]; [apply throws_ret|now apply throws_throw].
Qed.

Lemma throws_JSON_parse {A} (d : FileData A) : throws_only raw_error (JSON_parse d).
Proof. destruct d; [apply throws_ret|apply throws_throw; exact I]. Qed.

Lemma throws_Date_now (Q : Exn -> Prop) : throws_only Q Date_now.
Proof. intros w e H. discriminate H. Qed.

Lemma throws_random (Q : Exn -> Prop) : throws_only Q Math_random_toString36.
Proof. intros w e H. discriminate H. Qed.

Lemma throws_console_error (Q : Exn -> Prop) (m : string) (e : Exn) :
  throws_only Q (console_error m e).
Proof. apply throws_modify. Qed.

Lemma throws_ensureDirectories (Q : Exn -> Prop) : throws_only Q ensureDirectories.
Proof.
  intros w e. rewrite ensureDirectories_returns. intros H. discriminate H.
Qed.

Lemma raw_errno (c s d f : string) : raw_error (ErrnoException c s d f).
Proof. exact I. Qed.

Lemma expected_errno (c s d f : string) : expected_error (ErrnoException c s d f).
Proof. exact I. Qed.

Lemma expected_not_found (id : string) :
  expected_error (Error ("Project " +:+ id +:+ " not found")).
Proof. exists id. reflexivity. Qed.

Lemma expected_wrapped (message : string) (code : StorageErrorCode) (cause : Exn) :
  code = READ_FAILED \/ code = DELETE_FAILED -> raw_error cause ->
  expected_error (StorageError message code cause).
Proof. intros H1 H2. split; assumption. Qed.

Create HintDb throws discriminated.

#[local] Hint Resolve throws_ret throws_gets throws_modify throws_mkdir throws_readFile
  throws_writeFile throws_unlink throws_readdir throws_JSON_parse throws_Date_now
  throws_random throws_console_error throws_ensureDirectories raw_errno expected_errno
  expected_not_found : throws.

Ltac throws :=
  repeat first
    [ solve [auto with throws]
    | apply throws_bind; [|intros ?]
    | apply (throws_try_catch raw_error); [|intros ? ?]
    | apply throws_all_map; intros ?
    | apply throws_throw; solve [auto using expected_wrapped with throws]
    | progress cbv zeta
    | match goal with
      | |- throws_only _ (match ?x with _ => _ end) => destruct x
      | |- throws_only _ (if ?x then _ else _) => destruct x
      end ].

Lemma throws_generateId (Q : Exn -> Prop) : throws_only Q generateId.
Proof. unfold generateId. throws. Qed.

Lemma throws_timestamp (Q : Exn -> Prop) : throws_only Q timestamp.
Proof. apply throws_Date_now. Qed.

#[local] Hint Resolve throws_generateId throws_timestamp : throws.

Lemma throws_createProject (name : string) (description : option string)
    (tags : option (list string)) :
  throws_only expected_error (createProject name description tags).
Proof. unfold createProject. throws. Qed.

Lemma throws_getProject (id : string) : throws_only expected_error (getProject id).
Proof. unfold getProject. throws. Qed.

Lemma throws_updateProject (p : Project) : throws_only expected_error (updateProject p).
Proof. unfold updateProject. throws. Qed.

Lemma throws_getEntity (id : string) : throws_only expected_error (getEntity id).
Proof. unfold getEntity. throws. Qed.

Lemma throws_updateEntity (e : Entity) : throws_only expected_error (updateEntity e).
Proof. unfold updateEntity. throws. Qed.

#[local] Hint Resolve throws_createProject throws_getProject throws_updateProject
  throws_getEntity throws_updateEntity : throws.

Lemma throws_deleteEntity (id : string) : throws_only expected_error (deleteEntity id).
Proof. unfold deleteEntity. throws. Qed.

#[local] Hint Resolve throws_deleteEntity : throws.

#[local] Instance anything_preorder : PreOrder (fun _ _ : World => True).
Proof. split; [intros w; exact I|intros w1 w2 w3 _ _; exact I]. Qed.

Lemma throws_satisfies {A} (Q : Exn -> Prop) (m : M A) :
  throws_only Q m -> satisfies (fun _ _ => True) Q m.
Proof. intros H w. split; [exact I|apply H]. Qed.

Lemma throws_open_for_writing {A} (Q : Exn -> Prop) (V : Volume A) (dir file : string) :
  (forall c s d f, Q (ErrnoException c s d f)) -> throws_only Q (fs_open_for_writing V dir file).
Proof.
  intros HQ. unfold fs_open_for_writing, ENOENT. apply throws_bind; [apply throws_gets|].
  intros dirs. destruct (dirs !! dir) as [d|]; [|now apply throws_throw].
  destruct (d !! file) as [[old r|]|];
    [apply throws_modify|now apply throws_throw|apply throws_modify].
Qed.

Lemma throws_write_and_close {A} (Q : Exn -> Prop) (V : Volume A) (dir file : string)
    (data : FileData A) :
  throws_only Q (fs_write_and_close V dir file data).
Proof.
  unfold fs_write_and_close. apply throws_bind; [apply throws_gets|].
  intros dirs. destruct (dirs !! dir) as [d|]; [|apply throws_ret].
  destruct (d !! file) as [[old r|]|]; [apply throws_modify|apply throws_ret|apply throws_ret].
Qed.

#[local] Hint Resolve throws_open_for_writing throws_write_and_close : throws.

Lemma throws_deleteEntity_async (id : string) :
  promise_ok (fun _ _ => True) expected_error (deleteEntity_async id).
Proof. unfold_calls. promises ltac:(apply throws_satisfies; throws). Qed.

Lemma throws_Promise_all {A} (Q : Exn -> Prop) (promises : list (Promise A)) :
  Forall (promise_ok (fun _ _ => True) Q) promises -> throws_only Q (Promise_all promises).
Proof.
  intros H w. now apply (Promise_all_satisfies (fun _ _ => True) Q).
Qed.

Lemma throws_cascade (l : list EntityRef) :
  throws_only expected_error
    (Promise_all (map (fun ref => deleteEntity_async (ref_id ref)) l)).
Proof.
  apply throws_Promise_all, Forall_map, Forall_forall. intros ref _.
  apply throws_deleteEntity_async.
Qed.

#[local] Hint Resolve throws_cascade : throws.

Lemma throws_deleteProject (id : string) : throws_only expected_error (deleteProject id).
Proof. unfold deleteProject. throws. Qed.

Lemma throws_listProjects : throws_only expected_error listProjects.
Proof. unfold listProjects, read_project_file. throws. Qed.

Lemma throws_createEntity (pid : string) (input : EntityInput) :
  throws_only expected_error (createEntity pid input).
Proof. unfold createEntity. throws. Qed.

Lemma throws_listEntitiesByProject (pid : string) :
  throws_only expected_error (listEntitiesByProject pid).
Proof. unfold listEntitiesByProject. throws. Qed.

#[local] Hint Resolve throws_deleteProject throws_listProjects throws_createEntity
  throws_listEntitiesByProject : throws.

Lemma throws_listEntitiesByType (pid : string) (type : EntityKind) :
  throws_only expected_error (listEntitiesByType pid type).
Proof. unfold listEntitiesByType. throws. Qed.

Lemma throws_exportProjectToJson (pid : string) :
  throws_only expected_error (exportProjectToJson pid).
Proof. unfold exportProjectToJson. throws. Qed.

Lemma throws_exportProjectToMarkdown (pid : string) :
  throws_only expected_error (exportProjectToMarkdown pid).
Proof. unfold exportProjectToMarkdown. throws. Qed.

Lemma thrown_Some {A} (Q : Exn -> Prop) (m : M A) (w : World) (e : Exn) :
  throws_only Q m -> thrown (m w) = Some e -> Q e.
Proof.
  intros Hm H. apply (Hm w). unfold thrown in H.
  destruct (result (m w)); [discriminate|]. now injection H as ->.
Qed.

(** X10. Whatever a store operation throws is an error of the [fs]
    module passed on as it is, a [StorageError] with code [READ_FAILED]
    or [DELETE_FAILED] whose cause is an [fs] error or a JSON syntax
    error, or the error [Project <id> not found].  In particular a JSON
    syntax error never escapes unwrapped, failures of writes are not
    wrapped, and the codes [NOT_FOUND], [WRITE_FAILED] and
    [INVALID_DATA] are never used. *)
Theorem thrown_errors_are_expected (o : Op) (w : World) (e : Exn) :
  step_error o w = Some e -> expected_error e.
Proof.
  destruct o; cbn [step_error]; try discriminate; apply thrown_Some.
  - apply throws_createProject.
  - apply throws_getProject.
  - apply throws_updateProject.
  - apply throws_deleteProject.
  - apply throws_listProjects.
  - apply throws_createEntity.
  - apply throws_getEntity.
  - apply throws_updateEntity.
  - apply throws_deleteEntity.
  - apply throws_listEntitiesByProject.
  - apply throws_listEntitiesByType.
  - apply throws_exportProjectToJson.
  - apply throws_exportProjectToMarkdown.
Qed.

(** *** Records and the names of their files, along a run *)

Lemma elem_of_parsable_projects (w : World) (p : Project) :
  p ∈ parsable_projects w ->
  exists d name r,
    project_dir w = Some d /\ d !! name = Some (RegularFile (Json p) r).
Proof.
  unfold parsable_projects, json_entries, project_files. intros H.
  apply list_elem_of_omap in H as ([name n] & Hin & Hp).
  apply list_elem_of_In, filter_In in Hin as [Hin _]. apply list_elem_of_In in Hin.
  destruct (project_dir w) as [d|]; [|now apply elem_of_nil in Hin].
  apply elem_of_map_to_list in Hin. cbn [snd] in Hp.
  destruct n as [[v|t] r|]; try discriminate. injection Hp as ->. eauto.
Qed.

(** X11. From a store in which every record file is named by the id of
    its record and the cached directories exist, every sequence of
    operations (updates with arbitrary records, resets and changes of
    the root included) leads to a store where a project read by
    [getProject id] has the id [id], an entity read by [getEntity id]
    has the id [id], and [listProjects] succeeds and returns only
    projects that [getProject] returns under their own id. *)
Theorem ids_name_files_along_runs (ops : list Op) (w : World) :
  well_kept w ->
  let w' := run ops w in
  (forall id p, result (getProject id w') = Return (Some p) -> project_id p = id)
  /\ (forall id e, result (getEntity id w') = Return (Some e) -> entity_id e = id)
  /\ (exists projects,
        result (listProjects w') = Return projects
        /\ forall p, p ∈ projects -> result (getProject (project_id p) w') = Return (Some p)).
Proof.
  intros Hk w'. assert (Hk' : well_kept w') by now apply run_well_kept.
  clearbody w'. split; [|split].
  - intros id p. rewrite getProject_eq. unfold result; cbn [fst]. intros H.
    apply read_outcome_Some in H as (n & Hn & r & ->).
    now apply (well_kept_project_id w' id p r).
  - intros id e. rewrite getEntity_eq. unfold result; cbn [fst]. intros H.
    apply read_outcome_Some in H as (n & Hn & r & ->).
    apply (well_kept_entity_id w' id e Hk'). unfold stored_entity. now rewrite Hn.
  - destruct (listProjects_eq w' (proj1 Hk')) as (w2 & E & _).
    eexists. rewrite E. split; [reflexivity|].
    intros p Hp. rewrite js_sort_perm in Hp.
    apply elem_of_parsable_projects in Hp as (d & name & r & Hd & Hn).
    assert (name = json_file (project_id p)) as ->.
    { destruct Hk' as [_ [Hnamed _]]. eapply Hnamed; [exact Hd|exact Hn]. }
    rewrite getProject_eq. unfold result; cbn [fst].
    unfold project_node. now rewrite Hd, Hn.
Qed.

(** *** Ties in the listing of projects *)

Lemma sort_insert_ties (t : Timestamp) (x : Project) (l : list Project) :
  filter (fun p => project_updatedAt p = t) (sort_insert by_updatedAt_desc x l)
  = filter (fun p => project_updatedAt p = t) (x :: l).
Proof.
  induction l as [|y l IH]; [reflexivity|]. cbn [sort_insert].
  destruct (by_updatedAt_desc x y <=? 0) eqn:Ec; [reflexivity|].
  apply Z.leb_gt in Ec. unfold by_updatedAt_desc, Date_getTime in Ec.
  rewrite (filter_cons _ y), IH, !(filter_cons _ x), (filter_cons _ y).
  repeat case_decide; try reflexivity. lia.
Qed.

Lemma js_sort_ties (t : Timestamp) (l : list Project) :
  filter (fun p => project_updatedAt p = t) (js_sort by_updatedAt_desc l)
  = filter (fun p => project_updatedAt p = t) l.
Proof.
  induction l as [|x l IH]; [reflexivity|].
  change (js_sort by_updatedAt_desc (x :: l))
    with (sort_insert by_updatedAt_desc x (js_sort by_updatedAt_desc l)).
  rewrite sort_insert_ties, !(filter_cons _ x), IH. reflexivity.
Qed.

(** X12. The sort of [listProjects] is stable: among the projects it
    returns, those that share one [updatedAt] come in the order in which
    the scan of the directory found them. *)
Theorem listProjects_ties_keep_scan_order (w : World) (t : Timestamp) :
  cache_sound w ->
  exists projects,
    result (listProjects w) = Return projects
    /\ filter (fun p => project_updatedAt p = t) projects
       = filter (fun p => project_updatedAt p = t) (parsable_projects w).
Proof.
  intros Hs. destruct (listProjects_eq w Hs) as (w' & E & _).
  eexists. rewrite E. split; [reflexivity|]. apply js_sort_ties.
Qed.

(** *** Collisions of generated identifiers *)

Lemma pretty_N_char_no_dash (x : N) : pretty_N_char x <> dash.
Proof. unfold pretty_N_char, dash. repeat case_match; discriminate. Qed.

Lemma pretty_N_go_dash_free (x : N) (s : string) :
  dash_free s -> dash_free (pretty_N_go x s).
Proof.
  revert s. induction (N.lt_wf_0 x) as [x _ IH]; intros s Hs.
  assert (x = 0 \/ 0 < x)%N as [->|Hx] by lia.
  - now rewrite pretty_N_go_0.
  - rewrite pretty_N_go_step by exact Hx. apply IH.
    + now apply N.div_lt.
    + split; [apply pretty_N_char_no_dash|exact Hs].
Qed.

Lemma pretty_N_dash_free (x : N) : dash_free (pretty x).
Proof.
  unfold pretty, pretty_N. case_decide.
  - split; [discriminate|exact I].
  - apply pretty_N_go_dash_free. exact I.
Qed.

Lemma pretty_Z_dash_free (z : Z) : 0 <= z -> dash_free (pretty z).
Proof.
  destruct z as [|p|p]; intros Hz.
  - split; [discriminate|exact I].
  - apply (pretty_N_dash_free (Npos p)).
  - lia.
Qed.

Lemma dash_split (a b s1 s2 : string) :
  dash_free a -> dash_free b ->
  a +:+ "-" +:+ s1 = b +:+ "-" +:+ s2 -> a = b /\ s1 = s2.
Proof.
  revert b. induction a as [|c a IH]; intros [|c' b] Ha Hb H.
  - rewrite !string_app_nil_l in H. split; [reflexivity|].
    rewrite !string_app_cons, !string_app_nil_l in H. now injection H.
  - rewrite string_app_nil_l, !string_app_cons in H. injection H as Hc _.
    destruct Hb as [Hb _]. now destruct Hb.
  - rewrite string_app_nil_l, !string_app_cons in H. injection H as Hc _.
    destruct Ha as [Ha _]. now destruct Ha.
  - rewrite !string_app_cons in H. injection H as -> H.
    destruct Ha as [_ Ha], Hb as [_ Hb]. destruct (IH b Ha Hb H) as [-> ->]. now split.
Qed.

Lemma generateId_result (w : World) : result (generateId w) = Return (next_id w).
Proof. reflexivity. Qed.

(** X13. Two identifiers made by [generateId], at instants that are not
    before the epoch, are equal exactly when they were made at the same
    millisecond and from random texts with the same characters at
    positions 2 to 8: identifiers made at different milliseconds never
    collide, whatever the random source yields. *)
Theorem generateId_collisions (w1 w2 : World) :
  0 <= clock w1 (clock_reads w1) ->
  0 <= clock w2 (clock_reads w2) ->
  (result (generateId w1) = result (generateId w2)
   <-> clock w1 (clock_reads w1) = clock w2 (clock_reads w2)
       /\ js_substring 2 9 (entropy w1 (entropy_reads w1))
          = js_substring 2 9 (entropy w2 (entropy_reads w2))).
Proof.
  intros H1 H2. rewrite !generateId_result. unfold next_id. split.
  - intros H. injection H as H.
    apply dash_split in H as [Ht Hr]; try now apply pretty_Z_dash_free.
    split; [|exact Hr]. now apply (inj pretty).
  - intros [-> ->]. reflexivity.
Qed.

(** *** The sections of the Markdown export *)

Lemma contains_prefix (a b : string) : contains (a +:+ b) a.
Proof. exists "", b. reflexivity. Qed.

Lemma formatEntityAsMarkdown_title (e : Entity) :
  exists rest, formatEntityAsMarkdown e = entity_title e +:+ nl +:+ nl +:+ rest.
Proof.
  unfold formatEntityAsMarkdown, entity_title, entity_type.
  destruct (entity_variant e) as [a|c|c|j]; cbn [variant_type kind_title variant_name].
  - unfold format_aida. rewrite cat_cons. eexists.
    rewrite !string_app_assoc. reflexivity.
  - unfold format_content. rewrite cat_cons. eexists.
    rewrite !string_app_assoc. reflexivity.
  - unfold format_conversion. rewrite cat_cons. eexists.
    rewrite !string_app_assoc. reflexivity.
  - unfold format_journey. rewrite cat_cons. eexists.
    rewrite !string_app_assoc. reflexivity.
Qed.

(** X14. The Markdown export of a project has one section for each
    entity of the listing, of whatever kind: it contains the title line
    [## <Kind>: <name>] of each of them, followed by an empty line, where
    [<Kind>] is [AIDA Funnel], [Content Funnel], [Conversion Funnel] or
    [Customer Journey] according to the type of the entity. *)
Theorem export_markdown_entity_titles (w : World) (projectId : string) (P : Project)
    (entities : list Entity) :
  result (getProject projectId w) = Return (Some P) ->
  result (listEntitiesByProject projectId w) = Return entities ->
  exists md,
    result (exportProjectToMarkdown projectId w) = Return md
    /\ forall e, e ∈ entities -> contains md (entity_title e +:+ nl +:+ nl).
Proof.
  intros HP Hl. eexists. split; [exact (exportProjectToMarkdown_present _ _ _ _ HP Hl)|].
  intros e He. eapply contains_cat.
  { do 4 right. left. }
  eapply contains_for_each; [exact He|]. cbv beta.
  apply contains_app_l.
  destruct (formatEntityAsMarkdown_title e) as (rest & ->).
  rewrite <- !string_app_assoc. rewrite !string_app_assoc.
  replace (entity_title e +:+ nl +:+ nl +:+ rest)
    with ((entity_title e +:+ nl +:+ nl) +:+ rest) by now rewrite !string_app_assoc.
  apply contains_prefix.
Qed.

Lemma if_num_truthy_only (n : option number) (f : string -> string) :
  if_num (truthy_only n) f = if_num n f.
Proof.
  destruct n as [v|]; [|reflexivity]. cbn [truthy_only if_num].
  destruct (number_truthy v) eqn:E; cbn [if_num]; [now rewrite E|reflexivity].
Qed.

Lemma for_each_map {A B} (g : A -> B) (f : B -> string) (xs : list A) :
  for_each (map g xs) f = for_each xs (fun x => f (g x)).
Proof. unfold for_each. now rewrite map_map. Qed.

Lemma for_each_ext {A} (f g : A -> string) (xs : list A) :
  (forall x, f x = g x) -> for_each xs f = for_each xs g.
Proof. intros H. unfold for_each. f_equal. apply map_ext. exact H. Qed.

Lemma traffic_sources_truthy_only (tss : list TrafficSource) :
  for_each (map ts_truthy_only tss) (fun ts => cat [
    "- **" +:+ ts_source ts +:+ "**";
    if_str (ts_medium ts) (fun m => " (" +:+ m +:+ ")");
    if_num (ts_volume ts) (fun v => " - " +:+ v +:+ " visitors");
    if_num (ts_conversionRate ts) (fun r => " | " +:+ r +:+ "% conversion");
    nl ])
  = for_each tss (fun ts => cat [
    "- **" +:+ ts_source ts +:+ "**";
    if_str (ts_medium ts) (fun m => " (" +:+ m +:+ ")");
    if_num (ts_volume ts) (fun v => " - " +:+ v +:+ " visitors");
    if_num (ts_conversionRate ts) (fun r => " | " +:+ r +:+ "% conversion");
    nl ]).
Proof.
  rewrite for_each_map. apply for_each_ext. intros x. unfold ts_truthy_only.
  cbn [ts_source ts_medium ts_volume ts_conversionRate].
  now rewrite !if_num_truthy_only.
Qed.

(** X15. The exporter tests two kinds of numbers differently.  The
    volume and the conversion rate of a funnel stage are printed
    whenever they are present, zero included; the numbers of a traffic
    source and of the overall metrics are printed only when they are
    truthy, so a conversion funnel exports to the same text with a falsy
    number there (zero, say) as with the number left out. *)
Theorem export_numbers_by_presence_or_truth (c : ConversionFunnel) :
  format_conversion (conv_truthy_only c) = format_conversion c
  /\ (forall stage v,
        stage ∈ conv_stages c -> fs_conversionRate stage = Some v ->
        contains (format_conversion c)
          ("**Conversion Rate:** " +:+ number_to_string v +:+ "%" +:+ nl))
  /\ (forall stage v,
        stage ∈ conv_stages c -> fs_volume stage = Some v ->
        contains (format_conversion c) ("**Volume:** " +:+ number_to_string v +:+ nl)).
Proof.
  split; [|split].
  - unfold format_conversion, conv_truthy_only.
    cbn [conv_name conv_description conv_stages conv_trafficSources conv_overallMetrics
         conv_bottlenecks].
    destruct (conv_trafficSources c) as [[|ts tss]|];
      destruct (conv_overallMetrics c) as [om|];
      cbn [option_map map if_nonempty];
      try change (ts_truthy_only ts :: map ts_truthy_only tss)
        with (map ts_truthy_only (ts :: tss));
      rewrite ?traffic_sources_truthy_only;
      unfold om_truthy_only;
      cbn [om_totalVisitors om_totalConversions om_overallConversionRate om_averageDealValue
           om_customerAcquisitionCost];
      rewrite ?if_num_truthy_only; reflexivity.
  - intros stage v Hin Hv. unfold format_conversion.
    eapply contains_cat with (piece := for_each (conv_stages c) format_stage).
    { do 3 right. left. }
    eapply contains_for_each; [exact Hin|]. unfold format_stage.
    eapply contains_cat.
    { do 5 right. left. }
    rewrite Hv. cbn [if_defined]. exists "", "". now rewrite string_app_nil_r.
  - intros stage v Hin Hv. unfold format_conversion.
    eapply contains_cat with (piece := for_each (conv_stages c) format_stage).
    { do 3 right. left. }
    eapply contains_for_each; [exact Hin|]. unfold format_stage.
    eapply contains_cat.
    { do 4 right. left. }
    rewrite Hv. cbn [if_defined]. exists "", "". now rewrite string_app_nil_r.
Qed.

(** ** The tools *)

Lemma typed_listing_eq (k : EntityKind) (pid : string) (w : World) :
  typed_listing k pid w = listEntitiesByType pid k w.
Proof. destruct k; apply bind_ret_r. Qed.

Lemma listEntitiesByType_result (w : World) (pid : string) (k : EntityKind)
    (all : list Entity) :
  result (listEntitiesByProject pid w) = Return all ->
  result (listEntitiesByType pid k w) = Return (filter (fun e => entity_type e = k) all).
Proof.
  unfold listEntitiesByType, bind, result.
  destruct (listEntitiesByProject pid w) as [[l|e] w']; cbn [fst]; [|discriminate].
  now intros [= ->].
Qed.

(** X17. The project update tool changes only what it is asked to.  For
    a stored project it writes, under the id of the stored record, a
    record with the id, the creation time and the reference list of the
    stored one, in which the name, the description and the tags are
    those of the arguments where given and the stored ones elsewhere,
    and [getProject] reads it back; an absent description or tag list
    in the arguments never clears the stored one.  No other project file
    and no entity file changes.  For a missing project it throws
    [Project <id> not found] and writes nothing. *)
Theorem updateProjectTool_merges (w : World) (args : UpdateProjectArgs) :
  (project_node w (upa_projectId args) = None ->
     result (updateProjectTool args w)
       = Throw (Error ("Project " +:+ upa_projectId args +:+ " not found"))
     /\ untouched w (after (updateProjectTool args w)))
  /\ (forall P r,
        project_node w (upa_projectId args) = Some (RegularFile (Json P) r) ->
        project_id P = upa_projectId args ->
        exists P' w',
          updateProjectTool args w = (Return P', w')
          /\ result (getProject (upa_projectId args) w') = Return (Some P')
          /\ project_id P' = project_id P
          /\ project_createdAt P' = project_createdAt P
          /\ project_entities P' = project_entities P
          /\ project_name P' = nullish (upa_name args) (project_name P)
          /\ project_description P'
             = nullish_optional (upa_description args) (project_description P)
          /\ project_tags P' = nullish_optional (upa_tags args) (project_tags P)
          /\ (upa_description args = None -> project_description P' = project_description P)
          /\ (upa_tags args = None -> project_tags P' = project_tags P)
          /\ (forall x, x <> upa_projectId args -> project_node w' x = project_node w x)
          /\ (forall x, entity_node w' x = entity_node w x)).
Proof.
  split.
  - intros Hn. unfold updateProjectTool, bind. rewrite getProject_eq, Hn. cbn [read_outcome].
    split; [reflexivity|]. apply read_only_ensureDirectories.
  - intros P r Hn Hid. unfold updateProjectTool, bind. rewrite getProject_eq, Hn.
    cbn [read_outcome].
    set (updated := mkProject _ _ _ _ _ _ _).
    destruct (updateProject_existing (ready w) updated (Json P) r (ready_initialized w))
      as (w' & E & Hi' & Hd' & Hp' & He').
    { rewrite ready_project_node. cbn [project_id updated]. now rewrite Hid. }
    cbn [project_id updated] in Hp'. rewrite Hid in Hp'.
    eexists. exists w'. split; [exact E|]. split.
    { rewrite getProject_initialized by assumption. rewrite Hp'.
      now rewrite decide_True by reflexivity. }
    cbn [with_updatedAt updated project_id project_name project_description project_tags
         project_createdAt project_entities].
    do 6 (split; [reflexivity|]).
    split; [now intros ->|]. split; [now intros ->|]. split.
    + intros x Hx. rewrite Hp'. rewrite decide_False by exact Hx. apply ready_project_node.
    + intros x. rewrite He'. apply ready_entity_node.
Qed.

(** X18. The project lookup tool answers [null] exactly when
    [getProject] does; when it answers with a project and its entities,
    the project is what [getProject] returns and the entities are what
    [listEntitiesByProject] returns, both for the same store; and it
    writes nothing. *)
Theorem getProjectTool_agrees (w : World) (projectId : string) :
  (result (getProjectTool projectId w) = Return None
   <-> result (getProject projectId w) = Return None)
  /\ (forall found,
        result (getProjectTool projectId w) = Return (Some found) ->
        result (getProject projectId w) = Return (Some (pwe_project found))
        /\ result (listEntitiesByProject projectId w) = Return (pwe_entities found))
  /\ untouched w (after (getProjectTool projectId w)).
Proof.
  assert (Hshape :
    getProjectTool projectId w =
      match result (getProject projectId w) with
      | Return None => (Return None, ready w)
      | Return (Some P) =>
          match listEntitiesByProject projectId w with
          | (Return entities, w') => (Return (Some (mkProjectWithEntities P entities)), w')
          | (Throw error, w') => (Throw error, w')
          end
      | Throw error => (Throw error, ready w)
      end).
  { unfold getProjectTool, bind. rewrite getProject_eq. unfold result; cbn [fst].
    destruct (read_outcome _ _ _ _) as [[P|]|error]; [|reflexivity|reflexivity].
    rewrite <- listEntitiesByProject_ready.
    now destruct (listEntitiesByProject projectId w) as [[l|e] w']. }
  split; [|split].
  - rewrite Hshape. destruct (result (getProject projectId w)) as [[P|]|error].
    + destruct (listEntitiesByProject projectId w) as [[l|e] w']; split; discriminate.
    + split; reflexivity.
    + split; discriminate.
  - intros found. rewrite Hshape.
    destruct (result (getProject projectId w)) as [[P|]|error]; try discriminate.
    unfold result at 2.
    destruct (listEntitiesByProject projectId w) as [[l|e] w']; cbn [fst]; try discriminate.
    unfold result; cbn [fst]. intros [= <-]. split; reflexivity.
  - unfold getProjectTool. apply read_only_bind; [apply read_only_getProject|].
    intros [P|]; [|apply read_only_ret].
    apply read_only_bind; [apply read_only_listEntitiesByProject|].
    intros l. apply read_only_ret.
Qed.

(** X19. The deletion tools report instead of throwing when there is
    nothing to delete: for a missing project, and for a missing entity,
    the status has [success = false] and a message that says which id
    was not found, and nothing is written.  For a stored entity whose
    file can be removed (its owner's file absent or well formed) the
    entity tool reports [success = true] and the entity is gone.  When
    the [deleteProject] of the store returns [true], the project tool
    reports [success = true] with the message about the project and its
    entities, and the project lookup tool answers [null] afterwards;
    when it throws, because one of the calls of its cascade was
    rejected, the tool throws the same exception. *)
Theorem deletion_tools_report (w : World) :
  (forall pid,
     project_node w pid = None ->
     result (deleteProjectTool pid w)
       = Return (mkToolStatus false ("Project " +:+ pid +:+ " not found"))
     /\ untouched w (after (deleteProjectTool pid w)))
  /\ (forall id,
        entity_node w id = None ->
        result (deleteEntityTool id w)
          = Return (mkToolStatus false ("Entity " +:+ id +:+ " not found"))
        /\ untouched w (after (deleteEntityTool id w)))
  /\ (forall id e,
        entity_node w id = Some (RegularFile (Json e) true) ->
        project_file_ok w (entity_projectId e) ->
        result (deleteEntityTool id w)
          = Return (mkToolStatus true ("Entity " +:+ id +:+ " deleted"))
        /\ result (getEntity id (after (deleteEntityTool id w))) = Return None)
  /\ (forall pid,
        result (deleteProject pid w) = Return true ->
        result (deleteProjectTool pid w)
          = Return (mkToolStatus true ("Project " +:+ pid +:+ " and all its entities deleted"))
        /\ result (getProjectTool pid (after (deleteProjectTool pid w))) = Return None)
  /\ (forall pid error,
        result (deleteProject pid w) = Throw error ->
        result (deleteProjectTool pid w) = Throw error).
Proof.
  assert (Hr : untouched w (ready w)) by apply read_only_ensureDirectories.
  split; [|split; [|split; [|split]]].
  - intros pid Hn. unfold deleteProjectTool, bind. rewrite deleteProject_ready.
    rewrite deleteProject_absent;
      [|apply ready_initialized|now rewrite ready_project_node].
    split; [reflexivity|exact Hr].
  - intros id Hn. unfold deleteEntityTool, bind. rewrite deleteEntity_ready.
    rewrite deleteEntity_absent;
      [|apply ready_initialized|now rewrite ready_entity_node].
    split; [reflexivity|exact Hr].
  - intros id e Hn Hok. unfold deleteEntityTool, bind. rewrite deleteEntity_ready.
    destruct (deleteEntity_present (ready w) id e true (ready_initialized w))
      as (w' & E & Hi' & Hd' & Hp' & He').
    { now rewrite ready_entity_node. }
    { intros n. rewrite ready_project_node. apply Hok. }
    rewrite E. cbn [result after fst snd ret]. split; [reflexivity|].
    rewrite getEntity_initialized by assumption.
    rewrite He'. now rewrite decide_True by reflexivity.
  - intros pid Htrue.
    destruct (deleteProject_returned_true w pid Htrue) as [Hi Hn].
    unfold deleteProjectTool, bind, result, after in *.
    destruct (deleteProject pid w) as [o w']; cbn [fst snd] in *. subst o.
    cbn [ret fst snd]. split; [reflexivity|].
    unfold getProjectTool. rewrite (getProject_initialized_bind _ _ _ Hi). now rewrite Hn.
  - intros pid error Hthrow. unfold deleteProjectTool, bind, result in *.
    destruct (deleteProject pid w) as [o w']; cbn [fst] in *. now subst o.
Qed.

Lemma createEntity_listed (w : World) (pid : string) (P : Project) (rp : bool)
    (input : EntityInput) :
  cache_sound w ->
  project_node w pid = Some (RegularFile (Json P) rp) ->
  project_id P = pid ->
  entity_node w (next_id w) <> Some SubDirectory ->
  (forall ref, ref ∈ project_entities P -> entity_file_ok w (ref_id ref)) ->
  exists e w' all,
    createEntity pid input w = (Return e, w')
    /\ entity_variant e = in_variant input
    /\ result (listEntitiesByProject pid w') = Return all
    /\ e ∈ all.
Proof.
  intros Hs HP Hid Hn Hok.
  destruct (createEntity_spec w pid P rp input Hs HP Hid Hn)
    as (w' & E & Hi' & Hd' & Hp' & He').
  set (e := mkEntity (next_id w) pid _ _ _ _) in *.
  set (P' := with_updatedAt _ (with_entities _ P)) in *.
  assert (HP' : project_node w' pid = Some (RegularFile (Json P') rp)).
  { rewrite Hp'. now rewrite decide_True by reflexivity. }
  assert (Hstored : stored_entity w' (next_id w) = Some e).
  { unfold stored_entity. rewrite He'. now rewrite decide_True by reflexivity. }
  exists e, w'. eexists. split; [exact E|]. split; [reflexivity|].
  rewrite (listEntitiesByProject_present w' pid P' rp HP').
  - split; [reflexivity|]. apply elem_of_omap_stored.
    exists (mkRef (next_id w) (variant_type (in_variant input))). split; [|exact Hstored].
    cbn [P' with_updatedAt with_entities project_entities].
    apply elem_of_app. right. apply list_elem_of_here.
  - intros ref Hin n. rewrite He'. case_decide as Hx.
    + intros [= <-]. exists e. eexists. reflexivity.
    + apply Hok. cbn [P' with_updatedAt with_entities project_entities] in Hin.
      apply elem_of_app in Hin as [Hin|Hin]; [exact Hin|].
      apply list_elem_of_singleton in Hin. subst ref. now destruct Hx.
Qed.

(** X20. An entity made by the creation tool of a kind is found by the
    listing tool of that kind and by no other: in a store whose
    directories exist, for a stored project whose references lead to
    absent or readable entity files, [createAidaFunnel],
    [createContentFunnel], [createConversionFunnel] and
    [createCustomerJourney] succeed and return an entity that carries
    the given payload, and afterwards the listing of the project
    contains that entity under its own kind only. *)
Theorem created_entity_is_listed_by_kind (w : World) (pid : string) (P : Project) (rp : bool)
    (v : Variant) :
  cache_sound w ->
  project_node w pid = Some (RegularFile (Json P) rp) ->
  project_id P = pid ->
  entity_node w (next_id w) <> Some SubDirectory ->
  (forall ref, ref ∈ project_entities P -> entity_file_ok w (ref_id ref)) ->
  let create :=
    match v with
    | VAida a => createAidaFunnel pid a
    | VContent c => createContentFunnel pid c
    | VConversion c => createConversionFunnel pid c
    | VJourney j => createCustomerJourney pid j
    end in
  exists e w',
    create w = (Return e, w')
    /\ entity_variant e = v
    /\ (forall k, exists listing,
          result (typed_listing k pid w') = Return listing
          /\ (e ∈ listing <-> k = variant_type v)).
Proof.
  intros Hs HP Hid Hn Hok create.
  destruct (createEntity_listed w pid P rp (mkEntityInput None v) Hs HP Hid Hn Hok)
    as (e & w' & all & E & Hv & Hall & Hin).
  assert (Hc : create w = (Return e, w')).
  { subst create. destruct v; exact E. }
  exists e, w'. split; [exact Hc|]. split; [exact Hv|].
  intros k. eexists. rewrite typed_listing_eq.
  split; [exact (listEntitiesByType_result w' pid k all Hall)|].
  rewrite list_elem_of_filter. unfold entity_type. rewrite Hv. cbn [in_variant].
  split; [now intros [<- _]|]. intros ->. split; [reflexivity|exact Hin].
Qed.

(** *** Referential integrity along a run *)

Lemma consistent_same_nodes (w w' : World) :
  (forall x, project_node w' x = project_node w x) ->
  (forall x, entity_node w' x = entity_node w x) ->
  consistent w -> consistent w'.
Proof.
  intros Hp He [Hr Ho]. split.
  - intros pid n. rewrite Hp. intros Hn.
    destruct (Hr pid n Hn) as (P & -> & Hid & Hnd & Hrefs).
    exists P. split; [reflexivity|]. split; [exact Hid|]. split; [exact Hnd|].
    intros ref Hin. rewrite He. now apply Hrefs.
  - intros eid n. rewrite He. intros Hn.
    destruct (Ho eid n Hn) as (e & P & -> & HP & Hin).
    exists e, P. split; [reflexivity|]. rewrite Hp. now split.
Qed.

Lemma consistent_untouched (w w' : World) : untouched w w' -> consistent w -> consistent w'.
Proof.
  intros H. apply untouched_nodes in H as (_ & Hp & He). now apply consistent_same_nodes.
Qed.

Lemma consistent_ready (w : World) : consistent w -> consistent (ready w).
Proof. apply consistent_untouched, read_only_ensureDirectories. Qed.

Lemma NoDup_map_filter {A B} (f : A -> B) (P : A -> Prop) `{!forall x, Decision (P x)}
    (l : list A) :
  NoDup (map f l) -> NoDup (map f (filter P l)).
Proof.
  induction l as [|x l IH]; [intros; constructor|].
  cbn [map]. intros Hn. apply NoDup_cons in Hn as [Hx Hn].
  rewrite filter_cons. case_decide; [|now apply IH].
  cbn [map]. apply NoDup_cons. split; [|now apply IH].
  intros Hin. apply Hx. apply list_elem_of_fmap in Hin as (y & -> & Hy).
  apply list_elem_of_filter in Hy as [_ Hy]. apply list_elem_of_fmap. eauto.
Qed.

Lemma createProject_spec (w : World) (name : string) (description : option string)
    (tags : option (list string)) :
  cache_sound w ->
  project_node w (next_id w) <> Some SubDirectory ->
  let P := mkProject (next_id w) name description tags
             (clock w (S (clock_reads w))) (clock w (S (S (clock_reads w)))) [] in
  exists w',
    createProject name description tags w = (Return P, w')
    /\ initialized w'
    /\ getDataDir w' = getDataDir w
    /\ (forall x, project_node w' x =
          if decide (x = next_id w)
          then Some (RegularFile (Json P) (removable_after_write (project_node w (next_id w))))
          else project_node w x)
    /\ (forall x, entity_node w' x = entity_node w x).
Proof.
  intros Hs Hn P. rewrite createProject_ready.
  destruct (createProject_core (ready w) name description tags (ready_initialized w)
              (ready_project_dir_Some w Hs))
    as (w' & E & Hi' & Hd' & Hp' & He').
  { rewrite next_id_ready. now apply project_node_not_dir_ready. }
  rewrite next_id_ready in E, Hp'. destruct (ready_clock w) as [Hc Hr]. rewrite Hc, Hr in E, Hp'.
  rewrite ready_project_node in Hp'.
  exists w'. split; [exact E|]. split; [exact Hi'|].
  split; [now rewrite Hd', ready_dataDir|]. split.
  - intros x. rewrite Hp'. case_decide; [reflexivity|apply ready_project_node].
  - intros x. rewrite He'. apply ready_entity_node.
Qed.

Lemma createProject_consistent (w : World) (name : string) (description : option string)
    (tags : option (list string)) :
  cache_sound w -> consistent w -> project_node w (next_id w) = None ->
  consistent (after (createProject name description tags w)).
Proof.
  intros Hs [Hr Ho] Hfresh.
  destruct (createProject_spec w name description tags Hs) as (w' & E & _ & _ & Hp & He).
  { rewrite Hfresh. discriminate. }
  rewrite E. unfold after; cbn [snd]. rewrite Hfresh in Hp. cbn [removable_after_write] in Hp.
  split.
  - intros pid n. rewrite Hp. case_decide as Hx.
    + intros [= <-]. eexists. split; [reflexivity|]. cbn [project_id project_entities map].
      split; [now symmetry|]. split; [constructor|].
      intros ref Hin. now apply elem_of_nil in Hin.
    + intros Hn. destruct (Hr pid n Hn) as (P & -> & Hid & Hnd & Hrefs).
      exists P. split; [reflexivity|]. split; [exact Hid|]. split; [exact Hnd|].
      intros ref Hin. rewrite He. now apply Hrefs.
  - intros eid n. rewrite He. intros Hn.
    destruct (Ho eid n Hn) as (e & P & -> & HP & Hin).
    exists e, P. split; [reflexivity|]. split; [|exact Hin].
    rewrite Hp. rewrite decide_False; [exact HP|].
    intros Heq. rewrite Heq, Hfresh in HP. discriminate HP.
Qed.

Lemma createEntity_consistent (w : World) (pid : string) (input : EntityInput) :
  cache_sound w -> consistent w -> entity_node w (next_id w) = None ->
  consistent (after (createEntity pid input w)).
Proof.
  intros Hs [Hr Ho] Hfresh.
  destruct (project_node w pid) as [n|] eqn:En.
  2:{ rewrite createEntity_missing by exact En. unfold after; cbn [snd].
      apply consistent_ready. now split. }
  destruct (Hr pid n En) as (P & -> & Hid & Hnd & Hrefs).
  destruct (createEntity_spec w pid P true input Hs En Hid) as (w' & E & _ & _ & Hp & He).
  { rewrite Hfresh. discriminate. }
  rewrite E. unfold after; cbn [snd]. rewrite Hfresh in He. cbn [removable_after_write] in He.
  set (e := mkEntity (next_id w) pid _ _ _ _) in *.
  set (P' := with_updatedAt _ (with_entities _ P)) in *.
  assert (Hnew : next_id w ∉ map ref_id (project_entities P)).
  { intros Hin. apply list_elem_of_fmap in Hin as (ref & Heq & Hin).
    destruct (Hrefs ref Hin) as (e0 & Hn0 & _). rewrite <- Heq, Hfresh in Hn0. discriminate Hn0. }
  split.
  - intros x n. rewrite Hp. case_decide as Hx.
    + intros [= <-]. subst x. exists P'. split; [reflexivity|].
      cbn [P' with_updatedAt with_entities project_id project_entities].
      split; [exact Hid|]. split.
      * rewrite map_app. cbn [map ref_id]. apply NoDup_app. split; [exact Hnd|].
        split; [|apply NoDup_singleton].
        intros y Hy Hy'. apply list_elem_of_singleton in Hy'. subst y. now apply Hnew.
      * intros ref Hin. apply elem_of_app in Hin as [Hin|Hin].
        -- destruct (Hrefs ref Hin) as (e0 & Hn0 & He0). exists e0. split; [|exact He0].
           rewrite He. rewrite decide_False; [exact Hn0|].
           intros Heq. rewrite Heq, Hfresh in Hn0. discriminate Hn0.
        -- apply list_elem_of_singleton in Hin. subst ref. cbn [ref_id ref_type].
           exists e. rewrite He. rewrite decide_True by reflexivity.
           split; [reflexivity|]. split; reflexivity.
    + intros Hn. destruct (Hr x n Hn) as (Q & -> & Hq & Hqd & Hqrefs).
      exists Q. split; [reflexivity|]. split; [exact Hq|]. split; [exact Hqd|].
      intros ref Hin. destruct (Hqrefs ref Hin) as (e0 & Hn0 & He0). exists e0.
      split; [|exact He0]. rewrite He. rewrite decide_False; [exact Hn0|].
      intros Heq. rewrite Heq, Hfresh in Hn0. discriminate Hn0.
  - intros eid n. rewrite He. case_decide as Hx.
    + intros [= <-]. subst eid. exists e, P'. split; [reflexivity|].
      cbn [e entity_projectId]. rewrite Hp. rewrite decide_True by reflexivity.
      split; [reflexivity|].
      cbn [P' with_updatedAt with_entities project_entities]. apply elem_of_app. right.
      apply list_elem_of_singleton. reflexivity.
    + intros Hn. destruct (Ho eid n Hn) as (e0 & P0 & -> & HP0 & Hin0).
      destruct (decide (entity_projectId e0 = pid)) as [Hy|Hy].
      * rewrite Hy, En in HP0. injection HP0 as <-.
        exists e0, P'. split; [reflexivity|]. rewrite Hp, Hy.
        rewrite decide_True by reflexivity. split; [reflexivity|].
        cbn [P' with_updatedAt with_entities project_entities]. apply elem_of_app. now left.
      * exists e0, P0. split; [reflexivity|]. rewrite Hp.
        rewrite decide_False by exact Hy. now split.
Qed.

Lemma deleteEntity_consistent (w : World) (id : string) :
  initialized w -> consistent w ->
  exists b w',
    deleteEntity id w = (Return b, w')
    /\ initialized w'
    /\ getDataDir w' = getDataDir w
    /\ consistent w'
    /\ (forall x, is_Some (project_node w' x) <-> is_Some (project_node w x))
    /\ (forall x, entity_node w' x = if decide (x = id) then None else entity_node w x).
Proof.
  intros Hi [Hr Ho].
  destruct (entity_node w id) as [n|] eqn:En.
  2:{ exists false, w. rewrite deleteEntity_absent by assumption.
      split; [reflexivity|]. split; [exact Hi|]. split; [reflexivity|].
      split; [now split|]. split; [reflexivity|].
      intros x. case_decide; [now subst x|reflexivity]. }
  destruct (Ho id n En) as (e & P & -> & HP & Hin).
  destruct (Hr _ _ HP) as (P0 & HP0 & Hid & Hnd & Hrefs). injection HP0 as <-.
  destruct (deleteEntity_present w id e true Hi En) as (w' & E & Hi' & Hd' & Hp' & He').
  { intros n Hn. rewrite HP in Hn. injection Hn as <-. exists P, true. now split. }
  rewrite HP in Hp'.
  exists true, w'. split; [exact E|]. split; [exact Hi'|]. split; [exact Hd'|].
  split; [split|split].
  - intros x n. rewrite Hp'. case_decide as Hx.
    + intros [= <-]. subst x. eexists. split; [reflexivity|]. unfold without_ref.
      cbn [with_updatedAt with_entities project_id project_entities].
      split; [exact Hid|]. split; [now apply NoDup_map_filter|].
      intros ref Href. apply list_elem_of_filter in Href as [Hne Href].
      destruct (Hrefs ref Href) as (e0 & Hn0 & He0). exists e0. split; [|exact He0].
      rewrite He'. now rewrite decide_False by exact Hne.
    + intros Hn. destruct (Hr x n Hn) as (Q & -> & Hq & Hqd & Hqrefs).
      exists Q. split; [reflexivity|]. split; [exact Hq|]. split; [exact Hqd|].
      intros ref Href. destruct (Hqrefs ref Href) as (e0 & Hn0 & He0 & Ht0).
      exists e0. split; [|now split]. rewrite He'. rewrite decide_False; [exact Hn0|].
      intros Heq. rewrite Heq, En in Hn0. injection Hn0 as <-. now apply Hx.
  - intros eid n. rewrite He'. case_decide as Hx; [discriminate|]. intros Hn.
    destruct (Ho eid n Hn) as (e0 & P0 & -> & HP0 & Hin0).
    destruct (decide (entity_projectId e0 = entity_projectId e)) as [Hy|Hy].
    + rewrite Hy, HP in HP0. injection HP0 as <-.
      eexists e0, _. split; [reflexivity|]. rewrite Hp', Hy.
      rewrite decide_True by reflexivity. split; [reflexivity|]. unfold without_ref.
      cbn [with_updatedAt with_entities project_entities].
      apply list_elem_of_filter. split; [exact Hx|exact Hin0].
    + exists e0, P0. split; [reflexivity|]. rewrite Hp'.
      rewrite decide_False by exact Hy. now split.
  - intros x. rewrite Hp'. case_decide as Hx; [|reflexivity].
    subst x. rewrite HP. split; eauto.
  - exact He'.
Qed.

Lemma any_step_preorder : PreOrder any_step.
Proof. split; [intros w|intros w1 w2 w3 _ _]; exact I. Qed.

(** A call of the cascade of project [pid] for an entity of that
    project, whatever the steps of the other calls between its own. *)
Lemma deleteEntity_async_frame (w0 : World) (pid : string) (ids : list string) (id : string)
    (w : World) :
  id ∈ ids ->
  (forall e r, entity_node w0 id = Some (RegularFile (Json e) r) -> entity_projectId e = pid) ->
  promise_ends (cascade_frame w0 pid ids) any_step (fun (_ : bool) _ => True)
    (deleteEntity_async id) w.
Proof.
  intros Hid Hown. pose proof any_step_preorder as HR.
  assert (Hinit : forall w1, cascade_frame w0 pid ids w1 -> initialized w1)
    by (intros w1 H; apply H).
  unfold deleteEntity_async.
  apply promise_ends_ensure; [apply _|exact Hinit|]. intros w1 Hw1.
  apply (promise_ends_then (cascade_frame w0 pid ids) any_step
           (fun entity _ => forall e, entity = Some e -> entity_projectId e = pid)).
  { unfold getEntity_async.
    apply promise_ends_ensure; [apply _|exact Hinit|]. intros w2 Hw2.
    apply promise_ends_await. intros w3 Hw3.
    rewrite read_entity_step by now apply Hinit. unfold after, result; cbn [fst snd].
    split; [exact Hw3|]. split; [exact I|].
    intros entity Hread. apply promise_ends_resolved. intros e ->.
    destruct Hw3 as (_ & _ & _ & _ & He3).
    destruct (He3 id) as [Heq|[_ Hnone]].
    - rewrite Heq in Hread.
      destruct (entity_node w0 id) as [[[v|text] r|]|] eqn:En; cbn in Hread;
        try discriminate Hread.
      injection Hread as ->. now apply (Hown e r).
    - rewrite Hnone in Hread. discriminate Hread. }
  intros [e|] w2 Howner; [|now apply promise_ends_resolved].
  rewrite (Howner e eq_refl).
  apply (promise_ends_then (cascade_frame w0 pid ids) any_step
           (fun project _ => forall P, project = Some P -> project_id P = pid)).
  { unfold getProject_async.
    apply promise_ends_ensure; [apply _|exact Hinit|]. intros w3 Hw3.
    apply promise_ends_await. intros w4 Hw4.
    rewrite read_project_step by now apply Hinit. unfold after, result; cbn [fst snd].
    split; [exact Hw4|]. split; [exact I|].
    intros project Hread. apply promise_ends_resolved. intros P ->.
    destruct Hw4 as (_ & _ & (data & Hn & Hdata) & _).
    rewrite Hn in Hread. destruct Hdata as [->|(P0 & -> & HP0)]; cbn in Hread.
    - discriminate Hread.
    - now injection Hread as <-. }
  intros project w3 Hpid.
  apply (promise_ends_then (cascade_frame w0 pid ids) any_step (fun _ _ => True)).
  { destruct project as [P|]; [|now apply promise_ends_resolved].
    specialize (Hpid P eq_refl). cbv zeta.
    apply (promise_ends_then (cascade_frame w0 pid ids) any_step (fun _ _ => True));
      [|intros; now apply promise_ends_resolved].
    unfold updateProject_async.
    apply promise_ends_await. intros w4 Hw4.
    destruct (stamp_step (with_entities
                            (filter (fun r => ref_id r <> id) (project_entities P)) P) w4
                (Hinit w4 Hw4))
      as (now & w5 & E & Hi5 & Hd5 & Hp5 & He5).
    rewrite E. unfold after, result; cbn [fst snd].
    split.
    { destruct Hw4 as (H1 & H2 & (data & H3 & H3') & H4 & H5).
      split; [exact Hi5|]. split; [congruence|]. split; [exists data; now rewrite Hp5|].
      split; [intros x Hx; rewrite Hp5; now apply H4|].
      intros x. rewrite He5. apply H5. }
    split; [exact I|].
    intros stamped [= <-]. cbv zeta. cbn [fst snd].
    apply (promise_ends_then (cascade_frame w0 pid ids) any_step (fun _ _ => True));
      [|intros; now apply promise_ends_resolved].
    assert (Hdir : forall w', cascade_frame w0 pid ids w' -> getProjectsDir w4 = getProjectsDir w').
    { intros w' Hw'. unfold getProjectsDir.
      rewrite (proj1 (proj2 Hw4)), (proj1 (proj2 Hw')). reflexivity. }
    cbn [project_id with_updatedAt with_entities]. rewrite Hpid.
    unfold fs_writeFile_async.
    apply promise_ends_await. intros w6 Hw6.
    destruct (open_step (getProjectsDir w4) (json_file pid) w6)
      as (o & w7 & E7 & Hi7 & Hd7 & He7 & Hp7).
    rewrite E7. unfold after, result; cbn [fst snd].
    destruct Hw6 as (H1 & H2 & (data & H3 & H3') & H4 & H5).
    destruct (Hp7 pid data true) as [-> Hnodes];
      [apply Hdir; repeat split; eauto|reflexivity|exact H3|].
    assert (Hw7 : cascade_frame w0 pid ids w7).
    { split; [auto|]. split; [congruence|]. split.
      { exists (Malformed ""). rewrite Hnodes, decide_True by reflexivity. auto. }
      split; [intros x Hx; rewrite Hnodes, decide_False by exact Hx; now apply H4|].
      intros x. rewrite He7. apply H5. }
    split; [exact Hw7|]. split; [exact I|].
    intros _ _.
    apply promise_ends_await. intros w8 Hw8.
    match goal with
    | |- context [fs_write_and_close ?V ?d ?f ?data w8] =>
        destruct (write_step d f data w8) as (w9 & E9 & Hi9 & Hd9 & He9 & Hp9)
    end.
    rewrite E9. unfold after, result; cbn [fst snd].
    specialize (Hp9 pid (Hdir w8 Hw8) eq_refl).
    destruct Hw8 as (G1 & G2 & (data8 & G3 & G3') & G4 & G5).
    rewrite G3 in Hp9.
    split.
    { split; [auto|]. split; [congruence|]. split.
      { eexists. rewrite Hp9, decide_True by reflexivity. split; [reflexivity|].
        right. eexists. split; [reflexivity|]. exact Hpid. }
      split; [intros x Hx; rewrite Hp9, decide_False by exact Hx; now apply G4|].
      intros x. rewrite He9. apply G5. }
    split; [exact I|]. intros _ _. now apply promise_ends_resolved. }
  intros _ w4 _.
  apply promise_ends_await. intros w5 Hw5.
  destruct (unlink_entity_step id w5) as (o & w6 & E & Hi6 & Hd6 & Hp6 & Hne & Hor & Hret).
  rewrite E. unfold after, result; cbn [fst snd].
  destruct Hw5 as (H1 & H2 & (data & H3 & H3') & H4 & H5).
  split.
  { split; [auto|]. split; [congruence|]. split; [exists data; now rewrite Hp6|].
    split; [intros x Hx; rewrite Hp6; now apply H4|].
    intros x. destruct (decide (x = id)) as [->|Hx].
    - destruct Hor as [Hor|Hor]; [rewrite Hor; apply H5|right; now split].
    - rewrite Hne by exact Hx. apply H5. }
  split; [exact I|]. intros b _. now apply promise_ends_resolved.
Qed.

(** The cascade of a project whose references lead to its own
    entities touches nothing else, in whatever order its calls take
    their steps. *)
Lemma cascade_keeps_frame (l : list EntityRef) (pid : string) (w : World) :
  cascade_frame w pid (map ref_id l) w ->
  (forall ref e r,
     ref ∈ l -> entity_node w (ref_id ref) = Some (RegularFile (Json e) r) ->
     entity_projectId e = pid) ->
  cascade_frame w pid (map ref_id l)
    (after (Promise_all (map (fun ref => deleteEntity_async (ref_id ref)) l) w)).
Proof.
  intros Hw Hown. pose proof any_step_preorder as HR.
  destruct (Promise_all_ends (cascade_frame w pid (map ref_id l)) any_step
              (fun (ref : EntityRef) (_ : bool) (_ : World) => True)
              l (map (fun ref => deleteEntity_async (ref_id ref)) l) w)
    as (H1 & _ & _); [| | | |exact Hw|exact H1].
  - intros ref _ w1 w2 _ _. exact I.
  - intros w0 v H. exact H.
  - intros w0 v. exact I.
  - apply Forall2_fmap_r, Forall2_same_length_lookup. split; [reflexivity|].
    intros i ref ref' Hr Hr'. rewrite Hr in Hr'. injection Hr' as <-.
    apply deleteEntity_async_frame.
    + apply list_elem_of_fmap. exists ref. split; [reflexivity|].
      eapply list_elem_of_lookup_2, Hr.
    + intros e r. apply Hown. eapply list_elem_of_lookup_2, Hr.
Qed.

Lemma deleteProject_consistent (w : World) (pid : string) :
  cascade_fulfilled (DeleteProject pid) w ->
  consistent w -> consistent (after (deleteProject pid w)).
Proof.
  cbn [cascade_fulfilled]. intros Hf Hc0. rewrite deleteProject_ready in Hf |- *.
  pose proof (consistent_ready w Hc0) as Hc. pose proof (ready_initialized w) as Hi.
  set (w0 := ready w) in *. clearbody w0. clear Hc0.
  destruct (project_node w0 pid) as [n|] eqn:En.
  2:{ now rewrite deleteProject_absent by assumption. }
  destruct (proj1 Hc pid n En) as (P & -> & Hid & Hnd & Hrefs).
  assert (Hown : forall ref e r,
            ref ∈ project_entities P ->
            entity_node w0 (ref_id ref) = Some (RegularFile (Json e) r) ->
            entity_projectId e = pid).
  { intros ref e r Hin Hn. destruct (Hrefs ref Hin) as (e0 & Hn0 & Hp0 & _).
    rewrite Hn0 in Hn. now injection Hn as <- <-. }
  assert (Hw0 : cascade_frame w0 pid (map ref_id (project_entities P)) w0).
  { split; [exact Hi|]. split; [reflexivity|]. split; [exists (Json P); eauto|].
    split; [reflexivity|]. intros x. now left. }
  pose proof (cascade_keeps_frame (project_entities P) pid w0 Hw0 Hown) as Hframe.
  destruct (cascade_removes (project_entities P) w0 Hi) as [_ Hgone].
  revert Hf. unfold deleteProject. rewrite bind_ensureDirectories, (ready_fixed w0 Hi).
  rewrite !(bind_run _ _ _ _ _ (getProject_initialized w0 pid Hi)).
  rewrite En. cbn [read_outcome].
  unfold after, result in Hframe, Hgone.
  destruct (Promise_all _ w0) as [[values|e] w1] eqn:E1; cbn [fst snd] in *;
    rewrite !(bind_run _ _ _ _ _ E1).
  2:{ intros Hf. now destruct (Hf e). }
  intros _. specialize (Hgone values eq_refl).
  destruct Hframe as (Hi1 & Hd1 & (data & Hn1 & _) & Hp1 & He1).
  destruct (unlink_project_step pid w1) as (o & w2 & E & _ & _ & He2 & Hp2 & Hnone & _ & Htrue).
  rewrite E. unfold after; cbn [snd]. specialize (Htrue data Hn1). specialize (Hnone Htrue).
  assert (Hkept : forall x e r,
            entity_node w0 x = Some (RegularFile (Json e) r) ->
            entity_projectId e <> pid -> entity_node w2 x = entity_node w0 x).
  { intros x e r Hn Hne. rewrite He2. destruct (He1 x) as [Heq|[Hin _]]; [exact Heq|].
    apply list_elem_of_fmap in Hin as (ref & -> & Hin).
    now destruct (Hne (Hown ref e r Hin Hn)). }
  split.
  - intros x n Hn. destruct (decide (x = pid)) as [->|Hx]; [congruence|].
    rewrite Hp2, Hp1 in Hn by exact Hx.
    destruct (proj1 Hc x n Hn) as (Q & -> & Hq & Hqd & Hqrefs).
    exists Q. split; [reflexivity|]. split; [exact Hq|]. split; [exact Hqd|].
    intros ref Href. destruct (Hqrefs ref Href) as (e0 & Hn0 & Hp0 & Ht0).
    exists e0. split; [|now split]. rewrite (Hkept _ e0 true Hn0); [exact Hn0|congruence].
  - intros eid n Hn. rewrite He2 in Hn.
    destruct (He1 eid) as [Heq|[_ Hno]]; [|congruence].
    rewrite Heq in Hn. destruct (proj2 Hc eid n Hn) as (e0 & P0 & -> & HP0 & Hin0).
    exists e0, P0. split; [reflexivity|]. split; [|exact Hin0].
    destruct (decide (entity_projectId e0 = pid)) as [Hy|Hy].
    + rewrite Hy, En in HP0. injection HP0 as <-.
      pose proof (Hgone _ Hin0) as Hg. cbn [ref_id] in Hg. congruence.
    + rewrite Hp2, Hp1 by exact Hy. exact HP0.
Qed.

Lemma deleteEntity_keeps_consistent (w : World) (id : string) :
  consistent w -> consistent (after (deleteEntity id w)).
Proof.
  intros Hc. rewrite deleteEntity_ready.
  destruct (deleteEntity_consistent (ready w) id (ready_initialized w) (consistent_ready w Hc))
    as (b & w' & E & _ & _ & Hc' & _).
  now rewrite E.
Qed.

Lemma updateProjectTool_consistent (w : World) (args : UpdateProjectArgs) :
  consistent w -> consistent (after (updateProjectTool args w)).
Proof.
  intros Hc. pose proof (consistent_ready w Hc) as [Hr Ho].
  unfold updateProjectTool, bind. rewrite getProject_eq.
  destruct (project_node w (upa_projectId args)) as [n|] eqn:En; cbn [read_outcome].
  2:{ unfold throw, after; cbn [snd]. now split. }
  rewrite <- ready_project_node in En.
  destruct (Hr _ _ En) as (P & -> & Hid & Hnd & Hrefs). cbn [read_outcome].
  set (updated := mkProject _ _ _ _ _ _ _).
  destruct (updateProject_existing (ready w) updated (Json P) true (ready_initialized w))
    as (w' & E & _ & _ & Hp' & He').
  { cbn [project_id updated]. now rewrite Hid. }
  cbn [project_id updated] in Hp'. rewrite Hid in Hp'.
  rewrite E. unfold after; cbn [snd]. split.
  - intros x n. rewrite Hp'. case_decide as Hx.
    + intros [= <-]. subst x. eexists. split; [reflexivity|].
      cbn [with_updatedAt updated project_id project_entities].
      split; [exact Hid|]. split; [exact Hnd|].
      intros ref Href. rewrite He'. now apply Hrefs.
    + intros Hn. destruct (Hr x n Hn) as (Q & -> & Hq & Hqd & Hqrefs).
      exists Q. split; [reflexivity|]. split; [exact Hq|]. split; [exact Hqd|].
      intros ref Href. rewrite He'. now apply Hqrefs.
  - intros eid n. rewrite He'. intros Hn.
    destruct (Ho eid n Hn) as (e0 & P0 & -> & HP0 & Hin0).
    destruct (decide (entity_projectId e0 = upa_projectId args)) as [Hy|Hy].
    + rewrite Hy, En in HP0. injection HP0 as <-.
      eexists e0, _. split; [reflexivity|]. rewrite Hp', Hy.
      rewrite decide_True by reflexivity. split; [reflexivity|].
      cbn [with_updatedAt updated project_entities]. exact Hin0.
    + exists e0, P0. split; [reflexivity|]. rewrite Hp'.
      rewrite decide_False by exact Hy. now split.
Qed.

Lemma step_consistent (o : Op) (w : World) :
  cache_sound w -> consistent w -> keeps_references o -> draws_fresh_id o w ->
  cascade_fulfilled o w ->
  consistent (step o w).
Proof.
  intros Hs Hc Hk Hf Ht.
  destruct o; cbn [step keeps_references draws_fresh_id cascade_fulfilled] in *;
    try contradiction.
  - now apply createProject_consistent.
  - eapply consistent_untouched; [apply read_only_getProject|exact Hc].
  - now apply deleteProject_consistent.
  - eapply consistent_untouched; [apply read_only_listProjects|exact Hc].
  - now apply createEntity_consistent.
  - eapply consistent_untouched; [apply read_only_getEntity|exact Hc].
  - now apply deleteEntity_keeps_consistent.
  - eapply consistent_untouched; [apply read_only_listEntitiesByProject|exact Hc].
  - eapply consistent_untouched; [apply read_only_listEntitiesByType|exact Hc].
  - eapply consistent_untouched; [apply read_only_exportProjectToJson|exact Hc].
  - eapply consistent_untouched; [apply read_only_exportProjectToMarkdown|exact Hc].
  - eapply consistent_untouched; [apply read_only_resetDirectoryInit|exact Hc].
Qed.

(** X21. Referential integrity is an invariant of the store, as long as
    no cascade is rejected.  Start from a store whose cached directories
    exist and in which the references of the projects and the entity
    files match in both directions (every reference leads to a stored
    entity of that project and of that type, no id is referenced twice,
    every stored entity is listed by its stored project, and every file
    is a removable file with a readable record).  Then every sequence of
    operations other than the two raw updates and a change of the root,
    in which each generated id is new and no [deleteProject] throws,
    keeps it so, in whatever order the calls of each cascade take their
    steps; and so does the project update tool applied afterwards.
    ([cascade_breaks_references] shows a [deleteProject] that throws,
    because a call of its cascade was rejected, and leaves a reference
    to a deleted entity.) *)
Theorem referential_integrity_along_runs (ops : list Op) (w : World) :
  well_kept w ->
  consistent w ->
  Forall keeps_references ops ->
  ids_stay_fresh ops w ->
  cascades_fulfilled ops w ->
  consistent (run ops w)
  /\ forall args, consistent (after (updateProjectTool args (run ops w))).
Proof.
  intros Hk Hc Hops Hfresh Hturn.
  assert (H : consistent (run ops w)).
  { revert w Hk Hc Hfresh Hturn.
    induction Hops as [|o ops Ho Hops IH]; intros w Hk Hc Hfresh Hturn.
    - exact Hc.
    - destruct Hfresh as [Hf Hfresh]. destruct Hturn as [Ht Hturn].
      change (run (o :: ops) w) with (run ops (step o w)).
      apply IH; [now apply step_well_kept| |exact Hfresh|exact Hturn].
      apply step_consistent; [exact (proj1 Hk)|exact Hc|exact Ho|exact Hf|exact Ht]. }
  split; [exact H|]. intros args. now apply updateProjectTool_consistent.
Qed.

Lemma fresh_process_consistent (root : string) : consistent (fresh_process root).
Proof.
  split.
  - intros pid n H. unfold project_node, project_dir, fresh_process in H. cbn in H.
    now rewrite lookup_empty in H.
  - intros eid n H. unfold entity_node, entity_dir, fresh_process in H. cbn in H.
    now rewrite lookup_empty in H.
Qed.

(** ** The OpenAI configuration *)

Lemma truthy_string_Some (key : string) : key <> "" -> truthy_string (Some key) = true.
Proof.
  intros H. cbn [truthy_string]. apply negb_true_iff. now apply String.eqb_neq.
Qed.

(** X22. A key set at run time takes precedence over the one of the
    environment, but the report does not say so.  After
    [configureOpenAI] with a non-empty key the client is built with that
    key, whatever the environment holds, and [checkOpenAIConfig] reports
    the configuration as present; yet it names ["environment"] as the
    source whenever the environment variable is set and non-empty, also
    when the key in use is the run-time one, and ["runtime"] only when
    the variable is unset or empty. *)
Theorem openai_runtime_key_precedence (c : OpenAIConfig) (key : string) :
  key <> "" ->
  let c' := snd (configureOpenAI key c) in
  getOpenAIApiKey c' = Some key
  /\ getOpenAIClient c' = inr (mkOpenAIClient key)
  /\ configured (checkOpenAIConfig c') = true
  /\ source (checkOpenAIConfig c')
     = Some (if truthy_string (env_OPENAI_API_KEY c) then "environment" else "runtime").
Proof.
  intros Hk c'. subst c'. cbn [configureOpenAI snd].
  pose proof (truthy_string_Some key Hk) as Ht.
  assert (Hg : getOpenAIApiKey (setOpenAIApiKey key c) = Some key).
  { unfold getOpenAIApiKey, setOpenAIApiKey, js_or. cbn [runtimeApiKey]. now rewrite Ht. }
  split; [exact Hg|]. split.
  - unfold getOpenAIClient. rewrite Hg. cbv zeta. now rewrite Ht.
  - unfold checkOpenAIConfig. rewrite Hg. cbv zeta. rewrite Ht. cbn [negb configured source].
    split; reflexivity.
Qed.

(** X23. [checkOpenAIConfig] reports the configuration as present
    exactly when [getOpenAIClient] builds a client, and the client is
    then built with the key that [getOpenAIApiKey] returns; otherwise
    the error has the code [API_KEY_MISSING].  [configureOpenAI] reports
    success whatever key it is given: with the empty key and no usable
    key in the environment it reports success and leaves the
    configuration absent. *)
Theorem openai_configuration_report (c : OpenAIConfig) :
  (configured (checkOpenAIConfig c) = true
   <-> exists key, getOpenAIClient c = inr (mkOpenAIClient key))
  /\ (forall key,
        getOpenAIClient c = inr (mkOpenAIClient key) -> getOpenAIApiKey c = Some key)
  /\ (forall error, getOpenAIClient c = inl error -> oce_code error = API_KEY_MISSING)
  /\ (forall key, success (fst (configureOpenAI key c)) = true)
  /\ (truthy_string (env_OPENAI_API_KEY c) = false ->
      configured (checkOpenAIConfig (snd (configureOpenAI "" c))) = false
      /\ exists error, getOpenAIClient (snd (configureOpenAI "" c)) = inl error).
Proof.
  unfold checkOpenAIConfig, getOpenAIClient. cbv zeta.
  split; [|split; [|split; [|split]]].
  - destruct (getOpenAIApiKey c) as [k|] eqn:Ek.
    + destruct (truthy_string (Some k)); cbn [negb configured].
      * split; eauto.
      * split; [discriminate|]. intros [key H]. discriminate H.
    + cbn [truthy_string negb configured]. split; [discriminate|].
      intros [key H]. discriminate H.
  - intros key. destruct (getOpenAIApiKey c) as [k|]; [|discriminate].
    destruct (truthy_string (Some k)); [|discriminate]. now intros [= ->].
  - intros error. destruct (getOpenAIApiKey c) as [k|].
    + destruct (truthy_string (Some k)); [discriminate|]. now intros [= <-].
    + now intros [= <-].
  - reflexivity.
  - intros He. cbn [configureOpenAI snd].
    assert (Hg : truthy_string (getOpenAIApiKey (setOpenAIApiKey "" c)) = false).
    { unfold getOpenAIApiKey, setOpenAIApiKey, js_or. cbn [runtimeApiKey env_OPENAI_API_KEY].
      cbn [truthy_string String.eqb negb]. exact He. }
    rewrite Hg. cbn [negb configured]. split; [reflexivity|].
    destruct (getOpenAIApiKey (setOpenAIApiKey "" c)) as [k|]; eauto.
Qed.
(** ** Citations *)

Lemma unseen_spec (seen : gset string) (cs : list RawCitation) :
  NoDup (map raw_url (unseen seen cs))
  /\ forall u, u ∈ map raw_url (unseen seen cs) <-> u ∈ map raw_url cs /\ u ∉ seen.
Proof.
  revert seen. induction cs as [|c cs IH]; intros seen; cbn [unseen map].
  - split; [constructor|]. intros u. split; [intros H; now apply elem_of_nil in H|].
    intros [H _]. exact H.
  - case_decide as Hc.
    + destruct (IH seen) as [Hn Hu]. split; [exact Hn|].
      intros u. rewrite Hu, elem_of_cons. split; [intros [H1 H2]; auto|].
      intros [[->|H1] H2]; [contradiction|auto].
    + destruct (IH ({[raw_url c]} ∪ seen)) as [Hn Hu]. cbn [map]. split.
      * apply NoDup_cons. split; [|exact Hn]. rewrite Hu. intros [_ H]. apply H.
        apply elem_of_union. left. now apply elem_of_singleton.
      * intros u. rewrite !elem_of_cons, Hu. split.
        -- intros [->|[H1 H2]]; [auto|]. split; [auto|].
           intros H. apply H2. apply elem_of_union. now right.
        -- intros [[->|H1] H2]; [auto|].
           destruct (decide (u = raw_url c)) as [->|Hne]; [auto|].
           right. split; [exact H1|]. intros H. apply elem_of_union in H as [H|H]; [|auto].
           now apply elem_of_singleton in H.
Qed.

Lemma unseen_first (seen : gset string) (cs : list RawCitation) (c : RawCitation) :
  c ∈ unseen seen cs -> first_with_url (raw_url c) cs = Some c.
Proof.
  revert seen. induction cs as [|c0 cs IH]; intros seen; cbn [unseen].
  - intros H. now apply elem_of_nil in H.
  - unfold first_with_url in *. rewrite filter_cons. case_decide as Hc.
    + intros Hin. assert (Hu : raw_url c ∈ map raw_url (unseen seen cs)).
      { apply list_elem_of_fmap. eauto. }
      apply (proj2 (unseen_spec seen cs)) in Hu as [_ Hu].
      rewrite decide_False by (intros Heq; apply Hu; now rewrite <- Heq).
      now apply (IH seen).
    + intros Hin. apply elem_of_cons in Hin as [->|Hin].
      * now rewrite decide_True by reflexivity.
      * assert (Hu : raw_url c ∈ map raw_url (unseen ({[raw_url c0]} ∪ seen) cs)).
        { apply list_elem_of_fmap. eauto. }
        apply (proj2 (unseen_spec _ cs)) in Hu as [_ Hu].
        rewrite decide_False
          by (intros Heq; apply Hu; rewrite Heq; apply elem_of_union; left;
              now apply elem_of_singleton).
        now apply (IH ({[raw_url c0]} ∪ seen)).
Qed.

Lemma first_position_here (url : string) (urls : list string) :
  first_position url (url :: urls) 0.
Proof. split; [reflexivity|]. intros m Hm. lia. Qed.

Lemma first_position_later (url other : string) (urls : list string) (n : nat) :
  url <> other -> first_position url urls n -> first_position url (other :: urls) (S n).
Proof.
  intros Hne [Hn Hfirst]. split; [exact Hn|].
  intros [|m] Hm; cbn.
  - intros [= ->]. now apply Hne.
  - apply Hfirst. lia.
Qed.

Lemma unseen_position (seen : gset string) (cs : list RawCitation) (i : nat) (c : RawCitation) :
  unseen seen cs !! i = Some c ->
  exists a, first_position (raw_url c) (map raw_url cs) a.
Proof.
  revert seen i. induction cs as [|c0 cs IH]; intros seen i; cbn [unseen map].
  - intros H. discriminate H.
  - case_decide as Hc.
    + intros Hi. destruct (IH seen i Hi) as [a Ha]. exists (S a).
      apply first_position_later; [|exact Ha]. intros Heq.
      assert (Hu : raw_url c ∈ map raw_url (unseen seen cs)).
      { apply list_elem_of_fmap. exists c. split; [reflexivity|].
        eapply list_elem_of_lookup_2, Hi. }
      apply (proj2 (unseen_spec seen cs)) in Hu as [_ Hu]. apply Hu. now rewrite Heq.
    + destruct i as [|i]; cbn.
      * intros [= <-]. exists 0%nat. apply first_position_here.
      * intros Hi. destruct (IH _ i Hi) as [a Ha]. exists (S a).
        apply first_position_later; [|exact Ha]. intros Heq.
        assert (Hu : raw_url c ∈ map raw_url (unseen ({[raw_url c0]} ∪ seen) cs)).
        { apply list_elem_of_fmap. exists c. split; [reflexivity|].
          eapply list_elem_of_lookup_2, Hi. }
        apply (proj2 (unseen_spec _ cs)) in Hu as [_ Hu]. apply Hu.
        apply elem_of_union. left. now apply elem_of_singleton.
Qed.

Lemma first_position_unique (url : string) (urls : list string) (a b : nat) :
  first_position url urls a -> first_position url urls b -> a = b.
Proof.
  intros [Ha Hfa] [Hb Hfb].
  destruct (lt_eq_lt_dec a b) as [[Hlt|Heq]|Hlt]; [|exact Heq|].
  - now destruct (Hfb a Hlt).
  - now destruct (Hfa b Hlt).
Qed.

Lemma unseen_order (seen : gset string) (cs : list RawCitation) (i j : nat)
    (ci cj : RawCitation) :
  (i < j)%nat ->
  unseen seen cs !! i = Some ci ->
  unseen seen cs !! j = Some cj ->
  exists a b,
    (a < b)%nat
    /\ first_position (raw_url ci) (map raw_url cs) a
    /\ first_position (raw_url cj) (map raw_url cs) b.
Proof.
  revert seen i j. induction cs as [|c0 cs IH]; intros seen i j Hij; cbn [unseen map].
  - intros H. discriminate H.
  - assert (Hshift : forall seen' i' j',
              (i' < j')%nat ->
              (forall u, u ∈ map raw_url (unseen seen' cs) -> u <> raw_url c0) ->
              unseen seen' cs !! i' = Some ci -> unseen seen' cs !! j' = Some cj ->
              exists a b,
                (a < b)%nat
                /\ first_position (raw_url ci) (raw_url c0 :: map raw_url cs) a
                /\ first_position (raw_url cj) (raw_url c0 :: map raw_url cs) b).
    { intros seen' i' j' Hlt Hne Hi Hj.
      destruct (IH seen' i' j' Hlt Hi Hj) as (a & b & Hab & Ha & Hb).
      exists (S a), (S b). split; [lia|]. split.
      - apply first_position_later; [|exact Ha]. apply Hne.
        apply list_elem_of_fmap. exists ci. split; [reflexivity|].
        eapply list_elem_of_lookup_2, Hi.
      - apply first_position_later; [|exact Hb]. apply Hne.
        apply list_elem_of_fmap. exists cj. split; [reflexivity|].
        eapply list_elem_of_lookup_2, Hj. }
    case_decide as Hc.
    + apply Hshift; [exact Hij|].
      intros u Hu Heq. apply (proj2 (unseen_spec seen cs)) in Hu as [_ Hu].
      apply Hu. now rewrite Heq.
    + assert (Hne : forall u, u ∈ map raw_url (unseen ({[raw_url c0]} ∪ seen) cs) ->
                      u <> raw_url c0).
      { intros u Hu Heq. apply (proj2 (unseen_spec _ cs)) in Hu as [_ Hu].
        apply Hu. apply elem_of_union. left. now apply elem_of_singleton. }
      destruct i as [|i]; destruct j as [|j]; try lia; cbn.
      * intros [= <-] Hj. destruct (unseen_position _ cs j cj Hj) as [b Hb].
        exists 0%nat, (S b). split; [lia|]. split; [apply first_position_here|].
        apply first_position_later; [|exact Hb]. apply Hne.
        apply list_elem_of_fmap. exists cj. split; [reflexivity|].
        eapply list_elem_of_lookup_2, Hj.
      * apply Hshift; [lia|exact Hne].
Qed.

Lemma stamp_citation (now : string) (c : RawCitation) (w : World) :
  exists id w',
    (let! id := generateCitationId in
     ret (mkCitation id (raw_title c) (raw_url c) now [])) w
    = (Return (mkCitation id (raw_title c) (raw_url c) now []), w').
Proof. eexists. eexists. reflexivity. Qed.

Lemma stamp_citations (now : string) (cs : list RawCitation) (w : World) :
  exists cits w',
    all_map
      (fun c =>
         let! id := generateCitationId in
         ret (mkCitation id (raw_title c) (raw_url c) now [])) cs w
    = (Return cits, w')
    /\ Forall2 (fun cit c =>
                  cit_title cit = raw_title c /\ cit_url cit = raw_url c
                  /\ cit_accessedAt cit = now /\ cit_relevantFields cit = []) cits cs.
Proof.
  revert w. induction cs as [|c cs IH]; intros w; cbn [all_map].
  - exists [], w. split; [reflexivity|constructor].
  - destruct (stamp_citation now c w) as (id & w1 & E1).
    destruct (IH w1) as (cits & w' & E & H).
    unfold bind at 1. rewrite E1. unfold bind at 1. rewrite E.
    eexists. exists w'. split; [reflexivity|].
    constructor; [|exact H]. cbn. auto.
Qed.

Lemma Forall2_elem_l {A B} (R : A -> B -> Prop) (l : list A) (k : list B) (x : A) :
  Forall2 R l k -> x ∈ l -> exists y, y ∈ k /\ R x y.
Proof.
  induction 1 as [|a b l k Hab _ IH]; intros Hin.
  - now apply elem_of_nil in Hin.
  - apply elem_of_cons in Hin as [->|Hin].
    + exists b. split; [apply list_elem_of_here|exact Hab].
    + destruct (IH Hin) as (y & Hy & HR). exists y. split; [now apply list_elem_of_further|exact HR].
Qed.

Lemma new_Date_toISOString_eq (w : World) :
  new_Date_toISOString w
  = (Return (Date_toISOString (clock w (clock_reads w))), set_clock_reads (S (clock_reads w)) w).
Proof. reflexivity. Qed.

(** X24. [processCitations] keeps one citation for each address, the
    first one: the addresses of its result are pairwise distinct, they
    are exactly the addresses of the raw citations, and they come in the
    order of their first occurrences: of two citations of the result,
    the earlier one has the address that occurs first among the raw
    citations.  Each citation carries the title of the first raw
    citation with its address.  All of them carry one and the same
    access time, read from the clock once before any id is made, and an
    empty list of relevant fields. *)
Theorem processCitations_dedupes (rawCitations : list RawCitation) (w : World) :
  exists cits w',
    processCitations rawCitations w = (Return cits, w')
    /\ NoDup (map cit_url cits)
    /\ (forall u, u ∈ map cit_url cits <-> u ∈ map raw_url rawCitations)
    /\ (forall i j ci cj,
          (i < j)%nat -> cits !! i = Some ci -> cits !! j = Some cj ->
          exists a b,
            (a < b)%nat
            /\ first_position (cit_url ci) (map raw_url rawCitations) a
            /\ first_position (cit_url cj) (map raw_url rawCitations) b)
    /\ (forall cit, cit ∈ cits ->
          exists c, first_with_url (cit_url cit) rawCitations = Some c
                    /\ cit_title cit = raw_title c)
    /\ (forall cit, cit ∈ cits ->
          cit_accessedAt cit = Date_toISOString (clock w (clock_reads w))
          /\ cit_relevantFields cit = []).
Proof.
  unfold processCitations. unfold bind at 1. rewrite new_Date_toISOString_eq.
  destruct (stamp_citations (Date_toISOString (clock w (clock_reads w)))
              (unseen ∅ rawCitations) (set_clock_reads (S (clock_reads w)) w))
    as (cits & w' & E & H).
  rewrite E. exists cits, w'. split; [reflexivity|].
  assert (Hurls : map cit_url cits = map raw_url (unseen ∅ rawCitations)).
  { clear E. induction H as [|cit c cits cs (_ & Hu & _) _ IH]; [reflexivity|].
    cbn [map]. now rewrite Hu, IH. }
  destruct (unseen_spec ∅ rawCitations) as [Hn Hu].
  split; [now rewrite Hurls|]. split.
  { intros u. rewrite Hurls, Hu. split; [now intros [? _]|]. intros ?. split; [assumption|].
    apply not_elem_of_empty. }
  split.
  { intros i j ci cj Hij Hi Hj.
    destruct (Forall2_lookup_l _ _ _ _ _ H Hi) as (ri & Hri & _ & Hui & _).
    destruct (Forall2_lookup_l _ _ _ _ _ H Hj) as (rj & Hrj & _ & Huj & _).
    rewrite Hui, Huj. exact (unseen_order ∅ rawCitations i j ri rj Hij Hri Hrj). }
  split.
  - intros cit Hin. destruct (Forall2_elem_l _ _ _ _ H Hin) as (c & Hc & Ht & Hcu & _).
    exists c. split; [|exact Ht]. rewrite Hcu. now apply (unseen_first ∅).
  - intros cit Hin. destruct (Forall2_elem_l _ _ _ _ H Hin) as (c & _ & _ & _ & Ha & Hr).
    now split.
Qed.

(** *** A reference to a file that does not parse *)

Lemma getEntity_all_corrupt (before after_ : list EntityRef) (ref : EntityRef) (w : World)
    (text : string) (removable : bool) :
  initialized w ->
  (forall r, r ∈ before -> entity_file_ok w (ref_id r)) ->
  entity_node w (ref_id ref) = Some (RegularFile (Malformed text) removable) ->
  all_map (fun r => getEntity (ref_id r)) (before ++ ref :: after_)%list w
  = (Throw (StorageError ("Failed to read entity " +:+ ref_id ref) READ_FAILED
              (SyntaxError text)), w).
Proof.
  intros Hi Hok Hbad. induction before as [|r before IH]; cbn [app all_map].
  - unfold bind at 1. rewrite getEntity_initialized by assumption. now rewrite Hbad.
  - unfold bind at 1. rewrite getEntity_initialized by assumption.
    assert (Hr : exists v, read_outcome "Failed to read entity " (getEntitiesDir w) (ref_id r)
                             (entity_node w (ref_id r)) = Return v).
    { destruct (entity_node w (ref_id r)) as [n|] eqn:En; [|eauto].
      destruct (Hok r (list_elem_of_here _ _) n En) as (e & rm & ->). eauto. }
    destruct Hr as [v ->]. unfold bind at 1. rewrite IH; [reflexivity|].
    intros r' Hin. apply Hok. now apply list_elem_of_further.
Qed.

Lemma gathered_corrupt (w : World) (pid : string) (P : Project) (rp : bool)
    (before after_ : list EntityRef) (ref : EntityRef) (text : string) (removable : bool) :
  project_node w pid = Some (RegularFile (Json P) rp) ->
  project_entities P = (before ++ ref :: after_)%list ->
  (forall r, r ∈ before -> entity_file_ok w (ref_id r)) ->
  (forall r, r ∈ after_ -> entity_file_ok w (ref_id r)) ->
  entity_node w (ref_id ref) = Some (RegularFile (Malformed text) removable) ->
  result (listEntitiesByProject_gathered pid w)
  = Throw (StorageError ("Failed to read entity " +:+ ref_id ref) READ_FAILED
             (SyntaxError text)).
Proof.
  intros HP Hrefs Hbefore Hafter Hbad.
  pose proof (ready_initialized w) as Hi.
  unfold listEntitiesByProject_gathered. rewrite bind_ensureDirectories.
  rewrite (getProject_initialized_bind _ _ _ Hi), ready_project_node, HP. cbn [read_outcome].
  destruct (gather_entities (project_entities P) (ready w) Hi) as [_ H].
  assert (Hread : forall r, r ∈ project_entities P ->
            read_outcome "Failed to read entity " (getEntitiesDir (ready w)) (ref_id r)
              (entity_node (ready w) (ref_id r))
            = Throw (StorageError ("Failed to read entity " +:+ ref_id ref) READ_FAILED
                       (SyntaxError text))
            \/ exists v, read_outcome "Failed to read entity " (getEntitiesDir (ready w))
                           (ref_id r) (entity_node (ready w) (ref_id r)) = Return v).
  { intros r Hin. rewrite ready_entity_node.
    destruct (decide (ref_id r = ref_id ref)) as [Heq|Hne].
    - left. now rewrite Heq, Hbad.
    - right. rewrite Hrefs in Hin. apply elem_of_app in Hin as [Hin|Hin].
      + destruct (entity_node w (ref_id r)) as [n|] eqn:En; [|cbn; eauto].
        destruct (Hbefore r Hin n En) as (e & rm & ->). cbn. eauto.
      + apply elem_of_cons in Hin as [->|Hin]; [now destruct Hne|].
        destruct (entity_node w (ref_id r)) as [n|] eqn:En; [|cbn; eauto].
        destruct (Hafter r Hin n En) as (e & rm & ->). cbn. eauto. }
  unfold bind, result in *.
  destruct (Promise_all _ (ready w)) as [[values|e] w']; cbn [fst] in *.
  - exfalso.
    assert (Hin : ref ∈ project_entities P).
    { rewrite Hrefs. apply elem_of_app. right. apply list_elem_of_here. }
    assert (Hout : read_outcome "Failed to read entity " (getEntitiesDir (ready w))
                     (ref_id ref) (entity_node (ready w) (ref_id ref))
                   ∈ map (fun r => read_outcome "Failed to read entity "
                                     (getEntitiesDir (ready w)) (ref_id r)
                                     (entity_node (ready w) (ref_id r)))
                       (project_entities P)).
    { apply list_elem_of_fmap. eauto. }
    rewrite H in Hout. apply list_elem_of_fmap in Hout as (v & Hv & _).
    rewrite ready_entity_node, Hbad in Hv. discriminate Hv.
  - apply list_elem_of_fmap in H as (r & Hthrow & Hin).
    destruct (Hread r Hin) as [Heq|[v Heq]]; rewrite Heq in Hthrow.
    + now injection Hthrow as ->.
    + discriminate Hthrow.
Qed.

(** X25. One entity file that does not parse takes the whole project
    with it.  When a project references one entity whose file holds
    text that is not JSON, and the files of all its other references,
    those listed before it and those listed after it, are absent or
    readable, then [listEntitiesByProject], the listing by type, the
    project lookup tool and both exports all throw the [StorageError]
    of that entity, [Failed to read entity <id>] with code [READ_FAILED]
    and the syntax error as its cause, although [getProject] itself
    still returns the project.  The reads of the references are started
    together: with a single file that cannot be read there is one
    rejection, and [listEntitiesByProject] throws it in whatever order
    the reads take their steps. *)
Theorem corrupt_entity_fails_the_project (w : World) (pid : string) (P : Project) (rp : bool)
    (before after_ : list EntityRef) (ref : EntityRef) (text : string) (removable : bool) :
  project_node w pid = Some (RegularFile (Json P) rp) ->
  project_entities P = (before ++ ref :: after_)%list ->
  (forall r, r ∈ before -> entity_file_ok w (ref_id r)) ->
  (forall r, r ∈ after_ -> entity_file_ok w (ref_id r)) ->
  entity_node w (ref_id ref) = Some (RegularFile (Malformed text) removable) ->
  let failure :=
    StorageError ("Failed to read entity " +:+ ref_id ref) READ_FAILED (SyntaxError text) in
  result (getProject pid w) = Return (Some P)
  /\ result (listEntitiesByProject pid w) = Throw failure
  /\ result (listEntitiesByProject_gathered pid w) = Throw failure
  /\ (forall k, result (listEntitiesByType pid k w) = Throw failure)
  /\ result (getProjectTool pid w) = Throw failure
  /\ result (exportProjectToJson pid w) = Throw failure
  /\ result (exportProjectToMarkdown pid w) = Throw failure.
Proof.
  intros HP Hrefs Hok Hafter Hbad failure.
  pose proof (gathered_corrupt w pid P rp before after_ ref text removable
                HP Hrefs Hok Hafter Hbad) as Hgathered.
  assert (Hg : forall w0, (forall x, project_node w0 x = project_node w x) ->
                 getProject pid w0 = (Return (Some P), ready w0)).
  { intros w0 Hp. rewrite getProject_eq, Hp, HP. reflexivity. }
  assert (Hl : forall w0,
                 (forall x, project_node w0 x = project_node w x) ->
                 (forall x, entity_node w0 x = entity_node w x) ->
                 listEntitiesByProject pid w0 = (Throw failure, ready w0)).
  { intros w0 Hp He. rewrite listEntitiesByProject_ready.
    pose proof (ready_initialized w0) as Hi.
    unfold listEntitiesByProject. rewrite bind_ensureDirectories, (ready_fixed _ Hi).
    rewrite (getProject_initialized_bind _ _ _ Hi), ready_project_node, Hp, HP.
    cbn [read_outcome]. rewrite Hrefs. unfold bind.
    rewrite (getEntity_all_corrupt before after_ ref (ready w0) text removable Hi).
    - reflexivity.
    - intros r Hin n. rewrite ready_entity_node, He. now apply Hok.
    - now rewrite ready_entity_node, He. }
  split; [now rewrite Hg|].
  split; [now rewrite Hl|].
  split; [exact Hgathered|].
  split; [intros k; unfold listEntitiesByType, bind; now rewrite Hl|].
  split; [unfold getProjectTool, bind; rewrite Hg by reflexivity; rewrite Hl;
          [reflexivity|apply ready_project_node|apply ready_entity_node]|].
  split.
  - unfold exportProjectToJson, bind. rewrite Hg by reflexivity. rewrite Hl;
      [reflexivity|apply ready_project_node|apply ready_entity_node].
  - unfold exportProjectToMarkdown, bind. rewrite Hg by reflexivity. rewrite Hl;
      [reflexivity|apply ready_project_node|apply ready_entity_node].
Qed.

(** ** Retrying a request *)

Lemma retry_loop_ends {Response} (config : RetryConfig) (iterations : nat) :
  forall (attempt : Z) (delay : number) (lastError : Thrown) (w : RetryWorld Response),
    (0 < iterations)%nat ->
    attempt + Z.of_nat iterations - 1 = maxRetries config ->
    exists k w',
      (k < iterations)%nat
      /\ retry_loop config iterations attempt delay lastError w
         = (responses w (calls w + k)%nat, w')
      /\ (forall j, (j < k)%nat -> retryable_at w j)
      /\ ends_loop config (attempt + Z.of_nat k) (responses w (calls w + k)%nat)
      /\ after_calls w w' (S k).
Proof.
  induction iterations as [|iterations IH]; intros attempt delay lastError w Hpos Hlast; [lia|].
  cbn [retry_loop]. unfold call_operation.
  assert (Hzero : forall w1 : RetryWorld Response,
            calls w1 = S (calls w) -> sleeps w1 = sleeps w ->
            retry_console w1 = retry_console w -> responses w1 = responses w ->
            after_calls w w1 1).
  { intros w1 H1 H2 H3 H4. unfold after_calls. rewrite H1, H2, H3, H4.
    repeat split; lia. }
  destruct (responses w (calls w)) as [error|response] eqn:Er.
  - destruct (isRetryableError error) eqn:Eretry; cbn [negb orb].
    + destruct (attempt =? maxRetries config) eqn:Elast.
      * apply Z.eqb_eq in Elast.
        exists 0%nat. eexists. rewrite Nat.add_0_r, Z.add_0_r, Er.
        split; [lia|]. split; [reflexivity|]. split; [intros j Hj; lia|].
        split; [now right|]. now apply Hzero.
      * apply Z.eqb_neq in Elast. unfold Math_random. cbv zeta.
        cbn [responses calls random_numbers random_reads retry_console sleeps].
        match goal with
        | |- context [retry_loop config iterations ?a ?d ?e ?w4] =>
            destruct (IH a d e w4) as (k & w' & Hk & E & Hretry & Hend & Hafter)
        end.
        { lia. }
        { lia. }
        unfold sleep, retry_console_error in E, Hretry, Hend, Hafter.
        cbn [responses calls random_numbers random_reads retry_console sleeps]
          in E, Hretry, Hend, Hafter.
        exists (S k), w'. split; [lia|].
        replace (calls w + S k)%nat with (S (calls w) + k)%nat by lia.
        split; [exact E|]. split.
        { intros [|j] Hj.
          - exists error. rewrite Nat.add_0_r. now split.
          - destruct (Hretry j) as (e & He & Hr); [lia|]. exists e.
            unfold retryable_at in *.
            cbn [responses calls] in He.
            replace (calls w + S j)%nat with (S (calls w) + j)%nat by lia. now split. }
        split.
        { replace (attempt + Z.of_nat (S k)) with (attempt + 1 + Z.of_nat k) by lia.
          exact Hend. }
        destruct Hafter as (H1 & H2 & H3 & H4). unfold after_calls.
        cbn [calls sleeps retry_console responses] in H1, H2, H3, H4.
        rewrite length_app in H2, H3. cbn [length] in H2, H3.
        repeat split; try lia. exact H4.
    + exists 0%nat. eexists. rewrite Nat.add_0_r, Er.
      split; [lia|]. split; [reflexivity|]. split; [intros j Hj; lia|].
      split; [now left|]. now apply Hzero.
  - exists 0%nat. eexists. rewrite Nat.add_0_r, Er.
    split; [lia|]. split; [reflexivity|]. split; [intros j Hj; lia|].
    split; [exact I|]. now apply Hzero.
Qed.

(** X26. [withRetry] calls the operation at most [maxRetries + 1] times
    and ends with the outcome of the last call it made: it returns the
    first response; it rethrows at once the first error that is not
    worth a retry; and when every call throws an error that is worth
    one, it rethrows the error of call [maxRetries + 1].  Every call
    before the last threw an error worth a retry, and between two calls
    it logged one line and paused once, so it never pauses after the
    last call.  With a negative [maxRetries] the operation is not called
    at all and [undefined] is thrown. *)
Theorem withRetry_attempts {Response} (config : RetryConfig) (w : RetryWorld Response) :
  (maxRetries config < 0 -> withRetry config w = (inl Undefined, w))
  /\ (0 <= maxRetries config ->
      exists k w',
        Z.of_nat k <= maxRetries config
        /\ withRetry config w = (responses w (calls w + k)%nat, w')
        /\ (forall j, (j < k)%nat -> retryable_at w j)
        /\ ends_loop config (Z.of_nat k) (responses w (calls w + k)%nat)
        /\ after_calls w w' (S k)).
Proof.
  unfold withRetry. split.
  - intros Hneg. replace (Z.to_nat (maxRetries config + 1)) with 0%nat by lia. reflexivity.
  - intros Hpos.
    destruct (retry_loop_ends config (Z.to_nat (maxRetries config + 1)) 0
                (initialDelayMs config) Undefined w)
      as (k & w' & Hk & E & Hretry & Hend & Hafter); [lia|lia|].
    exists k, w'. split; [lia|]. split; [exact E|]. split; [exact Hretry|].
    split; [exact Hend|exact Hafter].
Qed.

(** ** A deep-research request *)

Lemma collect_annotations_spec (citations : list RawCitation) (annotations : list Annotation) :
  collect_annotations citations annotations
  = (citations ++ concat (map citations_of_annotation annotations))%list.
Proof.
  unfold collect_annotations. revert citations.
  induction annotations as [|a l IH]; intros citations; cbn [foldl map concat].
  - now rewrite app_nil_r.
  - rewrite IH. destruct a as [c|]; cbn [citations_of_annotation app].
    + rewrite <- app_assoc. reflexivity.
    + reflexivity.
Qed.

Lemma cat_app (a b : list string) : cat (a ++ b) = cat a +:+ cat b.
Proof.
  induction a as [|x a IH]; [reflexivity|].
  cbn [app]. rewrite !cat_cons, IH. now rewrite string_app_assoc.
Qed.

Lemma collect_content_spec (acc : string * list RawCitation) (content : list ContentItem) :
  collect_content acc content
  = (fst acc +:+ cat (map text_of_content content),
     (snd acc ++ concat (map citations_of_content content))%list).
Proof.
  unfold collect_content. revert acc.
  induction content as [|x l IH]; intros [text citations]; cbn [foldl fst snd map concat].
  - change (cat []) with "". now rewrite string_app_nil_r, app_nil_r.
  - rewrite IH. destruct x as [t annotations|]; cbn [fst snd text_of_content citations_of_content].
    + rewrite cat_cons, string_app_assoc, collect_annotations_spec.
      now rewrite app_assoc.
    + rewrite cat_cons, string_app_nil_l. reflexivity.
Qed.

Lemma collect_output_spec (outputItems : list OutputItem) :
  collect_output outputItems
  = (cat (map text_of_content (all_content outputItems)),
     concat (map citations_of_content (all_content outputItems))).
Proof.
  unfold collect_output, all_content.
  assert (H : forall acc,
    foldl (fun acc item =>
             match item with
             | message_item (Some content) => collect_content acc content
             | message_item None | other_item => acc
             end) acc outputItems
    = (fst acc +:+ cat (map text_of_content (concat (map content_of_item outputItems))),
       (snd acc
        ++ concat (map citations_of_content (concat (map content_of_item outputItems))))%list)).
  { induction outputItems as [|item l IH]; intros [text citations];
      cbn [foldl fst snd map concat].
    - change (cat []) with "". now rewrite string_app_nil_r, app_nil_r.
    - rewrite IH. destruct item as [[content|]|]; cbn [content_of_item app]; try reflexivity.
      rewrite collect_content_spec. cbn [fst snd].
      rewrite !map_app, concat_app, cat_app, string_app_assoc, <- app_assoc. reflexivity. }
  rewrite H. cbn [fst snd app]. now rewrite string_app_nil_l.
Qed.

Lemma Forall_concat_map {A B} (P : B -> Prop) (f : A -> list B) (l : list A) :
  (forall x, Forall P (f x)) -> Forall P (concat (map f l)).
Proof.
  intros H. induction l as [|x l IH]; cbn [map concat]; [constructor|].
  apply Forall_app. split; [apply H|exact IH].
Qed.

Lemma title_or_untitled_nonempty (title : option string) : title_or_untitled title <> "".
Proof.
  unfold title_or_untitled. destruct title as [t|]; [|discriminate].
  destruct (String.eqb t "") eqn:E; [discriminate|]. now apply String.eqb_neq.
Qed.

(** X27. [executeDeepResearch] sends nothing without a key: when no
    usable key is configured it throws the configuration error with code
    [API_KEY_MISSING] and the operation is not called.  With a key and a
    non-negative [maxRetries] it calls the operation at most
    [maxRetries + 1] times (four times with the default configuration)
    and ends with the outcome of the last call: the result collected
    from that response, or the error that call threw. *)
Theorem executeDeepResearch_calls (retryConfig : option PartialRetryConfig) (c : OpenAIConfig)
    (w : RetryWorld ApiResponse) :
  (forall error,
     getOpenAIClient c = inl error ->
     executeDeepResearch retryConfig c w = (inl (ConfigFailure error), w)
     /\ oce_code error = API_KEY_MISSING)
  /\ (forall client,
        getOpenAIClient c = inr client ->
        0 <= maxRetries (merge_retry_config retryConfig) ->
        exists k w',
          Z.of_nat k <= maxRetries (merge_retry_config retryConfig)
          /\ calls w' = (calls w + S k)%nat
          /\ executeDeepResearch retryConfig c w
             = (match responses w (calls w + k)%nat with
                | inl error => inl (RequestFailure error)
                | inr response => inr (research_result response)
                end, w'))
  /\ maxRetries (merge_retry_config None) = 3.
Proof.
  split; [|split].
  - intros error He. unfold executeDeepResearch. rewrite He. split; [reflexivity|].
    unfold getOpenAIClient in He. cbv zeta in He.
    destruct (getOpenAIApiKey c) as [key|].
    + destruct (truthy_string (Some key)); [discriminate|]. now injection He as <-.
    + now injection He as <-.
  - intros client Hc Hpos. unfold executeDeepResearch, withRetry. rewrite Hc. cbv zeta.
    destruct (retry_loop_ends (merge_retry_config retryConfig)
                (Z.to_nat (maxRetries (merge_retry_config retryConfig) + 1)) 0
                (initialDelayMs (merge_retry_config retryConfig)) Undefined w)
      as (k & w' & Hk & E & _ & _ & Hcalls & _); [lia|lia|].
    exists k, w'. split; [lia|]. split; [exact Hcalls|].
    rewrite E. now destruct (responses w (calls w + k)%nat).
  - reflexivity.
Qed.

(** X28. The result of a deep-research request is read off the response
    in document order: its text is the concatenation of the texts of the
    [output_text] items of the messages, its citations are the
    [url_citation] annotations of those items, items and annotations of
    other types contribute nothing, and a response without output gives
    the empty text and no citation.  No citation has an empty title (a
    missing or empty one becomes [Untitled]).  Each of the two token
    counts of the result is the count of the response when that is
    there and truthy, and zero when the usage is missing, when the count
    is missing and when it is falsy; the total is the sum of the two
    counts so taken. *)
Theorem research_result_collects (response : ApiResponse) :
  let r := research_result response in
  let items := all_content (default [] (response_output response)) in
  research_content r = cat (map text_of_content items)
  /\ research_citations r = concat (map citations_of_content items)
  /\ Forall (fun c => raw_title c <> "") (research_citations r)
  /\ (response_output response = None -> research_content r = "" /\ research_citations r = [])
  /\ (response_usage response = None ->
        inputTokens (research_usage r) = number_0
        /\ outputTokens (research_usage r) = number_0)
  /\ (forall usage,
        response_usage response = Some usage ->
        (forall n, input_tokens usage = Some n -> number_truthy n = true ->
           inputTokens (research_usage r) = n)
        /\ (forall n, input_tokens usage = Some n -> number_truthy n = false ->
              inputTokens (research_usage r) = number_0)
        /\ (input_tokens usage = None -> inputTokens (research_usage r) = number_0)
        /\ (forall n, output_tokens usage = Some n -> number_truthy n = true ->
              outputTokens (research_usage r) = n)
        /\ (forall n, output_tokens usage = Some n -> number_truthy n = false ->
              outputTokens (research_usage r) = number_0)
        /\ (output_tokens usage = None -> outputTokens (research_usage r) = number_0))
  /\ totalTokens (research_usage r)
     = number_add (inputTokens (research_usage r)) (outputTokens (research_usage r)).
Proof.
  intros r items. subst r items. unfold research_result. cbv zeta.
  cbn [research_content research_citations research_usage totalTokens inputTokens outputTokens].
  rewrite collect_output_spec. cbn [fst snd].
  split; [reflexivity|]. split; [reflexivity|]. split.
  { apply Forall_concat_map. intros [text annotations|]; cbn [citations_of_content];
      [|constructor].
    apply Forall_concat_map. intros [c|]; cbn [citations_of_annotation]; [|constructor].
    constructor; [|constructor]. cbn [raw_title]. apply title_or_untitled_nonempty. }
  split; [intros ->; split; reflexivity|].
  split; [intros ->; split; reflexivity|].
  split; [|reflexivity].
  intros usage ->. cbn [mbind option_bind]. unfold or_zero.
  repeat split.
  - intros n -> ->. reflexivity.
  - intros n -> ->. reflexivity.
  - intros ->. reflexivity.
  - intros n -> ->. reflexivity.
  - intros n -> ->. reflexivity.
  - intros ->. reflexivity.
Qed.

(** *** A created project in the listing *)

Lemma createProject_dir (w : World) (name : string) (description : option string)
    (tags : option (list string)) (d : gmap string (FileNode Project)) :
  initialized w ->
  project_dir w = Some d ->
  d !! json_file (next_id w) = None ->
  let P := mkProject (next_id w) name description tags
             (clock w (S (clock_reads w))) (clock w (S (S (clock_reads w)))) [] in
  exists w',
    createProject name description tags w = (Return P, w')
    /\ initialized w'
    /\ project_dir w' = Some (<[json_file (next_id w) := RegularFile (Json P) true]> d)
    /\ project_dirs w'
       = <[getProjectsDir w := <[json_file (next_id w) := RegularFile (Json P) true]> d]>
           (project_dirs w)
    /\ env_FUNNEL_DESIGN_DATA_DIR w' = env_FUNNEL_DESIGN_DATA_DIR w
    /\ process_cwd w' = process_cwd w.
Proof.
  intros Hi Hd Hn P.
  unfold createProject. rewrite bind_ensureDirectories, (ready_fixed w Hi).
  unfold generateId, timestamp, Date_now, Math_random_toString36, fs_writeFile, JSON_stringify.
  wsimpl. fold (next_id w). fold P.
  unfold project_dir in Hd |- *. rewrite Hd. wsimpl. rewrite Hn. wsimpl.
  eexists. split; [reflexivity|]. unfold initialized. wsimpl.
  split; [exact Hi|]. split; [now rewrite lookup_insert_eq|]. auto.
Qed.

Lemma List_filter_Permutation {A} (f : A -> bool) (l l' : list A) :
  l ≡ₚ l' -> List.filter f l ≡ₚ List.filter f l'.
Proof.
  induction 1 as [|x l l' _ IH|x y l|l1 l2 l3 _ IH1 _ IH2]; cbn [List.filter].
  - reflexivity.
  - destruct (f x); [now constructor|exact IH].
  - destruct (f x), (f y); try reflexivity. apply perm_swap.
  - now rewrite IH1.
Qed.

Lemma omap_Permutation_list {A B} (f : A -> option B) (l l' : list A) :
  l ≡ₚ l' -> omap f l ≡ₚ omap f l'.
Proof.
  induction 1 as [|x l l' _ IH|x y l|l1 l2 l3 _ IH1 _ IH2]; cbn [omap list_omap].
  - reflexivity.
  - destruct (f x); [now constructor|exact IH].
  - destruct (f x), (f y); try reflexivity. apply perm_swap.
  - now rewrite IH1.
Qed.

(** X29. A created project shows up in the listing, once, and the
    listing is otherwise as before: in a store whose directories exist,
    when the generated id is not in use, [createProject] returns a
    project [P], and the result of [listProjects] afterwards is a
    rearrangement of [P] followed by the result of [listProjects]
    before. *)
Theorem createProject_is_listed (w : World) (name : string) (description : option string)
    (tags : option (list string)) :
  cache_sound w ->
  project_node w (next_id w) = None ->
  exists P w' before after_,
    createProject name description tags w = (Return P, w')
    /\ result (listProjects w) = Return before
    /\ result (listProjects w') = Return after_
    /\ after_ ≡ₚ P :: before.
Proof.
  intros Hs Hfresh. rewrite createProject_ready.
  destruct (ready_project_dir w Hs) as (d & Hd & Hlist).
  destruct (createProject_dir (ready w) name description tags d (ready_initialized w) Hd)
    as (w' & E & Hi' & Hd' & _).
  { rewrite next_id_ready. rewrite <- (ready_project_node w) in Hfresh.
    unfold project_node in Hfresh. now rewrite Hd in Hfresh. }
  rewrite next_id_ready in E, Hd'. destruct (ready_clock w) as [Hc Hr]. rewrite Hc, Hr in E, Hd'.
  set (P := mkProject (next_id w) name description tags _ _ []) in *.
  destruct (listProjects_eq w Hs) as (w1 & E1 & _).
  destruct (listProjects_initialized w' _ Hi' Hd') as (w2 & E2 & _).
  exists P, w'. eexists. eexists. split; [exact E|].
  rewrite E1, E2. split; [reflexivity|]. split; [reflexivity|].
  rewrite !js_sort_perm. unfold parsable_projects, json_entries.
  unfold project_files at 1. rewrite Hd', <- Hlist.
  assert (Hnone : d !! json_file (next_id w) = None).
  { rewrite <- (ready_project_node w) in Hfresh. unfold project_node in Hfresh.
    now rewrite Hd in Hfresh. }
  rewrite (omap_Permutation_list _ _ _
             (List_filter_Permutation _ _ _ (map_to_list_insert d _ _ Hnone))).
  cbn [List.filter fst]. unfold json_file at 1. rewrite endsWith_app.
  cbn [omap list_omap snd parsable]. reflexivity.
Qed.

(** *** Stores under different roots *)

Lemma join_inj_l (a b segment : string) : join a segment = join b segment -> a = b.
Proof. unfold join. apply string_app_inj_r. Qed.

Lemma getDataDir_set_env (w : World) (root : string) :
  root <> "" -> getDataDir (set_env (Some root) w) = root.
Proof.
  intros H. unfold getDataDir. cbn [env_FUNNEL_DESIGN_DATA_DIR set_env].
  apply String.eqb_neq in H. now rewrite H.
Qed.

(** X30. The root is read from the environment on every call, and the
    stores of two roots do not mix.  A project created under the current
    root, with an id that is in use under neither root, is not found
    once [FUNNEL_DESIGN_DATA_DIR] names another, non-empty root, and is
    found again, unchanged, once the variable is set back. *)
Theorem stores_are_isolated_by_root (w : World) (other name : string)
    (description : option string) (tags : option (list string)) :
  cache_sound w ->
  project_node w (next_id w) = None ->
  other <> "" ->
  other <> getDataDir w ->
  file_at (project_dirs w) (join other "projects") (json_file (next_id w)) = None ->
  exists P w1,
    createProject name description tags w = (Return P, w1)
    /\ result (getProject (project_id P) (set_env (Some other) w1)) = Return None
    /\ result (getProject (project_id P)
                 (set_env (env_FUNNEL_DESIGN_DATA_DIR w)
                    (after (getProject (project_id P) (set_env (Some other) w1)))))
       = Return (Some P).
Proof.
  intros Hs Hfresh Hne Hother Hfree. rewrite createProject_ready.
  destruct (ready_project_dir w Hs) as (d & Hd & _).
  assert (Hnone : d !! json_file (next_id w) = None).
  { rewrite <- (ready_project_node w) in Hfresh. unfold project_node in Hfresh.
    now rewrite Hd in Hfresh. }
  destruct (createProject_dir (ready w) name description tags d (ready_initialized w) Hd)
    as (w1 & E & Hi1 & Hd1 & Hdirs & Henv & Hcwd).
  { now rewrite next_id_ready. }
  rewrite next_id_ready in E, Hd1, Hdirs.
  destruct (ready_clock w) as [Hc Hr]. rewrite Hc, Hr in E, Hd1, Hdirs.
  set (P := mkProject (next_id w) name description tags _ _ []) in *.
  destruct (read_only_ensureDirectories w) as (Henv0 & Hcwd0 & Hfiles0 & _).
  fold (ready w) in Henv0, Hcwd0, Hfiles0.
  assert (Hroot1 : getDataDir w1 = getDataDir w).
  { apply getDataDir_env; congruence. }
  exists P, w1. split; [exact E|]. cbn [project_id P].
  set (w2 := set_env (Some other) w1).
  assert (Hroot2 : getDataDir w2 = other) by now apply getDataDir_set_env.
  assert (Hnode2 : project_node w2 (next_id w) = None).
  { unfold project_node, project_dir, getProjectsDir. rewrite Hroot2.
    change (project_dirs w2) with (project_dirs w1). rewrite Hdirs.
    rewrite lookup_insert_ne.
    - specialize (Hfiles0 (join other "projects") (json_file (next_id w))).
      unfold file_at in Hfiles0, Hfree. rewrite Hfree in Hfiles0. exact Hfiles0.
    - unfold getProjectsDir. rewrite ready_dataDir. intros Heq.
      apply join_inj_l in Heq. now apply Hother. }
  split.
  { rewrite getProject_eq. unfold result; cbn [fst]. now rewrite Hnode2. }
  rewrite (getProject_eq w2). unfold after; cbn [snd].
  set (w3 := set_env (env_FUNNEL_DESIGN_DATA_DIR w) (ready w2)).
  rewrite getProject_eq. unfold result; cbn [fst].
  destruct (read_only_ensureDirectories w2) as (_ & Hcwd2 & Hfiles2 & _).
  fold (ready w2) in Hcwd2, Hfiles2.
  assert (Hroot3 : getDataDir w3 = getDataDir w).
  { apply getDataDir_env; [reflexivity|].
    change (process_cwd w3) with (process_cwd (ready w2)). rewrite Hcwd2.
    change (process_cwd w2) with (process_cwd w1). congruence. }
  assert (Hnode3 : project_node w3 (next_id w) = Some (RegularFile (Json P) true)).
  { unfold project_node, project_dir, getProjectsDir. rewrite Hroot3.
    change (project_dirs w3) with (project_dirs (ready w2)).
    specialize (Hfiles2 (join (getDataDir w) "projects") (json_file (next_id w))).
    unfold file_at in Hfiles2. rewrite Hfiles2.
    change (project_dirs w2) with (project_dirs w1). rewrite Hdirs.
    unfold getProjectsDir. rewrite ready_dataDir.
    rewrite lookup_insert_eq. now rewrite lookup_insert_eq. }
  now rewrite Hnode3.
Qed.

End Storage.

(** * Concrete runs

    The theorems above, applied to the sample worlds, with integers as
    payload numbers. *)

Lemma not_found_semantics_witness :
  project_node (@fresh_process Z "/data") "missing-id" = None
  /\ result (getProject "missing-id" (@fresh_process Z "/data")) = Return None
  /\ exists message,
       result (createEntity "missing-id" (sample_input None None) (@fresh_process Z "/data"))
         = Throw (Error message)
       /\ contains message "missing-id".
Proof.
  assert (H : project_node (@fresh_process Z "/data") "missing-id" = None)
    by (vm_compute; reflexivity).
  destruct (not_found_semantics (fresh_process "/data") "missing-id"
              (sample_input None None) H) as (Hget & Hcreate & _).
  split; [exact H|]. split; [exact Hget|exact Hcreate].
Defined.

Lemma listing_missing_project_is_empty_witness :
  project_node (@fresh_process Z "/data") "missing-id" = None
  /\ result (listEntitiesByProject "missing-id" (@fresh_process Z "/data")) = Return []
  /\ result (listEntitiesByType "missing-id" aida_funnel (@fresh_process Z "/data")) = Return []
  /\ result (exportProjectToJson sample_snapshot "missing-id" (@fresh_process Z "/data"))
       = Throw (Error ("Project " +:+ "missing-id" +:+ " not found"))
  /\ result (exportProjectToMarkdown Z_to_string Z_truthy "missing-id" (fresh_process "/data"))
       = Throw (Error ("Project " +:+ "missing-id" +:+ " not found")).
Proof.
  assert (H : project_node (@fresh_process Z "/data") "missing-id" = None)
    by (vm_compute; reflexivity).
  split; [exact H|].
  exact (listing_missing_project_is_empty Z_to_string Z_truthy sample_snapshot
           (fresh_process "/data") "missing-id" aida_funnel H).
Defined.

Lemma createEntity_referential_integrity_witness :
  result (getProject "p1" (@one_project_world Z))
    = Return (Some (sample_project "p1" "Demo" 1000 1000 []))
  /\ result (createEntity "p1" (sample_input (Some 50) (Some 30)) one_project_world)
     = Return (created_entity (Some 50) (Some 30))
  /\ (exists P',
        result (getProject "p1"
                  (after (createEntity "p1" (sample_input (Some 50) (Some 30))
                            one_project_world)))
          = Return (Some P')
        /\ project_entities P' = [mkRef "1700000000000-k3x9q2m" conversion_funnel])
  /\ (exists e',
        result (getEntity "1700000000000-k3x9q2m"
                  (after (createEntity "p1" (sample_input (Some 50) (Some 30))
                            one_project_world)))
          = Return (Some e')
        /\ entity_projectId e' = "p1").
Proof.
  assert (H1 : result (getProject "p1" (@one_project_world Z))
               = Return (Some (sample_project "p1" "Demo" 1000 1000 [])))
    by (vm_compute; reflexivity).
  assert (H2 : result (createEntity "p1" (sample_input (Some 50) (Some 30)) one_project_world)
               = Return (created_entity (Some 50) (Some 30)))
    by (vm_compute; reflexivity).
  split; [exact H1|]. split; [exact H2|].
  exact (createEntity_referential_integrity one_project_world
           (sample_project "p1" "Demo" 1000 1000 []) (sample_input (Some 50) (Some 30))
           (created_entity (Some 50) (Some 30)) _ H1 (run_pair _ _ _ H2)).
Defined.

Lemma deleteProject_cascade_race_witness :
  (calls_in_turn (@two_entity_world Z None None) (length (project_entities two_entity_project))
   /\ result (deleteProject "p1" (@two_entity_world Z None None)) = Return true
   /\ result (getProject "p1" (after (deleteProject "p1" (@two_entity_world Z None None))))
      = Return None
   /\ (forall ref, ref ∈ project_entities two_entity_project ->
         result (getEntity (ref_id ref)
                   (after (deleteProject "p1" (@two_entity_world Z None None))))
           = Return None))
  /\ (let w := set_schedule alternating (@two_entity_world Z None None) in
      result (getProject "p1" w) = Return (Some two_entity_project)
      /\ result (deleteProject "p1" w) = Return true
      /\ result (getProject "p1" (after (deleteProject "p1" w))) = Return None
      /\ (forall ref, ref ∈ project_entities two_entity_project ->
            result (getEntity (ref_id ref) (after (deleteProject "p1" w))) = Return None)).
Proof.
  destruct (@deleteProject_cascade_race Z) as (_ & Hturn & Hany & _).
  split.
  - split; [left; reflexivity|].
    apply (Hturn (two_entity_world None None) "p1" two_entity_project).
    + left. reflexivity.
    + vm_compute. reflexivity.
    + intros ref Hin.
      assert (Hok : project_file_ok (@two_entity_world Z None None) "p1").
      { intros n Hn. vm_compute in Hn. injection Hn as <-.
        exists two_entity_project, true. split; reflexivity. }
      apply elem_of_cons in Hin as [->|Hin]; [|apply elem_of_cons in Hin as [->|Hin]].
      * exists (sample_entity "e1" "p1" None None). split; [vm_compute; reflexivity|exact Hok].
      * exists (sample_entity "e2" "p1" None None). split; [vm_compute; reflexivity|exact Hok].
      * now apply elem_of_nil in Hin.
  - cbv zeta.
    assert (H1 : result (getProject "p1"
                           (set_schedule alternating (@two_entity_world Z None None)))
                 = Return (Some two_entity_project)) by (vm_compute; reflexivity).
    assert (H2 : result (deleteProject "p1"
                           (set_schedule alternating (@two_entity_world Z None None)))
                 = Return true) by (vm_compute; reflexivity).
    split; [exact H1|]. split; [exact H2|].
    exact (Hany _ "p1" two_entity_project H1 H2).
Defined.

Lemma deleteEntity_behaviour_witness :
  entity_node (@two_entity_world Z None None) "e1"
    = Some (RegularFile (Json (sample_entity "e1" "p1" None None)) true)
  /\ result (deleteEntity "e1" (@two_entity_world Z None None)) = Return true
  /\ project_node (after (deleteEntity "e1" (@two_entity_world Z None None))) "p1"
     = Some (RegularFile
               (Json (sample_project "p1" "Export Test" 1000 1700000000000
                        [mkRef "e2" conversion_funnel])) true)
  /\ entity_node (after (deleteEntity "e1" (@two_entity_world Z None None))) "e1" = None.
Proof.
  assert (He : entity_node (@two_entity_world Z None None) "e1"
               = Some (RegularFile (Json (sample_entity "e1" "p1" None None)) true))
    by (vm_compute; reflexivity).
  assert (Hp : project_node (@two_entity_world Z None None)
                 (entity_projectId (@sample_entity Z "e1" "p1" None None))
               = Some (RegularFile (Json two_entity_project) true))
    by (vm_compute; reflexivity).
  destruct (deleteEntity_behaviour (@two_entity_world Z None None) "e1") as (_ & Hpresent & _).
  destruct (Hpresent _ _ _ He Hp eq_refl) as (Hr & Hproject & _ & Hentity & _).
  split; [exact He|]. split; [exact Hr|]. split; [exact Hproject|exact Hentity].
Defined.

Lemma deleteEntity_not_atomic_witness :
  result (getEntity "e1" (@pinned_world Z)) = Return (Some (sample_entity "e1" "p1" None None))
  /\ result (getProject "p1" (@pinned_world Z)) = Return (Some pinned_project)
  /\ result (deleteEntity "e1" (@pinned_world Z))
     = Throw (StorageError "Failed to delete entity e1" DELETE_FAILED
                (ErrnoException "EPERM" "unlink" "/data/entities" "e1.json"))
  /\ (exists p',
        result (getProject "p1" (after (deleteEntity "e1" (@pinned_world Z))))
          = Return (Some p')
        /\ project_entities p' = [])
  /\ result (getEntity "e1" (after (deleteEntity "e1" (@pinned_world Z))))
     = Return (Some (sample_entity "e1" "p1" None None)).
Proof.
  assert (He : result (getEntity "e1" (@pinned_world Z))
               = Return (Some (sample_entity "e1" "p1" None None)))
    by (vm_compute; reflexivity).
  assert (Hp : result (getProject (entity_projectId (@sample_entity Z "e1" "p1" None None))
                         (@pinned_world Z))
               = Return (Some pinned_project))
    by (vm_compute; reflexivity).
  assert (Hf : result (deleteEntity "e1" (@pinned_world Z))
               = Throw (StorageError "Failed to delete entity e1" DELETE_FAILED
                          (ErrnoException "EPERM" "unlink" "/data/entities" "e1.json")))
    by (vm_compute; reflexivity).
  destruct (deleteEntity_not_atomic (@pinned_world Z) "e1" _ _ _ _ He Hp eq_refl Hf)
    as ((p' & Hget & Hrefs & _) & Hstill).
  split; [exact He|]. split; [exact Hp|]. split; [exact Hf|]. split; [|exact Hstill].
  exists p'. split; [exact Hget|exact Hrefs].
Defined.

Lemma orphan_tolerance_witness :
  result (getProject "p1" (@orphan_world Z)) = Return (Some orphan_project)
  /\ result (listEntitiesByProject "p1" (@orphan_world Z))
     = Return [sample_entity "e1" "p1" None None]
  /\ ~ (sample_entity "e9" "p1" None None ∈ [@sample_entity Z "e1" "p1" None None])
  /\ result (getEntity "e9" (@orphan_world Z)) = Return (Some (sample_entity "e9" "p1" None None)).
Proof.
  assert (HP : result (getProject "p1" (@orphan_world Z)) = Return (Some orphan_project))
    by (vm_compute; reflexivity).
  assert (Hok : forall ref, ref ∈ project_entities orphan_project ->
                  entity_file_ok (@orphan_world Z) (ref_id ref)).
  { intros ref Hin n Hn.
    apply elem_of_cons in Hin as [->|Hin]; [|apply elem_of_cons in Hin as [->|Hin]].
    - vm_compute in Hn. injection Hn as <-. eexists. exists true. reflexivity.
    - vm_compute in Hn. discriminate Hn.
    - now apply elem_of_nil in Hin. }
  destruct (orphan_tolerance orphan_world "p1" orphan_project HP Hok)
    as (listing & Hl & Heq & _ & Horphan).
  assert (Hlisting : listing = [sample_entity "e1" "p1" None None])
    by (rewrite Heq; vm_compute; reflexivity).
  subst listing.
  destruct (Horphan (sample_entity "e9" "p1" None None)
              (RegularFile (Json (sample_entity "e9" "p1" None None)) true))
    as (Hnot & Hget).
  - vm_compute. reflexivity.
  - exists true. reflexivity.
  - reflexivity.
  - intros Hin. apply elem_of_cons in Hin as [Hin|Hin]; [discriminate Hin|].
    apply elem_of_cons in Hin as [Hin|Hin]; [discriminate Hin|].
    now apply elem_of_nil in Hin.
  - intros ref e Hin He.
    apply elem_of_cons in Hin as [->|Hin]; [|apply elem_of_cons in Hin as [->|Hin]].
    + vm_compute in He. injection He as <-. reflexivity.
    + vm_compute in He. discriminate He.
    + now apply elem_of_nil in Hin.
  - split; [exact HP|]. split; [exact Hl|]. split; [exact Hnot|exact Hget].
Defined.

Lemma listProjects_sorted_scan_witness :
  cache_sound (@scan_world Z)
  /\ exists projects,
       result (listProjects (@scan_world Z)) = Return projects
       /\ projects ≡ₚ parsable_projects (@scan_world Z)
       /\ StronglySorted newer_first projects
       /\ console (after (listProjects (@scan_world Z)))
          = (console (@scan_world Z) ++ scan_warnings (@scan_world Z))%list.
Proof.
  assert (Hs : cache_sound (@scan_world Z)).
  { intros root Hi. vm_compute in Hi. discriminate Hi. }
  split; [exact Hs|].
  destruct (listProjects_sorted_scan scan_world Hs) as (projects & Hr & Hp & Hsorted & Hc & _).
  exists projects. split; [exact Hr|]. split; [exact Hp|]. split; [exact Hsorted|exact Hc].
Defined.

Lemma export_markdown_headings_witness :
  result (getProject "p1" (@two_entity_world Z (Some 50) (Some 30))) = Return (Some two_entity_project)
  /\ result (listEntitiesByProject "p1" (@two_entity_world Z (Some 50) (Some 30)))
     = Return [sample_entity "e1" "p1" (Some 50) (Some 30); sample_entity "e2" "p1" None None]
  /\ exists md,
       result (exportProjectToMarkdown Z_to_string Z_truthy "p1"
                 (two_entity_world (Some 50) (Some 30))) = Return md
       /\ (exists rest, md = "# " +:+ "Export Test" +:+ nl +:+ rest)
       /\ contains md ("#### " +:+ "Awareness" +:+ nl).
Proof.
  assert (HP : result (getProject "p1" (@two_entity_world Z (Some 50) (Some 30)))
               = Return (Some two_entity_project))
    by (vm_compute; reflexivity).
  assert (Hl : result (listEntitiesByProject "p1" (@two_entity_world Z (Some 50) (Some 30)))
               = Return [sample_entity "e1" "p1" (Some 50) (Some 30);
                         sample_entity "e2" "p1" None None])
    by (vm_compute; reflexivity).
  destruct (export_markdown_headings Z_to_string Z_truthy sample_snapshot
              (two_entity_world (Some 50) (Some 30)) "p1" _ _ HP Hl)
    as ((md & Hmd & Hhead & Hstages) & _).
  split; [exact HP|]. split; [exact Hl|].
  exists md. split; [exact Hmd|]. split; [exact Hhead|].
  eapply (Hstages (sample_entity "e1" "p1" (Some 50) (Some 30)) _ (sample_stage "Awareness" (Some 50))).
  - left.
  - reflexivity.
  - left.
Defined.

Lemma directory_creation_once_witness :
  Forall (@is_store_operation Z) same_root_operations
  /\ (directory_creations "/data"
        (run Z_to_string Z_truthy sample_snapshot same_root_operations (fresh_process "/data"))
      <= directory_creations "/data" (@fresh_process Z "/data") + 1)%nat.
Proof.
  assert (H : Forall (@is_store_operation Z) same_root_operations)
    by (repeat constructor).
  split; [exact H|].
  exact (proj1 (directory_creation_once Z_to_string Z_truthy sample_snapshot
                  same_root_operations (fresh_process "/data") H)).
Defined.

(** C3, as stated, fails: the cache holds a single root, so switching
    the configured root away from ["/data"] and back, with no reset in
    between, creates the directories of ["/data"] a second time. *)
Lemma root_switch_creates_again :
  ~ @created_once_until_reset Z Z_to_string Z_truthy sample_snapshot.
Proof.
  intros H.
  specialize (H root_switch (fresh_process "/data") "/data").
  assert (Hcount : directory_creations "/data"
                     (run Z_to_string Z_truthy sample_snapshot root_switch
                        (fresh_process "/data")) = 2%nat)
    by (vm_compute; reflexivity).
  rewrite Hcount in H.
  assert (Hnoreset : Forall (fun o => ~ @is_reset Z o) root_switch)
    by (repeat constructor; intros []).
  specialize (H Hnoreset eq_refl eq_refl). lia.
Qed.

(** * Sample evaluations *)

Example listProjects_newest_first :
  result (listProjects (@scan_world Z)) = Return [project_a; project_c; project_b]
  /\ console (after (listProjects (@scan_world Z)))
     = [("Failed to read project file broken.json:", SyntaxError "{ not json")].
Proof. split; vm_compute; reflexivity. Qed.

Example root_switch_trace :
  mkdir_trace (run Z_to_string Z_truthy sample_snapshot root_switch (fresh_process "/data"))
  = ["/data/projects"; "/data/entities"; "/other/projects"; "/other/entities";
     "/data/projects"; "/data/entities"].
Proof. vm_compute. reflexivity. Qed.

Example reset_creates_again :
  mkdir_trace (run Z_to_string Z_truthy sample_snapshot
                 [GetProject "p1"; ResetDirectoryInit; GetProject "p1"] (fresh_process "/data"))
  = ["/data/projects"; "/data/entities"; "/data/projects"; "/data/entities"].
Proof. vm_compute. reflexivity. Qed.

Example minimal_lifecycle :
  let w1 := after (createEntity "p1" (sample_input None None) (@one_project_world Z)) in
  let w2 := after (deleteEntity "1700000000000-k3x9q2m" w1) in
  (length <$> (project_entities <$> stored_project w1 "p1")) = Some 1%nat
  /\ result (deleteEntity "1700000000000-k3x9q2m" w1) = Return true
  /\ (length <$> (project_entities <$> stored_project w2 "p1")) = Some 0%nat
  /\ result (getEntity "1700000000000-k3x9q2m" w2) = Return None.
Proof. repeat split; vm_compute; reflexivity. Qed.

Example generateId_sample :
  result (generateId (@fresh_process Z "/data")) = Return "1700000000000-k3x9q2m".
Proof. vm_compute. reflexivity. Qed.

Example export_markdown_sample :
  result (exportProjectToMarkdown Z_to_string Z_truthy "p1"
            (process_at "/data"
               {[ "p1.json" := RegularFile (Json pinned_project) true ]}
               {[ "e1.json" :=
                    RegularFile (Json (sample_entity "e1" "p1" (Some 50) (Some 30))) true ]}))
  = Return "# Demo

---

## Conversion Funnel: Test Funnel

### Stages
#### Awareness
**Conversion Rate:** 50%

#### Interest
**Conversion Rate:** 30%


---

".
Proof. vm_compute. reflexivity. Qed.

Example sort_keeps_scan_order_of_ties :
  js_sort by_updatedAt_desc
    [sample_project "x" "first" 1 5 []; sample_project "y" "second" 2 9 [];
     sample_project "z" "third" 3 5 []]
  = [sample_project "y" "second" 2 9 []; sample_project "x" "first" 1 5 [];
     sample_project "z" "third" 3 5 []].
Proof. vm_compute. reflexivity. Qed.

Example stale_cache_fails_the_scan :
  result (listProjects (set_initializedDataDir (Some "/data") (@fresh_process Z "/data")))
  = Throw (ErrnoException "ENOENT" "scandir" "/data/projects" "").
Proof. vm_compute. reflexivity. Qed.

Lemma createProject_round_trip_witness :
  exists P w',
    createProject "Demo" (Some "A demo") None (@fresh_process Z "/data") = (Return P, w')
    /\ project_id P = "1700000000000-k3x9q2m"
    /\ result (getProject (project_id P) w') = Return (Some P).
Proof.
  destruct (createProject_round_trip (@fresh_process Z "/data") "Demo" (Some "A demo") None)
    as (P & w' & E & HP & Hg & _).
  - intros root Hi. vm_compute in Hi. discriminate Hi.
  - intros H. vm_compute in H. discriminate H.
  - exists P, w'. split; [exact E|]. split; [|exact Hg]. rewrite HP. vm_compute. reflexivity.
Defined.

Lemma updateProject_upserts_witness :
  exists w',
    updateProject (sample_project "ghost" "Never created" 1000 1000 []) (@fresh_process Z "/data")
    = (Return (sample_project "ghost" "Never created" 1000 1700000000000 []), w')
    /\ result (getProject "ghost" w')
       = Return (Some (sample_project "ghost" "Never created" 1000 1700000000000 [])).
Proof.
  destruct (updateProject_upserts (@fresh_process Z "/data")
              (sample_project "ghost" "Never created" 1000 1000 []))
    as (w' & E & Hg & _).
  - intros root Hi. vm_compute in Hi. discriminate Hi.
  - intros H. vm_compute in H. discriminate H.
  - exists w'. split; [exact E|exact Hg].
Defined.

Lemma updateEntity_writes_entity_only_witness :
  exists w',
    result (updateEntity (sample_entity "e7" "p1" (Some 5) None) (@one_project_world Z))
    = Return (entity_with_updatedAt 1700000000000 (sample_entity "e7" "p1" (Some 5) None))
    /\ w' = after (updateEntity (sample_entity "e7" "p1" (Some 5) None) (@one_project_world Z))
    /\ project_node w' "p1" = project_node (@one_project_world Z) "p1".
Proof.
  destruct (updateEntity_writes_entity_only (@one_project_world Z)
              (sample_entity "e7" "p1" (Some 5) None))
    as (w' & E & _ & Hp & _).
  - intros root Hi. vm_compute in Hi. discriminate Hi.
  - intros H. vm_compute in H. discriminate H.
  - exists w'. rewrite E. split; [reflexivity|]. split; [reflexivity|]. apply Hp.
Defined.

Lemma createEntity_effect_witness :
  exists e P' w',
    createEntity "p1" (sample_input (Some 50) (Some 30)) (@one_project_world Z) = (Return e, w')
    /\ entity_variant e = sample_funnel (Some 50) (Some 30)
    /\ result (getEntity (entity_id e) w') = Return (Some e)
    /\ result (getProject "p1" w') = Return (Some P')
    /\ project_entities P' = [mkRef (entity_id e) (entity_type e)].
Proof.
  destruct (createEntity_effect (@one_project_world Z) "p1"
              (sample_project "p1" "Demo" 1000 1000 []) true (sample_input (Some 50) (Some 30)))
    as (e & P' & w' & E & _ & _ & Hv & _ & Hg & Hq & _ & _ & _ & _ & _ & Hl & _).
  - intros root Hi. vm_compute in Hi. discriminate Hi.
  - vm_compute. reflexivity.
  - reflexivity.
  - intros H. vm_compute in H. discriminate H.
  - exists e, P', w'. split; [exact E|]. split; [exact Hv|]. split; [exact Hg|].
    split; [exact Hq|exact Hl].
Defined.

Lemma createEntity_rejects_before_writing_witness :
  (exists error,
     result (createEntity "missing-id" (sample_input None None) (@one_project_world Z))
     = Throw error)
  /\ untouched (@one_project_world Z)
       (after (createEntity "missing-id" (sample_input None None) (@one_project_world Z))).
Proof.
  apply (createEntity_rejects_before_writing (@one_project_world Z) "missing-id").
  intros P r H. vm_compute in H. discriminate H.
Defined.

Lemma create_then_delete_restores_witness :
  exists e w1 w2 now,
    createEntity "p1" (sample_input None None) (@one_project_world Z) = (Return e, w1)
    /\ deleteEntity (entity_id e) w1 = (Return true, w2)
    /\ result (getProject "p1" w2)
       = Return (Some (with_updatedAt now (sample_project "p1" "Demo" 1000 1000 []))).
Proof.
  destruct (create_then_delete_restores (@one_project_world Z) "p1"
              (sample_project "p1" "Demo" 1000 1000 []) true (sample_input None None))
    as (e & w1 & w2 & now & E1 & E2 & Hg & _).
  - intros root Hi. vm_compute in Hi. discriminate Hi.
  - vm_compute. reflexivity.
  - reflexivity.
  - vm_compute. reflexivity.
  - cbn. apply not_elem_of_nil.
  - exists e, w1, w2, now. split; [exact E1|]. split; [exact E2|exact Hg].
Defined.

Lemma deleting_twice_witness :
  (result (deleteEntity "e1" (@two_entity_world Z None None)) = Return true
   /\ result (deleteEntity "e1" (after (deleteEntity "e1" (@two_entity_world Z None None))))
      = Return false)
  /\ (let w := set_schedule alternating (@two_entity_world Z None None) in
      result (deleteProject "p1" w) = Return true
      /\ result (getProject "p1" (after (deleteProject "p1" w))) = Return None
      /\ result (deleteProject "p1" (after (deleteProject "p1" w))) = Return false).
Proof.
  split.
  - destruct (deleting_twice (@two_entity_world Z None None)) as [He _].
    destruct (He "e1" (sample_entity "e1" "p1" None None)) as [H1 H2].
    + vm_compute. reflexivity.
    + intros n Hn. vm_compute in Hn. injection Hn as <-.
      exists two_entity_project, true. split; reflexivity.
    + split; [exact H1|]. rewrite H2. reflexivity.
  - cbv zeta.
    destruct (deleting_twice (set_schedule alternating (@two_entity_world Z None None)))
      as [_ Hp].
    assert (Htrue : result (deleteProject "p1"
                              (set_schedule alternating (@two_entity_world Z None None)))
                    = Return true)
      by (vm_compute; reflexivity).
    split; [exact Htrue|]. destruct (Hp "p1" Htrue) as [H1 H2].
    split; [exact H1|]. rewrite H2. reflexivity.
Defined.

Lemma reset_forces_directory_creation_witness :
  mkdir_trace
    (step Z_to_string Z_truthy sample_snapshot (GetProject "p1")
       (after (resetDirectoryInit
                 (step Z_to_string Z_truthy sample_snapshot (GetProject "p1")
                    (@one_project_world Z)))))
  = ["/data/projects"; "/data/entities"; "/data/projects"; "/data/entities"].
Proof.
  destruct (reset_forces_directory_creation Z_to_string Z_truthy sample_snapshot
              (GetProject "p1")
              (step Z_to_string Z_truthy sample_snapshot (GetProject "p1")
                 (@one_project_world Z)) I)
    as (_ & _ & _ & Ht & _).
  rewrite Ht. vm_compute. reflexivity.
Defined.

Lemma thrown_errors_are_expected_witness :
  step_error Z_to_string Z_truthy sample_snapshot
    (CreateEntity "missing-id" (sample_input None None)) (@fresh_process Z "/data")
  = Some (Error "Project missing-id not found")
  /\ expected_error (Error "Project missing-id not found").
Proof.
  assert (H : step_error Z_to_string Z_truthy sample_snapshot
                (CreateEntity "missing-id" (sample_input None None)) (@fresh_process Z "/data")
              = Some (Error "Project missing-id not found"))
    by (vm_compute; reflexivity).
  split; [exact H|].
  exact (thrown_errors_are_expected Z_to_string Z_truthy sample_snapshot _ _ _ H).
Defined.

Lemma ids_name_files_along_runs_witness :
  exists projects,
    result (listProjects
              (run Z_to_string Z_truthy sample_snapshot
                 [CreateProject "Demo" None None; UpdateProject (@project_b)]
                 (@fresh_process Z "/data")))
    = Return projects
    /\ forall p, p ∈ projects ->
         result (getProject (project_id p)
                   (run Z_to_string Z_truthy sample_snapshot
                      [CreateProject "Demo" None None; UpdateProject (@project_b)]
                      (@fresh_process Z "/data")))
         = Return (Some p).
Proof.
  exact (proj2 (proj2 (ids_name_files_along_runs Z_to_string Z_truthy sample_snapshot
                         [CreateProject "Demo" None None; UpdateProject (@project_b)]
                         (@fresh_process Z "/data") (fresh_process_well_kept "/data")))).
Defined.

Lemma listProjects_ties_keep_scan_order_witness :
  cache_sound (@scan_world Z)
  /\ exists projects,
       result (listProjects (@scan_world Z)) = Return projects
       /\ filter (fun p => project_updatedAt p = 2000) projects
          = filter (fun p => project_updatedAt p = 2000) (parsable_projects (@scan_world Z)).
Proof.
  assert (Hs : cache_sound (@scan_world Z)).
  { intros root Hi. vm_compute in Hi. discriminate Hi. }
  split; [exact Hs|].
  exact (listProjects_ties_keep_scan_order scan_world 2000 Hs).
Defined.

Lemma generateId_collisions_witness :
  result (generateId (@fresh_process Z "/data"))
  <> result (generateId (after (generateId (@fresh_process Z "/data")))).
Proof.
  intros H.
  apply (generateId_collisions (@fresh_process Z "/data")
           (after (generateId (@fresh_process Z "/data")))) in H.
  - destruct H as [Hc _]. vm_compute in Hc. discriminate Hc.
  - vm_compute. discriminate.
  - vm_compute. discriminate.
Defined.

Lemma export_markdown_entity_titles_witness :
  exists md,
    result (exportProjectToMarkdown Z_to_string Z_truthy "p1"
              (two_entity_world (Some 50) (Some 30))) = Return md
    /\ contains md ("## Conversion Funnel: Test Funnel" +:+ nl +:+ nl).
Proof.
  assert (HP : result (getProject "p1" (@two_entity_world Z (Some 50) (Some 30)))
               = Return (Some two_entity_project))
    by (vm_compute; reflexivity).
  assert (Hl : result (listEntitiesByProject "p1" (@two_entity_world Z (Some 50) (Some 30)))
               = Return [sample_entity "e1" "p1" (Some 50) (Some 30);
                         sample_entity "e2" "p1" None None])
    by (vm_compute; reflexivity).
  destruct (export_markdown_entity_titles Z_to_string Z_truthy _ _ _ _ HP Hl) as (md & E & H).
  exists md. split; [exact E|].
  apply (H (sample_entity "e1" "p1" (Some 50) (Some 30))). apply list_elem_of_here.
Defined.

Lemma export_numbers_by_presence_or_truth_witness :
  contains
    (format_conversion Z_to_string Z_truthy
       (mkConversionFunnel "Checkout" None [sample_stage "Cart" (Some 0)] None None None))
    ("**Conversion Rate:** " +:+ "0" +:+ "%" +:+ nl).
Proof.
  apply (proj1 (proj2 (export_numbers_by_presence_or_truth Z_to_string Z_truthy
                         (mkConversionFunnel "Checkout" None [sample_stage "Cart" (Some 0)]
                            None None None)))
           (sample_stage "Cart" (Some 0)) 0).
  - apply list_elem_of_here.
  - reflexivity.
Defined.

Lemma updateProjectTool_merges_witness :
  exists P' w',
    updateProjectTool (mkUpdateProjectArgs "p1" (Some "Renamed") None None)
      (@two_entity_world Z None None) = (Return P', w')
    /\ project_name P' = "Renamed"
    /\ project_entities P' = project_entities two_entity_project.
Proof.
  destruct (proj2 (updateProjectTool_merges (@two_entity_world Z None None)
                     (mkUpdateProjectArgs "p1" (Some "Renamed") None None))
              two_entity_project true)
    as (P' & w' & E & _ & _ & _ & He & Hname & _).
  - vm_compute. reflexivity.
  - reflexivity.
  - exists P', w'. split; [exact E|]. split; [exact Hname|exact He].
Defined.

Lemma getProjectTool_agrees_witness :
  result (getProjectTool "missing-id" (@one_project_world Z)) = Return None.
Proof.
  apply (proj1 (getProjectTool_agrees (@one_project_world Z) "missing-id")).
  vm_compute. reflexivity.
Defined.

Lemma deletion_tools_report_witness :
  result (deleteProjectTool "missing-id" (@one_project_world Z))
  = Return (mkToolStatus false "Project missing-id not found")
  /\ result (deleteEntityTool "missing-id" (@one_project_world Z))
     = Return (mkToolStatus false "Entity missing-id not found")
  /\ result (deleteEntityTool "e1" (@two_entity_world Z None None))
     = Return (mkToolStatus true "Entity e1 deleted")
  /\ result (deleteProjectTool "p1" (set_schedule alternating (@two_entity_world Z None None)))
     = Return (mkToolStatus true "Project p1 and all its entities deleted")
  /\ result (deleteProjectTool "p1" (@racing_world Z))
     = Throw (StorageError "Failed to read project p1" READ_FAILED (SyntaxError "")).
Proof.
  split; [|split; [|split; [|split]]].
  - apply (proj1 (deletion_tools_report (@one_project_world Z)) "missing-id").
    vm_compute. reflexivity.
  - apply (proj1 (proj2 (deletion_tools_report (@one_project_world Z))) "missing-id").
    vm_compute. reflexivity.
  - apply (proj1 (proj2 (proj2 (deletion_tools_report (@two_entity_world Z None None))))
             "e1" (sample_entity "e1" "p1" None None)).
    + vm_compute. reflexivity.
    + intros n Hn. vm_compute in Hn. injection Hn as <-.
      exists two_entity_project, true. split; reflexivity.
  - apply (proj1 (proj2 (proj2 (proj2
             (deletion_tools_report (set_schedule alternating (@two_entity_world Z None None))))))
             "p1").
    vm_compute. reflexivity.
  - apply (proj2 (proj2 (proj2 (proj2 (deletion_tools_report (@racing_world Z))))) "p1").
    vm_compute. reflexivity.
Defined.

Lemma created_entity_is_listed_by_kind_witness :
  exists e w',
    createConversionFunnel "p1"
      (mkConversionFunnel "Checkout" None [sample_stage "Cart" (Some 40)] None None None)
      (@one_project_world Z) = (Return e, w')
    /\ (exists listing,
          result (listConversionFunnels "p1" w') = Return listing /\ e ∈ listing).
Proof.
  destruct (created_entity_is_listed_by_kind (@one_project_world Z) "p1"
              (sample_project "p1" "Demo" 1000 1000 []) true
              (VConversion
                 (mkConversionFunnel "Checkout" None [sample_stage "Cart" (Some 40)]
                    None None None)))
    as (e & w' & E & _ & Hk).
  - intros root Hi. vm_compute in Hi. discriminate Hi.
  - vm_compute. reflexivity.
  - reflexivity.
  - intros H. vm_compute in H. discriminate H.
  - intros ref Hin. cbn in Hin. now apply elem_of_nil in Hin.
  - exists e, w'. split; [exact E|].
    destruct (Hk conversion_funnel) as (listing & Hl & Hin).
    exists listing. split; [exact Hl|]. now apply Hin.
Defined.

Lemma referential_integrity_along_runs_witness :
  let w := set_schedule alternating (@fresh_process Z "/data") in
  let ops := [CreateProject "Demo" None None;
              CreateEntity "1700000000000-k3x9q2m" (sample_input (Some 50) None);
              CreateEntity "1700000000000-k3x9q2m" (sample_input None None);
              ListProjects] in
  map ref_id
    (default [] (project_entities <$>
       stored_project (run Z_to_string Z_truthy sample_snapshot ops w) "1700000000000-k3x9q2m"))
  = ["1700000000003-k3x9q2m"; "1700000000007-k3x9q2m"]
  /\ result (deleteProject "1700000000000-k3x9q2m"
               (run Z_to_string Z_truthy sample_snapshot ops w)) = Return true
  /\ consistent
       (run Z_to_string Z_truthy sample_snapshot
          (ops ++ [DeleteProject "1700000000000-k3x9q2m"]) w).
Proof.
  cbv zeta.
  split; [vm_compute; reflexivity|]. split; [vm_compute; reflexivity|].
  assert (Hfresh : ids_stay_fresh Z_to_string Z_truthy sample_snapshot
                     [CreateProject "Demo" None None;
                      CreateEntity "1700000000000-k3x9q2m" (sample_input (Some 50) None);
                      CreateEntity "1700000000000-k3x9q2m" (sample_input None None);
                      ListProjects;
                      DeleteProject "1700000000000-k3x9q2m"]
                     (set_schedule alternating (@fresh_process Z "/data"))).
  { cbn [ids_stay_fresh draws_fresh_id].
    split; [vm_compute; reflexivity|].
    split; [vm_compute; reflexivity|].
    split; [vm_compute; reflexivity|].
    split; [exact I|]. split; [exact I|exact I]. }
  assert (Hops : Forall (@keeps_references Z)
                   [CreateProject "Demo" None None;
                    CreateEntity "1700000000000-k3x9q2m" (sample_input (Some 50) None);
                    CreateEntity "1700000000000-k3x9q2m" (sample_input None None);
                    ListProjects;
                    DeleteProject "1700000000000-k3x9q2m"])
    by (repeat constructor).
  assert (Hfulfilled : cascades_fulfilled Z_to_string Z_truthy sample_snapshot
                         [CreateProject "Demo" None None;
                          CreateEntity "1700000000000-k3x9q2m" (sample_input (Some 50) None);
                          CreateEntity "1700000000000-k3x9q2m" (sample_input None None);
                          ListProjects;
                          DeleteProject "1700000000000-k3x9q2m"]
                         (set_schedule alternating (@fresh_process Z "/data"))).
  { cbn [cascades_fulfilled cascade_fulfilled].
    split; [exact I|]. split; [exact I|]. split; [exact I|]. split; [exact I|].
    split; [|exact I].
    intros e He. vm_compute in He. discriminate He. }
  exact (proj1 (referential_integrity_along_runs Z_to_string Z_truthy sample_snapshot _ _
                  (fresh_process_well_kept "/data") (fresh_process_consistent "/data")
                  Hops Hfresh Hfulfilled)).
Defined.

(** A cascade whose calls overlap can break the references: in
    [three_entity_world] the references and the entity files match, and
    after [deleteProject] the project is still stored and lists the
    entity [e1], whose file is gone. *)
Example cascade_breaks_references :
  consistent (@three_entity_world Z)
  /\ result (deleteProject "p1" (@three_entity_world Z))
     = Throw (StorageError "Failed to read project p1" READ_FAILED (SyntaxError ""))
  /\ ~ consistent (after (deleteProject "p1" (@three_entity_world Z))).
Proof.
  assert (Hp : forall pid n,
            project_node (@three_entity_world Z) pid = Some n ->
            pid = "p1" /\ n = RegularFile (Json three_entity_project) true).
  { intros pid n. unfold project_node.
    replace (project_dir (@three_entity_world Z))
      with (Some ({[ "p1.json" := RegularFile (Json three_entity_project) true ]}
                    : gmap string (FileNode Project)))
      by (vm_compute; reflexivity).
    intros [Hk <-]%lookup_singleton_Some. split; [|reflexivity].
    symmetry. now apply json_file_inj. }
  assert (He : forall eid n,
            entity_node (@three_entity_world Z) eid = Some n ->
            n = RegularFile (Json (sample_entity eid "p1" None None)) true
            /\ (eid = "e1" \/ eid = "e2" \/ eid = "e3")).
  { intros eid n. unfold entity_node.
    replace (entity_dir (@three_entity_world Z))
      with (Some ({[ "e1.json" := RegularFile (Json (@sample_entity Z "e1" "p1" None None)) true;
                     "e2.json" := RegularFile (Json (@sample_entity Z "e2" "p1" None None)) true;
                     "e3.json" := RegularFile (Json (@sample_entity Z "e3" "p1" None None)) true ]}
                    : gmap string (FileNode (@Entity Z))))
      by (vm_compute; reflexivity).
    intros H.
    apply lookup_insert_Some in H as [[Hk <-]|[_ H]].
    { apply (json_file_inj "e1") in Hk. subst eid. auto. }
    apply lookup_insert_Some in H as [[Hk <-]|[_ H]].
    { apply (json_file_inj "e2") in Hk. subst eid. auto. }
    apply lookup_singleton_Some in H as [Hk <-].
    apply (json_file_inj "e3") in Hk. subst eid. auto. }
  split; [|split].
  - split.
    + intros pid n Hn. destruct (Hp pid n Hn) as [-> ->].
      exists three_entity_project. split; [reflexivity|]. split; [reflexivity|]. split.
      * cbn. repeat (apply NoDup_cons; split; [rewrite ?elem_of_cons, elem_of_nil;
          intros H; repeat destruct H as [H|H]; discriminate || exact H|]). apply NoDup_nil_2.
      * intros ref Hin. cbn in Hin. rewrite !elem_of_cons, elem_of_nil in Hin.
        destruct Hin as [->|[->|[->|Hf]]]; [| | |destruct Hf];
          eexists; (split; [vm_compute; reflexivity|]); split; reflexivity.
    + intros eid n Hn. destruct (He eid n Hn) as [-> Hid].
      exists (sample_entity eid "p1" None None), three_entity_project.
      split; [reflexivity|]. split; [vm_compute; reflexivity|].
      cbn. rewrite !elem_of_cons.
      destruct Hid as [-> | [-> | ->]]; auto.
  - vm_compute. reflexivity.
  - intros [Hr _].
    destruct (Hr "p1" (RegularFile
                         (Json (sample_project "p1" "Demo" 1000 1700000000001
                                  [mkRef "e1" conversion_funnel;
                                   mkRef "e3" conversion_funnel])) true))
      as (P & HP & _ & _ & Hrefs); [vm_compute; reflexivity|].
    injection HP as <-.
    destruct (Hrefs (mkRef "e1" conversion_funnel)) as (e & Hn & _);
      [apply list_elem_of_here|].
    vm_compute in Hn. discriminate Hn.
Qed.

(** The raw [updateProject] stores the references it is given: it can
    leave a reference to an entity that is not stored. *)
Example raw_update_can_break_integrity :
  consistent (@one_project_world Z)
  /\ ~ consistent
        (step Z_to_string Z_truthy sample_snapshot
           (UpdateProject (sample_project "p1" "Demo" 1000 1000 [mkRef "nope" aida_funnel]))
           (@one_project_world Z)).
Proof.
  split.
  - split.
    + intros pid n H.
      destruct (decide (pid = "p1")) as [->|Hne].
      * vm_compute in H. injection H as <-. eexists. split; [reflexivity|].
        split; [reflexivity|]. split; [constructor|].
        intros ref Hin. now apply elem_of_nil in Hin.
      * unfold project_node, project_dir, one_project_world, process_at in H. cbn in H.
        rewrite lookup_singleton_eq in H. rewrite lookup_singleton_ne in H; [discriminate|].
        intros Heq. apply Hne. symmetry. now apply json_file_inj.
    + intros eid n H. unfold entity_node, entity_dir, one_project_world, process_at in H.
      cbn in H. rewrite lookup_singleton_eq in H. now rewrite lookup_empty in H.
  - intros [Hr _].
    assert (Hn : project_node
                   (step Z_to_string Z_truthy sample_snapshot
                      (UpdateProject
                         (sample_project "p1" "Demo" 1000 1000 [mkRef "nope" aida_funnel]))
                      (@one_project_world Z)) "p1"
                 = Some (RegularFile
                           (Json (sample_project "p1" "Demo" 1000 1700000000000
                                    [mkRef "nope" aida_funnel])) true))
      by (vm_compute; reflexivity).
    destruct (Hr "p1" _ Hn) as (P & HP & _ & _ & Hrefs).
    injection HP as <-.
    destruct (Hrefs (mkRef "nope" aida_funnel)) as (e & He & _).
    + apply list_elem_of_here.
    + vm_compute in He. discriminate He.
Qed.

Lemma openai_runtime_key_precedence_witness :
  getOpenAIClient (snd (configureOpenAI "sk-runtime" (mkOpenAIConfig None (Some "sk-env"))))
  = inr (mkOpenAIClient "sk-runtime")
  /\ source (checkOpenAIConfig
               (snd (configureOpenAI "sk-runtime" (mkOpenAIConfig None (Some "sk-env")))))
     = Some "environment".
Proof.
  destruct (openai_runtime_key_precedence (mkOpenAIConfig None (Some "sk-env")) "sk-runtime")
    as (_ & Hc & _ & Hs).
  - discriminate.
  - split; [exact Hc|exact Hs].
Defined.

Lemma openai_configuration_report_witness :
  success (fst (configureOpenAI "" (mkOpenAIConfig None None))) = true
  /\ configured (checkOpenAIConfig (snd (configureOpenAI "" (mkOpenAIConfig None None))))
     = false.
Proof.
  destruct (openai_configuration_report (mkOpenAIConfig None None)) as (_ & _ & _ & Hs & He).
  split; [apply Hs|]. apply He. reflexivity.
Defined.

Lemma corrupt_entity_fails_the_project_witness :
  let w := set_schedule (fun _ => [2; 2; 1; 1]%nat) (@corrupt_world Z) in
  result (listEntitiesByProject "p1" w)
  = Throw (StorageError "Failed to read entity e2" READ_FAILED (SyntaxError "{ not json"))
  /\ result (listEntitiesByProject_gathered "p1" w)
     = Throw (StorageError "Failed to read entity e2" READ_FAILED (SyntaxError "{ not json"))
  /\ result (exportProjectToMarkdown Z_to_string Z_truthy "p1" w)
     = Throw (StorageError "Failed to read entity e2" READ_FAILED (SyntaxError "{ not json")).
Proof.
  intros w.
  assert (Hok : forall id,
            entity_node w id = Some (RegularFile (Json (sample_entity id "p1" None None)) true) ->
            entity_file_ok w id).
  { intros id Hid n Hn. rewrite Hid in Hn. injection Hn as <-. eexists. eexists. reflexivity. }
  destruct (corrupt_entity_fails_the_project Z_to_string Z_truthy sample_snapshot
              w "p1" three_entity_project true
              [mkRef "e1" conversion_funnel] [mkRef "e3" conversion_funnel]
              (mkRef "e2" conversion_funnel) "{ not json" true)
    as (_ & Hlist & Hgathered & _ & _ & _ & Hmarkdown).
  - vm_compute. reflexivity.
  - reflexivity.
  - intros r Hin. apply list_elem_of_singleton in Hin. subst r.
    apply Hok. vm_compute. reflexivity.
  - intros r Hin. apply list_elem_of_singleton in Hin. subst r.
    apply Hok. vm_compute. reflexivity.
  - vm_compute. reflexivity.
  - split; [exact Hlist|]. split; [exact Hgathered|exact Hmarkdown].
Defined.

Lemma withRetry_attempts_witness :
  exists k w',
    Z.of_nat k <= 3
    /\ withRetry Z.add Z.mul Z.min 0 pretty (mkRetryConfig 3 1000 30000 2)
         (sample_retry_world 0)
       = (sample_responses k, w')
    /\ calls w' = S k.
Proof.
  destruct (proj2 (withRetry_attempts Z.add Z.mul Z.min 0 pretty (mkRetryConfig 3 1000 30000 2)
                     (sample_retry_world 0)))
    as (k & w' & Hk & E & _ & _ & Hc & _).
  - vm_compute. discriminate.
  - exists k, w'. split; [exact Hk|]. split; [exact E|exact Hc].
Defined.

Example withRetry_sample :
  let r := withRetry Z.add Z.mul Z.min 0 pretty (mkRetryConfig 3 1000 30000 2)
             (sample_retry_world 0) in
  fst r = inr "report"
  /\ calls (snd r) = 3%nat
  /\ sleeps (snd r) = [1000; 2000]
  /\ retry_console (snd r)
     = ["OpenAI request failed (attempt 1/4), retrying in 1000ms...";
        "OpenAI request failed (attempt 2/4), retrying in 2000ms..."].
Proof. vm_compute. repeat split; reflexivity. Qed.

Lemma executeDeepResearch_calls_witness :
  executeDeepResearch Z_truthy Z.add Z.mul Z.min 0 pretty 0 id None (mkOpenAIConfig None None)
    (mkRetryWorld (fun _ : nat => inr (mkApiResponse None None)) 0 (fun _ : nat => 0) 0 [] [])
  = (inl (ConfigFailure
            (mkOpenAIConfigError
               "OpenAI API key not configured. Set OPENAI_API_KEY environment variable or use configure_openai tool."
               API_KEY_MISSING)),
     mkRetryWorld (fun _ : nat => inr (mkApiResponse None None)) 0 (fun _ : nat => 0) 0 [] []).
Proof.
  apply (proj1 (executeDeepResearch_calls Z_truthy Z.add Z.mul Z.min 0 pretty 0 id None
                  (mkOpenAIConfig None None)
                  (mkRetryWorld (fun _ : nat => inr (mkApiResponse None None)) 0
                     (fun _ : nat => 0) 0 [] []))).
  reflexivity.
Defined.

(** Three raw citations, the third with the address of the first: the
    result has the first and the second, in that order, with one access
    time. *)
Example processCitations_sample :
  result (processCitations pretty
            [mkRawCitation "First" "https://a.example" 0 5;
             mkRawCitation "Other" "https://b.example" 6 9;
             mkRawCitation "Again" "https://a.example" 10 15]
            (@fresh_process Z "/data"))
  = Return [mkCitation "cit-1700000000001-k3x9q" "First" "https://a.example" "1700000000000" [];
            mkCitation "cit-1700000000002-k3x9q" "Other" "https://b.example" "1700000000000" []].
Proof. vm_compute. reflexivity. Qed.

Lemma research_result_collects_witness :
  let r := research_result Z_truthy Z.add 0 (sample_response 0 7 120) in
  research_content r = "Funnels convert."
  /\ research_citations r
     = [mkRawCitation "Untitled" "https://a.example" 0 7;
        mkRawCitation "Guide" "https://b.example" 0 7]
  /\ inputTokens (research_usage r) = 120
  /\ outputTokens (research_usage r) = 0
  /\ totalTokens (research_usage r) = 120
  /\ inputTokens (research_usage
                    (research_result Z_truthy Z.add 0
                       (mkApiResponse None (Some (mkApiUsage (Some 0) (Some 35))))))
     = 0.
Proof.
  intros r.
  destruct (research_result_collects Z_truthy Z.add 0 (sample_response 0 7 120))
    as (Hcontent & Hcitations & _ & _ & _ & Husage & Htotal).
  destruct (Husage (mkApiUsage (Some 120) None) eq_refl) as (Hin & _ & _ & _ & _ & Hout).
  destruct (research_result_collects Z_truthy Z.add 0
              (mkApiResponse None (Some (mkApiUsage (Some 0) (Some 35)))))
    as (_ & _ & _ & _ & _ & Hfalsy & _).
  destruct (Hfalsy (mkApiUsage (Some 0) (Some 35)) eq_refl) as (_ & Hzero & _).
  subst r.
  split; [rewrite Hcontent; reflexivity|].
  split; [rewrite Hcitations; reflexivity|].
  split; [exact (Hin 120 eq_refl eq_refl)|].
  split; [exact (Hout eq_refl)|].
  split; [rewrite Htotal, (Hin 120 eq_refl eq_refl), (Hout eq_refl); reflexivity|].
  exact (Hzero 0 eq_refl eq_refl).
Defined.

Lemma createProject_is_listed_witness :
  exists P w' after_,
    createProject "Fourth" None None (@scan_world Z) = (Return P, w')
    /\ result (listProjects w') = Return after_
    /\ P ∈ after_.
Proof.
  destruct (createProject_is_listed (@scan_world Z) "Fourth" None None)
    as (P & w' & before & after_ & E & _ & Hl & Hp).
  - intros root Hi. vm_compute in Hi. discriminate Hi.
  - vm_compute. reflexivity.
  - exists P, w', after_. split; [exact E|]. split; [exact Hl|].
    rewrite Hp. apply list_elem_of_here.
Defined.

Lemma stores_are_isolated_by_root_witness :
  exists P w1,
    createProject "Demo" None None (@fresh_process Z "/data") = (Return P, w1)
    /\ result (getProject (project_id P) (set_env (Some "/other") w1)) = Return None.
Proof.
  destruct (stores_are_isolated_by_root (@fresh_process Z "/data") "/other" "Demo" None None)
    as (P & w1 & E & Hn & _).
  - intros root Hi. vm_compute in Hi. discriminate Hi.
  - vm_compute. reflexivity.
  - discriminate.
  - vm_compute. discriminate.
  - vm_compute. reflexivity.
  - exists P, w1. split; [exact E|exact Hn].
Defined.
